(* ===== verification/_CoqProject ===== *)
-Q . S2P
Prelude.v
GoStd.v
GoFloat.v
GoUrl.v
Effects.v
TunnelServer.v
TunnelRun.v
TunnelClient.v
Gateway.v
Api.v
Heap.v
DeepCopy.v
DeepCopyTheorems.v
World.v
Samples.v
Resources.v
Common.v
Lifecycle.v
JobController.v
ContainerController.v
ContainerTunnel.v
HostController.v
DeploymentController.v
ServiceController.v
MockDocker.v
CommonTheorems.v
HostTheorems.v
Creation.v
ContainerTheorems.v
Convergence.v
JobTheorems.v
JobTypes.v
JobSystem.v
JobOutcome.v
DeploymentTheorems.v
ServiceTheorems.v
Main.v
TunnelPath.v
