(* ===== verification/Prelude.v ===== *)
(** * Verification of k8s-docker-operator

    The operator lets Kubernetes objects drive remote Docker hosts.  One binary
    (src/cmd/manager/main.go) runs either the controller manager or, as [tunnel], one of the
    three ends of a TCP tunnel:
    - five controllers, each a [Reconcile] called whenever its object changes: DockerContainer,
      DockerJob, DockerHost, DockerDeployment (which creates DockerContainers) and DockerService
      (which exposes containers through a tunnel), in src/internal/controller/;
    - the tunnel server runs in the cluster: it accepts TCP connections and websocket sessions,
      and sends each connection to a target through a session; the tunnel client runs as a
      container on the Docker host, connects to the server (through the gateway, a reverse proxy)
      and dials the targets; in src/internal/tunnel/.
    The controllers meet the tunnel in the arguments, URLs and target lists the DockerService
    controller writes for its two ends.

    ** How the code is modelled

    Code that calls out of the program (API server, Docker daemon, network, clock, random
    numbers, environment, the order of a Go map) is a tree of those calls with the answers left
    open (Effects.v: [prog]).  [wp R p Q] holds when every run of [p] whose answers satisfy [R]
    ends with a trace and an outcome in [Q]; [guarded] does the same for a monitor that reads the
    trace as a state machine; [exec]/[sat] run a program in a world that may answer in several
    ways; [run] runs it in one that answers in one way.  A panic is an outcome, an error a value
    ([res]).  Objects a handler mutates through a pointer are passed along; where sharing is the
    point, the deep copies, there is a heap (Heap.v).  State shared between goroutines is a record
    changed by critical sections, and a step relation interleaves them.  intN values are [Z] with
    the wrap-around written out ([Int.int32], [Int.int64], [Int.uint64]), strings are byte strings.

    ** The files

    - Prelude.v: results, tactics, hint database [go], list lemmas.
    - GoStd.v, GoFloat.v, GoUrl.v: what the code uses of Go's library: machine integers, strings,
      strconv, sort, time, query strings; float64 and durations; url.Parse.
    - Effects.v: programs, their logics, monitors, loops.
    - TunnelServer.v (server.go): [Server]; [pick], [register], [unregister], [push],
      [loadTargetsFromFile] are its critical sections, [handleTCP], [handleWS], [handleReload] the
      handlers around them, [step] the running server, in which a session closes on its own and
      its handler notices later.  TunnelRun.v: [Start], [acceptTCP], [watchTargetsFile].
    - TunnelClient.v (client.go, conn.go): [Start], [connectAndServe], [handleStream];
      [Read] and [Write] of WebSocketConn.
    - Gateway.v (gateway.go): [Director].
    - Api.v (src/api/v1alpha1 types): one record per struct.  Heap.v, DeepCopy.v,
      DeepCopyTheorems.v (deepcopy.go, zz_generated.deepcopy.go): the same structs with references
      into a heap, and every DeepCopyInto, DeepCopy and DeepCopyObject.
    - World.v: the calls of the controllers and their answers; [ThirdParty] has the pure functions
      of libraries, [ThirdPartyLaws] what is documented of them.  Samples.v: an instance, and
      objects for the witnesses.
    - Resources.v: memory and CPU limits, both copies of the parser.
    - Common.v (common/utils.go and the functions the controllers carry copies of): secrets,
      registry credentials, environment, secret upload, the Docker client cache.
    - JobController.v (dockerjob/reconciler.go), ContainerController.v and ContainerTunnel.v
      (dockercontainer/reconciler.go, logs.go), HostController.v (dockerhost/reconciler.go),
      DeploymentController.v (dockerdeployment/controller.go), ServiceController.v
      (dockerservice/reconciler.go): one definition per function of the code, [Reconcile] last.
    - MockDocker.v (common/mock_client.go): the daemon of the unit tests as a state and one
      function per method.
    - Lifecycle.v: the monitor of a container's creation, shared by two controllers.  Creation.v:
      the contract [brings_up] of the DockerContainer controller's createAndStartContainer, which
      the theorem about a sync uses in place of its code.
    - Main.v (cmd/manager/main.go): flags, the tunnel subcommand, the manager's set-up.
    - The other files hold theorems: CommonTheorems.v, HostTheorems.v, ContainerTheorems.v,
      Convergence.v, JobTheorems.v, JobTypes.v, JobSystem.v, JobOutcome.v, DeploymentTheorems.v,
      ServiceTheorems.v, TunnelPath.v.

    ** What the theorems show

    - DockerContainer: nothing changes on a host without the finalizer, and deletion removes the
      container and its tunnels before the finalizer ([container_finalizer_protocol]); a sync
      writes what it observed and does exactly what bringing up, starting or repairing the
      container takes ([sync_observes_and_repairs], [needsRecreate_drift]); creation goes through pull, create,
      upload, start ([container_start_order]) and does not cause another recreation
      ([created_is_stable]); against the daemon of the tests two reconciles reach a state that
      later ones keep ([container_converges]).
    - DockerJob: statuses tell what happened ([syncJob_truthful]) and are well formed
      ([job_status_wf]); the finalizer protocol, with its single attempt to remove the container;
      deadline and TTL.  In the transition system of JobSystem.v, where any call may fail and the
      daemon restarts what its policy tells it to, the controller makes at most backoffLimit + 1
      starts plus one for each event it does not find out about ([retries_bounded]); when nothing
      fails and Docker is told not to restart, the job ends as the exit codes of its containers
      say ([job_outcome]).
    - DockerDeployment: exact scaling and counting ([replicas_exact]), and the panic of a negative
      replica count.
    - DockerService: the target list is written and pushed to the server ([targets_delivered]),
      Active is truthful, deletion tries every host of a selected container
      ([service_deletion]); with main and the gateway, the client is authenticated by the
      server exactly with its token ([tunnel_authenticates]) and both ends read the arguments they
      are given ([tunnel_args_read]).
    - Tunnel: the registry holds exactly the sessions whose handlers are waiting on them, every
      open one among them ([registry_exact]); a connection goes to a registered session and a
      configured target, and is dropped exactly when there is none or a call fails ([pick_sound]);
      round robin is fair, pushes survive file polls for two minutes and then the file
      wins; handlers close what they open; the target header round-trips; header reading is
      bounded; Read is the byte stream of the messages.
    - Helpers: Docker clients are opened as the DockerHost says, the local daemon is used only for
      the name "default" ([client_as_configured]), clients are cached under the key that is looked
      up; uploads copy the secret; memory and CPU limits; host status; deep copies are isolated
      ([deepcopy_isolated]) but for one ([service_selector_shared]).

    ** Fuel and bounds

    [handleStream] returns [None] when its header loop runs out of fuel; [header_fuel] = 257, the
    most reads the loop can make, is enough, and so is more ([handleStream_bounded]).  [Read] needs
    two rounds more than there are pending messages, and [read_is_stream] says that is enough.
    [accept_loop], [Start] of the client, [acceptTCP] and [watchTargetsFile] are endless in the
    code: their fuel or rounds are the length of the run looked at, and the theorems are about
    every length.

    ** Not modelled

    SetupWithManager of the controllers and the scheme (registration with controller-runtime), log
    lines, contexts and their cancellation, deadlines and keep-alive of sockets, the ping
    goroutine of NewWebSocketConn, the proxying behind the gateway's director, HTTP routing, the
    parsing of the manager's own flags, TypeMeta, the reading of YAML.  The answers of the API
    server, of Docker, of yamux, websocket, x509 and base64/JSON encoding are never computed: they
    are arbitrary, or restricted by a named hypothesis.  The job controller's copies of the shared
    helpers are the definitions of Common.v.  JobSystem.v takes a reconcile as one step (a container
    exits between reconciles), reads of the job as up to date, and its specification as fixed.  nil and empty slices and maps are not told apart in
    Api.v (the code does not). *)
From stdpp Require Export base list strings gmap sorting pretty fin_maps.
From stdpp Require Import options.
From Stdlib Require Export ZArith Lia Ascii.

(** ** Results: a value or a Go [error]

    An [error] value carries its text and the verdict of the library predicate
    the code asks of it ([errors.IsNotFound], [dockerclient.IsErrNotFound]). *)
Record go_error := MkError { err_Error : string; err_IsNotFound : bool }.

Inductive res (A : Type) : Type :=
| Ok (a : A)
| Err (e : go_error).
Global Arguments Ok {A} a.
Global Arguments Err {A} e.

(** [errors.New] / [fmt.Errorf] without [%w]: a fresh error. *)
Definition new_error (msg : string) : go_error := MkError msg false.

(** [fmt.Errorf("prefix: %w", err)]: the text is prefixed, the class is kept. *)
Definition wrap_error (pre : string) (e : go_error) : go_error :=
  MkError (pre +:+ ": " +:+ err_Error e) (err_IsNotFound e).

Definition is_ok {A} (r : res A) : bool := match r with Ok _ => true | Err _ => false end.

(** The call succeeded, or failed only because the object does not exist:
    [err == nil || IsErrNotFound(err)]. *)
Definition ok_or_not_found {A} (r : res A) : bool :=
  match r with Ok _ => true | Err e => err_IsNotFound e end.

#[global] Instance go_error_eq_dec : EqDecision go_error.
Proof. solve_decision. Defined.
#[global] Instance res_eq_dec {A} `{EqDecision A} : EqDecision (res A).
Proof. solve_decision. Defined.

(** ** Tactics of the development *)

(** Case analysis on every [match]/[if] of the goal, closing the absurd branches. *)
Ltac cases := repeat (case_match; simplify_eq/=; try done).

(** Introduce everything and split conjunctions of the context. *)
Ltac intro_all := intros; destruct_and?; simplify_eq/=.

(** Evaluate the powers of two of machine-integer bounds, in goal and context. *)
Ltac eval_pow2 :=
  repeat match goal with
  | |- context [(2 ^ ?n)%Z] => let v := eval vm_compute in (2 ^ n)%Z in change (2 ^ n)%Z with v
  | H : context [(2 ^ ?n)%Z] |- _ =>
      let v := eval vm_compute in (2 ^ n)%Z in change (2 ^ n)%Z with v in H
  end.

Create HintDb go discriminated.

(** ** List lemmas shared by the components *)
Section list_lemmas.
Context {A : Type}.
Implicit Types l : list A.

(** What precedes the first event satisfying [P]. *)
Lemma Forall_app_intro (P : A → Prop) l1 l2 :
  Forall P l1 → Forall P l2 → Forall P (l1 ++ l2).
Proof. intros. by apply Forall_app. Qed.

Lemma filter_nil_iff (P : A → Prop) `{∀ x, Decision (P x)} l :
  filter P l = [] ↔ Forall (λ x, ¬ P x) l.
Proof.
  induction l as [|x l IH]; [by split|].
  rewrite filter_cons. destruct (decide (P x)) as [HP|HP].
  - split; [done|]. by inversion 1.
  - rewrite IH. split; [by constructor|by inversion 1].
Qed.

Lemma forallb_to_Forall (f : A → bool) l : forallb f l = true → Forall (λ x, f x = true) l.
Proof. induction l as [|x l IH]; simpl; [done|]. intros [??]%andb_prop. auto. Qed.

Lemma omap_all_Some {B} (f : A → option B) l (l' : list B) :
  f <$> l = Some <$> l' → omap f l = l'.
Proof.
  revert l'. induction l as [|x l IH]; intros [|y l']; simpl; try done.
  intros [= Hx Hl]. rewrite Hx. f_equal. by apply IH.
Qed.

Lemma rotate_Permutation n l : rotate n l ≡ₚ l.
Proof. unfold rotate. rewrite Permutation_app_comm. by rewrite take_drop. Qed.
End list_lemmas.
#[export] Hint Resolve Forall_app_intro : go.
