(* ===== verification/GoStd.v ===== *)
(** * The part of the Go language and standard library the operator uses

    Machine integers with their wrap-around, [strings], [strconv], [fmt.Sscanf]
    with [%d], [sort.Strings], [net/url] query strings, and [time].  A Go
    string is a byte string ([String.string]); [strings.ToLower] is modelled on
    ASCII letters only (other bytes are left alone), everything else byte for
    byte. *)
From S2P Require Import Prelude.
Local Open Scope Z_scope.

(** ** Machine integers *)
Module Int.
(** The value an integer conversion or an overflowing operation leaves in a
    signed [w]-bit variable. *)
Definition wrap (w z : Z) : Z := (z + 2 ^ (w - 1)) mod 2 ^ w - 2 ^ (w - 1).
Definition int32 : Z → Z := wrap 32.
Definition int64 : Z → Z := wrap 64.
Definition uint64 (z : Z) : Z := z mod 2 ^ 64.

Definition in_int32 (z : Z) : Prop := - 2 ^ 31 ≤ z < 2 ^ 31.
Definition in_int64 (z : Z) : Prop := - 2 ^ 63 ≤ z < 2 ^ 63.

Lemma int32_range z : in_int32 (int32 z).
Proof. unfold in_int32, int32, wrap. eval_pow2. pose proof (Z.mod_pos_bound (z + 2147483648) 4294967296). lia. Qed.
Lemma int64_range z : in_int64 (int64 z).
Proof.
  unfold in_int64, int64, wrap. eval_pow2.
  pose proof (Z.mod_pos_bound (z + 9223372036854775808) 18446744073709551616). lia.
Qed.
Lemma int32_id z : in_int32 z → int32 z = z.
Proof. unfold in_int32, int32, wrap. eval_pow2. intros. rewrite Z.mod_small; lia. Qed.
Lemma int64_id z : in_int64 z → int64 z = z.
Proof. unfold in_int64, int64, wrap. eval_pow2. intros. rewrite Z.mod_small; lia. Qed.
Lemma uint64_id z : 0 ≤ z < 2 ^ 64 → uint64 z = z.
Proof. intros. by apply Z.mod_small. Qed.
End Int.
#[export] Hint Resolve Int.int32_range Int.int64_range : go.

(** ** [time]: instants in nanoseconds since the Unix epoch *)
Module Time.
Definition second : Z := 1000000000.
Definition minute : Z := 60 * second.
Definition max_duration : Z := 2 ^ 63 - 1.
Definition min_duration : Z := - 2 ^ 63.
(** The zero [time.Time], January 1 of year 1. *)
Definition zero : Z := - 62135596800 * second.
Definition IsZero (t : Z) : bool := t =? zero.
Definition Add (t d : Z) : Z := t + d.
Definition After (t u : Z) : bool := u <? t.
Definition Before (t u : Z) : bool := t <? u.
(** [Time.Sub] saturates. *)
Definition Sub (t u : Z) : Z := Z.max min_duration (Z.min max_duration (t - u)).
(** [time.Duration(n) * time.Second]: an int64 product. *)
Definition seconds (n : Z) : Z := Int.int64 (n * second).

Lemma seconds_id n : - 9223372036 ≤ n ≤ 9223372036 → seconds n = n * second.
Proof. intros. apply Int.int64_id. unfold Int.in_int64, second. eval_pow2. lia. Qed.
End Time.

(** Arithmetic stays folded when programs are unfolded. *)
#[global] Arguments Int.wrap : simpl never.
#[global] Arguments Int.int32 : simpl never.
#[global] Arguments Int.int64 : simpl never.
#[global] Arguments Time.seconds : simpl never.
#[global] Arguments Time.minute : simpl never.
#[global] Arguments Time.Add : simpl never.
#[global] Arguments Time.Sub : simpl never.
#[global] Arguments Time.After : simpl never.
#[global] Arguments Time.Before : simpl never.
#[global] Arguments Time.IsZero : simpl never.
#[global] Arguments pretty : simpl never.

(** ** Characters *)
Module Char.
Definition code (c : ascii) : Z := Z.of_N (N_of_ascii c).
Definition between (lo hi : Z) (c : ascii) : bool := (lo <=? code c) && (code c <=? hi).
Definition is_digit : ascii → bool := between 48 57.
Definition is_upper : ascii → bool := between 65 90.
Definition is_lower : ascii → bool := between 97 122.
Definition digit (c : ascii) : Z := code c - 48.
Definition of_code (z : Z) : ascii := ascii_of_N (Z.to_N z).
Definition to_lower (c : ascii) : ascii := if is_upper c then of_code (code c + 32) else c.

(** [unicode.IsSpace] on the UTF-8 encodings of one, two and three bytes. *)
Definition space1 (c : ascii) : bool := between 9 13 c || (code c =? 32).
Definition space2 (c1 c2 : ascii) : bool :=
  (code c1 =? 0xC2) && ((code c2 =? 0x85) || (code c2 =? 0xA0)).
Definition space3 (c1 c2 c3 : ascii) : bool :=
  ((code c1 =? 0xE1) && (code c2 =? 0x9A) && (code c3 =? 0x80))
  || ((code c1 =? 0xE2) && (code c2 =? 0x80)
      && (between 0x80 0x8A c3 || between 0xA8 0xA9 c3 || (code c3 =? 0xAF)))
  || ((code c1 =? 0xE2) && (code c2 =? 0x81) && (code c3 =? 0x9F))
  || ((code c1 =? 0xE3) && (code c2 =? 0x80) && (code c3 =? 0x80)).

Lemma code_range c : 0 ≤ code c < 256.
Proof. unfold code. pose proof (N_ascii_bounded c). lia. Qed.
Lemma of_code_code c : of_code (code c) = c.
Proof. unfold of_code, code. by rewrite N2Z.id, ascii_N_embedding. Qed.
End Char.

(** ** [strings] *)
Module Strings.
Import Char.
Abbreviation chars := String.list_ascii_of_string.
Abbreviation of_chars := String.string_of_list_ascii.

Definition ToLower (s : string) : string := of_chars (to_lower <$> chars s).

Fixpoint trim_left (l : list ascii) : list ascii :=
  match l with
  | [] => []
  | c1 :: r1 =>
      if space1 c1 then trim_left r1
      else match r1 with
           | [] => l
           | c2 :: r2 =>
               if space2 c1 c2 then trim_left r2
               else match r2 with
                    | [] => l
                    | c3 :: r3 => if space3 c1 c2 c3 then trim_left r3 else l
                    end
           end
  end.
(** The same on a reversed string: the last byte of a rune comes first. *)
Fixpoint trim_right_rev (l : list ascii) : list ascii :=
  match l with
  | [] => []
  | c1 :: r1 =>
      if space1 c1 then trim_right_rev r1
      else match r1 with
           | [] => l
           | c2 :: r2 =>
               if space2 c2 c1 then trim_right_rev r2
               else match r2 with
                    | [] => l
                    | c3 :: r3 => if space3 c3 c2 c1 then trim_right_rev r3 else l
                    end
           end
  end.
Definition TrimSpace (s : string) : string :=
  of_chars (rev (trim_right_rev (rev (trim_left (chars s))))).

(** [strings.Split(s, sep)] for a one-byte separator. *)
Fixpoint split_chars (sep : ascii) (acc l : list ascii) : list string :=
  match l with
  | [] => [of_chars (rev acc)]
  | c :: r =>
      if Ascii.eqb c sep then of_chars (rev acc) :: split_chars sep [] r
      else split_chars sep (c :: acc) r
  end.
Definition Split (s : string) (sep : ascii) : list string := split_chars sep [] (chars s).

Fixpoint Join (l : list string) (sep : string) : string :=
  match l with
  | [] => ""
  | [s] => s
  | s :: l' => s +:+ sep +:+ Join l' sep
  end.

Fixpoint strip_prefix (p l : list ascii) : option (list ascii) :=
  match p, l with
  | [], _ => Some l
  | x :: p', y :: l' => if Ascii.eqb x y then strip_prefix p' l' else None
  | _ :: _, [] => None
  end.
Definition strip_suffix (p l : list ascii) : option (list ascii) :=
  match strip_prefix (rev p) (rev l) with Some r => Some (rev r) | None => None end.
Definition HasPrefix (s p : string) : bool := bool_decide (is_Some (strip_prefix (chars p) (chars s))).
Definition TrimPrefix (s p : string) : string :=
  match strip_prefix (chars p) (chars s) with Some r => of_chars r | None => s end.
Definition HasSuffix (s p : string) : bool := bool_decide (is_Some (strip_suffix (chars p) (chars s))).
Definition TrimSuffix (s p : string) : string :=
  match strip_suffix (chars p) (chars s) with Some r => of_chars r | None => s end.
End Strings.

(** ** [strconv.ParseInt] and [fmt.Sscanf("%d")] *)
Module Strconv.
Import Char Strings.

Fixpoint digits_value (acc : Z) (l : list ascii) : option Z :=
  match l with
  | [] => Some acc
  | c :: r => if is_digit c then digits_value (acc * 10 + digit c) r else None
  end.
(** At least one digit, and nothing else. *)
Definition parse_digits (l : list ascii) : option Z :=
  match l with [] => None | _ => digits_value 0 l end.

Definition split_sign (l : list ascii) : bool * list ascii :=
  match l with
  | c :: r =>
      if Ascii.eqb c "-"%char then (true, r)
      else if Ascii.eqb c "+"%char then (false, r) else (false, l)
  | [] => (false, [])
  end.

(** [strconv.ParseInt(s, 10, 64)]; [None] is a syntax or a range error. *)
Definition parse_int_chars (l : list ascii) : option Z :=
  let '(neg, ds) := split_sign l in
  n ← parse_digits ds;
  let z := if neg : bool then - n else n in
  if ((- 2 ^ 63 <=? z) && (z <? 2 ^ 63))%Z then Some z else None.
Definition ParseInt (s : string) : option Z := parse_int_chars (chars s).

(** The blanks [fmt] skips before a number; a newline among them is an error. *)
Definition skip_space (l : list ascii) : option (list ascii) :=
  let r := trim_left l in
  if existsb (Ascii.eqb "010"%char) (take (length l - length r) l) then None else Some r.

Fixpoint take_while (f : ascii → bool) (l : list ascii) : list ascii :=
  match l with
  | c :: r => if f c then c :: take_while f r else []
  | [] => []
  end.

(** [fmt.Sscanf(s, "%d", &v)]: the longest prefix of the form
    [[+-]?[0-9]+], parsed as an int64; [None] leaves [v] alone. *)
Definition sscanf_d_chars (l : list ascii) : option Z :=
  let '(_, ds) := split_sign l in
  let sign := take (length l - length ds) l in
  parse_int_chars (sign ++ take_while is_digit ds).
Definition Sscanf_d (s : string) : option Z := l ← skip_space (chars s); sscanf_d_chars l.
End Strconv.

(** ** [net/url]: query strings *)
Module Url.
Import Char Strings.

(** Bytes [QueryEscape] leaves alone. *)
Definition unreserved (c : ascii) : bool :=
  is_digit c || is_upper c || is_lower c
  || (code c =? 45) || (code c =? 95) || (code c =? 46) || (code c =? 126).
Definition hex_digit (z : Z) : ascii := of_code (if z <? 10 then z + 48 else z + 55).
Definition unhex (c : ascii) : option Z :=
  if is_digit c then Some (code c - 48)
  else if between 65 70 c then Some (code c - 55)
  else if between 97 102 c then Some (code c - 87) else None.

Definition escape_char (c : ascii) : list ascii :=
  if unreserved c then [c]
  else if code c =? 32 then ["+"%char]
  else ["%"%char; hex_digit (code c / 16); hex_digit (code c mod 16)].
Definition QueryEscape (s : string) : string := of_chars (concat (escape_char <$> chars s)).

Fixpoint unescape_chars (l : list ascii) : option (list ascii) :=
  match l with
  | [] => Some []
  | c :: r =>
      if Ascii.eqb c "%"%char then
        match r with
        | h1 :: h2 :: r' =>
            x ← unhex h1; y ← unhex h2; t ← unescape_chars r'; Some (of_code (16 * x + y) :: t)
        | _ => None
        end
      else t ← unescape_chars r; Some ((if Ascii.eqb c "+"%char then " "%char else c) :: t)
  end.
Definition QueryUnescape (s : string) : option string := of_chars <$> unescape_chars (chars s).

(** [strings.Cut(s, sep)] without its [found] result. *)
Fixpoint cut_chars (sep : ascii) (l : list ascii) : list ascii * list ascii :=
  match l with
  | [] => ([], [])
  | c :: r => if Ascii.eqb c sep then ([], r) else let '(a, b) := cut_chars sep r in (c :: a, b)
  end.

(** [URL.Query()]: the pairs of the raw query that parse, in order. *)
Definition parse_pair (seg : string) : option (string * string) :=
  if existsb (Ascii.eqb ";"%char) (chars seg) then None
  else if String.eqb seg "" then None
  else let '(k, v) := cut_chars "="%char (chars seg) in
       k' ← unescape_chars k; v' ← unescape_chars v; Some (of_chars k', of_chars v').
Definition Query (raw : string) : list (string * string) :=
  omap parse_pair (Split raw "&"%char).
(** [Values.Get]: the first value of the key, or the empty string. *)
Fixpoint Get (q : list (string * string)) (key : string) : string :=
  match q with
  | [] => ""
  | (k, v) :: q' => if String.eqb k key then v else Get q' key
  end.
End Url.

(** ** [sort.Strings] *)
Module Sort.
Definition string_le (s t : string) : Prop := String.leb s t = true.
#[global] Instance string_le_dec : RelDecision string_le.
Proof. intros s t. unfold string_le. apply _. Defined.
Definition Strings (l : list string) : list string := merge_sort string_le l.
End Sort.

(** ** [encoding/hex] *)
Module Hex.
Import Strings.
Definition digit (z : Z) : ascii := Char.of_code (if (z <? 10)%Z then z + 48 else z + 87)%Z.
Definition EncodeToString (s : string) : string :=
  of_chars (concat ((λ c, [digit (Char.code c / 16); digit (Char.code c mod 16)]%Z) <$> chars s)).
End Hex.

(** ** [path/filepath] (Unix) *)
Module Filepath.
Import Strings.
(** One path element pushed on the reversed stack of cleaned elements. *)
Definition push_elem (rooted : bool) (stack : list string) (e : string) : list string :=
  if String.eqb e "" || String.eqb e "." then stack
  else if String.eqb e ".." then
    match stack with
    | top :: rest => if String.eqb top ".." then ".." :: stack else rest
    | [] => if rooted then [] else [".."]
    end
  else e :: stack.
Definition Clean (path : string) : string :=
  let rooted := HasPrefix path "/" in
  let elems := rev (foldl (push_elem rooted) [] (Split path "/"%char)) in
  let out := (if rooted then "/" else "") +:+ Join elems "/" in
  if String.eqb out "" then "." else out.
Definition JoinPath (elems : list string) : string :=
  match filter (λ e, e ≠ "") elems with
  | [] => ""
  | l => Clean (Join l "/")
  end.
End Filepath.

(** ** Lemmas *)
Section char_lemmas.
Import Char.
Local Open Scope Z_scope.

(** A property of every byte is checked by evaluation. *)
Lemma all_bytes (P : ascii → bool) :
  forallb (λ n, P (ascii_of_nat n)) (seq 0 256) = true → ∀ c, P c = true.
Proof.
  rewrite forallb_forall. intros H c. rewrite <- (ascii_nat_embedding c).
  apply H, in_seq. pose proof (nat_ascii_bounded c). lia.
Qed.

Lemma unescape_escape_char c l :
  Url.unescape_chars (Url.escape_char c ++ l) = (c ::.) <$> Url.unescape_chars l.
Proof.
  revert c l. unfold Url.escape_char.
  intros c l. destruct (Url.unreserved c) eqn:Hu.
  - simpl. rewrite (proj2 (Ascii.eqb_neq c "%"%char)), (proj2 (Ascii.eqb_neq c "+"%char));
      [by destruct (Url.unescape_chars l)|by intros ->..].
  - destruct (code c =? 32) eqn:Hs.
    + simpl. assert (c = " "%char) as ->.
      { rewrite <- (of_code_code c). apply Z.eqb_eq in Hs. by rewrite Hs. }
      by destruct (Url.unescape_chars l).
    + simpl.
      pose proof (all_bytes (λ c,
        match Url.unhex (Url.hex_digit (code c / 16)), Url.unhex (Url.hex_digit (code c mod 16)) with
        | Some x, Some y => Ascii.eqb (of_code (16 * x + y)) c
        | _, _ => false
        end) eq_refl c) as Hc. simpl in Hc.
      destruct (Url.unhex (Url.hex_digit (code c / 16))) as [x|]; [|done].
      destruct (Url.unhex (Url.hex_digit (code c mod 16))) as [y|]; [|done]. simpl.
      apply Ascii.eqb_eq in Hc. rewrite Hc. by destruct (Url.unescape_chars l).
Qed.

Lemma unescape_escape (l : list ascii) :
  Url.unescape_chars (concat (Url.escape_char <$> l)) = Some l.
Proof.
  induction l as [|c l IH]; [done|].
  rewrite fmap_cons. cbn [concat]. by rewrite unescape_escape_char, IH.
Qed.

(** The escaped text holds none of the separators of a query. *)
Definition separator (c : ascii) : bool :=
  Ascii.eqb c "&"%char || Ascii.eqb c ";"%char || Ascii.eqb c "="%char.
Lemma escape_no_separator (l : list ascii) :
  Forall (λ c, separator c = false) (concat (Url.escape_char <$> l)).
Proof.
  induction l as [|c l IH]; [constructor|].
  rewrite fmap_cons. cbn [concat]. apply Forall_app. split; [|done].
  apply (Forall_impl (λ c, negb (separator c) = true)); [|by intros ? ?%negb_true_iff].
  apply forallb_to_Forall.
  apply (all_bytes (λ c, forallb (λ c, negb (separator c)) (Url.escape_char c))).
  reflexivity.
Qed.
End char_lemmas.

Section string_lemmas.
Import Strings.

Lemma of_chars_chars s : of_chars (chars s) = s.
Proof. apply String.string_of_list_ascii_of_string. Qed.
Lemma chars_of_chars l : chars (of_chars l) = l.
Proof. apply String.list_ascii_of_string_of_list_ascii. Qed.
Lemma chars_app s t : chars (s +:+ t) = chars s ++ chars t.
Proof. induction s as [|c s IH]; simpl; [done|]. by f_equal. Qed.
Lemma chars_inj s t : chars s = chars t → s = t.
Proof. intros H. by rewrite <- (of_chars_chars s), <- (of_chars_chars t), H. Qed.
Lemma of_chars_app l1 l2 : of_chars (l1 ++ l2) = of_chars l1 +:+ of_chars l2.
Proof. apply chars_inj. by rewrite chars_app, !chars_of_chars. Qed.
Lemma length_chars s : length (chars s) = String.length s.
Proof. induction s; simpl; auto. Qed.

(** [strings.Split] at a separator. *)
Lemma split_chars_last sep acc l :
  sep ∉ l → split_chars sep acc l = [of_chars (rev acc ++ l)].
Proof.
  revert acc. induction l as [|c l IH]; intros acc Hl; simpl; [by rewrite app_nil_r|].
  rewrite (proj2 (Ascii.eqb_neq c sep)) by set_solver.
  rewrite IH by set_solver. simpl. by rewrite <- app_assoc.
Qed.
Lemma split_chars_sep sep acc l1 l2 :
  sep ∉ l1 → split_chars sep acc (l1 ++ sep :: l2) = of_chars (rev acc ++ l1) :: split_chars sep [] l2.
Proof.
  revert acc. induction l1 as [|c l1 IH]; intros acc Hl; simpl.
  - by rewrite Ascii.eqb_refl, app_nil_r.
  - rewrite (proj2 (Ascii.eqb_neq c sep)) by set_solver.
    rewrite IH by set_solver. simpl. by rewrite <- app_assoc.
Qed.

Lemma Split_no_sep s sep : sep ∉ chars s → Split s sep = [s].
Proof. intros. unfold Split. rewrite split_chars_last by done. simpl. by rewrite of_chars_chars. Qed.

Lemma Split_Join sep (l : list string) :
  l ≠ [] → Forall (λ s, sep ∉ chars s) l → Split (Join l (of_chars [sep])) sep = l.
Proof.
  unfold Split. induction l as [|s l IH]; [done|]. intros _ Hl. inversion Hl; subst.
  destruct l as [|s' l].
  - cbn [Join]. rewrite split_chars_last by done. simpl. by rewrite of_chars_chars.
  - change (Join (s :: s' :: l) (of_chars [sep])) with (s +:+ of_chars [sep] +:+ Join (s' :: l) (of_chars [sep])).
    rewrite !chars_app, chars_of_chars. cbn [app].
    rewrite split_chars_sep by done. rewrite IH by done. cbn [rev app]. by rewrite of_chars_chars.
Qed.

(** A parameter written with [QueryEscape] is read back by [URL.Query().Get]. *)
Lemma cut_chars_sep sep l1 l2 : sep ∉ l1 → Url.cut_chars sep (l1 ++ sep :: l2) = (l1, l2).
Proof.
  induction l1 as [|c l1 IH]; intros Hl; simpl; [by rewrite Ascii.eqb_refl|].
  rewrite (proj2 (Ascii.eqb_neq c sep)) by set_solver. by rewrite IH by set_solver.
Qed.

Lemma existsb_none (c : ascii) l : c ∉ l → existsb (Ascii.eqb c) l = false.
Proof.
  induction l as [|d l IH]; intros Hl; simpl; [done|].
  rewrite IH by set_solver. by rewrite (proj2 (Ascii.eqb_neq c d)) by set_solver.
Qed.

Lemma escape_not_in c s : separator c = true → c ∉ chars (Url.QueryEscape s).
Proof.
  intros Hc Hin. unfold Url.QueryEscape in Hin. rewrite chars_of_chars in Hin.
  pose proof (escape_no_separator (chars s)) as Hf. rewrite Forall_forall in Hf.
  specialize (Hf _ Hin). congruence.
Qed.

Lemma Query_Get_escaped (key v : string) :
  key ≠ "" → Forall (λ c, Url.unreserved c = true) (chars key) →
  Url.Get (Url.Query (key +:+ "=" +:+ Url.QueryEscape v)) key = v.
Proof.
  intros Hne Hkey.
  assert (∀ c, Url.unreserved c = false → c ∉ chars key) as Hnot.
  { intros c Hc Hin. rewrite Forall_forall in Hkey. specialize (Hkey _ Hin). congruence. }
  assert (Url.unescape_chars (chars key) = Some (chars key)) as Hunesc.
  { rewrite <- (unescape_escape (chars key)). f_equal. symmetry.
    clear Hne Hnot. induction Hkey as [|c l Hc _ IH]; [done|].
    rewrite fmap_cons. cbn [concat]. rewrite IH. unfold Url.escape_char. by rewrite Hc. }
  assert (∀ c, separator c = true → Url.unreserved c = false →
            c ≠ "="%char → c ∉ chars (key +:+ "=" +:+ Url.QueryEscape v)) as Hsep.
  { intros c Hc Hu Hne'. rewrite !chars_app. pose proof (escape_not_in c v Hc).
    pose proof (Hnot c Hu). rewrite !elem_of_app. simpl. rewrite list_elem_of_singleton. tauto. }
  unfold Url.Query. rewrite Split_no_sep by (by apply Hsep).
  simpl. unfold Url.parse_pair. rewrite existsb_none by (by apply Hsep).
  rewrite !chars_app.
  rewrite (proj2 (String.eqb_neq _ _)).
  2: { destruct key; [done|]. done. }
  change (chars "=" ++ ?l) with ("="%char :: l).
  rewrite cut_chars_sep by (by apply Hnot).
  rewrite Hunesc. simpl. unfold Url.QueryEscape. rewrite chars_of_chars, unescape_escape.
  simpl. by rewrite !of_chars_chars, String.eqb_refl.
Qed.
End string_lemmas.
Create Rewrite HintDb go_strings.
#[export] Hint Rewrite of_chars_chars chars_of_chars chars_app : go_strings.

Section number_lemmas.
Import Char Strings Strconv.
Local Open Scope Z_scope.

Lemma strip_prefix_app p l : strip_prefix p (p ++ l) = Some l.
Proof. induction p as [|c p IH]; simpl; [done|]. by rewrite Ascii.eqb_refl. Qed.
Lemma strip_suffix_app p l : strip_suffix p (l ++ p) = Some l.
Proof. unfold strip_suffix. by rewrite rev_app_distr, strip_prefix_app, rev_involutive. Qed.

Lemma digit_not_sign c : is_digit c = true → c ≠ "-"%char ∧ c ≠ "+"%char.
Proof. intros Hc; split; intros ->; discriminate Hc. Qed.

Lemma pretty_char_digit x : (x < 10)%N →
  is_digit (pretty_N_char x) = true ∧ digit (pretty_N_char x) = Z.of_N x.
Proof.
  intros. assert (x = 0 ∨ x = 1 ∨ x = 2 ∨ x = 3 ∨ x = 4 ∨ x = 5 ∨ x = 6 ∨ x = 7 ∨ x = 8 ∨ x = 9)%N
    as Hx by lia. naive_solver.
Qed.

(** The decimal digits Go's [%d] prints, read back. *)
Lemma pretty_go_digits x s :
  digits_value 0 (chars (pretty_N_go x s)) = digits_value (Z.of_N x) (chars s) ∧
  (Forall (λ c, is_digit c = true) (chars s) →
   Forall (λ c, is_digit c = true) (chars (pretty_N_go x s))).
Proof.
  revert s. induction (N.lt_wf_0 x) as [x _ IH]; intros s.
  assert (x = 0 ∨ 0 < x)%N as [->|Hx] by lia; [by rewrite pretty_N_go_0|].
  rewrite pretty_N_go_step by done.
  destruct (pretty_char_digit (x `mod` 10)) as [Hd Hv]; [by apply N.mod_lt|].
  destruct (IH (x `div` 10)%N ltac:(by apply N.div_lt)
    (String (pretty_N_char (x `mod` 10)) s)) as [IH1 IH2]. split.
  - rewrite IH1. simpl. rewrite Hd, Hv. f_equal.
    rewrite N2Z.inj_div, N2Z.inj_mod. pose proof (Z.div_mod (Z.of_N x) 10). lia.
  - intros Hs. apply IH2. simpl. by constructor.
Qed.

Lemma pretty_nonneg (n : Z) : 0 ≤ n →
  digits_value 0 (chars (pretty n)) = Some n ∧
  Forall (λ c, is_digit c = true) (chars (pretty n)) ∧ chars (pretty n) ≠ [].
Proof.
  intros Hn. destruct n as [|p|p]; [|clear Hn|lia].
  { split_and!; [done|by repeat constructor|done]. }
  change (pretty (Zpos p)) with (pretty (Npos p)). unfold pretty, pretty_N. simpl.
  destruct (pretty_go_digits (Npos p) "") as [H1 H2]. rewrite H1. split_and!; [done|by apply H2|].
  intros He. rewrite He in H1. discriminate H1.
Qed.

(** A nonnegative number in range is read back by [ParseInt] ... *)
Lemma split_sign_digits l :
  Forall (λ c, is_digit c = true) l → split_sign l = (false, l).
Proof.
  destruct 1 as [|c l Hc _]; [done|]. simpl. destruct (digit_not_sign c Hc).
  by rewrite !(proj2 (Ascii.eqb_neq _ _)).
Qed.
Lemma ParseInt_pretty n : 0 ≤ n < 2 ^ 63 → ParseInt (pretty n) = Some n.
Proof.
  intros Hn. destruct (pretty_nonneg n) as (Hv & Hd & Hne); [lia|].
  unfold ParseInt, parse_int_chars. rewrite split_sign_digits by done.
  unfold parse_digits. destruct (chars (pretty n)); [done|].
  rewrite Hv. simpl.
  by rewrite (proj2 (Z.leb_le _ _)), (proj2 (Z.ltb_lt _ _)) by lia.
Qed.

(** ... and what [ParseInt] reads, [Sscanf] reads too. *)
Lemma digits_value_all acc l v :
  digits_value acc l = Some v → Forall (λ c, is_digit c = true) l.
Proof.
  revert acc. induction l as [|c l IH]; intros acc; simpl; [by constructor|].
  destruct (is_digit c) eqn:Hc; [|done]. intros Hv. constructor; eauto.
Qed.
Lemma take_while_all f l : Forall (λ c, f c = true) l → take_while f l = l.
Proof. induction 1 as [|c l Hc _ IH]; simpl; [done|]. by rewrite Hc, IH. Qed.

Definition plain (c : ascii) : Prop := 33 ≤ code c < 128.
Lemma plain_not_space c : plain c →
  space1 c = false ∧ (∀ d, space2 c d = false ∧ space2 d c = false) ∧
  (∀ d e, space3 c d e = false ∧ space3 e d c = false).
Proof.
  unfold plain, space1, space2, space3, between. intros Hc.
  repeat split; intros; rewrite ?orb_false_iff, ?andb_false_iff, ?Z.eqb_neq, ?Z.leb_gt; lia.
Qed.
Lemma trim_left_plain c l : plain c → trim_left (c :: l) = c :: l.
Proof.
  intros (H1 & H2 & H3)%plain_not_space. simpl. rewrite H1.
  destruct l as [|d [|e l]]; [done|..]; by rewrite (proj1 (H2 d)), ?(proj1 (H3 d e)).
Qed.
Lemma trim_right_rev_plain c l : plain c → trim_right_rev (c :: l) = c :: l.
Proof.
  intros (H1 & H2 & H3)%plain_not_space. simpl. rewrite H1.
  destruct l as [|d [|e l]]; [done|..]; by rewrite (proj2 (H2 d)), ?(proj2 (H3 d e)).
Qed.
Lemma TrimSpace_plain s : Forall plain (chars s) → TrimSpace s = s.
Proof.
  intros Hs. unfold TrimSpace. rewrite <- (of_chars_chars s) at 2. f_equal.
  assert (trim_left (chars s) = chars s) as ->.
  { destruct Hs as [|c l Hc _]; [done|]. by apply trim_left_plain. }
  apply Forall_rev in Hs. rewrite <- (rev_involutive (chars s)) at 2. f_equal.
  destruct Hs as [|c l Hc _]; [done|]. by apply trim_right_rev_plain.
Qed.
Lemma digit_plain c : is_digit c = true → plain c.
Proof. unfold is_digit, between, plain. intros [?%Z.leb_le ?%Z.leb_le]%andb_prop. lia. Qed.

Lemma Sscanf_d_ParseInt s v : ParseInt s = Some v → Sscanf_d s = Some v.
Proof.
  unfold ParseInt, Sscanf_d. intros Hp.
  pose proof Hp as Hp'. unfold parse_int_chars in Hp'.
  destruct (split_sign (chars s)) as [neg ds] eqn:Hsign.
  destruct (parse_digits ds) as [n|] eqn:Hds; [|done].
  assert (Forall (λ c, is_digit c = true) ds) as Hall.
  { unfold parse_digits in Hds. destruct ds; [done|]. by eapply digits_value_all. }
  assert (∃ c l, chars s = c :: l ∧ plain c) as (c & l & Hcl & Hc).
  { unfold split_sign in Hsign. destruct (chars s) as [|c l] eqn:Hs; [by simplify_eq|].
    exists c, l. split; [done|].
    destruct (Ascii.eqb_spec c "-"%char) as [->|]; [done|].
    destruct (Ascii.eqb_spec c "+"%char) as [->|]; [done|].
    simplify_eq. inversion Hall; subst. by apply digit_plain. }
  unfold skip_space. rewrite Hcl, trim_left_plain by done. rewrite Nat.sub_diag. simpl.
  rewrite <- Hcl. unfold sscanf_d_chars. rewrite Hsign, take_while_all by done.
  rewrite <- Hp. f_equal.
  unfold split_sign in Hsign. rewrite Hcl in Hsign |- *. simpl length.
  destruct (Ascii.eqb c "-"%char); [|destruct (Ascii.eqb c "+"%char)]; simplify_eq.
  - rewrite Nat.sub_succ_l, Nat.sub_diag by done. done.
  - rewrite Nat.sub_succ_l, Nat.sub_diag by done. done.
  - simpl length. by rewrite Nat.sub_diag.
Qed.

Lemma ToLower_digits s : Forall (λ c, is_digit c = true) (chars s) → ToLower s = s.
Proof.
  intros Hs. unfold ToLower. rewrite <- (of_chars_chars s) at 2. f_equal.
  induction Hs as [|c l Hc _ IH]; [done|]. rewrite fmap_cons, IH. f_equal.
  unfold to_lower, is_upper, between. unfold is_digit, between in Hc.
  apply andb_prop in Hc as [?%Z.leb_le ?%Z.leb_le].
  by rewrite (proj2 (Z.leb_gt _ _)) by lia.
Qed.
End number_lemmas.
