(* ===== verification/GoFloat.v ===== *)
(** * float64 in the operator: [strconv.ParseFloat], [fmt.Sscanf("%f")] and
      [time.ParseDuration]

    A float64 is a [spec_float] of precision 53 and maximal exponent 1024;
    literals are rounded to nearest even from their exact value, products and
    quotients are the IEEE operations of the Standard Library. *)
From S2P Require Import Prelude GoStd.
From Stdlib Require Import SpecFloat.
Import Char Strings Strconv.
Local Open Scope Z_scope.

Module Float.
Definition prec : Z := 53.
Definition emax : Z := 1024.
Definition mul : spec_float → spec_float → spec_float := SFmul prec emax.
Definition div : spec_float → spec_float → spec_float := SFdiv prec emax.

(** The float64 nearest to [± m * 2^e]. *)
Definition of_binary (neg : bool) (m e : Z) : spec_float :=
  match m with
  | Zpos p => binary_normalize prec emax (if neg then Zneg p else Zpos p) e neg
  | _ => S754_zero neg
  end.
Definition of_Z (m : Z) : spec_float := of_binary (m <? 0) (Z.abs m) 0.

(** The float64 nearest to [± m * 10^e]; exponents far out of range are decided
    without computing the power. *)
Definition of_decimal (neg : bool) (m e : Z) : spec_float :=
  match m with
  | Zpos p =>
      if 400 <? e then S754_infinity neg
      else if e + Z.log2 m <? -1500 then S754_zero neg
      else if 0 <=? e then of_binary neg (m * 10 ^ e) 0
      else match 10 ^ (- e) with
           | Zpos q => SFdiv prec emax (S754_finite neg p 0) (S754_finite false q 0)
           | _ => S754_nan
           end
  | _ => S754_zero neg
  end.

Definition is_finite (f : spec_float) : bool :=
  match f with S754_infinity _ | S754_nan => false | _ => true end.

(** [int64(f)]: truncation; out of range Go leaves the result to the
    implementation, here the amd64 one. *)
Definition trunc (f : spec_float) : Z :=
  match f with
  | S754_zero _ => 0
  | S754_finite s m e =>
      let v := if 0 <=? e then Zpos m * 2 ^ e else Zpos m / 2 ^ (- e) in
      if s then - v else v
  | _ => - 2 ^ 63
  end.
Definition to_int64 (f : spec_float) : Z :=
  let v := trunc f in
  if (- 2 ^ 63 <=? v) && (v <? 2 ^ 63) then v else - 2 ^ 63.

(** ** [strconv.ParseFloat(s, 64)] *)
Definition lower_is (c : ascii) (d : ascii) : bool := Ascii.eqb (to_lower c) d.
Definition hex_value (c : ascii) : option Z := Url.unhex c.
Definition is_hex_letter (c : ascii) : bool := between 97 102 (to_lower c).

(** Mantissa, number of digits after the point, flags, and the rest. *)
Record mant := { mn_value : Z; mn_frac : Z; mn_dot : bool; mn_digits : bool; mn_underscore : bool }.
Fixpoint read_mantissa (hex : bool) (st : mant) (l : list ascii) : mant * list ascii :=
  match l with
  | [] => (st, [])
  | c :: r =>
      if Ascii.eqb c "_"%char then
        read_mantissa hex {| mn_value := mn_value st; mn_frac := mn_frac st; mn_dot := mn_dot st;
                             mn_digits := mn_digits st; mn_underscore := true |} r
      else if Ascii.eqb c "."%char then
        if mn_dot st then (st, l)
        else read_mantissa hex {| mn_value := mn_value st; mn_frac := mn_frac st; mn_dot := true;
                                  mn_digits := mn_digits st; mn_underscore := mn_underscore st |} r
      else if is_digit c || (hex && is_hex_letter c) then
        let d := default 0 (hex_value c) in
        read_mantissa hex
          {| mn_value := mn_value st * (if hex then 16 else 10) + d;
             mn_frac := mn_frac st + (if mn_dot st then 1 else 0);
             mn_dot := mn_dot st; mn_digits := true; mn_underscore := mn_underscore st |} r
      else (st, l)
  end.
(** The digits of an exponent, underscores skipped, growth stopped at 10000. *)
Fixpoint read_exponent (e : Z) (u : bool) (l : list ascii) : Z * bool * list ascii :=
  match l with
  | c :: r =>
      if Ascii.eqb c "_"%char then read_exponent e true r
      else if is_digit c then read_exponent (if e <? 10000 then e * 10 + digit c else e) u r
      else (e, u, l)
  | [] => (e, u, [])
  end.

(** [underscoreOK]: the last character seen is a digit (or base prefix),
    an underscore, or something else. *)
Inductive saw := SawDigit | SawUnderscore | SawOther.
Fixpoint underscores_ok (hex : bool) (st : saw) (l : list ascii) : bool :=
  match l with
  | [] => match st with SawUnderscore => false | _ => true end
  | c :: r =>
      if is_digit c || (hex && is_hex_letter c) then underscores_ok hex SawDigit r
      else if Ascii.eqb c "_"%char then
        match st with SawDigit => underscores_ok hex SawUnderscore r | _ => false end
      else match st with SawUnderscore => false | _ => underscores_ok hex SawOther r end
  end.
Definition underscoreOK (l : list ascii) : bool :=
  let '(_, l) := split_sign l in
  match l with
  | "0"%char :: x :: r =>
      if lower_is x "x" then underscores_ok true SawDigit r
      else if lower_is x "b" || lower_is x "o" then underscores_ok false SawDigit r
      else underscores_ok false SawOther l
  | _ => underscores_ok false SawOther l
  end.

(** [readFloat] on a complete string: sign, mantissa, exponent, hexadecimal. *)
Definition read_float (s : list ascii) : option (bool * Z * Z * bool) :=
  let '(neg, l) := split_sign s in
  let '(hex, l) :=
    match l with
    | "0"%char :: x :: ((_ :: _) as r) => if lower_is x "x" then (true, r) else (false, l)
    | _ => (false, l)
    end in
  let '(m, rest) := read_mantissa hex {| mn_value := 0; mn_frac := 0; mn_dot := false;
                                         mn_digits := false; mn_underscore := false |} l in
  if negb (mn_digits m) then None else
  let scale := if hex : bool then 4 else 1 in
  let finish (e : Z) (u : bool) (rest : list ascii) :=
    if negb (bool_decide (rest = [])) then None
    else if u && negb (underscoreOK s) then None
    else Some (neg, mn_value m, e - scale * mn_frac m, hex) in
  match rest with
  | c :: r =>
      if lower_is c (if hex then "p"%char else "e"%char) then
        let '(eneg, r) := split_sign r in
        match r with
        | d :: _ =>
            if is_digit d then
              let '(e, u, rest') := read_exponent 0 (mn_underscore m) r in
              finish (if eneg : bool then - e else e) u rest'
            else None
        | [] => None
        end
      else None
  | [] => if hex then None else finish 0 (mn_underscore m) []
  end.

Definition special (s : list ascii) : option spec_float :=
  let low := to_lower <$> s in
  let '(neg, r) := split_sign low in
  if bool_decide (r = chars "inf") || bool_decide (r = chars "infinity") then Some (S754_infinity neg)
  else if bool_decide (low = chars "nan") then Some S754_nan
  else None.

(** [None]: a syntax error, or a literal out of range. *)
Definition parse (s : list ascii) : option spec_float :=
  match special s with
  | Some f => Some f
  | None =>
      match read_float s with
      | Some (neg, m, e, hex) =>
          let f := if hex : bool then of_binary neg m e else of_decimal neg m e in
          if is_finite f then Some f else None
      | None => None
      end
  end.
Definition ParseFloat (s : string) : option spec_float := parse (chars s).

(** ** [fmt.Sscanf(s, "%f", &v)]

    The longest prefix that looks like a number is taken and parsed; [None]
    leaves [v] alone. *)
Definition one_of (set : string) (c : ascii) : bool := existsb (Ascii.eqb c) (chars set).
(** [s.accept(set)]: take one character of the set if it is next. *)
Definition accept (set : string) (st : list ascii * list ascii) : bool * (list ascii * list ascii) :=
  let '(buf, l) := st in
  match l with
  | c :: r => if one_of set c then (true, (buf ++ [c], r)) else (false, st)
  | [] => (false, st)
  end.
Fixpoint accept_run (set : string) (buf l : list ascii) : list ascii * list ascii :=
  match l with
  | c :: r => if one_of set c then accept_run set (buf ++ [c]) r else (buf, l)
  | [] => (buf, [])
  end.
Definition accept_all (set : string) (st : list ascii * list ascii) : list ascii * list ascii :=
  accept_run set (fst st) (snd st).
(** Three [accept]s joined by [&&]. *)
Definition accept3 (s1 s2 s3 : string) (st : list ascii * list ascii) : bool * (list ascii * list ascii) :=
  let '(b, st) := accept s1 st in
  if b : bool then
    let '(b, st) := accept s2 st in
    if b : bool then accept s3 st else (false, st)
  else (false, st).
Definition decimal_digits : string := "0123456789".
Definition hexadecimal_digits : string := "0123456789aAbBcCdDeEfF".

Definition floatToken (l : list ascii) : list ascii :=
  let '(b, st) := accept3 "nN" "aA" "nN" ([], l) in
  if b : bool then fst st else
  let '(_, st) := accept "+-" st in
  let '(b, st) := accept3 "iI" "nN" "fF" st in
  if b : bool then fst st else
  let '(zero, st) := accept "0" st in
  let '(hex, st) := if zero : bool then accept "xX" st else (false, st) in
  let digits := (if hex : bool then hexadecimal_digits else decimal_digits) +:+ "_" in
  let st := accept_all digits st in
  let '(dot, st) := accept "." st in
  let st := if dot : bool then accept_all digits st else st in
  let '(ex, st) := accept (if hex : bool then "pP" else "eEpP") st in
  if ex : bool then
    let '(_, st) := accept "+-" st in
    fst (accept_all (decimal_digits +:+ "_") st)
  else fst st.

(** [convertFloat]: a decimal mantissa with a [p] exponent is scaled by a power
    of two, everything else goes to [ParseFloat]. *)
Definition convertFloat (tok : list ascii) : option spec_float :=
  let '(before, after) := Url.cut_chars "p"%char tok in
  if existsb (Ascii.eqb "p"%char) tok && negb (existsb (one_of "xX") tok) then
    f ← parse before; m ← parse_int_chars after; Some (SFldexp prec emax f m)
  else parse tok.
Definition Sscanf_f (s : string) : option spec_float :=
  l ← skip_space (chars s);
  match l with [] => None | _ => convertFloat (floatToken l) end.
End Float.

(** ** [time.ParseDuration] *)
Module Duration.
Import Float.

(** [leadingInt]: [None] on overflow. *)
Fixpoint leadingInt (x : Z) (l : list ascii) : option (Z * list ascii) :=
  match l with
  | c :: r =>
      if is_digit c then
        if 2 ^ 63 / 10 <? x then None
        else let y := x * 10 + digit c in if 2 ^ 63 <? y then None else leadingInt y r
      else Some (x, l)
  | [] => Some (x, [])
  end.
(** [leadingFraction]: digits beyond the precision of an int64 are skipped. *)
Fixpoint leadingFraction (x : Z) (scale : spec_float) (overflow : bool) (l : list ascii)
    : Z * spec_float * list ascii :=
  match l with
  | c :: r =>
      if is_digit c then
        if overflow then leadingFraction x scale true r
        else if (2 ^ 63 - 1) / 10 <? x then leadingFraction x scale true r
        else let y := x * 10 + digit c in
             if 2 ^ 63 <? y then leadingFraction x scale true r
             else leadingFraction y (mul scale (of_Z 10)) false r
      else (x, scale, l)
  | [] => (x, scale, [])
  end.

(** The unit table; the two spellings of the micro sign are UTF-8 sequences. *)
Definition unit_of (u : list ascii) : option Z :=
  let micro1 := [Char.of_code 0xC2; Char.of_code 0xB5; "s"%char] in
  let micro2 := [Char.of_code 0xCE; Char.of_code 0xBC; "s"%char] in
  if bool_decide (u = chars "ns") then Some 1
  else if bool_decide (u = chars "us") || bool_decide (u = micro1) || bool_decide (u = micro2) then Some 1000
  else if bool_decide (u = chars "ms") then Some 1000000
  else if bool_decide (u = chars "s") then Some 1000000000
  else if bool_decide (u = chars "m") then Some 60000000000
  else if bool_decide (u = chars "h") then Some 3600000000000
  else None.

Definition in_unit (c : ascii) : bool := negb (Ascii.eqb c "."%char || is_digit c).

(** The loop over number-unit pairs; every round consumes a character, so the
    length of the text is enough fuel. *)
Fixpoint pairs (fuel : nat) (d : Z) (l : list ascii) : option Z :=
  match l, fuel with
  | [], _ => Some d
  | _, O => None
  | c :: _, S fuel' =>
      if negb (Ascii.eqb c "."%char || is_digit c) then None else
      '(v, l1) ← leadingInt 0 l;
      let pre := negb (length l =? length l1)%nat in
      let '(f, scale, l2, post) :=
        match l1 with
        | "."%char :: l1' =>
            let '(f, scale, l2) := leadingFraction 0 (of_Z 1) false l1' in
            (f, scale, l2, negb (length l1' =? length l2)%nat)
        | _ => (0, of_Z 1, l1, false)
        end in
      if negb pre && negb post then None else
      let u := take_while in_unit l2 in
      let l3 := drop (length u) l2 in
      match u with
      | [] => None
      | _ =>
          unit ← unit_of u;
          if 2 ^ 63 / unit <? v then None else
          let v := v * unit in
          let v := if 0 <? f then v + trunc (mul (of_Z f) (div (of_Z unit) scale)) else v in
          if (0 <? f) && (2 ^ 63 <? v) then None else
          let d := Int.uint64 (d + v) in
          if 2 ^ 63 <? d then None else pairs fuel' d l3
      end
  end.

(** [time.ParseDuration]; [None] is an error. *)
Definition ParseDuration (s : string) : option Z :=
  let '(neg, l) := split_sign (chars s) in
  if bool_decide (l = chars "0") then Some 0
  else match l with
       | [] => None
       | _ =>
           d ← pairs (length l) 0 l;
           if neg : bool then Some (- d)
           else if 2 ^ 63 - 1 <? d then None else Some d
       end.
End Duration.
