(* ===== verification/GoUrl.v ===== *)
(** * [net/url]: Parse and Values, as the gateway uses them

    The parser of Go 1.24 on byte strings.  [RawPath], [RawFragment] and the
    userinfo of a URL are checked for the errors they raise but not kept. *)
From S2P Require Import Prelude GoStd.
Local Open Scope Z_scope.

Module NetUrl.
Import Char Strings.

Record URL := {
  Scheme : string; Opaque : string; Host : string; Path : string; RawQuery : string; Fragment : string }.

(** ** Cutting *)
(** [strings.Cut(s, sep)] at the first separator, with its [found] result. *)
Fixpoint cut (sep : ascii) (l : list ascii) : list ascii * list ascii * bool :=
  match l with
  | [] => ([], [], false)
  | c :: r => if Ascii.eqb c sep then ([], r, true)
              else let '(a, b, found) := cut sep r in (c :: a, b, found)
  end.
(** The parts around the last separator. *)
Definition cut_last (sep : ascii) (l : list ascii) : option (list ascii * list ascii) :=
  let '(a, b, found) := cut sep (rev l) in if found : bool then Some (rev b, rev a) else None.
Definition contains (c : ascii) (l : list ascii) : bool := existsb (Ascii.eqb c) l.

(** ** Escapes *)
Inductive encoding := encodePath | encodeHost | encodeZone | encodeUserPassword | encodeFragment.
Definition ishex (c : ascii) : bool := is_digit c || between 97 102 c || between 65 70 c.
Definition alnum (c : ascii) : bool := is_lower c || is_upper c || is_digit c.
(** Bytes below 0x80 that must not stand in a host: [shouldEscape] for hosts and zones. *)
Definition invalid_in_host (c : ascii) : bool :=
  negb (alnum c || contains c (chars "!$&'()*+,;=:[]<>") || Ascii.eqb c "034"%char || contains c (chars "-_.~")).
(** [unescape] for every mode but query components; [None] is an error. *)
Fixpoint unescape (mode : encoding) (l : list ascii) : option (list ascii) :=
  match l with
  | [] => Some []
  | c :: r =>
      if Ascii.eqb c "%"%char then
        match r with
        | h1 :: h2 :: r' =>
            let escaped_percent := Ascii.eqb h1 "2"%char && Ascii.eqb h2 "5"%char in
            x ← Url.unhex h1; y ← Url.unhex h2;
            let v := of_code (16 * x + y) in
            let bad := match mode with
                       | encodeHost => (x <? 8) && negb escaped_percent
                       | encodeZone => negb escaped_percent && negb (Ascii.eqb v " "%char) && invalid_in_host v
                       | _ => false
                       end in
            if bad then None else t ← unescape mode r'; Some (v :: t)
        | _ => None
        end
      else
        let bad := match mode with
                   | encodeHost | encodeZone => (code c <? 128) && invalid_in_host c
                   | _ => false
                   end in
        if bad then None else t ← unescape mode r; Some (c :: t)
  end.

(** ** The parts of a URL *)
(** [getScheme]: an error, or the scheme (not yet in lower case) and the rest. *)
Fixpoint scheme_end (first : bool) (acc l : list ascii) : option (option (list ascii * list ascii)) :=
  match l with
  | [] => Some None
  | c :: r =>
      if is_lower c || is_upper c then scheme_end false (c :: acc) r
      else if is_digit c || contains c (chars "+-.") then
        if first then Some None else scheme_end false (c :: acc) r
      else if Ascii.eqb c ":"%char then if first then None else Some (Some (rev acc, r))
      else Some None
  end.
Definition getScheme (l : list ascii) : option (list ascii * list ascii) :=
  e ← scheme_end true [] l; Some (match e with Some p => p | None => ([], l) end).

Definition validOptionalPort (l : list ascii) : bool :=
  match l with [] => true | c :: r => Ascii.eqb c ":"%char && forallb is_digit r end.

(** The position of "%25" in a bracketed host. *)
Fixpoint zone_start (l : list ascii) : option (list ascii * list ascii) :=
  match strip_prefix (chars "%25") l with
  | Some _ => Some ([], l)
  | None => match l with [] => None | c :: r => '(a, b) ← zone_start r; Some (c :: a, b) end
  end.
Definition parseHost (l : list ascii) : option (list ascii) :=
  match l with
  | "["%char :: _ =>
      '(inside, colonPort) ← cut_last "]"%char l;
      if negb (validOptionalPort colonPort) then None
      else match zone_start inside with
           | Some (host, zone) =>
               h1 ← unescape encodeHost host; h2 ← unescape encodeZone zone;
               h3 ← unescape encodeHost ("]"%char :: colonPort); Some (h1 ++ h2 ++ h3)
           | None => unescape encodeHost l
           end
  | _ =>
      match cut_last ":"%char l with
      | Some (_, port) => if validOptionalPort (":"%char :: port) then unescape encodeHost l else None
      | None => unescape encodeHost l
      end
  end.
Definition validUserinfo (l : list ascii) : bool :=
  forallb (λ c, alnum c || contains c (chars "-._:~!$&'()*+,;=%@")) l.
(** [parseAuthority], without the user. *)
Definition parseAuthority (l : list ascii) : option (list ascii) :=
  match cut_last "@"%char l with
  | None => parseHost l
  | Some (userinfo, rest) =>
      host ← parseHost rest;
      if negb (validUserinfo userinfo) then None
      else let '(username, password, found) := cut ":"%char userinfo in
           _ ← unescape encodeUserPassword username;
           _ ← (if found : bool then unescape encodeUserPassword password else Some []);
           Some host
  end.

(** [parse(rawURL, false)] after the scheme was found. *)
Definition parse_rest (scheme rest : list ascii) : option URL :=
  let '(before, query, found) := cut "?"%char rest in
  (* a single trailing "?" is ForceQuery: an empty query either way *)
  let mk opaque host path :=
    {| Scheme := ToLower (of_chars scheme); Opaque := of_chars opaque; Host := of_chars host;
       Path := of_chars path; RawQuery := of_chars query; Fragment := "" |} in
  let authority (l : list ascii) :=
    let '(auth, path, slash) := cut "/"%char l in
    host ← parseAuthority auth;
    path' ← unescape encodePath (if slash : bool then "/"%char :: path else []);
    Some (mk [] host path') in
  let plain_path := path' ← unescape encodePath before; Some (mk [] [] path') in
  match before with
  | "/"%char :: "/"%char :: l =>
      match l with
      | "/"%char :: _ => match scheme with [] => plain_path | _ => authority l end
      | _ => authority l
      end
  | "/"%char :: _ => plain_path
  | _ =>
      match scheme with
      | _ :: _ => Some (mk before [] [])
      | [] => if contains ":"%char (cut "/"%char before).1.1 then None else plain_path
      end
  end.

(** [stringContainsCTLByte] *)
Definition control (c : ascii) : bool := (code c <? 32) || (code c =? 127).
(** [url.Parse]; [None] is an error. *)
Definition Parse (rawURL : string) : option URL :=
  let '(u, frag, _) := cut "#"%char (chars rawURL) in
  if existsb control u then None
  else
    url ← (if String.eqb (of_chars u) "*" then
             Some {| Scheme := ""; Opaque := ""; Host := ""; Path := "*"; RawQuery := ""; Fragment := "" |}
           else '(scheme, rest) ← getScheme u; parse_rest scheme rest);
    f ← unescape encodeFragment frag;
    Some {| Scheme := Scheme url; Opaque := Opaque url; Host := Host url; Path := Path url;
            RawQuery := RawQuery url; Fragment := of_chars f |}.

(** ** [url.Values], as the pairs in the order they were added *)
(** [v.Set(key, value)] *)
Definition Set_ (q : list (string * string)) (key value : string) : list (string * string) :=
  filter (λ p, p.1 ≠ key) q ++ [(key, value)].
(** [v.Encode()]: the keys sorted, the values of each in order. *)
Definition encode_pair (p : string * string) : string := Url.QueryEscape p.1 +:+ "=" +:+ Url.QueryEscape p.2.
Definition sorted_keys (q : list (string * string)) : list string := Sort.Strings (remove_dups q.*1).
Definition grouped (q : list (string * string)) : list (string * string) :=
  sorted_keys q ≫= λ k, filter (λ p, p.1 = k) q.
Definition Encode (q : list (string * string)) : string := Join (encode_pair <$> grouped q) "&".
End NetUrl.

Example parse_ws :
  NetUrl.Parse "ws://tunnel-web.prod.svc:8081/ws?a=b#x" =
  Some {| NetUrl.Scheme := "ws"; NetUrl.Opaque := ""; NetUrl.Host := "tunnel-web.prod.svc:8081";
          NetUrl.Path := "/ws"; NetUrl.RawQuery := "a=b"; NetUrl.Fragment := "x" |}.
Proof. vm_compute. reflexivity. Qed.
Example parse_host_port :
  NetUrl.Parse "svc:80" =
  Some {| NetUrl.Scheme := "svc"; NetUrl.Opaque := "80"; NetUrl.Host := ""; NetUrl.Path := "";
          NetUrl.RawQuery := ""; NetUrl.Fragment := "" |}.
Proof. vm_compute. reflexivity. Qed.

(** ** Lemmas *)
Section url_lemmas.
Import Char Strings NetUrl.

Lemma cut_none sep l : sep ∉ l → cut sep l = (l, [], false).
Proof.
  induction l as [|c l IH]; intros Hl; simpl; [done|].
  rewrite (proj2 (Ascii.eqb_neq c sep)) by set_solver. by rewrite IH by set_solver.
Qed.
Lemma cut_found sep l1 l2 : sep ∉ l1 → cut sep (l1 ++ sep :: l2) = (l1, l2, true).
Proof.
  induction l1 as [|c l1 IH]; intros Hl; simpl; [by rewrite Ascii.eqb_refl|].
  rewrite (proj2 (Ascii.eqb_neq c sep)) by set_solver. by rewrite IH by set_solver.
Qed.
Lemma cut_last_none sep l : sep ∉ l → cut_last sep l = None.
Proof. intros Hl. unfold cut_last. rewrite cut_none; [done|]. by rewrite list_elem_of_In, <- in_rev, <- list_elem_of_In. Qed.
Lemma cut_last_found sep l1 l2 : sep ∉ l2 → cut_last sep (l1 ++ sep :: l2) = Some (l1, l2).
Proof.
  intros Hl. unfold cut_last. rewrite rev_app_distr. simpl. rewrite <- app_assoc. simpl.
  rewrite cut_found; [by rewrite !rev_involutive|]. by rewrite list_elem_of_In, <- in_rev, <- list_elem_of_In.
Qed.

(** *** Encode, then Query *)
Lemma parse_encode_pair p : Url.parse_pair (encode_pair p) = Some p.
Proof.
  destruct p as [k v]. unfold Url.parse_pair, encode_pair. simpl.
  assert (∀ c, separator c = true → c ≠ "="%char → c ∉ chars (Url.QueryEscape k +:+ "=" +:+ Url.QueryEscape v)) as Hsep.
  { intros c Hc Hne. rewrite !chars_app, !elem_of_app. change (chars "=") with ["="%char]. rewrite list_elem_of_singleton.
    pose proof (escape_not_in c k Hc). pose proof (escape_not_in c v Hc). tauto. }
  rewrite existsb_none by by apply Hsep.
  rewrite (proj2 (String.eqb_neq _ _)) by by destruct (Url.QueryEscape k).
  rewrite !chars_app. change (chars "=" ++ ?l) with ("="%char :: l).
  rewrite cut_chars_sep by by apply escape_not_in.
  unfold Url.QueryEscape. rewrite !chars_of_chars, !unescape_escape. simpl. by rewrite !of_chars_chars.
Qed.
Lemma Query_Join l : Url.Query (Join (encode_pair <$> l) "&") = l.
Proof.
  unfold Url.Query. destruct l as [|p0 l0] eqn:Hl; [done|]. rewrite <- Hl.
  change "&"%string with (of_chars ["&"%char]). rewrite Split_Join.
  - clear. induction l as [|p l IH]; [done|]. rewrite fmap_cons. cbn [omap list_omap].
    by rewrite parse_encode_pair, IH.
  - by rewrite Hl.
  - apply Forall_fmap, Forall_true. intros [k v]. unfold encode_pair. simpl.
    rewrite !chars_app, !elem_of_app. change (chars "=") with ["="%char]. rewrite list_elem_of_singleton.
    pose proof (escape_not_in "&"%char k eq_refl). pose proof (escape_not_in "&"%char v eq_refl). naive_solver.
Qed.
Lemma Query_Encode q : Url.Query (Encode q) = grouped q.
Proof. apply Query_Join. Qed.

Lemma Get_filter q k : Url.Get (filter (λ p, p.1 = k) q) k = Url.Get q k.
Proof.
  induction q as [|[k' v] q IH]; [done|]. simpl. destruct (String.eqb_spec k' k) as [->|Hne].
  - rewrite filter_cons_True by done. simpl. by rewrite String.eqb_refl.
  - by rewrite filter_cons_False.
Qed.
Lemma Get_none q k : k ∉ q.*1 → Url.Get q k = "".
Proof.
  induction q as [|[k' v] q IH]; [done|]. simpl. intros Hk.
  rewrite (proj2 (String.eqb_neq _ _)) by set_solver. apply IH. set_solver.
Qed.
Lemma Get_app_none q1 q2 k : k ∉ q1.*1 → Url.Get (q1 ++ q2) k = Url.Get q2 k.
Proof.
  induction q1 as [|[k' v] q IH]; [done|]. simpl. intros Hk.
  rewrite (proj2 (String.eqb_neq _ _)) by set_solver. apply IH. set_solver.
Qed.
Lemma Get_app_some q1 q2 k : k ∈ q1.*1 → Url.Get (q1 ++ q2) k = Url.Get q1 k.
Proof.
  induction q1 as [|[k' v] q IH]; simpl; [set_solver|]. intros Hk.
  destruct (String.eqb_spec k' k); [done|]. apply IH. set_solver.
Qed.
Lemma Get_groups q ks k :
  Url.Get (ks ≫= λ k', filter (λ p, p.1 = k') q) k = if decide (k ∈ ks) then Url.Get q k else "".
Proof.
  assert (∀ k', k' ≠ k → k ∉ (filter (λ p, p.1 = k') q).*1) as Hother.
  { intros k' Hne. rewrite list_elem_of_fmap. intros ([k2 v] & -> & [? _]%list_elem_of_filter). by simpl in *. }
  induction ks as [|k' ks IH]; [done|]. cbn [mbind list_bind].
  destruct (decide (k' = k)) as [->|Hne].
  - rewrite decide_True by set_solver. destruct (decide (k ∈ (filter (λ p, p.1 = k) q).*1)) as [Hin|Hin].
    + by rewrite Get_app_some, Get_filter.
    + rewrite Get_app_none by done. rewrite IH, <- Get_filter. rewrite (Get_none (filter _ _)) by done.
      by destruct (decide _).
  - rewrite Get_app_none by by apply Hother. rewrite IH.
    destruct (decide (k ∈ ks)); [by rewrite decide_True by set_solver|by rewrite decide_False by set_solver].
Qed.
(** A parameter survives Encode and Query. *)
Lemma Get_Query_Encode q k : Url.Get (Url.Query (Encode q)) k = Url.Get q k.
Proof.
  rewrite Query_Encode. unfold grouped. rewrite Get_groups.
  destruct (decide _) as [|Hk]; [done|]. rewrite Get_none; [done|].
  intros Hin. apply Hk. unfold sorted_keys, Sort.Strings. rewrite merge_sort_Permutation.
  by apply elem_of_remove_dups.
Qed.
Lemma Get_Set q k v : Url.Get (Set_ q k v) k = v.
Proof.
  unfold Set_. rewrite Get_app_none; [simpl; by rewrite String.eqb_refl|].
  rewrite list_elem_of_fmap. intros ([k2 v2] & -> & [? _]%list_elem_of_filter). done.
Qed.

(** *** Parsing host:port URLs *)
(** The bytes of a DNS name. *)
Definition dns_char (c : ascii) : Prop := alnum c = true ∨ c = "-"%char ∨ c = "."%char.
Definition dns_name (s : string) : Prop := s ≠ "" ∧ Forall dns_char (chars s).
Lemma dns_not c d : dns_char c → alnum d = false → d ≠ "-"%char → d ≠ "."%char → c ≠ d.
Proof. intros Hc Hd H1 H2 ->. destruct Hc as [Hc|[Hc|Hc]]; congruence. Qed.
Lemma dns_not_in d l : Forall dns_char l → alnum d = false → d ≠ "-"%char → d ≠ "."%char → d ∉ l.
Proof. intros Hl Hd H1 H2 Hin. rewrite Forall_forall in Hl. by destruct (dns_not d d (Hl _ Hin) Hd H1 H2). Qed.
Lemma unescape_host l : Forall (λ c, dns_char c ∨ c = ":"%char) l → unescape encodeHost l = Some l.
Proof.
  induction 1 as [|c l Hc _ IH]; [done|]. simpl. rewrite IH.
  assert (Ascii.eqb c "%"%char = false) as ->.
  { apply Ascii.eqb_neq. destruct Hc as [Hc| ->]; [by apply dns_not|done]. }
  assert (invalid_in_host c = false) as ->; [|by rewrite andb_false_r].
  unfold invalid_in_host. destruct Hc as [[Ha|[->| ->]]| ->]; [by rewrite Ha|reflexivity..].
Qed.
Lemma parseAuthority_host_port h port :
  Forall dns_char h → Forall (λ c, is_digit c = true) port →
  parseAuthority (h ++ ":"%char :: port) = Some (h ++ ":"%char :: port).
Proof.
  intros Hh Hport.
  assert (Forall dns_char port) as Hport'.
  { eapply Forall_impl; [exact Hport|]. intros c Hc. left. unfold alnum. by rewrite Hc, orb_true_r. }
  assert (Forall (λ c, dns_char c ∨ c = ":"%char) (h ++ ":"%char :: port)) as Hall.
  { apply Forall_app. split; [eapply Forall_impl; [exact Hh|]; by left|].
    constructor; [by right|]. eapply Forall_impl; [exact Hport'|]. by left. }
  unfold parseAuthority. rewrite cut_last_none.
  2: { intros Hin. rewrite Forall_forall in Hall. by destruct (Hall _ Hin) as [[Hc|[Hc|Hc]]|Hc]. }
  assert (parseHost (h ++ ":"%char :: port) =
    match cut_last ":"%char (h ++ ":"%char :: port) with
      | Some (_, p) => if validOptionalPort (":"%char :: p) then unescape encodeHost (h ++ ":"%char :: port) else None
      | None => unescape encodeHost (h ++ ":"%char :: port)
      end) as ->.
  { unfold parseHost. destruct h as [|c h]; [done|]. inversion Hh as [|? ? Hc]; subst. simpl.
    pose proof (dns_not c "["%char Hc eq_refl ltac:(done) ltac:(done)) as Hne.
    destruct c as [[] [] [] [] [] [] [] []]; first [reflexivity|by destruct Hne]. }
  rewrite cut_last_found by (by apply dns_not_in).
  rewrite unescape_host by done. simpl.
  assert (forallb is_digit port = true) as ->; [|done].
  apply forallb_forall. intros c Hc. rewrite Forall_forall in Hport. by apply Hport, list_elem_of_In.
Qed.
Lemma dns_printable c : dns_char c → control c = false.
Proof.
  intros [Hc|[->| ->]]; [|reflexivity..].
  pose proof (all_bytes (λ c, implb (alnum c) (negb (control c))) eq_refl c) as Himp.
  cbv beta in Himp. rewrite Hc in Himp. by destruct (control c).
Qed.
Lemma no_control l : Forall (λ c, dns_char c ∨ c = ":"%char ∨ c = "/"%char) l → existsb control l = false.
Proof.
  induction 1 as [|c l Hc _ IH]; [done|]. cbn [existsb]. rewrite IH, orb_false_r.
  destruct Hc as [Hc|[->| ->]]; [by apply dns_printable|done..].
Qed.

Lemma escape_printable s : Forall (λ c, control c = false ∧ c ≠ "#"%char) (chars (Url.QueryEscape s)).
Proof.
  unfold Url.QueryEscape. rewrite chars_of_chars.
  induction (chars s) as [|c l IH]; [constructor|]. rewrite fmap_cons. cbn [concat]. apply Forall_app. split; [|done].
  apply (Forall_impl (λ c, negb (control c) && negb (Ascii.eqb c "#"%char) = true)).
  - apply forallb_to_Forall.
    apply (all_bytes (λ c, forallb (λ c, negb (control c) && negb (Ascii.eqb c "#"%char)) (Url.escape_char c))).
    reflexivity.
  - intros d [Hd Hne]%andb_prop. split; [by apply negb_true_iff|]. by apply Ascii.eqb_neq, negb_true_iff.
Qed.

(** A websocket URL of a service parses into its parts, with and without a query. *)
Definition query_suffix (suffix q : string) : Prop :=
  (suffix = "" ∧ q = "") ∨
  (suffix = "?" +:+ q ∧ Forall (λ c, control c = false ∧ c ≠ "#"%char) (chars q)).
Section websocket_url.
Context (h port path : string).
Hypothesis (Hh : Forall dns_char (chars h)) (Hport : Forall (λ c, is_digit c = true) (chars port)).
Hypothesis Hpath : Forall dns_char (chars path).
Let l : list ascii := chars h ++ [":"%char] ++ chars port ++ ["/"%char] ++ chars path.

Lemma port_dns : Forall dns_char (chars port).
Proof. eapply Forall_impl; [exact Hport|]. intros c Hc. left. unfold alnum. by rewrite Hc, orb_true_r. Qed.
Lemma ws_chars : Forall (λ c, dns_char c ∨ c = ":"%char ∨ c = "/"%char) l.
Proof.
  pose proof port_dns. unfold l. rewrite !Forall_app.
  split_and!; (eapply Forall_impl; [eassumption|by left]) || by (constructor; [auto|constructor]).
Qed.
Lemma ws_not_in d : alnum d = false → d ∉ ["-"; "."; ":"; "/"]%char → d ∉ l.
Proof.
  intros Hd Hne Hin. pose proof ws_chars as Hl. rewrite Forall_forall in Hl.
  destruct (Hl _ Hin) as [[Hc|[->| ->]]|[->| ->]]; [congruence|set_solver..].
Qed.
Lemma ws_cut : cut "/"%char l = (chars h ++ ":"%char :: chars port, chars path, true).
Proof.
  replace l with ((chars h ++ ":"%char :: chars port) ++ "/"%char :: chars path) by (unfold l; by rewrite <- app_assoc).
  rewrite cut_found; [done|]. rewrite elem_of_app, elem_of_cons.
  pose proof (dns_not_in "/"%char _ Hh). pose proof (dns_not_in "/"%char _ port_dns). naive_solver.
Qed.
Lemma ws_path : unescape encodePath ("/"%char :: chars path) = Some ("/"%char :: chars path).
Proof.
  simpl. assert (unescape encodePath (chars path) = Some (chars path)) as ->; [|done].
  pose proof Hpath as Hp. clear -Hp. induction Hp as [|c l' Hc _ IH]; [done|]. simpl. rewrite IH.
  assert (Ascii.eqb c "%"%char = false) as ->; [|done]. by apply Ascii.eqb_neq, dns_not.
Qed.
(** The part behind "ws:", its query cut off. *)
Lemma parse_rest_ws rest query found :
  cut "?"%char rest = (["/"; "/"]%char ++ l, query, found) →
  parse_rest ["w"; "s"]%char rest =
  Some {| Scheme := "ws"; Opaque := ""; Host := h +:+ ":" +:+ port; Path := "/" +:+ path;
          RawQuery := of_chars query; Fragment := "" |}.
Proof.
  intros Hrest. unfold parse_rest. rewrite Hrest. cbn [app].
  rewrite ws_cut, parseAuthority_host_port by done. cbn [mbind option_bind].
  rewrite ws_path. cbn [mbind option_bind].
  assert (of_chars (chars h ++ ":"%char :: chars port) = h +:+ ":" +:+ port) as ->.
  { rewrite of_chars_app. simpl. by rewrite !of_chars_chars. }
  assert (of_chars ("/"%char :: chars path) = "/" +:+ path) as -> by (simpl; by rewrite of_chars_chars).
  generalize l. clear. intros l. destruct l as [|[[] [] [] [] [] [] [] []] l]; reflexivity.
Qed.

Context (suffix q : string).
Hypothesis Hsuffix : query_suffix suffix q.
Lemma suffix_cut :
  ∃ found, cut "?"%char (["/"; "/"]%char ++ l ++ chars suffix) = (["/"; "/"]%char ++ l, chars q, found).
Proof.
  rewrite app_assoc. pose proof (ws_not_in "?"%char) as Hno.
  assert ("?"%char ∉ (["/"; "/"]%char ++ l)) as Hno' by set_solver.
  destruct Hsuffix as [[-> ->]|[-> _]]; [|exists true; by apply (cut_found "?"%char)].
  exists false. rewrite app_nil_r. by apply cut_none.
Qed.
Lemma suffix_plain : ¬ ("#"%char ∈ chars suffix) ∧ existsb control (chars suffix) = false.
Proof.
  destruct Hsuffix as [[-> _]|[-> Hq]]; [split; [by apply not_elem_of_nil|done]|].
  change (existsb control (chars ("?" +:+ q))) with (existsb control (chars q)).
  change (chars ("?" +:+ q)) with ("?"%char :: chars q). split.
  - rewrite elem_of_cons. intros [Hin|Hin]; [done|]. rewrite Forall_forall in Hq. by destruct (Hq _ Hin).
  - clear -Hq. induction Hq as [|c l [Hc _] _ IH]; [done|]. cbn [existsb]. by rewrite Hc, IH.
Qed.

Lemma Parse_ws :
  Parse ("ws://" +:+ h +:+ ":" +:+ port +:+ "/" +:+ path +:+ suffix) =
  Some {| Scheme := "ws"; Opaque := ""; Host := h +:+ ":" +:+ port; Path := "/" +:+ path; RawQuery := q; Fragment := "" |}.
Proof.
  destruct suffix_plain as [Hhash Hctl]. destruct suffix_cut as [found Hcut].
  assert (chars ("ws://" +:+ h +:+ ":" +:+ port +:+ "/" +:+ path +:+ suffix) =
          ["w"; "s"; ":"; "/"; "/"]%char ++ l ++ chars suffix) as Hall.
  { rewrite !chars_app. unfold l. rewrite <- !app_assoc. done. }
  unfold Parse. rewrite Hall, cut_none by (pose proof (ws_not_in "#"%char); set_solver).
  change (existsb control (["w"; "s"; ":"; "/"; "/"]%char ++ l ++ chars suffix)) with (existsb control (l ++ chars suffix)).
  rewrite existsb_app, (no_control l), Hctl by apply ws_chars.
  change (getScheme (["w"; "s"; ":"; "/"; "/"]%char ++ l ++ chars suffix))
    with (Some (["w"; "s"]%char, ["/"; "/"]%char ++ l ++ chars suffix)).
  rewrite (proj2 (String.eqb_neq _ _)) by done. cbn [mbind option_bind orb].
  rewrite (parse_rest_ws _ _ _ Hcut). cbn. by rewrite of_chars_chars.
Qed.
End websocket_url.
End url_lemmas.
