(* ===== verification/Effects.v ===== *)
(** * Effectful Go code as finite interaction trees

    A handler of the operator talks to the Kubernetes API server, to Docker
    daemons, to the clock, to the environment.  None of that code is under
    src/, so it is not modelled: a handler is a tree of the calls it makes, and
    the answers are left open.  [wp R p Q] says that [Q] holds of the call
    trace and of the outcome of [p] whatever the answers are, as long as each
    answer satisfies the rely condition [R]; [run] executes [p] against one
    concrete environment, and [wp_run] connects the two. *)
From S2P Require Import Prelude.

Section effects.
Context {Op : Type} {Ans : Op → Type}.

(** A Go computation: it returns, panics, or makes a call and continues with
    the answer. *)
Inductive prog (A : Type) : Type :=
| Return (a : A)
| Panic (why : string)
| Call (o : Op) (k : Ans o → prog A).
Global Arguments Return {A} a.
Global Arguments Panic {A} why.
Global Arguments Call {A} o k.

Inductive outcome (A : Type) : Type :=
| Returned (a : A)
| Panicked (why : string).
Global Arguments Returned {A} a.
Global Arguments Panicked {A} why.

(** One call with its answer, and the calls of a run in order. *)
Record event := Ev { ev_op : Op; ev_ans : Ans ev_op }.
Abbreviation trace := (list event).

(** Sequencing, and a single call. *)
Fixpoint pbind {A B} (p : prog A) (f : A → prog B) : prog B :=
  match p with
  | Return a => f a
  | Panic s => Panic s
  | Call o k => Call o (λ x, pbind (k x) f)
  end.
Definition call (o : Op) : prog (Ans o) := Call o Return.

(** ** Weakest preconditions over all answers *)
Section wp.
Context (R : ∀ o, Ans o → Prop).

Fixpoint wp {A} (p : prog A) (Q : trace → outcome A → Prop) : Prop :=
  match p with
  | Return a => Q [] (Returned a)
  | Panic s => Q [] (Panicked s)
  | Call o k => ∀ x : Ans o, R o x → wp (k x) (λ tr, Q (Ev o x :: tr))
  end.

Lemma wp_mono {A} (p : prog A) (Q Q' : trace → outcome A → Prop) :
  (∀ tr o, Q tr o → Q' tr o) → wp p Q → wp p Q'.
Proof.
  revert Q Q'. induction p as [a|s|o k IH]; intros Q Q' HQ Hwp; simpl in *; [auto..|].
  intros x Hx. eapply IH; [|exact (Hwp x Hx)]. auto.
Qed.

Lemma wp_and {A} (p : prog A) (Q Q' : trace → outcome A → Prop) :
  wp p Q → wp p Q' → wp p (λ tr o, Q tr o ∧ Q' tr o).
Proof. revert Q Q'. induction p as [a|s|o k IH]; simpl; auto. Qed.

Lemma wp_any {A} (p : prog A) (Q : trace → outcome A → Prop) : (∀ tr o, Q tr o) → wp p Q.
Proof. revert Q. induction p as [a|s|o k IH]; simpl; auto. Qed.

(** [runs_to p tr out]: with some answers, [p] makes exactly the calls of [tr] and ends in [out]. *)
Fixpoint runs_to {A} (p : prog A) (tr : trace) (out : outcome A) : Prop :=
  match p with
  | Return a => tr = [] ∧ out = Returned a
  | Panic s => tr = [] ∧ out = Panicked s
  | Call o k => ∃ x tr', tr = Ev o x :: tr' ∧ runs_to (k x) tr' out
  end.
Lemma wp_runs_to {A} (p : prog A) : wp p (runs_to p).
Proof.
  induction p as [a|s|o k IH]; simpl; [done..|]. intros x _. eapply wp_mono; [|apply IH]. eauto.
Qed.

Lemma wp_first {A} (o : Op) (k : Ans o → prog A) :
  wp (Call o k) (λ tr _, ∃ x tr', tr = Ev o x :: tr').
Proof. intros x _. apply wp_any. eauto. Qed.

(** What [wp] says after a prefix has been run. *)
Definition and_then {A B} (f : A → prog B) (Q : trace → outcome B → Prop)
    (tr : trace) (o : outcome A) : Prop :=
  match o with
  | Returned a => wp (f a) (λ tr', Q (tr ++ tr'))
  | Panicked s => Q tr (Panicked s)
  end.

Lemma wp_bind {A B} (p : prog A) (f : A → prog B) (Q : trace → outcome B → Prop) :
  wp p (and_then f Q) → wp (pbind p f) Q.
Proof.
  revert Q. induction p as [a|s|o k IH]; intros Q Hwp; simpl in *; [auto..|].
  intros x Hx. apply IH. eapply wp_mono; [|exact (Hwp x Hx)].
  intros tr [a|s]; simpl; auto.
Qed.

Lemma wp_call (o : Op) (Q : trace → outcome (Ans o) → Prop) :
  (∀ x, R o x → Q [Ev o x] (Returned x)) → wp (call o) Q.
Proof. auto. Qed.
End wp.

Lemma wp_rely {A} (R R' : ∀ o, Ans o → Prop) (p : prog A) Q :
  (∀ o x, R' o x → R o x) → wp R p Q → wp R' p Q.
Proof.
  intros HR. revert Q. induction p as [a|s|o k IH]; simpl; auto.
Qed.

(** No assumption on the answers at all. *)
Definition anything (o : Op) (_ : Ans o) : Prop := True.

(** ** Running against one environment *)
Section run.
Context {W : Type} (h : ∀ o : Op, W → Ans o * W).

Fixpoint run {A} (p : prog A) (w : W) : outcome A * trace * W :=
  match p with
  | Return a => (Returned a, [], w)
  | Panic s => (Panicked s, [], w)
  | Call o k =>
      let '(x, w') := h o w in
      let '(out, tr, w'') := run (k x) w' in
      (out, Ev o x :: tr, w'')
  end.

(** Every run of a program with a [wp] satisfies it: the environment only
    has to answer within the rely condition. *)
Lemma wp_run {A} (R : ∀ o, Ans o → Prop) (p : prog A) Q w out tr w' :
  (∀ o w0, R o (fst (h o w0))) →
  wp R p Q → run p w = (out, tr, w') → Q tr out.
Proof.
  intros HR. revert Q w out tr w'.
  induction p as [a|s|o k IH]; intros Q w out tr w' Hwp Hrun; simpl in *.
  - by simplify_eq.
  - by simplify_eq.
  - specialize (HR o w). destruct (h o w) as [x w1]. simpl in HR.
    destruct (run (k x) w1) as [[out1 tr1] w2] eqn:Hk. simplify_eq.
    exact (IH x _ _ _ _ _ (Hwp x HR) Hk).
Qed.

Lemma run_bind {A B} (p : prog A) (f : A → prog B) w :
  run (pbind p f) w =
    match run p w with
    | (Returned a, tr, w1) =>
        let '(out, tr', w2) := run (f a) w1 in (out, tr ++ tr', w2)
    | (Panicked s, tr, w1) => (Panicked s, tr, w1)
    end.
Proof.
  revert w. induction p as [a|s|o k IH]; intros w; simpl; [|done|].
  - by destruct (run (f a) w) as [[??]?].
  - destruct (h o w) as [x w1]. rewrite IH.
    destruct (run (k x) w1) as [[[a|s] tr] w2]; [|done].
    by destruct (run (f a) w2) as [[??]?].
Qed.
End run.

(** ** Every call of a program that never panics *)
Fixpoint calls {A} (P : Op → Prop) (p : prog A) : Prop :=
  match p with
  | Return _ => True
  | Panic _ => False
  | Call o k => P o ∧ ∀ x, calls P (k x)
  end.

Lemma calls_wp {A} (P : Op → Prop) R (p : prog A) :
  calls P p → wp R p (λ tr o, Forall (λ e, P (ev_op e)) tr ∧ ∃ a, o = Returned a).
Proof.
  induction p as [a|s|o k IH]; simpl; [by eauto|done|].
  intros [Ho Hk] x _. eapply wp_mono; [|exact (IH x (Hk x))].
  simpl. intros tr out [Htr Hout]. by split; [constructor|].
Qed.

Lemma calls_bind {A B} (P : Op → Prop) (p : prog A) (f : A → prog B) :
  calls P p → (∀ a, calls P (f a)) → calls P (pbind p f).
Proof.
  intros Hp Hf. induction p as [a|s|o k IH]; simpl in *; [by apply Hf|done|].
  destruct Hp as [Ho Hk]. split; [done|]. intros x. by apply IH.
Qed.
End effects.
Global Arguments prog {Op} Ans A.
Global Arguments outcome A : clear implicits.
Global Arguments Ev {Op Ans} ev_op ev_ans.
Global Arguments event {Op} Ans.
Abbreviation trace Ans := (list (event Ans)).

(** [let! x := op in k] makes the call [op] and continues with its answer;
    [do! op; k] ignores the answer; [bind! x := p in k] sequences programs. *)
Notation "'let!' x := o 'in' k" := (Call o (λ x, k))
  (at level 10, x name, o at level 100, k at level 200).
Notation "'do!' o ; k" := (Call o (λ _, k))
  (at level 10, o at level 100, k at level 200).
Notation "'bind!' x := p 'in' k" := (pbind p (λ x, k))
  (at level 10, x name, p at level 100, k at level 200).
Notation "'bind!' ' x := p 'in' k" := (pbind p (λ y, match y with x => k end))
  (at level 10, x pattern, p at level 100, k at level 200).

(** ** Loops *)
Section loops.
Context {Op : Type} {Ans : Op → Type}.

(** Go's [for _, x := range l] whose body may leave the loop with an error:
    the accumulator threads the variables the body assigns. *)
Fixpoint range_err {X S} (l : list X) (s : S) (body : S → X → prog Ans (res S))
    : prog Ans (res S) :=
  match l with
  | [] => Return (Ok s)
  | x :: l' =>
      bind! r := body s x in
      match r with
      | Ok s' => range_err l' s' body
      | Err e => Return (Err e)
      end
  end.

(** The same loop when the body cannot leave it early. *)
Fixpoint range_do {X S} (l : list X) (s : S) (body : S → X → prog Ans S) : prog Ans S :=
  match l with
  | [] => Return s
  | x :: l' => bind! s' := body s x in range_do l' s' body
  end.

Lemma range_err_cons {X S} (x : X) l (s : S) body :
  range_err (x :: l) s body =
  (bind! r := body s x in match r with Ok s' => range_err l s' body | Err e => Return (Err e) end).
Proof. done. Qed.
Lemma range_do_cons {X S} (x : X) l (s : S) body :
  range_do (x :: l) s body = (bind! s' := body s x in range_do l s' body).
Proof. done. Qed.

Lemma calls_range_err {X S} (P : Op → Prop) (l : list X) (s : S) body :
  (∀ s x, calls P (body s x)) → calls (Ans := Ans) P (range_err l s body).
Proof.
  intros Hb. revert s. induction l as [|x l IH]; intros s; simpl; [done|].
  apply calls_bind; [done|]. intros [s'|e]; simpl; auto.
Qed.
Lemma calls_range_do {X S} (P : Op → Prop) (l : list X) (s : S) body :
  (∀ s x, calls P (body s x)) → calls (Ans := Ans) P (range_do l s body).
Proof.
  intros Hb. revert s. induction l as [|x l IH]; intros s; simpl; [done|].
  apply calls_bind; auto.
Qed.
End loops.

(** ** Monitors: safety properties of traces as state machines

    A monitor reads the events of a run one by one and either moves to a new
    state or rejects.  [guarded] is the program logic for "the monitor never
    rejects": a Hoare logic whose assertions are about the monitor state. *)
Section monitors.
Context {Op : Type} {Ans : Op → Type}.
Context (R : ∀ o : Op, Ans o → Prop) {S : Type} (mon : S → event Ans → option S).

Fixpoint accepts (s : S) (tr : trace Ans) : option S :=
  match tr with
  | [] => Some s
  | e :: tr' => match mon s e with Some s' => accepts s' tr' | None => None end
  end.

Lemma accepts_app s tr1 tr2 :
  accepts s (tr1 ++ tr2) = match accepts s tr1 with Some s' => accepts s' tr2 | None => None end.
Proof. revert s. induction tr1 as [|e tr1 IH]; intros s; simpl; [done|]. by destruct (mon s e). Qed.

Fixpoint guarded {A} (s : S) (p : prog Ans A) (Q : S → outcome A → Prop) : Prop :=
  match p with
  | Return a => Q s (Returned a)
  | Panic w => Q s (Panicked w)
  | Call o k => ∀ x, R o x → ∃ s', mon s (Ev o x) = Some s' ∧ guarded s' (k x) Q
  end.

Lemma guarded_wp {A} s (p : prog Ans A) Q :
  guarded s p Q → wp R p (λ tr out, ∃ s', accepts s tr = Some s' ∧ Q s' out).
Proof.
  revert s. induction p as [a|w|o k IH]; intros s; simpl; [by eauto..|].
  intros Hg x Hx. destruct (Hg x Hx) as (s' & Hs & Hk). rewrite Hs. by apply IH.
Qed.

Lemma guarded_mono {A} s (p : prog Ans A) (Q Q' : S → outcome A → Prop) :
  (∀ s' o, Q s' o → Q' s' o) → guarded s p Q → guarded s p Q'.
Proof.
  intros HQ. revert s. induction p as [a|w|o k IH]; intros s; simpl; [by eauto..|].
  intros Hg x Hx. destruct (Hg x Hx) as (s' & Hs & Hk). eauto.
Qed.

(** What [guarded] says between two sequenced programs. *)
Definition continue {A B} (f : A → prog Ans B) (Q : S → outcome B → Prop)
    (s : S) (o : outcome A) : Prop :=
  match o with
  | Returned a => guarded s (f a) Q
  | Panicked w => Q s (Panicked w)
  end.
Lemma guarded_bind {A B} s (p : prog Ans A) (f : A → prog Ans B) Q :
  guarded s p (continue f Q) → guarded s (pbind p f) Q.
Proof.
  revert s. induction p as [a|w|o k IH]; intros s; simpl; [done..|].
  intros Hg x Hx. destruct (Hg x Hx) as (s' & Hs & Hk). eauto.
Qed.

(** Loops: an invariant of the monitor state and the accumulator. *)
Lemma guarded_range_err {X A} (I : S → A → Prop) (E : S → Prop) (l : list X) (body : A → X → prog Ans (res A)) :
  (∀ s a x, I s a → guarded s (body a x) (λ s' o,
     match o with Returned (Ok a') => I s' a' | Returned (Err _) => E s' | Panicked _ => False end)) →
  ∀ s a, I s a → guarded s (range_err l a body) (λ s' o,
     match o with Returned (Ok a') => I s' a' | Returned (Err _) => E s' | Panicked _ => False end).
Proof.
  intros Hbody. induction l as [|x l IH]; intros s a HI; simpl; [done|].
  apply guarded_bind. eapply guarded_mono; [|by apply Hbody].
  intros s' [[a'|e]|w]; simpl; auto.
Qed.
Lemma guarded_range_do {X A} (I : S → A → Prop) (l : list X) (body : A → X → prog Ans A) :
  (∀ s a x, I s a → guarded s (body a x) (λ s' o,
     match o with Returned a' => I s' a' | Panicked _ => False end)) →
  ∀ s a, I s a → guarded s (range_do l a body) (λ s' o,
     match o with Returned a' => I s' a' | Panicked _ => False end).
Proof.
  intros Hbody. induction l as [|x l IH]; intros s a HI; simpl; [done|].
  apply guarded_bind. eapply guarded_mono; [|by apply Hbody].
  intros s' [a'|w]; simpl; auto.
Qed.

(** A program whose calls the monitor ignores in state [s]. *)
Lemma guarded_ignored {A} s (P : Op → Prop) (p : prog Ans A) :
  (∀ o x, P o → mon s (Ev o x) = Some s) → calls P p →
  guarded s p (λ s' o, s' = s ∧ ∃ a, o = Returned a).
Proof.
  intros HP. induction p as [a|w|o k IH]; simpl; [by eauto|done|].
  intros [Ho Hk] x _. exists s. rewrite HP by done. eauto.
Qed.
End monitors.
Global Arguments guarded {Op Ans} R {S} mon {A} s p Q.
Global Arguments continue {Op Ans} R {S} mon {A B} f Q s o.

(** ** Environments with state

    [answers w o x w'] says that in world [w] the call [o] may be answered [x],
    leaving the world [w']: an environment that may fail at will is a relation.  [exec]
    runs a program in it, and [sat p w Q] is the Hoare triple that every run from [w]
    ends in [Q]. *)
Section environment.
Context {Op : Type} {Ans : Op → Type} {W : Type}.
Context (answers : W → ∀ o : Op, Ans o → W → Prop).

Inductive exec {A} : prog Ans A → W → outcome A → W → Prop :=
| exec_return a w : exec (Return a) w (Returned a) w
| exec_panic s w : exec (Panic s) w (Panicked s) w
| exec_call o k x w w1 out w2 :
    answers w o x w1 → exec (k x) w1 out w2 → exec (Call o k) w out w2.

Fixpoint sat {A} (p : prog Ans A) (w : W) (Q : outcome A → W → Prop) : Prop :=
  match p with
  | Return a => Q (Returned a) w
  | Panic s => Q (Panicked s) w
  | Call o k => ∀ x w', answers w o x w' → sat (k x) w' Q
  end.

Lemma sat_exec {A} (p : prog Ans A) w Q out w' : sat p w Q → exec p w out w' → Q out w'.
Proof. intros Hs He. induction He as [| |o k x w w1 out w2 Ha He IH]; simpl in *; [done..|]. by apply IH, Hs. Qed.

Lemma sat_mono {A} (p : prog Ans A) w (Q Q' : outcome A → W → Prop) :
  (∀ o w', Q o w' → Q' o w') → sat p w Q → sat p w Q'.
Proof.
  intros HQ. revert w. induction p as [a|s|o k IH]; intros w; simpl; [auto..|].
  intros Hs x w' Hx. by eapply IH, Hs.
Qed.

Lemma sat_bind {A B} (p : prog Ans A) (f : A → prog Ans B) w Q :
  sat p w (λ o w', match o with Returned a => sat (f a) w' Q | Panicked s => Q (Panicked s) w' end) →
  sat (pbind p f) w Q.
Proof.
  revert w. induction p as [a|s|o k IH]; intros w; simpl; [done..|].
  intros Hs x w' Hx. by apply IH, Hs.
Qed.

(** A program whose calls leave the world alone. *)
Lemma sat_neutral {A} (P : Op → Prop) (p : prog Ans A) w :
  (∀ o x w w', P o → answers w o x w' → w' = w) → calls P p →
  sat p w (λ o w', w' = w ∧ ∃ a, o = Returned a).
Proof.
  intros HP. revert w. induction p as [a|s|o k IH]; intros w; simpl; [by eauto|done|].
  intros [Ho Hk] x w' Hx. rewrite (HP _ _ _ _ Ho Hx). by apply IH.
Qed.
Lemma sat_neutral_bind {A B} (P : Op → Prop) (p : prog Ans A) (f : A → prog Ans B) w Q :
  (∀ o x w w', P o → answers w o x w' → w' = w) → calls P p →
  (∀ a, sat (f a) w Q) → sat (pbind p f) w Q.
Proof.
  intros HP Hp Hf. apply sat_bind. eapply sat_mono; [|by eapply sat_neutral].
  intros o w' [-> [a ->]]. apply Hf.
Qed.
End environment.
