(* ===== verification/TunnelServer.v ===== *)
(** * The tunnel server (src/internal/tunnel/server.go)

    [Server] is the shared record guarded by [s.mu].  Each critical section of
    a handler is one function on it ([pick], [register], [unregister], [push],
    [load_targets]); the goroutines interleave between critical sections only,
    so the behaviour of the running server is the step relation [step] over
    them.  What a handler does around its critical section is a program over
    the network calls it makes ([handleTCP], [handleWS]). *)
From S2P Require Import Prelude GoStd Effects.
Local Open Scope Z_scope.

(** A [*yamux.Session]: only the identity of the pointer matters. *)
Abbreviation session := positive.

Record Server := {
  listenAddr : string;
  wsAddr : string;
  authToken : string;
  sessions : list session;
  targets : list string;
  pushTargets : list string;
  targetsFile : string;
  lastPushTime : Z;
  rrIndex : Z
}.

Definition NewServer (listenAddr wsAddr authToken : string) (targets : list string) : Server :=
  {| listenAddr := listenAddr; wsAddr := wsAddr; authToken := authToken; sessions := [];
     targets := targets; pushTargets := []; targetsFile := ""; lastPushTime := Time.zero;
     rrIndex := 0 |}.

(** Field assignments of the Go code. *)
Definition set_sessions (ss : list session) (s : Server) : Server :=
  {| listenAddr := listenAddr s; wsAddr := wsAddr s; authToken := authToken s; sessions := ss;
     targets := targets s; pushTargets := pushTargets s; targetsFile := targetsFile s;
     lastPushTime := lastPushTime s; rrIndex := rrIndex s |}.
Definition set_targets (ts : list string) (s : Server) : Server :=
  {| listenAddr := listenAddr s; wsAddr := wsAddr s; authToken := authToken s;
     sessions := sessions s; targets := ts; pushTargets := pushTargets s;
     targetsFile := targetsFile s; lastPushTime := lastPushTime s; rrIndex := rrIndex s |}.
Definition set_push (ts : list string) (now : Z) (s : Server) : Server :=
  {| listenAddr := listenAddr s; wsAddr := wsAddr s; authToken := authToken s;
     sessions := sessions s; targets := targets s; pushTargets := ts;
     targetsFile := targetsFile s; lastPushTime := now; rrIndex := rrIndex s |}.
Definition set_rrIndex (i : Z) (s : Server) : Server :=
  {| listenAddr := listenAddr s; wsAddr := wsAddr s; authToken := authToken s;
     sessions := sessions s; targets := targets s; pushTargets := pushTargets s;
     targetsFile := targetsFile s; lastPushTime := lastPushTime s; rrIndex := i |}.

Definition SetTargetsFile (path : string) (s : Server) : Server :=
  {| listenAddr := listenAddr s; wsAddr := wsAddr s; authToken := authToken s;
     sessions := sessions s; targets := targets s; pushTargets := pushTargets s;
     targetsFile := path; lastPushTime := lastPushTime s; rrIndex := rrIndex s |}.

(** ** Choosing a target and a session: the critical section of [handleTCP] *)
Inductive pick_result :=
| NoSession
| NoTarget
| Picked (target : string) (sessionIdx : Z) (sess : session)
| IndexOutOfRange.

Definition pick (s : Server) : Server * pick_result :=
  if bool_decide (length (sessions s) = 0)%nat then (s, NoSession)
  else if bool_decide (length (targets s) = 0)%nat then (s, NoTarget)
  else
    let targetIdx := rrIndex s mod Z.of_nat (length (targets s)) in
    let sessionIdx := rrIndex s mod Z.of_nat (length (sessions s)) in
    match targets s !! Z.to_nat targetIdx, sessions s !! Z.to_nat sessionIdx with
    | Some target, Some sess =>
        (set_rrIndex (Int.uint64 (rrIndex s + 1)) s, Picked target sessionIdx sess)
    | _, _ => (s, IndexOutOfRange)
    end.

(** ** Session registry: the critical sections of [handleWS] *)
Definition register (session : session) (s : Server) : Server :=
  set_sessions (sessions s ++ [session]) s.

(** [append(s.sessions[:i], s.sessions[i+1:]...)] at the first match. *)
Fixpoint remove_first (x : session) (l : list session) : list session :=
  match l with
  | [] => []
  | y :: l' => if decide (y = x) then l' else y :: remove_first x l'
  end.
Definition unregister (session : session) (s : Server) : Server :=
  set_sessions (remove_first session (sessions s)) s.

(** The token check at the top of [handleWS]. *)
Definition auth_ok (s : Server) (token : string) : bool :=
  String.eqb (authToken s) "" || String.eqb token (authToken s).

(** ** Targets *)
(** Comma-separated targets, blanks trimmed, empty ones dropped. *)
Definition split_targets (raw : string) : list string :=
  filter (λ t, t ≠ "") (Strings.TrimSpace <$> Strings.Split raw ","%char).

Fixpoint targetsEqual (a b : list string) : bool :=
  match a, b with
  | [], [] => true
  | x :: a', y :: b' => String.eqb x y && targetsEqual a' b'
  | _, _ => false
  end.

(** What [loadTargetsFromFile] reads out of the file's bytes. *)
Definition file_targets (data : string) : list string :=
  let content := Strings.TrimSpace data in
  if String.eqb content "" then [] else split_targets content.

(** [loadTargetsFromFile] at time [now]; [None] is a failed [os.ReadFile]. *)
Definition loadTargetsFromFile (now : Z) (file : option string) (s : Server) : Server :=
  match file with
  | None => s
  | Some data =>
      let newTargets := file_targets data in
      if negb (Time.IsZero (lastPushTime s))
         && (Time.Sub now (lastPushTime s) <? 2 * Time.minute)
         && negb (targetsEqual newTargets (pushTargets s))
      then s
      else if targetsEqual newTargets (targets s) then s
      else set_targets newTargets s
  end.

(** The critical section of a push reload. *)
Definition push (now : Z) (newTargets : list string) (s : Server) : Server :=
  set_push newTargets now (set_targets newTargets s).

Definition StatusOK : Z := 200.
Definition StatusMethodNotAllowed : Z := 405.

(** [handleReload]: the new server state and the HTTP status. *)
Definition handleReload (now : Z) (file : option string) (method rawQuery : string) (s : Server)
    : Server * Z :=
  if negb (String.eqb method "POST") then (s, StatusMethodNotAllowed)
  else
    let ts := Url.Get (Url.Query rawQuery) "targets" in
    if negb (String.eqb ts "") then (push now (split_targets ts) s, StatusOK)
    else (loadTargetsFromFile now file s, StatusOK).

(** ** The handlers around their critical sections *)
Inductive net_op :=
| LockedPick                            (* the critical section of handleTCP *)
| SessionOpen (sess : session)          (* sess.Open() *)
| StreamWrite (data : string)           (* stream.Write *)
| Pipe                                  (* both io.Copy goroutines, until one ends *)
| StreamClose
| ConnClose
| Upgrade                               (* upgrader.Upgrade *)
| YamuxServer                           (* yamux.Server(conn, config) *)
| LockedRegister (sess : session)
| WaitClosed (sess : session)           (* the loop on session.IsClosed() *)
| LockedUnregister (sess : session)
| SessionClose (sess : session)
| HttpError (code : Z).

Definition net_ans (o : net_op) : Type :=
  match o with
  | LockedPick => pick_result
  | SessionOpen _ | StreamWrite _ | Upgrade => res unit
  | YamuxServer => res session
  | _ => unit
  end.
Abbreviation net := (prog net_ans).

(** [handleTCP]: the deferred [conn.Close()] and [stream.Close()] run on every
    path, in reverse order of their registration. *)
Definition handleTCP : net unit :=
  let! p := LockedPick in
  match p with
  | NoSession | NoTarget => do! ConnClose; Return tt
  | IndexOutOfRange => do! ConnClose; Return tt       (* the panic is recovered *)
  | Picked target _ sess =>
      let! r := SessionOpen sess in
      match r with
      | Err _ => do! ConnClose; Return tt
      | Ok _ =>
          let! w := StreamWrite (target +:+ String "010"%char "") in
          match w with
          | Err _ => do! StreamClose; do! ConnClose; Return tt
          | Ok _ => do! Pipe; do! StreamClose; do! ConnClose; Return tt
          end
      end
  end.

Definition StatusForbidden : Z := 403.

(** [handleWS] for a request that carries [token] in its query. *)
Definition handleWS (authToken token : string) : net unit :=
  if negb (String.eqb authToken "") && negb (String.eqb token authToken)
  then do! HttpError StatusForbidden; Return tt
  else
    let! u := Upgrade in
    match u with
    | Err _ => Return tt
    | Ok _ =>
        let! y := YamuxServer in
        match y with
        | Err _ => do! ConnClose; Return tt
        | Ok session =>
            do! LockedRegister session;
            do! WaitClosed session;
            do! LockedUnregister session;
            do! SessionClose session;
            Return tt
        end
    end.

(** Observations on the calls of a handler. *)
Definition is_conn_close (e : event net_ans) : bool :=
  match ev_op e with ConnClose => true | _ => false end.
Definition closed_last (tr : trace net_ans) : bool :=
  match rev tr with
  | e :: tr' => is_conn_close e && forallb (λ e, negb (is_conn_close e)) tr'
  | [] => false
  end.
Definition opens_stream (e : event net_ans) : bool :=
  match e with {| ev_op := o; ev_ans := x |} =>
    match o return net_ans o → bool with SessionOpen _ => λ x, is_ok x | _ => λ _, false end x
  end.
Definition closes_stream (e : event net_ans) : bool :=
  match ev_op e with StreamClose => true | _ => false end.

(** A monitor: the target picked so far, whether its header has been written. *)
Fixpoint header_first (picked : option string) (written : bool) (tr : trace net_ans) : bool :=
  match tr with
  | [] => true
  | {| ev_op := o; ev_ans := x |} :: tr' =>
      match o return net_ans o → bool with
      | LockedPick => λ x, header_first (match x with Picked t _ _ => Some t | _ => picked end) written tr'
      | StreamWrite d => λ x,
          let ok := match picked with Some t => String.eqb d (t +:+ String "010"%char "") | None => false end in
          ok && header_first picked (is_ok x) tr'
      | Pipe => λ _, written && header_first picked written tr'
      | _ => λ _, header_first picked written tr'
      end x
  end.

(** The answer of the critical section when it is run on the server [s]; a stream that opens, a
    header that is written; whether bytes were piped. *)
Definition picks_in (s : Server) (o : net_op) : net_ans o → Prop :=
  match o return net_ans o → Prop with LockedPick => λ p, p = snd (pick s) | _ => λ _, True end.
Definition went_well (e : event net_ans) : Prop :=
  match e with {| ev_op := o; ev_ans := x |} =>
    match o return net_ans o → Prop with
    | SessionOpen _ | StreamWrite _ => λ x, x = Ok tt
    | _ => λ _, True
    end x
  end.
Definition piped (tr : trace net_ans) : Prop := Pipe ∈ ev_op <$> tr.

(** Sessions created, registered, unregistered and closed along a run. *)
Definition created (e : event net_ans) : option session :=
  match e with {| ev_op := o; ev_ans := x |} =>
    match o return net_ans o → option session with
    | YamuxServer => λ x, match x with Ok s => Some s | Err _ => None end
    | _ => λ _, None
    end x
  end.
Definition registered (e : event net_ans) : option session :=
  match ev_op e with LockedRegister s => Some s | _ => None end.
Definition unregistered (e : event net_ans) : option session :=
  match ev_op e with LockedUnregister s => Some s | _ => None end.
Definition closed (e : event net_ans) : option session :=
  match ev_op e with SessionClose s => Some s | _ => None end.

(** ** The running server: interleaved critical sections

    [handlers] holds the runs of [handleWS] that have created a session, with the token their
    request presented and how far they are: the session is created, or it is in the registry and
    the handler sleeps in its loop on [IsClosed].  A session closes (the client goes away, a
    keep-alive fails) at any time and on its own: it joins [dead], and the registry does not
    change.  Only when its handler wakes up and sees [IsClosed] is it unregistered.  [used] are all
    sessions ever created, so that a new session is a fresh pointer. *)
Inductive ws_phase := Created | Registered.
Record world := {
  srv : Server;
  handlers : gmap session (string * ws_phase);
  dead : gset session;
  used : gset session
}.

Inductive label :=
| LSession (session : session) (token : string)
| LRegister (session : session)
| LClose (session : session)
| LUnregister (session : session)
| LTCP (p : pick_result)
| LPush (now : Z) (rawQuery : string)
| LPull (now : Z) (file : option string)
| LWatch (now : Z) (file : option string).

Inductive step : world → label → world → Prop :=
| step_session s h d u session token :
    auth_ok s token = true → session ∉ u →
    step {| srv := s; handlers := h; dead := d; used := u |} (LSession session token)
         {| srv := s; handlers := <[session := (token, Created)]> h; dead := d; used := {[session]} ∪ u |}
| step_register s h d u session token :
    h !! session = Some (token, Created) →
    step {| srv := s; handlers := h; dead := d; used := u |} (LRegister session)
         {| srv := register session s; handlers := <[session := (token, Registered)]> h; dead := d; used := u |}
| step_close s h d u session :
    session ∈ u →
    step {| srv := s; handlers := h; dead := d; used := u |} (LClose session)
         {| srv := s; handlers := h; dead := {[session]} ∪ d; used := u |}
| step_unregister s h d u session token :
    h !! session = Some (token, Registered) → session ∈ d →
    step {| srv := s; handlers := h; dead := d; used := u |} (LUnregister session)
         {| srv := unregister session s; handlers := delete session h; dead := d; used := u |}
| step_tcp s h d u :
    step {| srv := s; handlers := h; dead := d; used := u |} (LTCP (snd (pick s)))
         {| srv := fst (pick s); handlers := h; dead := d; used := u |}
| step_push s h d u now raw :
    Url.Get (Url.Query raw) "targets" ≠ "" →
    step {| srv := s; handlers := h; dead := d; used := u |} (LPush now raw)
         {| srv := fst (handleReload now None "POST" raw s); handlers := h; dead := d; used := u |}
| step_pull s h d u now file raw :
    Url.Get (Url.Query raw) "targets" = "" →
    step {| srv := s; handlers := h; dead := d; used := u |} (LPull now file)
         {| srv := fst (handleReload now file "POST" raw s); handlers := h; dead := d; used := u |}
| step_watch s h d u now file :
    step {| srv := s; handlers := h; dead := d; used := u |} (LWatch now file)
         {| srv := loadTargetsFromFile now file s; handlers := h; dead := d; used := u |}.

Inductive steps : world → list label → world → Prop :=
| steps_nil w : steps w [] w
| steps_cons w1 a w2 ls w3 : step w1 a w2 → steps w2 ls w3 → steps w1 (a :: ls) w3.

Definition initial (listen ws token : string) (ts : list string) : world :=
  {| srv := NewServer listen ws token ts; handlers := ∅; dead := ∅; used := ∅ |}.

(** ** Lemmas *)
#[global] Instance pick_result_eq_dec : EqDecision pick_result.
Proof. solve_decision. Defined.

Lemma targetsEqual_true a b : targetsEqual a b = true ↔ a = b.
Proof.
  revert b. induction a as [|x a IH]; intros [|y b]; simpl; try done.
  rewrite andb_true_iff, String.eqb_eq, IH. naive_solver.
Qed.

Lemma remove_first_elem x y l : NoDup l → y ∈ remove_first x l ↔ y ∈ l ∧ y ≠ x.
Proof.
  induction 1 as [|z l Hz Hl IH]; simpl; [set_solver|].
  case_decide; set_solver.
Qed.
Lemma remove_first_NoDup x l : NoDup l → NoDup (remove_first x l).
Proof.
  induction 1 as [|z l Hz Hl IH]; simpl; [constructor|]. case_decide; [done|].
  constructor; [|done]. rewrite remove_first_elem by done. naive_solver.
Qed.

(** The two lookups of [pick] succeed: the indices are in range. *)
Lemma mod_lookup {A} (l : list A) i :
  0 ≤ i → l ≠ [] → ∃ x, l !! Z.to_nat (i mod Z.of_nat (length l)) = Some x.
Proof.
  intros Hi Hl. apply lookup_lt_is_Some. destruct l as [|x l]; [done|]. simpl length.
  pose proof (Z.mod_pos_bound i (Z.of_nat (S (length l)))). lia.
Qed.

Lemma pick_live s :
  0 ≤ rrIndex s → sessions s ≠ [] → targets s ≠ [] →
  ∃ target sess,
    targets s !! Z.to_nat (rrIndex s mod Z.of_nat (length (targets s))) = Some target ∧
    sessions s !! Z.to_nat (rrIndex s mod Z.of_nat (length (sessions s))) = Some sess ∧
    pick s = (set_rrIndex (Int.uint64 (rrIndex s + 1)) s,
              Picked target (rrIndex s mod Z.of_nat (length (sessions s))) sess).
Proof.
  intros Hi Hs Ht. unfold pick.
  rewrite !bool_decide_eq_false_2 by (by intros ?%length_zero_iff_nil).
  destruct (mod_lookup (targets s) (rrIndex s)) as [t Htt]; [done..|].
  destruct (mod_lookup (sessions s) (rrIndex s)) as [ss Hss]; [done..|].
  exists t, ss. by rewrite Htt, Hss.
Qed.

(** The cases of the critical section. *)
Lemma pick_cases s :
  0 ≤ rrIndex s →
  match snd (pick s) with
  | NoSession => sessions s = []
  | NoTarget => targets s = []
  | Picked target _ sess => sessions s ≠ [] ∧ targets s ≠ [] ∧ target ∈ targets s ∧ sess ∈ sessions s
  | IndexOutOfRange => False
  end.
Proof.
  intros Hi. destruct (decide (sessions s = [])) as [He|He].
  { unfold pick. by rewrite bool_decide_eq_true_2 by (by rewrite He). }
  destruct (decide (targets s = [])) as [Ht|Ht].
  { unfold pick. rewrite bool_decide_eq_false_2 by (by intros ?%length_zero_iff_nil).
    by rewrite bool_decide_eq_true_2 by (by rewrite Ht). }
  destruct (pick_live s) as (t & ss & Hlt & Hls & Hp); [done..|].
  rewrite Hp; simpl. by apply list_elem_of_lookup_2 in Hlt, Hls.
Qed.

(** The server record as [pick] leaves it. *)
Lemma pick_frame s :
  targets (fst (pick s)) = targets s ∧ sessions (fst (pick s)) = sessions s ∧
  authToken (fst (pick s)) = authToken s ∧
  pushTargets (fst (pick s)) = pushTargets s ∧ lastPushTime (fst (pick s)) = lastPushTime s.
Proof. unfold pick. repeat case_match; by simplify_eq/=. Qed.

Lemma load_frame now file s :
  let s' := loadTargetsFromFile now file s in
  sessions s' = sessions s ∧ authToken s' = authToken s ∧ rrIndex s' = rrIndex s ∧
  pushTargets s' = pushTargets s ∧ lastPushTime s' = lastPushTime s.
Proof. unfold loadTargetsFromFile. destruct file; [|done]. by repeat case_match. Qed.

Lemma reload_frame now file method raw s :
  let s' := fst (handleReload now file method raw s) in
  sessions s' = sessions s ∧ authToken s' = authToken s ∧ rrIndex s' = rrIndex s.
Proof.
  unfold handleReload. pose proof (load_frame now file s). repeat case_match; naive_solver.
Qed.

(** ** Invariants of the running server *)
Definition inv (token : string) (w : world) : Prop :=
  NoDup (sessions (srv w)) ∧
  (∀ x, x ∈ sessions (srv w) ↔ ∃ t, handlers w !! x = Some (t, Registered)) ∧
  (∀ x, is_Some (handlers w !! x) → x ∈ used w) ∧
  (∀ x, x ∈ used w → x ∉ dead w → is_Some (handlers w !! x)) ∧
  (∀ x t ph, handlers w !! x = Some (t, ph) → token ≠ "" → t = token) ∧
  authToken (srv w) = token ∧
  0 ≤ rrIndex (srv w) < 2 ^ 64.

Lemma inv_initial listen ws token ts : inv token (initial listen ws token ts).
Proof.
  unfold inv, initial; simpl. split_and!; try done; try lia.
  - constructor.
  - intros x. split; [set_solver|]. intros [t ?]; simplify_map_eq.
  - intros x [? ?]; simplify_map_eq.
Qed.

(** Steps that change neither the registry nor the token keep the invariant. *)
Lemma inv_frame token s s' h d u :
  sessions s' = sessions s → authToken s' = authToken s → 0 ≤ rrIndex s' < 2 ^ 64 →
  inv token {| srv := s; handlers := h; dead := d; used := u |} →
  inv token {| srv := s'; handlers := h; dead := d; used := u |}.
Proof. unfold inv. simpl. intros -> -> ?. naive_solver. Qed.

Lemma pick_rrIndex s : 0 ≤ rrIndex s < 2 ^ 64 → 0 ≤ rrIndex (fst (pick s)) < 2 ^ 64.
Proof.
  intros. unfold pick. repeat case_match; simpl; try done.
  unfold Int.uint64. apply Z.mod_pos_bound. lia.
Qed.

(** The steps of [handleWS] around its session. *)
Lemma inv_session token s h d u x t :
  auth_ok s t = true → x ∉ u → inv token {| srv := s; handlers := h; dead := d; used := u |} →
  inv token {| srv := s; handlers := <[x := (t, Created)]> h; dead := d; used := {[x]} ∪ u |}.
Proof.
  intros Hauth Hx (Hnd & Hreg & Hused & Hopen & Htok & Hau & Hrr). unfold inv in *; simpl in *.
  assert (h !! x = None) as Hnew by (apply eq_None_not_Some; auto).
  split_and!; try done; try lia.
  - intros y. rewrite Hreg. destruct (decide (x = y)) as [->|Hne]; simplify_map_eq; naive_solver.
  - intros y. destruct (decide (x = y)) as [->|Hne]; simplify_map_eq; set_solver.
  - intros y. destruct (decide (x = y)) as [->|Hne]; simplify_map_eq; [by eauto|]. intros ? ?. apply Hopen; set_solver.
  - intros y t' ph. destruct (decide (x = y)) as [->|Hne]; simplify_map_eq; [|by eauto].
    intros ? Ht. simplify_eq. unfold auth_ok in Hauth.
    apply orb_true_iff in Hauth as [?%String.eqb_eq|?%String.eqb_eq]; congruence.
Qed.
Lemma inv_register token s h d u x t :
  h !! x = Some (t, Created) → inv token {| srv := s; handlers := h; dead := d; used := u |} →
  inv token {| srv := register x s; handlers := <[x := (t, Registered)]> h; dead := d; used := u |}.
Proof.
  intros Hx (Hnd & Hreg & Hused & Hopen & Htok & Hau & Hrr). unfold inv in *; simpl in *.
  assert (x ∉ sessions s) as Hxs by (rewrite Hreg; naive_solver).
  split_and!; try done; try lia.
  - apply NoDup_app. split_and!; [done|set_solver|apply NoDup_singleton].
  - intros y. rewrite elem_of_app, list_elem_of_singleton, Hreg.
    destruct (decide (x = y)) as [->|Hne]; simplify_map_eq; naive_solver.
  - intros y. destruct (decide (x = y)) as [->|Hne]; simplify_map_eq; eauto.
  - intros y. destruct (decide (x = y)) as [->|Hne]; simplify_map_eq; eauto.
  - intros y t' ph. destruct (decide (x = y)) as [->|Hne]; simplify_map_eq; eauto. naive_solver.
Qed.
Lemma inv_unregister token s h d u x :
  x ∈ d → inv token {| srv := s; handlers := h; dead := d; used := u |} →
  inv token {| srv := unregister x s; handlers := delete x h; dead := d; used := u |}.
Proof.
  intros Hx (Hnd & Hreg & Hused & Hopen & Htok & Hau & Hrr). unfold inv in *; simpl in *.
  split_and!; try done; try lia.
  - by apply remove_first_NoDup.
  - intros y. rewrite remove_first_elem, Hreg by done.
    destruct (decide (x = y)) as [->|Hne]; simplify_map_eq; naive_solver.
  - intros y. destruct (decide (x = y)) as [->|Hne]; simplify_map_eq; [by intros [??]|]. eauto.
  - intros y. destruct (decide (x = y)) as [->|Hne]; simplify_map_eq; [done|eauto].
  - intros y t' ph. destruct (decide (x = y)) as [->|Hne]; simplify_map_eq; [done|by eauto].
Qed.

Lemma inv_step token w a w' : step w a w' → inv token w → inv token w'.
Proof.
  destruct 1 as [s h d u x t Hauth Hx|s h d u x t Hx|s h d u x Hx|s h d u x t Hx Hd|s h d u
                |s h d u now raw H|s h d u now file raw H|s h d u now file]; intros Hinv.
  - by apply inv_session.
  - by apply inv_register.
  - destruct Hinv as (Hnd & Hreg & Hused & Hopen & Htok & Hau & Hrr). unfold inv in *; simpl in *.
    split_and!; try done; try lia. intros y Hy ?. apply Hopen; [done|set_solver].
  - by apply inv_unregister.
  - destruct (pick_frame s) as (_ & ? & ? & _ & _).
    apply (inv_frame _ s); [done..| |done].
    apply pick_rrIndex. apply Hinv.
  - destruct (reload_frame now None "POST" raw s) as (? & ? & Hr).
    apply (inv_frame _ s); [done..| |done]. rewrite Hr. apply Hinv.
  - destruct (reload_frame now file "POST" raw s) as (? & ? & Hr).
    apply (inv_frame _ s); [done..| |done]. rewrite Hr. apply Hinv.
  - destruct (load_frame now file s) as (? & ? & Hr & _).
    apply (inv_frame _ s); [done..| |done]. rewrite Hr. apply Hinv.
Qed.

Lemma inv_steps token w ls w' : steps w ls w' → inv token w → inv token w'.
Proof. induction 1; eauto using inv_step. Qed.

(** Several connections in a row, nothing else happening in between. *)
Fixpoint picks (n : nat) (s : Server) : list pick_result :=
  match n with
  | O => []
  | S n' => snd (pick s) :: picks n' (fst (pick s))
  end.
Definition picked_target (p : pick_result) : option string :=
  match p with Picked t _ _ => Some t | _ => None end.

(** Without wrap-around of [rrIndex] the [i]-th of them gets target number
    [(rrIndex + i) mod len(targets)]. *)
Lemma picks_lookup n i s :
  (i < n)%nat → 0 ≤ rrIndex s → rrIndex s + Z.of_nat n ≤ 2 ^ 64 →
  sessions s ≠ [] → targets s ≠ [] →
  picked_target <$> picks n s !! i =
    Some (targets s !! Z.to_nat ((rrIndex s + Z.of_nat i) mod Z.of_nat (length (targets s)))).
Proof.
  revert i s. induction n as [|n IH]; intros i s Hi Hr Hn Hs Ht; [lia|].
  destruct (pick_live s) as (t & ss & Hlt & Hls & Hp); [done..|].
  simpl. rewrite Hp. destruct i as [|i]; simpl.
  - by rewrite Z.add_0_r, Hlt.
  - rewrite IH; simpl; [|lia|..]; try done; rewrite ?Int.uint64_id by lia; try lia.
    do 4 f_equal. lia.
Qed.

Lemma picks_length n s : length (picks n s) = n.
Proof. revert s. induction n as [|n IH]; intros s; simpl; [done|]. by rewrite IH. Qed.

(** Pull reloads and the file watcher never touch the targets of a recent push. *)
Lemma load_keeps_push now file s :
  lastPushTime s ≠ Time.zero → Time.Sub now (lastPushTime s) < 2 * Time.minute →
  targets s = pushTargets s → targets (loadTargetsFromFile now file s) = targets s.
Proof.
  intros Hz Hnow Heq. unfold loadTargetsFromFile. destruct file as [data|]; [|done].
  unfold Time.IsZero. rewrite (proj2 (Z.eqb_neq _ _)), (proj2 (Z.ltb_lt _ _)) by done. simpl.
  destruct (targetsEqual (file_targets data) (pushTargets s)) eqn:He; simpl; [|done].
  apply targetsEqual_true in He. rewrite He, <- Heq. by destruct (targetsEqual _ _).
Qed.

(** Labels that do not push, and whose time is within two minutes of [t]. *)
Definition quiet (t : Z) (a : label) : Prop :=
  match a with
  | LPush _ _ => False
  | LPull now _ | LWatch now _ => Time.Sub now t < 2 * Time.minute
  | _ => True
  end.

Definition pushed_state (t : Z) (ts : list string) (s : Server) : Prop :=
  lastPushTime s = t ∧ pushTargets s = ts ∧ targets s = ts.

Lemma quiet_step t ts w a w' :
  t ≠ Time.zero → quiet t a → step w a w' → pushed_state t ts (srv w) → pushed_state t ts (srv w').
Proof.
  intros Hz Hq Hstep (Ht & Hp & Hts).
  destruct Hstep as [s h d u x tok Hauth Hx|s h d u x tok Hx|s h d u x Hx|s h d u x tok Hx Hd|s h d u
                    |s h d u now raw H|s h d u now file raw H|s h d u now file]; simpl in *; try done.
  - destruct (pick_frame s) as (Hf1 & _ & _ & Hf2 & Hf3). unfold pushed_state. by rewrite Hf1, Hf2, Hf3.
  - unfold handleReload; simpl. rewrite H. simpl.
    destruct (load_frame now file s) as (_ & _ & _ & Hf1 & Hf2).
    unfold pushed_state. rewrite Hf1, Hf2, load_keeps_push by congruence. done.
  - destruct (load_frame now file s) as (_ & _ & _ & Hf1 & Hf2).
    unfold pushed_state. rewrite Hf1, Hf2, load_keeps_push by congruence. done.
Qed.

Lemma quiet_steps t ts w ls w' :
  t ≠ Time.zero → Forall (quiet t) ls → steps w ls w' →
  pushed_state t ts (srv w) → pushed_state t ts (srv w').
Proof.
  intros Hz Hq Hsteps. induction Hsteps as [|w1 a w2 ls w3 Ha _ IH]; [done|].
  inversion Hq; subst. intros. apply IH; [done|]. by eapply quiet_step.
Qed.

(** A list of targets as the DockerService controller writes it: trimmed,
    nonempty, without commas. *)
Definition clean_target (t : string) : Prop :=
  Strings.TrimSpace t = t ∧ t ≠ "" ∧ ","%char ∉ Strings.chars t.

Lemma split_targets_join ts :
  ts ≠ [] → Forall clean_target ts → split_targets (Strings.Join ts ",") = ts.
Proof.
  intros Hne Hts. unfold split_targets.
  change ","%string with (Strings.of_chars [","%char]). rewrite Split_Join; [|done|].
  2: { eapply Forall_impl; [exact Hts|]. by intros t (_ & _ & ?). }
  clear Hne. induction Hts as [|t ts (Htrim & Hne & _) _ IH]; [done|].
  rewrite fmap_cons, Htrim, filter_cons_True by done. by rewrite IH.
Qed.

(** What [handleReload] reads out of the query the controller sends. *)
Lemma pushed_query ts :
  ts ≠ [] → Forall clean_target ts →
  let q := Url.Get (Url.Query ("targets=" +:+ Url.QueryEscape (Strings.Join ts ","))) "targets" in
  q ≠ "" ∧ split_targets q = ts.
Proof.
  intros Hne Hts. cbv zeta.
  change ("targets=" +:+ ?x) with ("targets" +:+ "=" +:+ x).
  rewrite Query_Get_escaped by (done || by repeat constructor).
  split; [|by apply split_targets_join].
  destruct Hts as [|t ts (_ & Ht & _) Hts]; [done|]. by destruct t, ts.
Qed.

(** ** Properties *)

(** C20. In every reachable state of the server, whatever the interleaving of handlers,
    sessions that close on their own, TCP connections, pushes and file polls: the session list
    has no duplicates and holds exactly the sessions whose handler has registered them and not
    yet unregistered them, every one of which presented the server's token (if it has one).  A
    session that is still open is never missing from it once its handler has registered it, and
    a closed one that is still listed can always be taken out by its handler, which leaves
    every other session in place. *)
Theorem registry_exact listen ws token ts ls w :
  steps (initial listen ws token ts) ls w →
  NoDup (sessions (srv w)) ∧
  (∀ x, x ∈ sessions (srv w) ↔ ∃ t, handlers w !! x = Some (t, Registered) ∧ (token ≠ "" → t = token)) ∧
  (∀ x, x ∈ used w → x ∉ dead w → (∃ t, handlers w !! x = Some (t, Created)) ∨ x ∈ sessions (srv w)) ∧
  (∀ x, x ∈ sessions (srv w) → x ∈ dead w →
     ∃ w', step w (LUnregister x) w' ∧ ∀ y, y ∈ sessions (srv w') ↔ y ∈ sessions (srv w) ∧ y ≠ x).
Proof.
  intros Hs. destruct (inv_steps token _ _ _ Hs (inv_initial _ _ _ _)) as (Hnd & Hreg & _ & Hopen & Htok & _).
  split_and!; [done|..].
  - intros x. rewrite Hreg. naive_solver.
  - intros x Hx Hd. destruct (Hopen x Hx Hd) as [[t []] Ht]; [eauto|]. right. apply Hreg. eauto.
  - intros x Hx Hd. destruct w as [s h d u]; simpl in *. destruct (proj1 (Hreg x) Hx) as [t Ht].
    eexists. split; [by eapply step_unregister|]. intros y. simpl. by apply remove_first_elem.
Qed.

(** C21. A TCP connection accepted in a reachable state is piped exactly when there are a
    session and a target, the stream opens and the header is written, and dropped otherwise; the
    stream is opened on a registered session only, the header names a configured target, and the
    indices of the critical section never panic.  (A session that has closed and whose handler
    has not woken up yet can be picked; what happens is then up to opening the stream.) *)
Theorem pick_sound listen ws token ts ls w :
  steps (initial listen ws token ts) ls w →
  snd (pick (srv w)) ≠ IndexOutOfRange ∧
  wp (picks_in (srv w)) handleTCP (λ tr _,
    (piped tr ↔ sessions (srv w) ≠ [] ∧ targets (srv w) ≠ [] ∧ Forall went_well tr) ∧
    (∀ sess, SessionOpen sess ∈ ev_op <$> tr →
       sess ∈ sessions (srv w) ∧ ∃ t, handlers w !! sess = Some (t, Registered)) ∧
    (∀ data, StreamWrite data ∈ ev_op <$> tr → ∃ target, target ∈ targets (srv w) ∧ data = target +:+ String "010"%char "")).
Proof.
  intros Hs. destruct (inv_steps token _ _ _ Hs (inv_initial _ _ _ _)) as (_ & Hreg & _ & _ & _ & _ & Hrr).
  pose proof (pick_cases (srv w) ltac:(lia)) as Hp. split; [by destruct (snd (pick (srv w)))|].
  unfold handleTCP. intros p ->. destruct (snd (pick (srv w))) as [| |target i sess|]; [..|done].
  1,2: intros [] _; unfold piped; simpl; split_and!; set_solver.
  destruct Hp as (Hse & Hta & Ht & Hx).
  intros [[]|e] _; [intros [[]|e] _|]; repeat intros [] _; unfold piped; simpl.
  all: rewrite ?Forall_cons, ?Forall_nil; simpl; split_and!; [set_solver| |set_solver].
  all: intros x Hin; assert (x = sess) as -> by set_solver; split; [done|by apply Hreg].
Qed.

(** C22. Round robin: with sessions connected, as many consecutive connections as
    there are targets reach every target exactly once (a rotation of the target
    list), as long as the 64-bit counter does not wrap in between. *)
Theorem round_robin_fair s :
  0 ≤ rrIndex s → rrIndex s + Z.of_nat (length (targets s)) ≤ 2 ^ 64 →
  sessions s ≠ [] → targets s ≠ [] →
  omap picked_target (picks (length (targets s)) s) = rotate (Z.to_nat (rrIndex s)) (targets s) ∧
  omap picked_target (picks (length (targets s)) s) ≡ₚ targets s.
Proof.
  intros Hr Hn Hs Ht.
  assert (picked_target <$> picks (length (targets s)) s =
          Some <$> rotate (Z.to_nat (rrIndex s)) (targets s)) as Heq.
  { apply list_eq. intros i. rewrite !list_lookup_fmap.
    destruct (decide (i < length (targets s))%nat) as [Hi|Hi].
    - rewrite picks_lookup by done. rewrite lookup_rotate_r by done. unfold rotate_nat_add.
      rewrite Z2Nat.id by done.
      destruct (mod_lookup (targets s) (rrIndex s + Z.of_nat i)) as [x Hx]; [lia|done|].
      by rewrite Hx.
    - rewrite !lookup_ge_None_2; [done|..]; rewrite ?length_rotate, ?picks_length; lia. }
  rewrite (omap_all_Some _ _ _ Heq). split; [done|]. apply rotate_Permutation.
Qed.

(** C23. A push reload stays in force: after a POST to /reload with targets at
    time [t], no interleaving of handlers, closing sessions, connections, pull reloads
    and file polls (with whatever file contents) within two minutes changes the
    targets. *)
Theorem push_survives t file raw s h d u ls w :
  t ≠ Time.zero → Url.Get (Url.Query raw) "targets" ≠ "" → Forall (quiet t) ls →
  steps {| srv := fst (handleReload t file "POST" raw s); handlers := h; dead := d; used := u |} ls w →
  targets (srv w) = split_targets (Url.Get (Url.Query raw) "targets").
Proof.
  intros Hz Hne Hq Hs.
  assert (pushed_state t (split_targets (Url.Get (Url.Query raw) "targets"))
            (fst (handleReload t file "POST" raw s))) as Hp.
  { unfold handleReload. simpl. rewrite (proj2 (String.eqb_neq _ _)) by done. done. }
  by apply (quiet_steps _ _ _ _ _ Hz Hq Hs Hp).
Qed.

(** C24. The reload request the DockerService controller sends,
    [/reload?targets=] followed by the query-escaped comma-joined list, sets the
    server's targets to exactly that list (escaping, splitting and trimming
    included). *)
Theorem push_roundtrip now file ts s :
  ts ≠ [] → Forall clean_target ts →
  let '(s', status) :=
    handleReload now file "POST" ("targets=" +:+ Url.QueryEscape (Strings.Join ts ",")) s in
  targets s' = ts ∧ pushTargets s' = ts ∧ lastPushTime s' = now ∧ status = StatusOK.
Proof.
  intros Hne Hts. destruct (pushed_query ts Hne Hts) as [Hq Hsplit].
  unfold handleReload. simpl (negb _). rewrite (proj2 (String.eqb_neq _ _)) by done.
  simpl. by rewrite Hsplit.
Qed.

(** C25. Once two minutes have passed since the last push (or when there never was
    one) the file wins: a poll that reads the file leaves exactly the file's
    targets in force, and a failed read leaves everything alone. *)
Theorem file_takes_over now file s :
  lastPushTime s = Time.zero ∨ 2 * Time.minute ≤ Time.Sub now (lastPushTime s) →
  targets (loadTargetsFromFile now file s) =
    match file with Some data => file_targets data | None => targets s end.
Proof.
  intros Hpush. unfold loadTargetsFromFile. destruct file as [data|]; [|done].
  assert ((negb (Time.IsZero (lastPushTime s)) &&
           (Time.Sub now (lastPushTime s) <? 2 * Time.minute)) = false) as ->.
  { destruct Hpush as [->|?]; [done|]. apply andb_false_iff. right. by apply Z.ltb_ge. }
  simpl. destruct (targetsEqual (file_targets data) (targets s)) eqn:He; [|done].
  by apply targetsEqual_true in He.
Qed.

(** C26. [handleTCP] on every path, whatever the answers to its calls: it returns without
    panicking, the client connection is closed exactly once and last, a stream is
    closed exactly when it was opened, and bytes are piped only on a stream to
    which the header of the picked target (the target and a newline) was written
    first, successfully. *)
Theorem handleTCP_discipline :
  wp anything handleTCP (λ tr out,
    out = Returned tt ∧ closed_last tr = true ∧
    length (filter opens_stream tr) = length (filter closes_stream tr) ∧
    header_first None false tr = true).
Proof.
  unfold handleTCP. simpl.
  intros p _; destruct p as [| |target i sess|]; simpl; [by intros [] _..| |by intros [] _].
  intros [[]|e] _; simpl; [|by intros [] _].
  intros [[]|e] _; simpl.
  - intros [] _ [] _ [] _. simpl. by rewrite String.eqb_refl.
  - intros [] _ [] _. simpl. by rewrite String.eqb_refl.
Qed.

(** C27. [handleWS] never upgrades, registers or answers anything but 403 to a
    request without the server's token; every session it registers is the one
    yamux just created, and is unregistered and closed before it returns. *)
Theorem handleWS_discipline token presented :
  wp anything (handleWS token presented) (λ tr out,
    out = Returned tt ∧
    (token ≠ "" → presented ≠ token → tr = [Ev (Ans := net_ans) (HttpError StatusForbidden) tt]) ∧
    omap registered tr = omap created tr ∧
    omap unregistered tr = omap registered tr ∧
    omap closed tr = omap registered tr).
Proof.
  unfold handleWS.
  destruct (negb (String.eqb token "") && negb (String.eqb presented token)) eqn:Hauth; simpl.
  - by intros [] _.
  - assert (token ≠ "" → presented ≠ token → False) as Hno.
    { intros Ht Hp. by rewrite !(proj2 (String.eqb_neq _ _)) in Hauth. }
    intros [[]|e] _; simpl; [|by split_and!; try done; intros; exfalso; auto].
    intros [x|e] _; simpl.
    + intros [] _ [] _ [] _ [] _. simpl. by split_and!; try done; intros; exfalso; auto.
    + intros [] _. simpl. by split_and!; try done; intros; exfalso; auto.
Qed.

(** ** Witnesses *)
(** A session connects with the token and is registered; a second one closes before its handler
    has registered it, which still happens; a connection is served, the file is polled. *)
Definition example_run : list label :=
  [LSession 1%positive "s3cret"; LSession 2%positive "s3cret"; LRegister 1%positive; LClose 2%positive;
   LRegister 2%positive; LTCP (Picked "10.0.0.1:80" 0 1%positive); LWatch 5 (Some "10.0.0.2:80,")].
Definition example_end : world :=
  {| srv := loadTargetsFromFile 5 (Some "10.0.0.2:80,")
       (fst (pick (register 2%positive (register 1%positive (srv (initial ":80" ":8081" "s3cret" ["10.0.0.1:80"]))))));
     handlers := <[2%positive := ("s3cret", Registered)]> (<[1%positive := ("s3cret", Registered)]>
                  (<[2%positive := ("s3cret", Created)]> (<[1%positive := ("s3cret", Created)]> ∅)));
     dead := {[2%positive]} ∪ ∅; used := {[2%positive]} ∪ ({[1%positive]} ∪ ∅) |}.
Lemma example_steps : steps (initial ":80" ":8081" "s3cret" ["10.0.0.1:80"]) example_run example_end.
Proof.
  eapply steps_cons; [apply step_session; [reflexivity|set_solver]|].
  eapply steps_cons; [apply step_session; [reflexivity|set_solver]|].
  eapply steps_cons; [by eapply step_register|].
  eapply steps_cons; [by apply step_close; set_solver|].
  eapply steps_cons; [by eapply step_register|].
  eapply steps_cons; [apply step_tcp|].
  eapply steps_cons; [apply step_watch|]. apply steps_nil.
Qed.

Lemma registry_exact_witness :
  steps (initial ":80" ":8081" "s3cret" ["10.0.0.1:80"]) example_run example_end ∧
  sessions (srv example_end) = [1%positive; 2%positive] ∧ 2%positive ∈ dead example_end ∧
  ∃ w', step example_end (LUnregister 2%positive) w' ∧ 2%positive ∉ sessions (srv w').
Proof.
  pose proof example_steps as Hs. split; [exact Hs|]. split; [reflexivity|].
  destruct (registry_exact _ _ _ _ _ _ Hs) as (_ & _ & _ & Hout).
  assert (2%positive ∈ dead example_end) as Hd by (by apply (bool_decide_unpack _)). split; [exact Hd|].
  destruct (Hout 2%positive) as (w' & Hw' & Hreg); [by apply (bool_decide_unpack _)|exact Hd|].
  exists w'. split; [exact Hw'|]. rewrite Hreg. by intros [_ ?].
Defined.

Lemma pick_sound_witness :
  steps (initial ":80" ":8081" "s3cret" ["10.0.0.1:80"]) example_run example_end ∧
  snd (pick (srv example_end)) ≠ IndexOutOfRange.
Proof. split; [exact example_steps|]. exact (proj1 (pick_sound _ _ _ _ _ _ example_steps)). Defined.

Definition three_targets : Server :=
  set_rrIndex 4 (register 1%positive (register 2%positive (NewServer ":80" ":8081" "" ["a"; "b"; "c"]))).
Lemma round_robin_fair_witness :
  omap picked_target (picks 3 three_targets) = ["b"; "c"; "a"] ∧
  omap picked_target (picks 3 three_targets) ≡ₚ ["a"; "b"; "c"].
Proof.
  split; [reflexivity|].
  apply (round_robin_fair three_targets); [simpl; lia|simpl; lia|discriminate|discriminate].
Defined.

Lemma push_survives_witness :
  targets (srv {| srv := loadTargetsFromFile (Time.second + Time.minute) (Some "old:1")
                           (fst (handleReload Time.second None "POST" "targets=new%3A1" three_targets));
                  handlers := ∅; dead := ∅; used := ∅ |}) = ["new:1"].
Proof.
  refine (push_survives Time.second None "targets=new%3A1" three_targets ∅ ∅ ∅
            [LWatch (Time.second + Time.minute) (Some "old:1")] _ _ _ _ _).
  - vm_compute. discriminate.
  - vm_compute. discriminate.
  - constructor; [vm_compute; reflexivity|constructor].
  - eapply steps_cons; [apply step_watch|apply steps_nil].
Defined.

Lemma push_roundtrip_witness :
  let '(s', status) :=
    handleReload 7 None "POST" ("targets=" +:+ Url.QueryEscape "10.0.0.1:80,10.0.0.2:80") three_targets in
  targets s' = ["10.0.0.1:80"; "10.0.0.2:80"] ∧ pushTargets s' = ["10.0.0.1:80"; "10.0.0.2:80"] ∧
  lastPushTime s' = 7 ∧ status = StatusOK.
Proof.
  refine (push_roundtrip 7 None ["10.0.0.1:80"; "10.0.0.2:80"] three_targets _ _); [discriminate|].
  repeat (constructor; [split; [reflexivity|split; [discriminate|by apply (bool_decide_unpack _)]]|]). constructor.
Defined.

Lemma file_takes_over_witness :
  targets (loadTargetsFromFile (4 * Time.minute) (Some " x:1 ,y:2") (push Time.minute ["p:1"] three_targets))
  = ["x:1"; "y:2"].
Proof.
  refine (file_takes_over (4 * Time.minute) (Some " x:1 ,y:2") (push Time.minute ["p:1"] three_targets) _).
  right. vm_compute. discriminate.
Defined.
