(* ===== verification/TunnelRun.v ===== *)
(** * The tunnel server's listeners and loops (src/internal/tunnel/server.go: Start, acceptTCP,
      watchTargetsFile)

    Start as a program over what it listens on and the goroutines it starts; the polling loop of
    the targets file as the sequence of its loads, which is a run of the step relation of
    TunnelServer.v. *)
From S2P Require Import Prelude GoStd Effects TunnelServer.
Local Open Scope Z_scope.

(** ** Start *)
Inductive serve_op :=
| ListenTCP (addr : string)
| GoAcceptTCP                    (* go s.acceptTCP(ln) *)
| GoWatchTargetsFile             (* go s.watchTargetsFile() *)
| HandleFunc (path : string)
| ListenAndServe (addr : string).
Definition serve_ans (o : serve_op) : Type :=
  match o with ListenTCP _ => res unit | ListenAndServe _ => go_error | _ => unit end.
(** [http.ListenAndServe] returns only with an error. *)
Definition Start (s : Server) : prog serve_ans go_error :=
  let! ln := ListenTCP (listenAddr s) in
  match ln with
  | Err err => Return err
  | Ok _ =>
      do! GoAcceptTCP;
      bind! _ := (if negb (String.eqb (targetsFile s) "") then do! GoWatchTargetsFile; Return tt else Return tt) in
      do! HandleFunc "/ws";
      do! HandleFunc "/reload";
      let! err := ListenAndServe (wsAddr s) in
      Return err
  end.

(** The tunnel port is served before the endpoint of the clients, and the file is watched exactly
    when one is configured. *)
Lemma Start_wp s :
  wp anything (Start s) (λ tr o,
    (∃ err, tr = [Ev (Ans := serve_ans) (ListenTCP (listenAddr s)) (Err err)] ∧ o = Returned err) ∨
    (ev_op <$> tr = [ListenTCP (listenAddr s); GoAcceptTCP] ++
       (if String.eqb (targetsFile s) "" then [] else [GoWatchTargetsFile]) ++
       [HandleFunc "/ws"; HandleFunc "/reload"; ListenAndServe (wsAddr s)] ∧ ∃ err, o = Returned err)).
Proof.
  intros [[]|err] _; [|left; by eexists]. intros [] _. destruct (String.eqb (targetsFile s) "").
  - intros [] _ [] _ err _. right. split; [done|]. by eexists.
  - intros [] _ [] _ [] _ err _. right. split; [done|]. by eexists.
Qed.

(** ** The accept loop, for a number of accepts *)
Inductive accept_op := AcceptConn | GoHandleTCP (conn : positive).
Definition accept_ans (o : accept_op) : Type := match o with AcceptConn => res positive | _ => unit end.
Fixpoint acceptTCP (rounds : nat) : prog accept_ans unit :=
  match rounds with
  | O => Return tt
  | S rounds' =>
      let! c := AcceptConn in
      match c with
      | Err _ => acceptTCP rounds'
      | Ok conn => do! GoHandleTCP conn; acceptTCP rounds'
      end
  end.
Definition accepted (e : event accept_ans) : option positive :=
  match e with {| ev_op := o; ev_ans := x |} =>
    match o return accept_ans o → option positive with
    | AcceptConn => λ x, match x with Ok conn => Some conn | Err _ => None end
    | _ => λ _, None
    end x
  end.
Definition handled (e : event accept_ans) : option positive :=
  match ev_op e with GoHandleTCP conn => Some conn | _ => None end.
(** Every accepted connection is handled once, in the order of arrival, and an accept error ends
    nothing. *)
Lemma acceptTCP_wp rounds :
  wp anything (acceptTCP rounds) (λ tr o, omap handled tr = omap accepted tr ∧ o = Returned tt ∧
    length (List.filter (λ e, match ev_op e with AcceptConn => true | _ => false end) tr) = rounds).
Proof.
  induction rounds as [|rounds IH]; [done|]. intros [conn|err] _; simpl.
  - intros [] _. eapply wp_mono; [|exact IH]. intros tr o (H1 & H2 & H3). split_and!; [|done|by simpl; f_equal].
    simpl. by f_equal.
  - eapply wp_mono; [|exact IH]. intros tr o (H1 & H2 & H3). split_and!; [done|done|by simpl; f_equal].
Qed.

(** ** The file watcher *)
(** One load at the start and one at every tick: the time and what reading the file gave. *)
Definition watchTargetsFile (initial : Z * option string) (ticks : list (Z * option string)) (s : Server) : Server :=
  foldl (λ s '(now, file), loadTargetsFromFile now file s) s (initial :: ticks).

Lemma loads_steps loads s h d u :
  steps {| srv := s; handlers := h; dead := d; used := u |} ((λ '(now, file), LWatch now file) <$> loads)
        {| srv := foldl (λ s '(now, file), loadTargetsFromFile now file s) s loads; handlers := h; dead := d; used := u |}.
Proof.
  revert s. induction loads as [|[now file] loads IH]; intros s; [constructor|].
  rewrite fmap_cons. simpl. eapply steps_cons; [apply step_watch|apply IH].
Qed.
(** The watcher is a run of the server that only polls. *)
Lemma watch_steps initial ticks s h d u :
  steps {| srv := s; handlers := h; dead := d; used := u |} ((λ '(now, file), LWatch now file) <$> initial :: ticks)
        {| srv := watchTargetsFile initial ticks s; handlers := h; dead := d; used := u |}.
Proof. apply loads_steps. Qed.
(** Loads leave the time of the last push alone. *)
Lemma loads_push loads s :
  lastPushTime (foldl (λ s '(now, file), loadTargetsFromFile now file s) s loads) = lastPushTime s.
Proof.
  revert s. induction loads as [|[now file] loads IH]; intros s; [done|]. simpl. rewrite IH. apply load_frame.
Qed.
(** Left alone, the watcher puts the file's targets in force at the first tick two minutes after
    the last push, and keeps them there. *)
Lemma watch_converges initial ticks now data s :
  lastPushTime s = Time.zero ∨ 2 * Time.minute ≤ Time.Sub now (lastPushTime s) →
  targets (watchTargetsFile initial (ticks ++ [(now, Some data)]) s) = file_targets data.
Proof.
  intros Hpush. unfold watchTargetsFile. rewrite app_comm_cons, foldl_app. simpl.
  set (s' := foldl _ _ _).
  assert (lastPushTime s' = lastPushTime s) as Hs' by apply (loads_push (initial :: ticks)).
  rewrite <- Hs' in Hpush. clearbody s'. unfold loadTargetsFromFile.
  assert ((negb (Time.IsZero (lastPushTime s')) &&
           (Time.Sub now (lastPushTime s') <? 2 * Time.minute)) = false) as ->.
  { destruct Hpush as [->|?]; [done|]. apply andb_false_iff. right. by apply Z.ltb_ge. }
  simpl. destruct (targetsEqual (file_targets data) (targets s')) eqn:He; simpl; [|done].
  by apply targetsEqual_true in He.
Qed.
