(* ===== verification/TunnelClient.v ===== *)
(** * The tunnel client and its connection adapter
      (src/internal/tunnel/client.go, src/internal/tunnel/conn.go)

    [handleStream] reads the target address byte by byte up to a newline, dials
    it and pipes.  [WebSocketConn.Read] turns a sequence of websocket messages
    into one byte stream.  Both are programs over the network calls they make;
    their loops carry fuel, and theorems show how much is always enough. *)
From S2P Require Import Prelude GoStd Effects.
Import Strings.

(** ** [Client.handleStream] *)
Inductive stream_op :=
| StreamRead                       (* stream.Read into a one-byte buffer *)
| Dial (addr : string)             (* net.Dial("tcp", addr) *)
| Pipe                             (* both io.Copy goroutines, until one ends *)
| TargetClose
| StreamClose.

Definition stream_ans (o : stream_op) : Type :=
  match o with
  | StreamRead => option ascii     (* None: a read error *)
  | Dial _ => res unit
  | _ => unit
  end.

Inductive header :=
| Header (target : string)
| ReadFailed
| TooLong
| OutOfFuel.

(** [string(buf[0])]: Go converts the byte to a rune, so a byte of 0x80 or more
    becomes a two-byte UTF-8 sequence. *)
Definition byte_string (c : ascii) : list ascii :=
  if (Char.code c <? 128)%Z then [c]
  else [Char.of_code (192 + Char.code c / 64); Char.of_code (128 + Char.code c mod 64)].

Definition newline : ascii := "010"%char.
Definition max_header : nat := 256.

Fixpoint read_header (fuel : nat) (targetAddr : list ascii) : prog stream_ans header :=
  match fuel with
  | O => Return OutOfFuel
  | S fuel' =>
      let! r := StreamRead in
      match r with
      | None => Return ReadFailed
      | Some c =>
          if Ascii.eqb c newline then Return (Header (of_chars targetAddr))
          else
            let targetAddr' := targetAddr ++ byte_string c in
            if (max_header <? length targetAddr')%nat then Return TooLong
            else read_header fuel' targetAddr'
      end
  end.

(** Enough for any stream: every byte read makes the header longer. *)
Definition header_fuel : nat := S max_header.

(** The result is [None] when the loop did not end within [fuel] reads: the Go code would be
    reading still. *)
Definition serve_header (h : header) : prog stream_ans (option unit) :=
  match h with
  | Header targetAddr =>
      let! d := Dial targetAddr in
      match d with
      | Err _ => do! StreamClose; Return (Some tt)
      | Ok _ => do! Pipe; do! TargetClose; do! StreamClose; Return (Some tt)
      end
  | ReadFailed | TooLong => do! StreamClose; Return (Some tt)
  | OutOfFuel => Return None
  end.
Definition handleStream (fuel : nat) : prog stream_ans (option unit) :=
  bind! h := read_header fuel [] in serve_header h.

(** The bytes of a stream as an environment: reads take the next byte, the end of
    the bytes is a read error, everything else succeeds. *)
Definition byte_stream (o : stream_op) (bytes : list ascii) : stream_ans o * list ascii :=
  match o with
  | StreamRead => match bytes with c :: r => (Some c, r) | [] => (None, []) end
  | Dial _ => (Ok tt, bytes)
  | Pipe => (tt, [])
  | TargetClose | StreamClose => (tt, bytes)
  end.

(** ** [Client.connectAndServe] *)
Inductive conn_op :=
| DialWS (url : string) (header : list (string * string))
| YamuxClient
| Accept                           (* session.Accept() *)
| GoHandleStream (stream : positive)
| SessionClose
| WSClose
| Sleep (d : Z).
Definition conn_ans (o : conn_op) : Type :=
  match o with
  | DialWS _ _ | YamuxClient => res unit
  | Accept => res positive
  | _ => unit
  end.

Record Client := { serverAddr : string; token : string }.
Definition NewClient (serverAddr token : string) : Client :=
  {| serverAddr := serverAddr; token := token |}.

(** The accept loop; it ends only with an error ([None]: fuel ran out first). *)
Fixpoint accept_loop (fuel : nat) : prog conn_ans (option go_error) :=
  match fuel with
  | O => Return None
  | S fuel' =>
      let! r := Accept in
      match r with
      | Err e => Return (Some e)
      | Ok stream => do! GoHandleStream stream; accept_loop fuel'
      end
  end.

Definition connectAndServe (fuel : nat) (c : Client) : prog conn_ans (option go_error) :=
  let header := if String.eqb (token c) "" then [] else [("X-Tunnel-Token", token c)] in
  let! d := DialWS (serverAddr c) header in
  match d with
  | Err e => Return (Some e)
  | Ok _ =>
      let! y := YamuxClient in
      match y with
      | Err e => do! WSClose; Return (Some e)
      | Ok _ =>
          bind! e := accept_loop fuel in
          do! SessionClose; do! WSClose; Return e
      end
  end.

(** [Start]: connect again five seconds after every failure, for the given number of rounds. *)
Fixpoint Start (rounds fuel : nat) (c : Client) : prog conn_ans unit :=
  match rounds with
  | O => Return tt
  | S rounds' =>
      bind! err := connectAndServe fuel c in
      match err with
      | Some _ => do! Sleep (5 * Time.second)%Z; Start rounds' fuel c
      | None => Return tt
      end
  end.

(** What is open, read off the calls: at most one websocket with one session on it, streams are
    accepted on an open session only, and a new connection is dialled only when the last one is
    closed and five seconds have passed. *)
Inductive connection := MayDial | Connected | InSession | MustSleep.
Definition reconnects (s : connection) (e : event conn_ans) : option connection :=
  match e with
  | Ev (DialWS _ _) r => match s with MayDial => Some (if is_ok r then Connected else MustSleep) | _ => None end
  | Ev YamuxClient r => match s with Connected => Some (if is_ok r then InSession else Connected) | _ => None end
  | Ev Accept _ | Ev (GoHandleStream _) _ => match s with InSession => Some InSession | _ => None end
  | Ev SessionClose _ => match s with InSession => Some Connected | _ => None end
  | Ev WSClose _ => match s with Connected => Some MustSleep | _ => None end
  | Ev (Sleep d) _ => match s with MustSleep => if (5 * Time.second <=? d)%Z then Some MayDial else None | _ => None end
  end.
Lemma accept_loop_reconnects fuel :
  guarded anything reconnects InSession (accept_loop fuel) (λ s o, s = InSession ∧ ∃ e, o = Returned e).
Proof.
  induction fuel as [|fuel IH]; [simpl; by eauto|].
  intros [stream|e] _; exists InSession; (split; [done|]); [|simpl; by eauto].
  intros x _. exists InSession. by split.
Qed.
Lemma connectAndServe_reconnects fuel c :
  guarded anything reconnects MayDial (connectAndServe fuel c) (λ s o, s = MustSleep ∧ ∃ e, o = Returned e).
Proof.
  intros [u|e] _; eexists; (split; [reflexivity|]); [|simpl; by eauto]. intros [u'|e] _; eexists; (split; [reflexivity|]).
  - apply guarded_bind. eapply guarded_mono; [|apply accept_loop_reconnects]. intros s o [-> [e ->]].
    intros x _. eexists. split; [reflexivity|]. intros y _. eexists. split; [reflexivity|]. simpl. eauto.
  - intros x _. eexists. split; [reflexivity|]. simpl. eauto.
Qed.
Theorem client_reconnects rounds fuel c :
  wp anything (Start rounds fuel c) (λ tr o, is_Some (accepts reconnects MayDial tr) ∧ o = Returned tt).
Proof.
  eapply wp_mono; [|apply (guarded_wp _ reconnects MayDial _ (λ _ o, o = Returned tt))].
  { intros tr o (s & Hs & ->). by rewrite Hs. }
  induction rounds as [|rounds IH]; [done|]. cbn [Start]. apply guarded_bind.
  eapply guarded_mono; [|apply connectAndServe_reconnects]. intros s o [-> [[e|] ->]]; [|done].
  intros x _. exists MayDial. by split.
Qed.

(** ** [WebSocketConn] *)
Inductive read_error := EOF | ReadError (e : go_error).

Inductive ws_op :=
| NextReader
| ReaderRead (len : nat)           (* c.reader.Read(b), len(b) = len *)
| WriteMessage (data : list ascii).
Definition ws_ans (o : ws_op) : Type :=
  match o with
  | NextReader => res unit
  | ReaderRead _ => list ascii * option read_error
  | WriteMessage _ => res unit
  end.

(** [reader] is whether [c.reader] is set; the result pairs the new value with the
    bytes and the error of the call ([None] overall: out of fuel). *)
Fixpoint Read (fuel : nat) (reader : bool) (len : nat)
    : prog ws_ans (option (bool * list ascii * option read_error)) :=
  match fuel with
  | O => Return None
  | S fuel' =>
      let body :=
        let! r := ReaderRead len in
        match r with
        | (_, Some EOF) => Read fuel' false len
        | (data, err) => Return (Some (true, data, err))
        end in
      if reader then body
      else
        let! n := NextReader in
        match n with
        | Err e => Return (Some (false, [], Some (ReadError e)))
        | Ok _ => body
        end
  end.

Definition Write (b : list ascii) : prog ws_ans (Z * option go_error) :=
  let! r := WriteMessage b in
  match r with
  | Err e => Return (0%Z, Some e)
  | Ok _ => Return (Z.of_nat (length b), None)
  end.

(** A websocket holding complete messages, as gorilla/websocket documents it: a
    reader returns some of the bytes left in its message and reports [EOF], with
    no bytes, once there are none; [NextReader] moves to the next message and
    fails when the connection has ended.  [chunk len left] is how many bytes a
    call returns. *)
Record ws_state := { current : list ascii; pending : list (list ascii) }.

Section messages.
Context (chunk : nat → nat → nat) (closed : go_error).
Definition ws_messages (o : ws_op) (w : ws_state) : ws_ans o * ws_state :=
  match o with
  | NextReader =>
      match pending w with
      | m :: ms => (Ok tt, {| current := m; pending := ms |})
      | [] => (Err closed, w)
      end
  | ReaderRead len =>
      match current w with
      | [] => (([], Some EOF), w)
      | l => let n := chunk len (length l) in
             ((take n l, None), {| current := drop n l; pending := pending w |})
      end
  | WriteMessage _ => (Ok tt, w)
  end.
End messages.

(** The byte stream a connection state stands for. *)
Definition stream_of (reader : bool) (w : ws_state) : list ascii :=
  (if reader then current w else []) ++ concat (pending w).

(** Addresses dialed along a run. *)
Definition dialed (e : event stream_ans) : option string :=
  match ev_op e with Dial a => Some a | _ => None end.
Definition is_read (e : event stream_ans) : bool :=
  match ev_op e with StreamRead => true | _ => false end.
Definition is_stream_close (e : event stream_ans) : bool :=
  match ev_op e with StreamClose => true | _ => false end.

(** ** Lemmas *)
Definition ascii_clean (c : ascii) : Prop := (Char.code c < 128)%Z ∧ c ≠ newline.

Lemma byte_string_ascii c : (Char.code c < 128)%Z → byte_string c = [c].
Proof. intros Hc. unfold byte_string. by rewrite (proj2 (Z.ltb_lt _ _)). Qed.
Lemma byte_string_length c : (1 ≤ length (byte_string c))%nat.
Proof. unfold byte_string. case_match; simpl; lia. Qed.

Lemma read_header_line fuel acc line rest :
  Forall ascii_clean line → (length acc + length line ≤ max_header)%nat →
  (length line < fuel)%nat →
  ∃ tr, run byte_stream (read_header fuel acc) (line ++ newline :: rest) =
          (Returned (Header (of_chars (acc ++ line))), tr, rest).
Proof.
  revert fuel acc. induction line as [|c line IH]; intros fuel acc Hclean Hlen Hfuel;
    (destruct fuel as [|fuel]; [simpl in *; lia|]); simpl.
  - rewrite app_nil_r. eauto.
  - inversion Hclean as [|?? [Hc Hnl] Hrest]; subst. simpl in *.
    rewrite (proj2 (Ascii.eqb_neq c newline)), byte_string_ascii by done.
    rewrite (proj2 (Nat.ltb_ge _ _)) by (rewrite length_app; simpl; lia).
    destruct (IH fuel (acc ++ [c])) as [tr ->]; [done|rewrite length_app; simpl; lia|lia|].
    rewrite <- app_assoc. simpl. eauto.
Qed.

(** Fuel: each iteration adds at least one byte to the header, so the loop ends within any fuel
    of more than [max_header], having done nothing but at most [max_header + 1] reads. *)
Definition header_ok (h : header) : Prop :=
  match h with
  | OutOfFuel => False
  | Header t => (String.length t ≤ max_header)%nat
  | _ => True
  end.
Lemma read_header_total fuel acc :
  (max_header < length acc + fuel)%nat → (length acc ≤ max_header)%nat →
  wp anything (read_header fuel acc) (λ tr out,
    (∃ h, out = Returned h ∧ header_ok h) ∧ (length acc + length tr ≤ S max_header)%nat ∧
    Forall (λ e, ev_op e = StreamRead) tr).
Proof.
  revert acc. induction fuel as [|fuel IH]; intros acc Hf Ha; simpl; [lia|].
  intros [c|] _; [|simpl; split_and!; [by eexists|lia|by repeat constructor]].
  case_match; simpl.
  { split_and!; [|lia|by repeat constructor]. eexists; split; [done|]. simpl.
    by rewrite <- length_chars, chars_of_chars. }
  case_match eqn:Hmax; simpl; [split_and!; [by eexists|lia|by repeat constructor]|].
  apply Nat.ltb_ge in Hmax. rewrite length_app in Hmax.
  eapply wp_mono; [|apply IH; rewrite ?length_app; pose proof (byte_string_length c); lia].
  simpl. intros tr out (? & Hlen & ?). rewrite length_app in Hlen. pose proof (byte_string_length c).
  split_and!; [done|lia|by constructor].
Qed.

(** What a line of bytes becomes once every byte has gone through [string(buf[0])]. *)
Definition transcode (line : list ascii) : list ascii := concat (byte_string <$> line).

Lemma transcode_ascii line : Forall ascii_clean line → transcode line = line.
Proof.
  unfold transcode. induction 1 as [|c line [Hc _] _ IH]; [done|].
  rewrite fmap_cons. cbn [concat]. by rewrite IH, byte_string_ascii.
Qed.
Lemma transcode_length line : (length line ≤ length (transcode line))%nat.
Proof.
  unfold transcode. induction line as [|c line IH]; [done|].
  rewrite fmap_cons. cbn [concat]. rewrite length_app. pose proof (byte_string_length c). simpl. lia.
Qed.

(** [read_header] on a complete line: its transcoding if that fits, else too long. *)
Lemma read_header_run fuel acc line rest :
  newline ∉ line → (length line < fuel)%nat → (length acc ≤ max_header)%nat →
  (length (acc ++ transcode line) ≤ max_header)%nat →
  ∃ tr, run byte_stream (read_header fuel acc) (line ++ newline :: rest) =
          (Returned (Header (of_chars (acc ++ transcode line))), tr, rest).
Proof.
  revert fuel acc. induction line as [|c line IH]; intros fuel acc Hnl Hfuel Hacc Hlen;
    (destruct fuel as [|fuel]; [simpl in *; lia|]); simpl.
  - unfold transcode. simpl. rewrite app_nil_r. eauto.
  - unfold transcode in *. rewrite fmap_cons in *. cbn [concat] in *. rewrite app_assoc in *.
    rewrite (proj2 (Ascii.eqb_neq c newline)) by set_solver.
    rewrite (proj2 (Nat.ltb_ge _ _)) by (rewrite length_app in Hlen; lia).
    destruct (IH fuel (acc ++ byte_string c)) as [tr ->];
      [set_solver|simpl in *; lia|rewrite length_app in Hlen; lia|done|]. eauto.
Qed.

(** [Read] against complete messages, while any byte is left. *)
Section read_lemmas.
Context (chunk : nat → nat → nat) (closed : go_error).
Hypothesis chunk_pos : ∀ len left, (0 < len)%nat → (0 < left)%nat → (0 < chunk len left)%nat.
Hypothesis chunk_len : ∀ len left, (chunk len left ≤ len)%nat ∧ (chunk len left ≤ left)%nat.
Abbreviation runs := (run (ws_messages chunk closed)).

(** One step of [Read] on a set reader. *)
Lemma Read_current fuel len w :
  (0 < len)%nat → current w ≠ [] →
  ∃ data w' tr, runs (Read (S fuel) true len) w = (Returned (Some (true, data, None)), tr, w') ∧
    data ≠ [] ∧ (length data ≤ len)%nat ∧ current w = data ++ current w' ∧ pending w' = pending w.
Proof.
  intros Hlen Hc. simpl. destruct (current w) as [|c l] eqn:Hcur; [done|].
  set (n := chunk len (length (c :: l))).
  destruct (chunk_len len (length (c :: l))) as [Hn1 Hn2]. fold n in Hn1, Hn2.
  assert (0 < n)%nat as Hn by (apply chunk_pos; simpl; lia).
  simpl length in n. eexists _, _, _. split; [reflexivity|]. simpl. fold n. split_and!.
  - intros He%(f_equal length). rewrite length_take in He. simpl in He, Hn2. lia.
  - rewrite length_take. lia.
  - by rewrite take_drop.
  - done.
Qed.

Lemma Read_spec fuel reader len w :
  (0 < len)%nat → stream_of reader w ≠ [] →
  (length (pending w) + (if reader then 2 else 1) ≤ fuel)%nat →
  ∃ data w' tr, runs (Read fuel reader len) w = (Returned (Some (true, data, None)), tr, w') ∧
    data ≠ [] ∧ (length data ≤ len)%nat ∧ stream_of reader w = data ++ stream_of true w' ∧
    (length (pending w') ≤ length (pending w))%nat.
Proof.
  intros Hlen. revert reader w.
  induction fuel as [|fuel IH]; intros reader w Hs Hf; [destruct reader; lia|].
  destruct reader.
  - destruct (decide (current w = [])) as [He|He].
    + destruct (IH false w) as (data & w' & tr & Hrun & Hd & Hl & Heq & Hle).
      { unfold stream_of in *. by rewrite He in Hs. } { lia. }
      exists data, w', (Ev (Ans := ws_ans) (ReaderRead len) ([], Some EOF) :: tr). split_and!; try done.
      * simpl. rewrite He. simpl. by rewrite Hrun.
      * unfold stream_of in *. by rewrite He.
    + destruct (Read_current fuel len w Hlen He) as (data & w' & tr & Hrun & Hd & Hl & Hc & Hp).
      exists data, w', tr. split_and!; try done.
      * unfold stream_of. by rewrite Hc, Hp, <- app_assoc.
      * by rewrite Hp.
  - unfold stream_of in Hs. simpl in Hs. destruct w as [cur ms]. simpl in *.
    destruct ms as [|m ms]; [done|]. simpl in *.
    destruct m as [|c m].
    + destruct (IH false {| current := []; pending := ms |}) as (data & w' & tr & Hrun & Hd & Hl & Heq & Hle).
      { done. } { simpl. lia. }
      eexists data, w', _. split_and!; try done; [|simpl in *; lia].
      simpl. rewrite Hrun. reflexivity.
    + destruct (Read_current fuel len {| current := c :: m; pending := ms |} Hlen)
        as (data & w' & tr & Hrun & Hd & Hl & Hc & Hp); [done|].
      eexists data, w', _. split_and!; try done.
      * simpl in Hrun |- *. injection Hrun as <- _ <-. reflexivity.
      * unfold stream_of. cbn [current pending concat app] in *.
        change (c :: m ++ concat ms) with ((c :: m) ++ concat ms).
        by rewrite Hc, Hp, <- app_assoc.
      * rewrite Hp. simpl. lia.
Qed.

(** Once every byte has been read, the connection's own error comes through. *)
Lemma Read_end fuel reader len w :
  stream_of reader w = [] → (length (pending w) + (if reader then 2 else 1) ≤ fuel)%nat →
  ∃ tr w', runs (Read fuel reader len) w = (Returned (Some (false, [], Some (ReadError closed))), tr, w').
Proof.
  revert reader w. induction fuel as [|fuel IH]; intros reader [cur ms] Hs Hf;
    [destruct reader; lia|]. unfold stream_of in Hs. destruct reader; simpl in *.
  - apply app_eq_nil in Hs as [-> Hs].
    destruct (IH false {| current := []; pending := ms |}) as (tr & w' & Hrun); [done|simpl; lia|].
    rewrite Hrun. eauto.
  - destruct ms as [|m ms]; simpl in *; [eauto|]. apply app_eq_nil in Hs as [-> Hs].
    destruct (IH false {| current := []; pending := ms |}) as (tr & w' & Hrun); [done|simpl; lia|].
    rewrite Hrun. eauto.
Qed.
End read_lemmas.

(** Reading until an error, as [io.Copy] and yamux do: the bytes read. *)
Fixpoint drain (fuel : nat) (reads : nat) (reader : bool) (len : nat) : prog ws_ans (option (list ascii * read_error)) :=
  match reads with
  | O => Return None
  | S reads' =>
      bind! r := Read fuel reader len in
      match r with
      | None => Return None
      | Some (_, data, Some e) => Return (Some (data, e))
      | Some (reader', data, None) =>
          bind! rest := drain fuel reads' reader' len in
          Return (match rest with Some (more, e) => Some (data ++ more, e) | None => None end)
      end
  end.

(** After the header there are no more header reads. *)
Lemma handleStream_no_read h :
  wp (Ans := stream_ans) anything
    (serve_header h)
    (λ tr _, Forall (λ e, ¬ is_read e) tr).
Proof.
  destruct h; simpl; [|by intros [] _; repeat (constructor; [by intros []|])..|done].
  by intros [[]|e] _; simpl; [intros [] _ [] _ [] _|intros [] _];
    repeat (constructor; [by intros []|]).
Qed.

Section drain_lemma.
Context (chunk : nat → nat → nat) (closed : go_error).
Hypothesis chunk_pos : ∀ len left, (0 < len)%nat → (0 < left)%nat → (0 < chunk len left)%nat.
Hypothesis chunk_len : ∀ len left, (chunk len left ≤ len)%nat ∧ (chunk len left ≤ left)%nat.

Lemma drain_spec fuel reads reader len w :
  (0 < len)%nat → (length (pending w) + 2 ≤ fuel)%nat →
  (length (stream_of reader w) < reads)%nat →
  ∃ tr w', run (ws_messages chunk closed) (drain fuel reads reader len) w =
             (Returned (Some (stream_of reader w, ReadError closed)), tr, w').
Proof.
  intros Hlen. revert reader w.
  induction reads as [|reads IH]; intros reader w Hf Hr; [lia|]. cbn [drain].
  destruct (decide (stream_of reader w = [])) as [He|He].
  - destruct (Read_end chunk closed fuel reader len w He) as (tr & w' & Hrun);
      [destruct reader; lia|].
    rewrite run_bind, Hrun, He. simpl. eauto.
  - destruct (Read_spec chunk closed chunk_pos chunk_len fuel reader len w Hlen He)
      as (data & w1 & tr & Hrun & Hd & Hl & Heq & Hp); [destruct reader; lia|].
    rewrite run_bind, Hrun. cbv beta iota. rewrite run_bind.
    destruct (IH true w1) as (tr' & w2 & Hrun'); [lia| |].
    { rewrite Heq, length_app in Hr. destruct data; [done|]. simpl in Hr. lia. }
    rewrite Hrun'. simpl. rewrite Heq. eauto.
Qed.
End drain_lemma.

(** ** Properties *)

(** C28. Tunnel header round trip: the bytes [handleTCP] writes for a target (the
    target and a newline), followed by any payload, make [handleStream]'s reader
    return exactly that target and leave exactly the payload on the stream, for
    every ASCII target of at most 256 bytes. *)
Theorem header_roundtrip (target : string) (payload : list ascii) :
  Forall ascii_clean (chars target) → (String.length target ≤ max_header)%nat →
  ∃ tr, run byte_stream (read_header header_fuel [])
          (chars (target +:+ String newline "") ++ payload)
        = (Returned (Header target), tr, payload).
Proof.
  intros Hclean Hlen.
  destruct (read_header_run header_fuel [] (chars target) payload) as [tr Hrun].
  - intros Hin. rewrite Forall_forall in Hclean. by destruct (Hclean _ Hin).
  - rewrite length_chars. unfold header_fuel. lia.
  - simpl. lia.
  - simpl. by rewrite transcode_ascii, length_chars.
  - rewrite app_nil_l, transcode_ascii, of_chars_chars in Hrun by done.
    exists tr. rewrite chars_app, <- app_assoc. exact Hrun.
Qed.

(** A target with a byte of 0x80 or more is not transmitted faithfully: each
    such byte arrives as two bytes ([string(buf[0])] converts it to a rune). *)
Theorem header_transcodes (line payload : list ascii) :
  newline ∉ line → (length (transcode line) ≤ max_header)%nat →
  ∃ tr, run byte_stream (read_header header_fuel []) (line ++ newline :: payload)
        = (Returned (Header (of_chars (transcode line))), tr, payload).
Proof.
  intros Hnl Hlen. pose proof (transcode_length line).
  apply (read_header_run header_fuel []); [done|unfold header_fuel; lia|simpl; lia|done].
Qed.

(** What [handleStream] does after the header, on any answers. *)
Lemma handleStream_after h tr0 :
  header_ok h → Forall (λ e, ev_op e = StreamRead) tr0 →
  wp anything
    (serve_header h)
    (λ tr out, out = Returned (Some tt) ∧
       Forall (λ a, (String.length a ≤ max_header)%nat) (omap dialed (tr0 ++ tr)) ∧
       (∃ tr', tr0 ++ tr = tr' ++ [Ev (Ans := stream_ans) StreamClose tt] ∧
               Forall (λ e, is_stream_close e = false) tr')).
Proof.
  intros Hh Hreads.
  assert (omap dialed tr0 = [] ∧ Forall (λ e, is_stream_close e = false) tr0) as [Hd Hc].
  { clear -Hreads. induction Hreads as [|e tr0 He _ [IH1 IH2]]; [done|]. simpl.
    unfold dialed at 1. rewrite He. split; [done|]. constructor; [|done].
    unfold is_stream_close. by rewrite He. }
  assert (∀ tr, Forall (λ e, is_stream_close e = false) tr →
    ∃ tr', tr0 ++ tr ++ [Ev (Ans := stream_ans) StreamClose tt] = tr' ++ [Ev StreamClose tt] ∧
           Forall (λ e, is_stream_close e = false) tr') as Hlast.
  { intros tr Htr. exists (tr0 ++ tr). rewrite app_assoc. split; [done|]. by apply Forall_app. }
  destruct h as [t| | |]; simpl; [|intros [] _..|done].
  - intros [[]|e] _; simpl.
    + intros [] _ [] _ [] _. rewrite omap_app, Hd. split_and!; [done|by apply Forall_singleton|].
      apply (Hlast [Ev (Dial t) (Ok tt); Ev Pipe tt; Ev TargetClose tt]). by repeat constructor.
    + intros [] _. rewrite omap_app, Hd. split_and!; [done|by apply Forall_singleton|].
      apply (Hlast [Ev (Dial t) (Err e)]). by repeat constructor.
  - rewrite omap_app, Hd. split_and!; [done|by constructor|]. by apply (Hlast []).
  - rewrite omap_app, Hd. split_and!; [done|by constructor|]. by apply (Hlast []).
Qed.

(** C29. [handleStream] on any stream, of any length, with any answers: its header loop ends
    within 257 reads however many it is allowed ([Some]: it did not run out of fuel), the
    function returns, closes the stream exactly once and last, and dials only addresses of at
    most 256 bytes. *)
Theorem handleStream_bounded extra :
  wp anything (handleStream (header_fuel + extra)) (λ tr out,
    out = Returned (Some tt) ∧
    Forall (λ a, (String.length a ≤ max_header)%nat) (omap dialed tr) ∧
    (∃ tr', tr = tr' ++ [Ev (Ans := stream_ans) StreamClose tt] ∧
            Forall (λ e, is_stream_close e = false) tr') ∧
    (length (filter is_read tr) ≤ 257)%nat).
Proof.
  unfold handleStream. apply wp_bind.
  eapply wp_mono; [|apply read_header_total; unfold header_fuel, max_header; simpl; lia].
  intros tr0 out ((h & -> & Hh) & Hlen & Hreads). unfold and_then.
  eapply wp_mono; [|exact (wp_and _ _ _ _ (handleStream_after h tr0 Hh Hreads) (handleStream_no_read h))].
  intros tr out [(? & ? & ?) Hno]. split_and!; [done..|].
  rewrite filter_app, (proj2 (filter_nil_iff _ _) Hno), app_nil_r.
  etrans; [apply length_filter|exact Hlen].
Qed.

(** C30. [WebSocketConn] is a byte stream: over any sequence of messages (empty ones
    included) and whatever chunk sizes the message readers return, reading until
    an error yields the concatenation of all messages, in order, and then the
    connection's own error; no call runs out of fuel, and message boundaries are
    not visible. *)
Theorem read_is_stream chunk closed (ms : list (list ascii)) len fuel reads :
  (∀ len left, (0 < len)%nat → (0 < left)%nat → (0 < chunk len left)%nat) →
  (∀ len left, (chunk len left ≤ len)%nat ∧ (chunk len left ≤ left)%nat) →
  (0 < len)%nat → (length ms + 2 ≤ fuel)%nat → (length (concat ms) < reads)%nat →
  ∃ tr w, run (ws_messages chunk closed) (drain fuel reads false len) {| current := []; pending := ms |}
          = (Returned (Some (concat ms, ReadError closed)), tr, w).
Proof.
  intros Hpos Hchunk Hlen Hfuel Hreads.
  apply (drain_spec chunk closed Hpos Hchunk fuel reads false len {| current := []; pending := ms |});
    simpl; try done; lia.
Qed.

(** ** Witnesses *)
Lemma header_roundtrip_witness :
  ∃ tr, run byte_stream (read_header header_fuel []) (chars ("10.0.0.1:80" +:+ String newline "") ++ chars "GET /")
        = (Returned (Header "10.0.0.1:80"), tr, chars "GET /").
Proof.
  refine (header_roundtrip "10.0.0.1:80" (chars "GET /") _ _).
  - repeat (constructor; [split; [reflexivity|discriminate]|]). constructor.
  - apply Nat.leb_le. vm_compute. reflexivity.
Defined.

(** One byte 0xE9: two bytes arrive. *)
Definition e_acute : ascii := Char.of_code 233.
Lemma header_transcodes_witness :
  (∃ tr, run byte_stream (read_header header_fuel []) ([e_acute] ++ newline :: chars "x")
         = (Returned (Header (of_chars (transcode [e_acute]))), tr, chars "x")) ∧
  transcode [e_acute] = [Char.of_code 195; Char.of_code 169].
Proof.
  split; [|reflexivity]. refine (header_transcodes [e_acute] (chars "x") _ _).
  - by apply (bool_decide_unpack _).
  - apply Nat.leb_le. vm_compute. reflexivity.
Defined.

(** A reader that returns at most four bytes at a time. *)
Lemma read_is_stream_witness :
  let messages := [chars "hello "; []; chars "world"] in
  ∃ tr w, run (ws_messages (λ len left, Nat.min 4 (Nat.min len left)) (new_error "closed"))
            (drain 5 20 false 3) {| current := []; pending := messages |}
          = (Returned (Some (concat messages, ReadError (new_error "closed"))), tr, w).
Proof.
  refine (read_is_stream (λ len left, Nat.min 4 (Nat.min len left)) (new_error "closed")
            [chars "hello "; []; chars "world"] 3 5 20 _ _ _ _ _);
    [lia|lia|lia|apply Nat.leb_le; reflexivity|apply Nat.ltb_lt; reflexivity].
Defined.
