(* ===== verification/Gateway.v ===== *)
(** * The tunnel gateway (src/internal/tunnel/gateway.go)

    The director of the reverse proxy: a function on the request it may rewrite. *)
From S2P Require Import Prelude GoStd GoUrl.

(** The fields of [*http.Request] the director reads or writes. *)
Record Request := {
  rq_Scheme : string;       (* req.URL.Scheme *)
  rq_URLHost : string;      (* req.URL.Host *)
  rq_Path : string;         (* req.URL.Path *)
  rq_RawQuery : string;     (* req.URL.RawQuery *)
  rq_Host : string          (* req.Host *)
}.

(** The target, tried as it is and then as a host of http. *)
Definition parse_target (target : string) : option NetUrl.URL :=
  match NetUrl.Parse target with
  | Some u =>
      if String.eqb (NetUrl.Scheme u) "" || String.eqb (NetUrl.Host u) "" then NetUrl.Parse ("http://" +:+ target)
      else Some u
  | None => NetUrl.Parse ("http://" +:+ target)
  end.
Definition proxy_scheme (scheme : string) : string :=
  if String.eqb scheme "ws" then "http" else if String.eqb scheme "wss" then "https" else scheme.

(** The [Director] of [RunGateway]. *)
Definition Director (req : Request) : Request :=
  let target := Url.Get (Url.Query (rq_RawQuery req)) "target" in
  if String.eqb target "" then req
  else
    match parse_target target with
    | None => req
    | Some targetURL =>
        let token := Url.Get (Url.Query (rq_RawQuery req)) "token" in
        let targetQuery := Url.Query (NetUrl.RawQuery targetURL) in
        {| rq_Scheme := proxy_scheme (NetUrl.Scheme targetURL);
           rq_URLHost := NetUrl.Host targetURL;
           rq_Path := if String.eqb (NetUrl.Path targetURL) "" then rq_Path req else NetUrl.Path targetURL;
           rq_RawQuery := NetUrl.Encode
             (if String.eqb token "" then targetQuery else NetUrl.Set_ targetQuery "token" token);
           rq_Host := NetUrl.Host targetURL |}
    end.
