(* ===== verification/Api.v ===== *)
(** * The data the controllers work on

    The custom resources of src/api/v1alpha1 (every field of every struct), and
    the fields of the Kubernetes and Docker API structs that the controllers read
    or write.  A Go pointer field is an [option] ([None] is nil), a Go map a
    [gmap], a Go slice a list (nil and the empty slice behave alike wherever the
    code uses them), an intN a [Z]. *)
From S2P Require Import Prelude GoStd.

(** ** k8s.io/apimachinery metadata *)
Record OwnerReference := { or_UID : string; or_Name : string; or_Controller : bool }.
#[global] Instance OwnerReference_eq_dec : EqDecision OwnerReference.
Proof. solve_decision. Defined.

Record ObjectMeta := {
  om_Name : string;
  om_Namespace : string;
  om_UID : string;
  om_Labels : gmap string string;
  om_Finalizers : list string;
  om_DeletionTimestamp : option Z;
  om_CreationTimestamp : Z;
  om_OwnerReferences : list OwnerReference
}.
#[global] Instance ObjectMeta_eq_dec : EqDecision ObjectMeta.
Proof. solve_decision. Defined.

(** [metav1.ObjectMeta{Name: name, Namespace: namespace, Labels: labels}] at the
    zero creation time. *)
Definition new_meta (name namespace : string) (labels : gmap string string) : ObjectMeta :=
  {| om_Name := name; om_Namespace := namespace; om_UID := ""; om_Labels := labels;
     om_Finalizers := []; om_DeletionTimestamp := None;
     om_CreationTimestamp := Time.zero; om_OwnerReferences := [] |}.

(** [DeletionTimestamp.IsZero()] on the optional timestamp. *)
Definition not_deleting (m : ObjectMeta) : bool :=
  match om_DeletionTimestamp m with Some t => Time.IsZero t | None => true end.

Record NamespacedName := { nn_Namespace : string; nn_Name : string }.
#[global] Instance NamespacedName_eq_dec : EqDecision NamespacedName.
Proof. solve_decision. Defined.
Definition key_of (m : ObjectMeta) : NamespacedName :=
  {| nn_Namespace := om_Namespace m; nn_Name := om_Name m |}.

Record LabelSelectorRequirement := { req_Key : string; req_Operator : string; req_Values : list string }.
#[global] Instance LabelSelectorRequirement_eq_dec : EqDecision LabelSelectorRequirement.
Proof. solve_decision. Defined.
Record LabelSelector := {
  MatchLabels : gmap string string;
  MatchExpressions : list LabelSelectorRequirement
}.
#[global] Instance LabelSelector_eq_dec : EqDecision LabelSelector.
Proof. solve_decision. Defined.

(** ** DockerContainer (container.go) *)
Record HealthCheckConfig := {
  hcc_Test : list string; hcc_Interval : string; hcc_Timeout : string; hcc_Retries : Z }.
Record ResourceRequirements := { rr_CPULimit : string; rr_MemoryLimit : string }.
Record SecretKeySelector := { sks_Name : string; sks_Key : string }.
Record EnvVarSource := { evs_SecretKeyRef : option SecretKeySelector }.
Record EnvVar := { ev_Name : string; ev_Value : string; ev_ValueFrom : option EnvVarSource }.
Record SecretVolume := { sv_SecretName : string; sv_MountPath : string }.
Record ServicePort := { sp_Port : Z; sp_TargetPort : Z; sp_Name : string }.
Record VolumeMount := { vm_HostPath : string; vm_ContainerPath : string; vm_ReadOnly : bool }.

Record DockerContainerSpec := {
  cs_Image : string;
  cs_ContainerName : string;
  cs_Ports : list string;
  cs_Command : list string;
  cs_Env : list string;
  cs_RestartPolicy : string;
  cs_DockerHostRef : string;
  cs_ImagePullSecret : string;
  cs_VolumeMounts : list VolumeMount;
  cs_Services : list ServicePort;
  cs_NetworkMode : string;
  cs_EnvVars : list EnvVar;
  cs_SecretVolumes : list SecretVolume;
  cs_HealthCheck : option HealthCheckConfig;
  cs_Resources : option ResourceRequirements
}.
Record DockerContainerStatus := {
  cst_ID : string; cst_State : string; cst_Health : string; cst_IPv4 : string }.
Record DockerContainer := {
  dc_Meta : ObjectMeta; dc_Spec : DockerContainerSpec; dc_Status : DockerContainerStatus }.

#[global] Instance HealthCheckConfig_eq_dec : EqDecision HealthCheckConfig.
Proof. solve_decision. Defined.
#[global] Instance ResourceRequirements_eq_dec : EqDecision ResourceRequirements.
Proof. solve_decision. Defined.
#[global] Instance SecretKeySelector_eq_dec : EqDecision SecretKeySelector.
Proof. solve_decision. Defined.
#[global] Instance EnvVarSource_eq_dec : EqDecision EnvVarSource.
Proof. solve_decision. Defined.
#[global] Instance EnvVar_eq_dec : EqDecision EnvVar.
Proof. solve_decision. Defined.
#[global] Instance SecretVolume_eq_dec : EqDecision SecretVolume.
Proof. solve_decision. Defined.
#[global] Instance ServicePort_eq_dec : EqDecision ServicePort.
Proof. solve_decision. Defined.
#[global] Instance VolumeMount_eq_dec : EqDecision VolumeMount.
Proof. solve_decision. Defined.
#[global] Instance DockerContainerSpec_eq_dec : EqDecision DockerContainerSpec.
Proof. solve_decision. Defined.
#[global] Instance DockerContainerStatus_eq_dec : EqDecision DockerContainerStatus.
Proof. solve_decision. Defined.
#[global] Instance DockerContainer_eq_dec : EqDecision DockerContainer.
Proof. solve_decision. Defined.

(** ** DockerJob (job_types.go) *)
(** [DockerJobPhase] is a string type; [JobPhaseNone] is its zero value, and any
    other string is kept as it is. *)
Inductive DockerJobPhase :=
| JobPhaseNone
| JobPhasePending
| JobPhaseRunning
| JobPhaseSucceeded
| JobPhaseFailed
| JobPhaseOther (s : string).
#[global] Instance DockerJobPhase_eq_dec : EqDecision DockerJobPhase.
Proof. solve_decision. Defined.

Record DockerJobSpec := {
  js_Image : string;
  js_ContainerName : string;
  js_Command : list string;
  js_Args : list string;
  js_Env : list string;
  js_EnvVars : list EnvVar;
  js_VolumeMounts : list VolumeMount;
  js_SecretVolumes : list SecretVolume;
  js_DockerHostRef : string;
  js_ImagePullSecret : string;
  js_RestartPolicy : string;
  js_BackoffLimit : Z;
  js_ActiveDeadlineSeconds : option Z;
  js_TTLSecondsAfterFinished : option Z;
  js_Resources : option ResourceRequirements
}.
Record DockerJobStatus := {
  jst_Phase : DockerJobPhase;
  jst_ContainerID : string;
  jst_StartTime : option Z;
  jst_CompletionTime : option Z;
  jst_ExitCode : option Z;
  jst_Attempts : Z;
  jst_Message : string
}.
Record DockerJob := { dj_Meta : ObjectMeta; dj_Spec : DockerJobSpec; dj_Status : DockerJobStatus }.

#[global] Instance DockerJobSpec_eq_dec : EqDecision DockerJobSpec.
Proof. solve_decision. Defined.
#[global] Instance DockerJobStatus_eq_dec : EqDecision DockerJobStatus.
Proof. solve_decision. Defined.
#[global] Instance DockerJob_eq_dec : EqDecision DockerJob.
Proof. solve_decision. Defined.

(** ** DockerDeployment (deployment_types.go) *)
Record TemplateMeta := {
  tm_Labels : gmap string string; tm_Annotations : gmap string string }.
Record DockerContainerTemplate := { tpl_Metadata : TemplateMeta; tpl_Spec : DockerContainerSpec }.
Record DockerDeploymentSpec := {
  ds_Replicas : option Z; ds_Selector : option LabelSelector; ds_Template : DockerContainerTemplate }.
Record DockerDeploymentStatus := { dst_AvailableReplicas : Z; dst_Conditions : list string }.
Record DockerDeployment := {
  dd_Meta : ObjectMeta; dd_Spec : DockerDeploymentSpec; dd_Status : DockerDeploymentStatus }.

#[global] Instance TemplateMeta_eq_dec : EqDecision TemplateMeta.
Proof. solve_decision. Defined.
#[global] Instance DockerContainerTemplate_eq_dec : EqDecision DockerContainerTemplate.
Proof. solve_decision. Defined.
#[global] Instance DockerDeploymentSpec_eq_dec : EqDecision DockerDeploymentSpec.
Proof. solve_decision. Defined.
#[global] Instance DockerDeploymentStatus_eq_dec : EqDecision DockerDeploymentStatus.
Proof. solve_decision. Defined.
#[global] Instance DockerDeployment_eq_dec : EqDecision DockerDeployment.
Proof. solve_decision. Defined.

(** ** DockerService (service.go) and DockerHost (host.go) *)
Record DockerServiceSpec := {
  ss_ContainerRef : string; ss_Selector : option LabelSelector;
  ss_Ports : list ServicePort; ss_NetworkMode : string }.
Record DockerServiceStatus := {
  sst_Phase : string; sst_TunnelClients : Z; sst_TunnelServerURL : string; sst_Message : string }.
Record DockerService := {
  dsv_Meta : ObjectMeta; dsv_Spec : DockerServiceSpec; dsv_Status : DockerServiceStatus }.

Record DockerHostSpec := { hs_HostURL : string; hs_TLSSecretName : string }.
Record DockerHostStatus := { hst_Phase : string; hst_Message : string }.
Record DockerHost := { dh_Meta : ObjectMeta; dh_Spec : DockerHostSpec; dh_Status : DockerHostStatus }.

#[global] Instance DockerServiceSpec_eq_dec : EqDecision DockerServiceSpec.
Proof. solve_decision. Defined.
#[global] Instance DockerServiceStatus_eq_dec : EqDecision DockerServiceStatus.
Proof. solve_decision. Defined.
#[global] Instance DockerService_eq_dec : EqDecision DockerService.
Proof. solve_decision. Defined.

(** ** Kubernetes objects the controllers touch *)
Record Secret := { sec_Meta : ObjectMeta; sec_Data : gmap string string }.
Record ConfigMap := { cm_Meta : ObjectMeta; cm_Data : gmap string string }.
Record Pod := { pod_Meta : ObjectMeta; pod_Phase : string; pod_PodIP : string }.
Record Node := { node_Meta : ObjectMeta }.
Record CorePort := { cp_Name : string; cp_Port : Z; cp_TargetPort : Z }.
Record CoreService := {
  svc_Meta : ObjectMeta; svc_Selector : gmap string string; svc_Type : string; svc_Ports : list CorePort }.
Record PodContainer := {
  pc_Name : string; pc_Image : string; pc_ImagePullPolicy : string; pc_Command : list string;
  pc_Args : list string; pc_Ports : list Z; pc_VolumeMounts : list (string * string) }.
(** A volume backed by a ConfigMap: its name, the ConfigMap, the (key, path) items. *)
Record PodVolume := { pv_Name : string; pv_ConfigMap : string; pv_Items : list (string * string) }.
Record AppsDeployment := {
  dep_Meta : ObjectMeta; dep_Replicas : option Z; dep_Selector : gmap string string;
  dep_TemplateLabels : gmap string string; dep_Containers : list PodContainer;
  dep_Volumes : list PodVolume }.

(** ** Docker API objects *)
Record HealthConfig := { hc_Test : list string; hc_Interval : Z; hc_Timeout : Z; hc_Retries : Z }.
Record Resources := { NanoCPUs : Z; Memory : Z }.
Record PortBinding := { HostIP : string; HostPort : string }.
Record Config := {
  cfg_Image : string; cfg_Cmd : list string; cfg_Env : list string;
  cfg_Healthcheck : option HealthConfig; cfg_ExposedPorts : gset string }.
Record HostConfig := {
  hcf_RestartPolicy : string; hcf_PortBindings : gmap string (list PortBinding);
  hcf_Binds : list string; hcf_NetworkMode : string; hcf_Resources : Resources }.
Record EndpointSettings := { es_IPAddress : string; es_NetworkID : string }.
(** [types.Container]: one entry of a container listing. *)
Record ContainerSummary := {
  csm_ID : string; csm_Names : list string; csm_Image : string; csm_State : string }.
Record ContainerState := {
  st_Status : string; st_Running : bool; st_ExitCode : Z; st_Health : option string }.
(** [types.ContainerJSON]; its embedded [ContainerJSONBase] is always present in a
    daemon's answer. *)
Record ContainerJSON := {
  cj_ID : string; cj_State : option ContainerState; cj_HostConfig : option HostConfig;
  cj_Config : option Config; cj_Networks : option (gmap string EndpointSettings) }.
Record AuthConfig := { auth_Username : string; auth_Password : string; auth_ServerAddress : string }.

#[global] Instance HealthConfig_eq_dec : EqDecision HealthConfig.
Proof. solve_decision. Defined.
#[global] Instance Resources_eq_dec : EqDecision Resources.
Proof. solve_decision. Defined.
#[global] Instance PortBinding_eq_dec : EqDecision PortBinding.
Proof. solve_decision. Defined.
#[global] Instance Config_eq_dec : EqDecision Config.
Proof. solve_decision. Defined.
#[global] Instance HostConfig_eq_dec : EqDecision HostConfig.
Proof. solve_decision. Defined.

(** ** controller-runtime *)
Record Result := { RequeueAfter : Z }.
#[global] Instance Result_eq_dec : EqDecision Result.
Proof. solve_decision. Defined.
Definition no_requeue : Result := {| RequeueAfter := 0 |}.
(** What [Reconcile] returns. *)
Definition reconcile_result : Type := Result * option go_error.
