(* ===== verification/Heap.v ===== *)
(** * A heap of Go values

    The deep-copy functions are about aliasing, so they are modelled on an explicit store: a
    location holds a block (what a pointer, a slice or a map refers to), a Go struct is a value
    whose reference fields are locations.  [denote] reads the pure value a Go value stands for
    in a heap, [reach] the locations it can reach.  [deep_copies] is the contract of a
    DeepCopyInto; the copiers of pointers, slices and maps satisfy it when the copiers of what
    they refer to do. *)
From S2P Require Import Prelude.

Abbreviation loc := positive.

(** A heap of blocks from the universe [C]. *)
Abbreviation heap_of C := (gmap loc C).

Section heap.
Context {C : Type}.
Abbreviation heap := (gmap loc C).

(** ** A state monad that may fail (nil dereference) *)
Definition M (A : Type) : Type := heap → option (A * heap).
#[global] Instance M_ret : MRet M := λ _ a h, Some (a, h).
#[global] Instance M_bind : MBind M := λ _ _ k m h, '(a, h') ← m h; k a h'.

(** The blocks of type [B] in the universe of blocks. *)
Class Block (B : Type) := {
  box : B → C;
  unbox : C → option B;
  unbox_box b : unbox (box b) = Some b
}.

Definition alloc `{Block B} (b : B) : M loc :=
  λ h, let l := fresh (dom h) in Some (l, <[l := box b]> h).
Definition load `{Block B} (l : loc) : M B := λ h, c ← h !! l; b ← unbox c; Some (b, h).
Definition store `{Block B} (l : loc) (b : B) : M unit :=
  λ h, match h !! l with Some _ => Some (tt, <[l := box b]> h) | None => None end.

(** ** What a Go value stands for *)
Class Rep (G A : Type) := {
  denote : heap → G → option A;
  reach : heap → G → gset loc
}.
(** Both depend on the reachable part of the heap only, which is allocated. *)
Class RepLaws (G A : Type) `{Rep G A} : Prop := {
  rep_frame h h' g x :
    denote h g = Some x → (∀ l, l ∈ reach h g → h' !! l = h !! l) →
    denote h' g = Some x ∧ reach h' g = reach h g;
  rep_dom h g x l : denote h g = Some x → l ∈ reach h g → is_Some (h !! l)
}.

Lemma rep_mono `{RepLaws G A} h h' g x :
  denote h g = Some x → h ⊆ h' → denote h' g = Some x ∧ reach h' g = reach h g.
Proof.
  intros Hd Hsub. apply rep_frame; [done|]. intros l Hl.
  destruct (rep_dom h g x l Hd Hl) as [c Hc]. rewrite Hc. by eapply lookup_weaken.
Qed.

(** ** The contract of a deep copy *)
(** In the heap [h'], reached from [h], the value [g'] stands for [x] and shares nothing
    with what was in [h]. *)
Definition copied `{Rep G A} (h h' : heap) (g' : G) (x : A) : Prop :=
  h ⊆ h' ∧ denote h' g' = Some x ∧ ∀ l, l ∈ reach h' g' → h !! l = None.
Definition deep_copies `{Rep G A} (copy : G → M G) : Prop :=
  ∀ h g x, denote h g = Some x → ∃ g' h', copy g h = Some (g', h') ∧ copied h h' g' x.

Lemma copied_later `{RepLaws G A} h0 h h' h2 g x :
  h0 ⊆ h → copied h h' g x → h' ⊆ h2 → copied h0 h2 g x.
Proof.
  intros Hpre (Hsub & Hd & Hf) Hpost. destruct (rep_mono h' h2 g x Hd Hpost) as [Hd2 Hr2].
  split; [by etrans; [|etrans]|]. split; [done|]. intros l. rewrite Hr2. intros Hl%Hf.
  by eapply lookup_weaken_None.
Qed.

(** What a deep copy is good for: writing through the copy never changes the original, nor
    the other way round. *)
Definition isolated `{Rep G A} (copy : G → M G) : Prop :=
  ∀ h g x, denote h g = Some x →
  ∃ g' h', copy g h = Some (g', h') ∧ denote h' g' = Some x ∧
    (∀ h2, (∀ l, l ∉ reach h' g' → h2 !! l = h' !! l) → denote h2 g = Some x) ∧
    (∀ h2, (∀ l, l ∉ dom h → h2 !! l = h' !! l) → denote h2 g' = Some x).
Lemma deep_copies_isolated `{RepLaws G A} (copy : G → M G) : deep_copies copy → isolated copy.
Proof.
  intros Hc h g x Hd. destruct (Hc h g x Hd) as (g' & h' & Hrun & Hsub & Hd' & Hf).
  exists g', h'. split; [done|]. split; [done|]. split; intros h2 Hh2.
  - apply (rep_frame h h2 g x Hd). intros l Hl. destruct (rep_dom h g x l Hd Hl) as [c Hlc].
    rewrite Hh2; [by rewrite Hlc; eapply lookup_weaken|]. intros Hin%Hf. congruence.
  - apply (rep_frame h' h2 g' x Hd'). intros l Hl. apply Hh2. by apply not_elem_of_dom, Hf.
Qed.

(** ** Values without references *)
Definition flat_rep (A : Type) : Rep A A := {| denote _ a := Some a; reach _ _ := ∅ |}.
Lemma flat_laws A : @RepLaws A A (flat_rep A).
Proof. split; [done|]. intros h g x l _ Hl. simpl in Hl. set_solver. Qed.
Lemma flat_deep A : @deep_copies A A (flat_rep A) (λ a, mret a).
Proof. intros h g x Hd. exists g, h. split; [done|]. split; [done|]. split; [done|]. simpl. set_solver. Qed.

(** ** Pointers *)
(** A pointer to a [G]; [None] is nil. *)
Record ptr (G : Type) := Ptr { addr : option loc }.
Global Arguments Ptr {G} addr.
Global Arguments addr {G} p.

#[global] Instance ptr_rep {G A} `{Block G, Rep G A} : Rep (ptr G) (option A) := {
  denote h p := match addr p with
                | None => Some None
                | Some l => c ← h !! l; g ← unbox c; x ← denote h g; Some (Some x)
                end;
  reach h p := match addr p with
               | None => ∅
               | Some l => {[l]} ∪ match c ← h !! l; unbox c with Some g => reach h g | None => ∅ end
               end
}.
#[global] Instance ptr_laws {G A} `{Block G, RepLaws G A} : RepLaws (ptr G) (option A).
Proof.
  split.
  - intros h h' [[l|]] x Hd Hf; simpl in *; [|done].
    rewrite (Hf l) by set_solver. destruct (h !! l) as [c|]; simpl in *; [|done].
    destruct (unbox c) as [g|]; simpl in *; [|done].
    destruct (denote h g) as [y|] eqn:Hg; simpl in *; [|done].
    destruct (rep_frame h h' g y Hg) as [-> ->]; [|done]. intros l' Hl'. apply Hf. set_solver.
  - intros h [[l0|]] x l Hd Hl; simpl in *; [|set_solver].
    destruct (h !! l0) as [c|] eqn:Hc; simpl in *; [|done].
    destruct (unbox c) as [g|]; simpl in *; [|done].
    destruct (denote h g) as [y|] eqn:Hg; simpl in *; [|done].
    apply elem_of_union in Hl as [->%elem_of_singleton|Hl]; [by eauto|]. by eapply rep_dom.
Qed.

(** [if in != nil { *out = new(T); ( *in).DeepCopyInto( *out) }], nil kept as nil; it is also
    [DeepCopy] on pointers. *)
Definition ptr_copy {G} `{Block G} (zero : G) (copy : G → M G) (p : ptr G) : M (ptr G) :=
  match addr p with
  | None => mret p
  | Some l =>
      l' ← alloc zero;
      g ← load l;
      g' ← copy g;
      _ ← store l' g';
      mret (Ptr (Some l'))
  end.

(** The block a copier filled in. *)
Lemma stored_copy {G A} `{Block G, RepLaws G A} (h h1 h2 : heap) l' c (g' : G) (x : A) :
  h !! l' = None → h1 = <[l' := c]> h → copied h1 h2 g' x →
  store l' g' h2 = Some (tt, <[l' := box g']> h2) ∧
  copied h (<[l' := box g']> h2) (Ptr (G := G) (Some l')) (Some x).
Proof.
  intros Hl' -> (Hsub & Hd & Hf).
  assert (h2 !! l' = Some c) as Hc by (eapply lookup_weaken; [apply lookup_insert_eq|done]).
  assert (h ⊆ <[l' := box g']> h2) as Hh.
  { apply insert_subseteq_r; [done|]. etrans; [by apply (insert_subseteq h l' c)|done]. }
  assert (∀ l, l ∈ reach h2 g' → l ≠ l' ∧ h !! l = None) as Hfresh.
  { intros l Hl%Hf. apply lookup_insert_None in Hl. naive_solver. }
  destruct (rep_frame h2 (<[l' := box g']> h2) g' x Hd) as [Hd' Hr'].
  { intros l Hl. rewrite lookup_insert_ne; [done|]. by destruct (Hfresh l Hl). }
  unfold store. rewrite Hc. split; [done|]. split; [done|]. simpl.
  rewrite lookup_insert_eq. simpl. rewrite unbox_box. simpl. rewrite Hd', Hr'. simpl. split; [done|].
  intros l [->%elem_of_singleton|Hl]%elem_of_union; [done|]. by apply Hfresh.
Qed.

Lemma ptr_deep {G A} `{Block G, RepLaws G A} (zero : G) (copy : G → M G) :
  deep_copies copy → deep_copies (ptr_copy zero copy).
Proof.
  intros Hcopy h [[l|]] x Hd; simpl in Hd.
  2: { exists (Ptr None), h. split; [done|]. split; [done|]. split; [done|]. simpl. set_solver. }
  destruct (h !! l) as [c|] eqn:Hc; simpl in Hd; [|done].
  destruct (unbox c) as [g|] eqn:Hg; simpl in Hd; [|done].
  destruct (denote h g) as [y|] eqn:Hy; simpl in Hd; [|done]. simplify_eq.
  set (l' := fresh (dom h)). set (h1 := <[l' := box zero]> h).
  assert (h !! l' = None) as Hl' by apply not_elem_of_dom, is_fresh.
  assert (h ⊆ h1) as Hsub by by apply insert_subseteq.
  destruct (rep_mono h h1 g y Hy Hsub) as [Hy1 _].
  destruct (Hcopy h1 g y Hy1) as (g' & h2 & Hrun & Hcop).
  destruct (stored_copy h h1 h2 l' (box zero) g' y Hl' eq_refl Hcop) as [Hst Hcop'].
  eexists _, _. split; [|exact Hcop'].
  unfold ptr_copy, mbind, M_bind, alloc, load. simpl. fold l'. fold h1.
  rewrite (lookup_weaken _ _ _ _ Hc Hsub). simpl. rewrite Hg. simpl. rewrite Hrun. simpl.
  by rewrite Hst.
Qed.

(** ** Slices *)
(** A slice that covers its array; [None] is nil. *)
Record slice (G : Type) := Slice { base : option loc }.
Global Arguments Slice {G} base.
Global Arguments base {G} s.

Definition denote_all `{Rep G A} (h : heap) (gs : list G) : option (list A) := mapM (denote h) gs.
Definition reach_all `{Rep G A} (h : heap) (gs : list G) : gset loc := ⋃ (reach h <$> gs).
Lemma elem_of_reach_all `{Rep G A} h gs l : l ∈ reach_all h gs ↔ ∃ g, g ∈ gs ∧ l ∈ reach h g.
Proof.
  unfold reach_all. rewrite elem_of_union_list. split.
  - intros (X & (g & -> & Hg)%list_elem_of_fmap & Hl). eauto.
  - intros (g & Hg & Hl). exists (reach h g). split; [by apply list_elem_of_fmap_2|done].
Qed.
Lemma all_frame `{RepLaws G A} h h' gs xs :
  denote_all h gs = Some xs → (∀ l, l ∈ reach_all h gs → h' !! l = h !! l) →
  denote_all h' gs = Some xs ∧ reach_all h' gs = reach_all h gs.
Proof.
  revert xs. induction gs as [|g gs IH]; intros xs Hd Hf; [done|].
  change (reach_all h (g :: gs)) with (reach h g ∪ reach_all h gs) in *.
  change (reach_all h' (g :: gs)) with (reach h' g ∪ reach_all h' gs).
  unfold denote_all in *. simpl in *.
  destruct (denote h g) as [x|] eqn:Hg; simpl in Hd; [|done].
  destruct (mapM (denote h) gs) as [xs'|] eqn:Hgs; simpl in Hd; [|done].
  destruct (rep_frame h h' g x Hg) as [-> ->]; [intros; apply Hf; set_solver|].
  destruct (IH xs' eq_refl) as [-> ->]; [intros; apply Hf; set_solver|]. done.
Qed.
Lemma all_dom `{RepLaws G A} h gs xs l :
  denote_all h gs = Some xs → l ∈ reach_all h gs → is_Some (h !! l).
Proof.
  intros Hd (g & Hg & Hl)%elem_of_reach_all. apply mapM_Some_1 in Hd.
  destruct (proj1 (list_elem_of_lookup _ _) Hg) as [i Hi].
  destruct (Forall2_lookup_l _ _ _ _ _ Hd Hi) as (x & _ & Hx). by eapply rep_dom.
Qed.

#[global] Instance slice_rep {G A} `{Block (list G), Rep G A} : Rep (slice G) (list A) := {
  denote h s := match base s with
                | None => Some []
                | Some l => c ← h !! l; gs ← unbox c; denote_all h gs
                end;
  reach h s := match base s with
               | None => ∅
               | Some l => {[l]} ∪ match c ← h !! l; unbox c with Some gs => reach_all h gs | None => ∅ end
               end
}.
#[global] Instance slice_laws {G A} `{Block (list G), RepLaws G A} : RepLaws (slice G) (list A).
Proof.
  split.
  - intros h h' [[l|]] xs Hd Hf; simpl in *; [|done].
    rewrite (Hf l) by set_solver. destruct (h !! l) as [c|]; simpl in *; [|done].
    destruct (unbox c) as [gs|]; simpl in *; [|done].
    destruct (all_frame h h' gs xs Hd) as [-> ->]; [|done]. intros l' Hl'. apply Hf. set_solver.
  - intros h [[l0|]] xs l Hd Hl; simpl in *; [|set_solver].
    destruct (h !! l0) as [c|] eqn:Hc; simpl in *; [|done].
    destruct (unbox c) as [gs|]; simpl in *; [|done].
    apply elem_of_union in Hl as [->%elem_of_singleton|Hl]; [by eauto|]. by eapply all_dom.
Qed.

(** [for i := range *in { ( *in)[i].DeepCopyInto(&( *out)[i]) }], from index [i] on. *)
Fixpoint copy_items {G} `{Block (list G)} (copy : G → M G) (l' : loc) (i : nat) (todo : list G) : M unit :=
  match todo with
  | [] => mret tt
  | g :: rest =>
      g' ← copy g;
      out ← load l';
      _ ← store l' (<[i := g']> out);
      copy_items copy l' (S i) rest
  end.
(** [if in != nil { *out = make([]T, len( *in)); for ... }] *)
Definition slice_copy {G} `{Block (list G)} (zero : G) (copy : G → M G) (s : slice G) : M (slice G) :=
  match base s with
  | None => mret s
  | Some l =>
      gs ← load l;
      l' ← alloc (replicate (length gs) zero);
      _ ← copy_items copy l' 0 gs;
      mret (Slice (Some l'))
  end.
(** [if in != nil { *out = make([]T, len( *in)); copy( *out, *in) }] *)
Definition slice_copy_flat {G} `{Block (list G)} (zero : G) (s : slice G) : M (slice G) :=
  match base s with
  | None => mret s
  | Some l =>
      gs ← load l;
      l' ← alloc (replicate (length gs) zero);
      _ ← store l' gs;
      mret (Slice (Some l'))
  end.

Section slice_copy.
Context {G A : Type} `{Block (list G)} `{RepLaws G A}.
Context (zero : G) (copy : G → M G) (Hcopy : deep_copies copy).
Context (h : heap) (l' : loc) (Hl' : h !! l' = None).

(** An element already written: a copy that reaches neither the old heap nor the new array. *)
Definition item_done (hc : heap) (g' : G) (x : A) : Prop :=
  denote hc g' = Some x ∧ ∀ l, l ∈ reach hc g' → h !! l = None ∧ l ≠ l'.
Lemma item_done_later hc h3 g' x :
  item_done hc g' x → (∀ l, l ≠ l' → is_Some (hc !! l) → h3 !! l = hc !! l) → item_done h3 g' x.
Proof.
  intros [Hd Hf] Heq. destruct (rep_frame hc h3 g' x Hd) as [Hd' Hr'].
  { intros l Hl. apply Heq; [by apply Hf|by eapply rep_dom]. }
  split; [done|]. by rewrite Hr'.
Qed.

Lemma copy_items_spec todo written xs ys hc :
  h ⊆ hc → hc !! l' = Some (box (written ++ replicate (length todo) zero)) →
  Forall2 (item_done hc) written xs → Forall2 (λ g y, denote h g = Some y) todo ys →
  ∃ hf all, copy_items copy l' (length written) todo hc = Some (tt, hf) ∧ h ⊆ hf ∧
    hf !! l' = Some (box all) ∧ Forall2 (item_done hf) all (xs ++ ys).
Proof.
  intros Hsub Hblock Hdone Htodo. revert written xs hc Hsub Hblock Hdone.
  induction Htodo as [|g y todo ys Hy Htodo IH]; intros written xs hc Hsub Hblock Hdone.
  { exists hc, written. rewrite app_nil_r in *. by split_and!. }
  destruct (rep_mono h hc g y Hy Hsub) as [Hy' _].
  destruct (Hcopy hc g y Hy') as (g' & h2 & Hrun & Hsub2 & Hd2 & Hf2).
  pose proof (lookup_weaken _ _ _ _ Hblock Hsub2) as Hblock2.
  set (h3 := <[l' := box (<[length written := g']> (written ++ replicate (S (length todo)) zero))]> h2).
  assert (∀ l, l ≠ l' → is_Some (h2 !! l) → h3 !! l = h2 !! l) as Heq3.
  { intros l Hne _. by apply lookup_insert_ne. }
  assert (item_done h3 g' y) as Hg'.
  { apply (item_done_later h2); [|done]. split; [done|]. intros l Hl%Hf2.
    split; [by eapply lookup_weaken_None|]. intros ->. congruence. }
  assert (Forall2 (item_done h3) written xs) as Hdone3.
  { eapply Forall2_impl; [exact Hdone|]. intros g0 x0 Hdone0. apply (item_done_later hc); [done|].
    intros l Hne [c Hc]. rewrite Heq3; [|done|by eexists; eapply lookup_weaken].
    rewrite Hc. by eapply lookup_weaken. }
  destruct (IH (written ++ [g']) (xs ++ [y]) h3) as (hf & all & Hrun' & Hsubf & Hbf & Hall).
  - apply insert_subseteq_r; [done|]. by etrans.
  - unfold h3. rewrite lookup_insert_eq. do 2 f_equal.
    rewrite insert_app_r_alt by done. rewrite Nat.sub_diag. simpl. by rewrite <- app_assoc.
  - apply Forall2_app; [done|]. by constructor.
  - exists hf, all. rewrite <- app_assoc in Hall. split_and!; [|done..].
    rewrite length_app in Hrun'. simpl in Hrun'. rewrite Nat.add_1_r in Hrun'.
    cbn [copy_items]. unfold mbind, M_bind, load, store. rewrite Hrun. simpl. rewrite Hblock2. simpl.
    rewrite unbox_box. simpl. rewrite Hblock2. simpl. exact Hrun'.
Qed.
End slice_copy.

Lemma slice_deep {G A} `{Block (list G), RepLaws G A} (zero : G) (copy : G → M G) :
  deep_copies copy → deep_copies (slice_copy zero copy).
Proof.
  intros Hcopy h [[l|]] xs Hd; simpl in Hd.
  2: { exists (Slice None), h. split; [done|]. split; [done|]. split; [done|]. simpl. set_solver. }
  destruct (h !! l) as [c|] eqn:Hc; simpl in Hd; [|done].
  destruct (unbox c) as [gs|] eqn:Hg; simpl in Hd; [|done].
  set (l' := fresh (dom h)). set (h1 := <[l' := box (replicate (length gs) zero)]> h).
  assert (h !! l' = None) as Hl' by apply not_elem_of_dom, is_fresh.
  destruct (copy_items_spec zero copy Hcopy h l' Hl' gs [] [] xs h1) as (hf & all & Hrun & Hsub & Hb & Hall).
  { by apply insert_subseteq. }
  { unfold h1. by rewrite lookup_insert_eq. }
  { constructor. }
  { by apply mapM_Some_1. }
  exists (Slice (Some l')), hf. split.
  - unfold slice_copy, mbind, M_bind, alloc, load. simpl. rewrite Hc. simpl. rewrite Hg. simpl.
    fold l'. fold h1. cbn [length] in Hrun. by rewrite Hrun.
  - split; [done|]. simpl. rewrite Hb. simpl. rewrite unbox_box. simpl. split.
    + apply mapM_Some_2. eapply Forall2_impl; [exact Hall|]. by intros ?? [].
    + intros l0 [->%elem_of_singleton|(g & Hg' & Hl0)%elem_of_reach_all]%elem_of_union; [done|].
      apply list_elem_of_lookup in Hg' as [i Hi].
      destruct (Forall2_lookup_l _ _ _ _ _ Hall Hi) as (x & _ & _ & Hf). by apply Hf.
Qed.

(** [copy( *out, *in)] is deep for elements without references. *)
Lemma slice_deep_flat {A} `{Block (list A)} (zero : A) :
  @deep_copies (slice A) (list A) (@slice_rep A A _ (flat_rep A)) (slice_copy_flat zero).
Proof.
  intros h [[l|]] xs Hd; simpl in Hd.
  2: { exists (Slice None), h. split; [done|]. split; [done|]. split; [done|]. simpl. set_solver. }
  destruct (h !! l) as [c|] eqn:Hc; simpl in Hd; [|done].
  destruct (unbox c) as [gs|] eqn:Hg; simpl in Hd; [|done].
  set (l' := fresh (dom h)).
  assert (h !! l' = None) as Hl' by apply not_elem_of_dom, is_fresh.
  assert (∀ gs' : list A, @denote_all A A (flat_rep A) (<[l' := box gs]> h) gs' = Some gs' ∧
    @reach_all A A (flat_rep A) (<[l' := box gs]> h) gs' = ∅) as Hflat.
  { intros gs'. induction gs' as [|g gs' [IH1 IH2]]; [done|]. unfold denote_all, reach_all in *. simpl in *.
    rewrite IH1. simpl. split; [done|]. set_solver. }
  assert (xs = gs) as ->.
  { destruct (Hflat gs) as [H1 _]. unfold denote_all in *. simpl in *. congruence. }
  exists (Slice (Some l')), (<[l' := box gs]> h). split.
  - unfold slice_copy_flat, mbind, M_bind, alloc, load, store. simpl. rewrite Hc. simpl. rewrite Hg. simpl.
    fold l'. rewrite lookup_insert_eq. simpl. by rewrite insert_insert_eq.
  - split; [by apply insert_subseteq|]. simpl. rewrite lookup_insert_eq. simpl. rewrite unbox_box. simpl.
    destruct (Hflat gs) as [-> ->]. split; [done|]. set_solver.
Qed.

(** ** Maps *)
(** A [map[string]string]; [None] is nil. *)
Record strmap := Map { mref : option loc }.
#[global] Instance strmap_rep `{Block (gmap string string)} : Rep strmap (gmap string string) := {
  denote h m := match mref m with None => Some ∅ | Some l => c ← h !! l; unbox c end;
  reach h m := match mref m with None => ∅ | Some l => {[l]} end
}.
#[global] Instance strmap_laws `{Block (gmap string string)} : RepLaws strmap (gmap string string).
Proof.
  split.
  - intros h h' [[l|]] x Hd Hf; simpl in *; [|done]. by rewrite (Hf l) by set_solver.
  - intros h [[l0|]] x l Hd Hl; simpl in *; [|set_solver].
    destruct (h !! l0) as [c|] eqn:Hc; [|done]. apply elem_of_singleton in Hl as ->. eauto.
Qed.

(** [for key, val := range *in { ( *out)[key] = val }]; the keys are distinct, so the order
    does not matter. *)
Fixpoint copy_entries `{Block (gmap string string)} (l' : loc) (entries : list (string * string)) : M unit :=
  match entries with
  | [] => mret tt
  | (key, val) :: rest =>
      out ← load l';
      _ ← store l' (<[key := val]> (out : gmap string string));
      copy_entries l' rest
  end.
Definition map_copy `{Block (gmap string string)} (m : strmap) : M strmap :=
  match mref m with
  | None => mret m
  | Some l =>
      entries ← load l;
      l' ← alloc (∅ : gmap string string);
      _ ← copy_entries l' (map_to_list (entries : gmap string string));
      mret (Map (Some l'))
  end.
Lemma copy_entries_spec `{Block (gmap string string)} l' entries (h : heap) (m : gmap string string) :
  copy_entries l' entries (<[l' := box m]> h) =
  Some (tt, <[l' := box (foldl (λ m '(key, val), <[key := val]> m) m entries)]> h).
Proof.
  revert m. induction entries as [|[key val] entries IH]; intros m; [done|].
  cbn [copy_entries]. unfold mbind, M_bind, load, store. rewrite lookup_insert_eq. simpl.
  rewrite unbox_box. simpl. rewrite lookup_insert_eq. simpl. rewrite insert_insert_eq. apply IH.
Qed.
Lemma fold_entries (entries : list (string * string)) (m0 : gmap string string) :
  NoDup entries.*1 →
  foldl (λ m '(key, val), <[key := val]> m) m0 entries = list_to_map entries ∪ m0.
Proof.
  revert m0. induction entries as [|[key val] entries IH]; intros m0 Hnd; simpl; [by rewrite (left_id_L ∅ (∪))|].
  apply NoDup_cons in Hnd as [Hk Hnd]. rewrite IH by done.
  rewrite <- insert_union_l, insert_union_r; [done|]. by apply not_elem_of_list_to_map_1.
Qed.
Lemma map_deep `{Block (gmap string string)} : deep_copies map_copy.
Proof.
  intros h [[l|]] m Hd; simpl in Hd.
  2: { exists (Map None), h. split; [done|]. split; [done|]. split; [done|]. simpl. set_solver. }
  destruct (h !! l) as [c|] eqn:Hc; simpl in Hd; [|done].
  set (l' := fresh (dom h)).
  assert (h !! l' = None) as Hl' by apply not_elem_of_dom, is_fresh.
  exists (Map (Some l')), (<[l' := box m]> h). split.
  - unfold map_copy, mbind, M_bind, alloc, load. simpl. rewrite Hc. simpl. rewrite Hd. simpl. fold l'.
    rewrite copy_entries_spec, fold_entries by apply NoDup_fst_map_to_list.
    by rewrite list_to_map_to_list, (right_id_L ∅ (∪)).
  - split; [by apply insert_subseteq|]. simpl. rewrite lookup_insert_eq. simpl. rewrite unbox_box.
    split; [done|]. by intros l0 ->%elem_of_singleton.
Qed.

(** ** Structs *)
(** A computation run in [h] yields, behind it, a copy of [x] that is new with respect to [h0]. *)
Definition makes `{Rep G A} (h0 h : heap) (m : M G) (x : A) : Prop :=
  ∃ g' h', m h = Some (g', h') ∧ copied h0 h' g' x.
Lemma deep_copies_makes `{Rep G A} (copy : G → M G) :
  (∀ h g x, denote h g = Some x → makes h h (copy g) x) → deep_copies copy.
Proof. intros Hm h g x Hd. by apply Hm. Qed.
(** One field copied, the rest of the struct to be copied in a larger heap. *)
Lemma makes_field {F B} `{RepLaws F B} `{Rep G A} h0 h (copy : F → M F) (f : F) (y : B) (k : F → M G) (x : A) :
  deep_copies copy → denote h0 f = Some y → h0 ⊆ h →
  (∀ f' h1, h ⊆ h1 → copied h0 h1 f' y → makes h0 h1 (k f') x) → makes h0 h (copy f ≫= k) x.
Proof.
  intros Hcopy Hd Hsub Hk. destruct (rep_mono h0 h f y Hd Hsub) as [Hd' _].
  destruct (Hcopy h f y Hd') as (f' & h1 & Hrun & Hc).
  destruct (Hk f' h1) as (g' & h' & Hrun' & Hc'); [by destruct Hc|by eapply copied_later|].
  exists g', h'. split; [|done]. unfold mbind, M_bind. by rewrite Hrun.
Qed.
Lemma makes_ret `{Rep G A} h0 h (g' : G) (x : A) : copied h0 h g' x → makes h0 h (mret g') x.
Proof. intros Hc. by exists g', h. Qed.
(** A field copied earlier, seen from the last heap. *)
Lemma copied_in `{RepLaws G A} h0 h h' g x :
  copied h0 h g x → h ⊆ h' → denote h' g = Some x ∧ ∀ l, l ∈ reach h' g → h0 !! l = None.
Proof. intros Hc Hsub. by destruct (copied_later h0 h0 h h' g x) as (_ & ? & ?). Qed.
End heap.
Global Arguments M C A : clear implicits.
Global Arguments Block C B : clear implicits.
Global Arguments Rep C G A : clear implicits.
Global Arguments RepLaws C G A {_}.
