(* ===== verification/DeepCopy.v ===== *)
(** * The deep copies of the API types
      (src/api/v1alpha1/deepcopy.go and zz_generated.deepcopy.go)

    A Go struct with reference fields is a record [G...] whose slices, pointers and maps are
    locations of the heap of Heap.v; the struct of Api.v is what it denotes.  Structs without
    references are their Api.v records.  The structs of k8s.io/apimachinery and their copies are
    arguments, of which only the contract of a deep copy is used. *)
From S2P Require Import Prelude GoStd Api Heap.

(** ** What apimachinery brings *)
(** Its structs, and the blocks only it knows. *)
Class Apimachinery := {
  GMeta : Type; GListMeta : Type; GSelector : Type; GCondition : Type; TPBlock : Type;
  ListMeta : Type;     (* what a GListMeta denotes *)
  zero_GMeta : GMeta; zero_GListMeta : GListMeta; zero_GSelector : GSelector; zero_GCondition : GCondition
}.

(** Go's zero values, field by field. *)
Class Zero (A : Type) := zero : A.
Ltac go_zero :=
  repeat first [exact ""%string | exact 0%Z | exact false | exact None | exact (Ptr None)
               | exact (Slice None) | exact (Map None) | exact JobPhaseNone
               | exact zero_GMeta | exact zero_GListMeta | exact zero | constructor].
#[export] Instance zero_string : Zero string := "".
#[export] Instance zero_Z : Zero Z := 0%Z.

Section types.
Context `{Apimachinery}.

(** ** The structs that hold references *)
Record GHealthCheckConfig := {
  gh_Test : slice string; gh_Interval : string; gh_Timeout : string; gh_Retries : Z }.
Record GEnvVarSource := { gs_SecretKeyRef : ptr SecretKeySelector }.
Record GEnvVar := { ge_Name : string; ge_Value : string; ge_ValueFrom : ptr GEnvVarSource }.
Record GDockerContainerSpec := {
  gc_Image : string; gc_ContainerName : string; gc_Ports : slice string; gc_Command : slice string;
  gc_Env : slice string; gc_RestartPolicy : string; gc_DockerHostRef : string;
  gc_ImagePullSecret : string; gc_VolumeMounts : slice VolumeMount; gc_Services : slice ServicePort;
  gc_NetworkMode : string; gc_EnvVars : slice GEnvVar; gc_SecretVolumes : slice SecretVolume;
  gc_HealthCheck : ptr GHealthCheckConfig; gc_Resources : ptr ResourceRequirements }.
Record GDockerJobSpec := {
  gj_Image : string; gj_ContainerName : string; gj_Command : slice string; gj_Args : slice string;
  gj_Env : slice string; gj_EnvVars : slice GEnvVar; gj_VolumeMounts : slice VolumeMount;
  gj_SecretVolumes : slice SecretVolume; gj_DockerHostRef : string; gj_ImagePullSecret : string;
  gj_RestartPolicy : string; gj_BackoffLimit : Z; gj_ActiveDeadlineSeconds : ptr Z;
  gj_TTLSecondsAfterFinished : ptr Z; gj_Resources : ptr ResourceRequirements }.
Record GDockerJobStatus := {
  gt_Phase : DockerJobPhase; gt_ContainerID : string; gt_StartTime : ptr Z; gt_CompletionTime : ptr Z;
  gt_ExitCode : ptr Z; gt_Attempts : Z; gt_Message : string }.
Record GTemplateMeta := { gm_Labels : strmap; gm_Annotations : strmap }.
Record GDockerContainerTemplate := { gp_Metadata : GTemplateMeta; gp_Spec : GDockerContainerSpec }.
Record GDockerDeploymentSpec := {
  gd_Replicas : ptr Z; gd_Selector : ptr GSelector; gd_Template : GDockerContainerTemplate }.
Record GDockerDeploymentStatus := { gd_AvailableReplicas : Z; gd_Conditions : slice GCondition }.
Record GDockerServiceSpec := {
  gv_ContainerRef : string; gv_Selector : ptr GSelector; gv_Ports : slice ServicePort; gv_NetworkMode : string }.
(** An object: its metadata, specification and status; a list of objects. *)
Record GObject (Spec Status : Type) := { go_Meta : GMeta; go_Spec : Spec; go_Status : Status }.
Record GObjectList (Obj : Type) := { gl_Meta : GListMeta; gl_Items : slice Obj }.
Definition GDockerContainer : Type := GObject GDockerContainerSpec DockerContainerStatus.
Definition GDockerHost : Type := GObject DockerHostSpec DockerHostStatus.
Definition GDockerService : Type := GObject GDockerServiceSpec DockerServiceStatus.
Definition GDockerJob : Type := GObject GDockerJobSpec GDockerJobStatus.
Definition GDockerDeployment : Type := GObject GDockerDeploymentSpec GDockerDeploymentStatus.
End types.
Arguments go_Meta {_ Spec Status}.
Arguments go_Spec {_ Spec Status}.
Arguments go_Status {_ Spec Status}.
Arguments Build_GObject {_ Spec Status}.
Arguments gl_Meta {_ Obj}.
Arguments gl_Items {_ Obj}.
Arguments Build_GObjectList {_ Obj}.

(** ** The blocks of the heap *)
Inductive cell `{Apimachinery} :=
| BHealthCheckConfig (b : GHealthCheckConfig)
| BEnvVarSource (b : GEnvVarSource)
| BEnvVar (b : GEnvVar)
| BContainerSpec (b : GDockerContainerSpec)
| BJobSpec (b : GDockerJobSpec)
| BJobStatus (b : GDockerJobStatus)
| BTemplateMeta (b : GTemplateMeta)
| BContainerTemplate (b : GDockerContainerTemplate)
| BDeploymentSpec (b : GDockerDeploymentSpec)
| BDeploymentStatus (b : GDockerDeploymentStatus)
| BServiceSpec (b : GDockerServiceSpec)
| BContainer (b : GDockerContainer)
| BHost (b : GDockerHost)
| BService (b : GDockerService)
| BJob (b : GDockerJob)
| BDeployment (b : GDockerDeployment)
| BResources (b : ResourceRequirements)
| BSecretKey (b : SecretKeySelector)
| BSecretVolume (b : SecretVolume)
| BServicePort (b : ServicePort)
| BVolumeMount (b : VolumeMount)
| BContainerStatus (b : DockerContainerStatus)
| BHostSpec (b : DockerHostSpec)
| BHostStatus (b : DockerHostStatus)
| BServiceStatus (b : DockerServiceStatus)
| BSelector (b : GSelector)
| BInt (b : Z)
| BContainerList (b : GObjectList GDockerContainer)
| BHostList (b : GObjectList GDockerHost)
| BServiceList (b : GObjectList GDockerService)
| BJobList (b : GObjectList GDockerJob)
| BDeploymentList (b : GObjectList GDockerDeployment)
| BStrings (b : list string)
| BVolumeMounts (b : list VolumeMount)
| BServicePorts (b : list ServicePort)
| BEnvVars (b : list GEnvVar)
| BSecretVolumes (b : list SecretVolume)
| BConditions (b : list GCondition)
| BContainers (b : list GDockerContainer)
| BHosts (b : list GDockerHost)
| BServices (b : list GDockerService)
| BJobs (b : list GDockerJob)
| BDeployments (b : list GDockerDeployment)
| BMap (b : gmap string string)
| BOther (b : TPBlock).

Section blocks.
Context `{Apimachinery}.
#[export] Instance block_HealthCheckConfig : Block cell GHealthCheckConfig :=
  {| box := BHealthCheckConfig; unbox c := match c with BHealthCheckConfig b => Some b | _ => None end; unbox_box _ := eq_refl |}.
#[export] Instance block_EnvVarSource : Block cell GEnvVarSource :=
  {| box := BEnvVarSource; unbox c := match c with BEnvVarSource b => Some b | _ => None end; unbox_box _ := eq_refl |}.
#[export] Instance block_EnvVar : Block cell GEnvVar :=
  {| box := BEnvVar; unbox c := match c with BEnvVar b => Some b | _ => None end; unbox_box _ := eq_refl |}.
#[export] Instance block_ContainerSpec : Block cell GDockerContainerSpec :=
  {| box := BContainerSpec; unbox c := match c with BContainerSpec b => Some b | _ => None end; unbox_box _ := eq_refl |}.
#[export] Instance block_JobSpec : Block cell GDockerJobSpec :=
  {| box := BJobSpec; unbox c := match c with BJobSpec b => Some b | _ => None end; unbox_box _ := eq_refl |}.
#[export] Instance block_JobStatus : Block cell GDockerJobStatus :=
  {| box := BJobStatus; unbox c := match c with BJobStatus b => Some b | _ => None end; unbox_box _ := eq_refl |}.
#[export] Instance block_TemplateMeta : Block cell GTemplateMeta :=
  {| box := BTemplateMeta; unbox c := match c with BTemplateMeta b => Some b | _ => None end; unbox_box _ := eq_refl |}.
#[export] Instance block_ContainerTemplate : Block cell GDockerContainerTemplate :=
  {| box := BContainerTemplate; unbox c := match c with BContainerTemplate b => Some b | _ => None end; unbox_box _ := eq_refl |}.
#[export] Instance block_DeploymentSpec : Block cell GDockerDeploymentSpec :=
  {| box := BDeploymentSpec; unbox c := match c with BDeploymentSpec b => Some b | _ => None end; unbox_box _ := eq_refl |}.
#[export] Instance block_DeploymentStatus : Block cell GDockerDeploymentStatus :=
  {| box := BDeploymentStatus; unbox c := match c with BDeploymentStatus b => Some b | _ => None end; unbox_box _ := eq_refl |}.
#[export] Instance block_ServiceSpec : Block cell GDockerServiceSpec :=
  {| box := BServiceSpec; unbox c := match c with BServiceSpec b => Some b | _ => None end; unbox_box _ := eq_refl |}.
#[export] Instance block_Container : Block cell GDockerContainer :=
  {| box := BContainer; unbox c := match c with BContainer b => Some b | _ => None end; unbox_box _ := eq_refl |}.
#[export] Instance block_Host : Block cell GDockerHost :=
  {| box := BHost; unbox c := match c with BHost b => Some b | _ => None end; unbox_box _ := eq_refl |}.
#[export] Instance block_Service : Block cell GDockerService :=
  {| box := BService; unbox c := match c with BService b => Some b | _ => None end; unbox_box _ := eq_refl |}.
#[export] Instance block_Job : Block cell GDockerJob :=
  {| box := BJob; unbox c := match c with BJob b => Some b | _ => None end; unbox_box _ := eq_refl |}.
#[export] Instance block_Deployment : Block cell GDockerDeployment :=
  {| box := BDeployment; unbox c := match c with BDeployment b => Some b | _ => None end; unbox_box _ := eq_refl |}.
#[export] Instance block_Resources : Block cell ResourceRequirements :=
  {| box := BResources; unbox c := match c with BResources b => Some b | _ => None end; unbox_box _ := eq_refl |}.
#[export] Instance block_SecretKey : Block cell SecretKeySelector :=
  {| box := BSecretKey; unbox c := match c with BSecretKey b => Some b | _ => None end; unbox_box _ := eq_refl |}.
#[export] Instance block_SecretVolume : Block cell SecretVolume :=
  {| box := BSecretVolume; unbox c := match c with BSecretVolume b => Some b | _ => None end; unbox_box _ := eq_refl |}.
#[export] Instance block_ServicePort : Block cell ServicePort :=
  {| box := BServicePort; unbox c := match c with BServicePort b => Some b | _ => None end; unbox_box _ := eq_refl |}.
#[export] Instance block_VolumeMount : Block cell VolumeMount :=
  {| box := BVolumeMount; unbox c := match c with BVolumeMount b => Some b | _ => None end; unbox_box _ := eq_refl |}.
#[export] Instance block_ContainerStatus : Block cell DockerContainerStatus :=
  {| box := BContainerStatus; unbox c := match c with BContainerStatus b => Some b | _ => None end; unbox_box _ := eq_refl |}.
#[export] Instance block_HostSpec : Block cell DockerHostSpec :=
  {| box := BHostSpec; unbox c := match c with BHostSpec b => Some b | _ => None end; unbox_box _ := eq_refl |}.
#[export] Instance block_HostStatus : Block cell DockerHostStatus :=
  {| box := BHostStatus; unbox c := match c with BHostStatus b => Some b | _ => None end; unbox_box _ := eq_refl |}.
#[export] Instance block_ServiceStatus : Block cell DockerServiceStatus :=
  {| box := BServiceStatus; unbox c := match c with BServiceStatus b => Some b | _ => None end; unbox_box _ := eq_refl |}.
#[export] Instance block_Selector : Block cell GSelector :=
  {| box := BSelector; unbox c := match c with BSelector b => Some b | _ => None end; unbox_box _ := eq_refl |}.
#[export] Instance block_Int : Block cell Z :=
  {| box := BInt; unbox c := match c with BInt b => Some b | _ => None end; unbox_box _ := eq_refl |}.
#[export] Instance block_ContainerList : Block cell (GObjectList GDockerContainer) :=
  {| box := BContainerList; unbox c := match c with BContainerList b => Some b | _ => None end; unbox_box _ := eq_refl |}.
#[export] Instance block_HostList : Block cell (GObjectList GDockerHost) :=
  {| box := BHostList; unbox c := match c with BHostList b => Some b | _ => None end; unbox_box _ := eq_refl |}.
#[export] Instance block_ServiceList : Block cell (GObjectList GDockerService) :=
  {| box := BServiceList; unbox c := match c with BServiceList b => Some b | _ => None end; unbox_box _ := eq_refl |}.
#[export] Instance block_JobList : Block cell (GObjectList GDockerJob) :=
  {| box := BJobList; unbox c := match c with BJobList b => Some b | _ => None end; unbox_box _ := eq_refl |}.
#[export] Instance block_DeploymentList : Block cell (GObjectList GDockerDeployment) :=
  {| box := BDeploymentList; unbox c := match c with BDeploymentList b => Some b | _ => None end; unbox_box _ := eq_refl |}.
#[export] Instance block_Strings : Block cell (list string) :=
  {| box := BStrings; unbox c := match c with BStrings b => Some b | _ => None end; unbox_box _ := eq_refl |}.
#[export] Instance block_VolumeMounts : Block cell (list VolumeMount) :=
  {| box := BVolumeMounts; unbox c := match c with BVolumeMounts b => Some b | _ => None end; unbox_box _ := eq_refl |}.
#[export] Instance block_ServicePorts : Block cell (list ServicePort) :=
  {| box := BServicePorts; unbox c := match c with BServicePorts b => Some b | _ => None end; unbox_box _ := eq_refl |}.
#[export] Instance block_EnvVars : Block cell (list GEnvVar) :=
  {| box := BEnvVars; unbox c := match c with BEnvVars b => Some b | _ => None end; unbox_box _ := eq_refl |}.
#[export] Instance block_SecretVolumes : Block cell (list SecretVolume) :=
  {| box := BSecretVolumes; unbox c := match c with BSecretVolumes b => Some b | _ => None end; unbox_box _ := eq_refl |}.
#[export] Instance block_Conditions : Block cell (list GCondition) :=
  {| box := BConditions; unbox c := match c with BConditions b => Some b | _ => None end; unbox_box _ := eq_refl |}.
#[export] Instance block_Containers : Block cell (list GDockerContainer) :=
  {| box := BContainers; unbox c := match c with BContainers b => Some b | _ => None end; unbox_box _ := eq_refl |}.
#[export] Instance block_Hosts : Block cell (list GDockerHost) :=
  {| box := BHosts; unbox c := match c with BHosts b => Some b | _ => None end; unbox_box _ := eq_refl |}.
#[export] Instance block_Services : Block cell (list GDockerService) :=
  {| box := BServices; unbox c := match c with BServices b => Some b | _ => None end; unbox_box _ := eq_refl |}.
#[export] Instance block_Jobs : Block cell (list GDockerJob) :=
  {| box := BJobs; unbox c := match c with BJobs b => Some b | _ => None end; unbox_box _ := eq_refl |}.
#[export] Instance block_Deployments : Block cell (list GDockerDeployment) :=
  {| box := BDeployments; unbox c := match c with BDeployments b => Some b | _ => None end; unbox_box _ := eq_refl |}.
#[export] Instance block_Map : Block cell (gmap string string) :=
  {| box := BMap; unbox c := match c with BMap b => Some b | _ => None end; unbox_box _ := eq_refl |}.
#[export] Instance block_Other : Block cell TPBlock :=
  {| box := BOther; unbox c := match c with BOther b => Some b | _ => None end; unbox_box _ := eq_refl |}.
#[export] Instance zero_HealthCheckConfig : Zero GHealthCheckConfig.
Proof. go_zero. Defined.
#[export] Instance zero_EnvVarSource : Zero GEnvVarSource.
Proof. go_zero. Defined.
#[export] Instance zero_EnvVar : Zero GEnvVar.
Proof. go_zero. Defined.
#[export] Instance zero_ContainerSpec : Zero GDockerContainerSpec.
Proof. go_zero. Defined.
#[export] Instance zero_JobSpec : Zero GDockerJobSpec.
Proof. go_zero. Defined.
#[export] Instance zero_JobStatus : Zero GDockerJobStatus.
Proof. go_zero. Defined.
#[export] Instance zero_TemplateMeta : Zero GTemplateMeta.
Proof. go_zero. Defined.
#[export] Instance zero_ContainerTemplate : Zero GDockerContainerTemplate.
Proof. go_zero. Defined.
#[export] Instance zero_DeploymentSpec : Zero GDockerDeploymentSpec.
Proof. go_zero. Defined.
#[export] Instance zero_DeploymentStatus : Zero GDockerDeploymentStatus.
Proof. go_zero. Defined.
#[export] Instance zero_ServiceSpec : Zero GDockerServiceSpec.
Proof. go_zero. Defined.
#[export] Instance zero_Container : Zero GDockerContainer.
Proof. go_zero. Defined.
#[export] Instance zero_Host : Zero GDockerHost.
Proof. go_zero. Defined.
#[export] Instance zero_Service : Zero GDockerService.
Proof. go_zero. Defined.
#[export] Instance zero_Job : Zero GDockerJob.
Proof. go_zero. Defined.
#[export] Instance zero_Deployment : Zero GDockerDeployment.
Proof. go_zero. Defined.
#[export] Instance zero_Resources : Zero ResourceRequirements.
Proof. go_zero. Defined.
#[export] Instance zero_SecretKey : Zero SecretKeySelector.
Proof. go_zero. Defined.
#[export] Instance zero_SecretVolume : Zero SecretVolume.
Proof. go_zero. Defined.
#[export] Instance zero_ServicePort : Zero ServicePort.
Proof. go_zero. Defined.
#[export] Instance zero_VolumeMount : Zero VolumeMount.
Proof. go_zero. Defined.
#[export] Instance zero_ContainerStatus : Zero DockerContainerStatus.
Proof. go_zero. Defined.
#[export] Instance zero_HostSpec : Zero DockerHostSpec.
Proof. go_zero. Defined.
#[export] Instance zero_HostStatus : Zero DockerHostStatus.
Proof. go_zero. Defined.
#[export] Instance zero_ServiceStatus : Zero DockerServiceStatus.
Proof. go_zero. Defined.
#[export] Instance zero_ContainerList : Zero (GObjectList GDockerContainer).
Proof. go_zero. Defined.
#[export] Instance zero_HostList : Zero (GObjectList GDockerHost).
Proof. go_zero. Defined.
#[export] Instance zero_ServiceList : Zero (GObjectList GDockerService).
Proof. go_zero. Defined.
#[export] Instance zero_JobList : Zero (GObjectList GDockerJob).
Proof. go_zero. Defined.
#[export] Instance zero_DeploymentList : Zero (GObjectList GDockerDeployment).
Proof. go_zero. Defined.
#[export] Instance zero_Selector : Zero GSelector := zero_GSelector.
#[export] Instance zero_Condition : Zero GCondition := zero_GCondition.
End blocks.

(** ** What the values denote *)
(** The structs of apimachinery, and their copies. *)
Class ApimachineryCopies `{Apimachinery} := {
  rep_Meta :: Rep cell GMeta ObjectMeta;
  rep_ListMeta :: Rep cell GListMeta ListMeta;
  rep_Selector :: Rep cell GSelector LabelSelector;
  rep_Condition :: Rep cell GCondition string;
  ObjectMeta_DeepCopyInto : GMeta → M cell GMeta;
  ListMeta_DeepCopyInto : GListMeta → M cell GListMeta;
  LabelSelector_DeepCopyInto : GSelector → M cell GSelector;
  Condition_DeepCopyInto : GCondition → M cell GCondition;
  Time_DeepCopy : ptr Z → M cell (ptr Z)
}.

(** Structs without references. *)
#[export] Instance rep_flat_string `{Apimachinery} : Rep cell string string := flat_rep string.
#[export] Instance laws_flat_string `{Apimachinery} : RepLaws cell string string := flat_laws string.
#[export] Instance rep_flat_Z `{Apimachinery} : Rep cell Z Z := flat_rep Z.
#[export] Instance laws_flat_Z `{Apimachinery} : RepLaws cell Z Z := flat_laws Z.
#[export] Instance rep_flat_SecretKeySelector `{Apimachinery} : Rep cell SecretKeySelector SecretKeySelector := flat_rep SecretKeySelector.
#[export] Instance laws_flat_SecretKeySelector `{Apimachinery} : RepLaws cell SecretKeySelector SecretKeySelector := flat_laws SecretKeySelector.
#[export] Instance rep_flat_ResourceRequirements `{Apimachinery} : Rep cell ResourceRequirements ResourceRequirements := flat_rep ResourceRequirements.
#[export] Instance laws_flat_ResourceRequirements `{Apimachinery} : RepLaws cell ResourceRequirements ResourceRequirements := flat_laws ResourceRequirements.
#[export] Instance rep_flat_SecretVolume `{Apimachinery} : Rep cell SecretVolume SecretVolume := flat_rep SecretVolume.
#[export] Instance laws_flat_SecretVolume `{Apimachinery} : RepLaws cell SecretVolume SecretVolume := flat_laws SecretVolume.
#[export] Instance rep_flat_ServicePort `{Apimachinery} : Rep cell ServicePort ServicePort := flat_rep ServicePort.
#[export] Instance laws_flat_ServicePort `{Apimachinery} : RepLaws cell ServicePort ServicePort := flat_laws ServicePort.
#[export] Instance rep_flat_VolumeMount `{Apimachinery} : Rep cell VolumeMount VolumeMount := flat_rep VolumeMount.
#[export] Instance laws_flat_VolumeMount `{Apimachinery} : RepLaws cell VolumeMount VolumeMount := flat_laws VolumeMount.
#[export] Instance rep_flat_DockerContainerStatus `{Apimachinery} : Rep cell DockerContainerStatus DockerContainerStatus := flat_rep DockerContainerStatus.
#[export] Instance laws_flat_DockerContainerStatus `{Apimachinery} : RepLaws cell DockerContainerStatus DockerContainerStatus := flat_laws DockerContainerStatus.
#[export] Instance rep_flat_DockerHostSpec `{Apimachinery} : Rep cell DockerHostSpec DockerHostSpec := flat_rep DockerHostSpec.
#[export] Instance laws_flat_DockerHostSpec `{Apimachinery} : RepLaws cell DockerHostSpec DockerHostSpec := flat_laws DockerHostSpec.
#[export] Instance rep_flat_DockerHostStatus `{Apimachinery} : Rep cell DockerHostStatus DockerHostStatus := flat_rep DockerHostStatus.
#[export] Instance laws_flat_DockerHostStatus `{Apimachinery} : RepLaws cell DockerHostStatus DockerHostStatus := flat_laws DockerHostStatus.
#[export] Instance rep_flat_DockerServiceStatus `{Apimachinery} : Rep cell DockerServiceStatus DockerServiceStatus := flat_rep DockerServiceStatus.
#[export] Instance laws_flat_DockerServiceStatus `{Apimachinery} : RepLaws cell DockerServiceStatus DockerServiceStatus := flat_laws DockerServiceStatus.

(** What apimachinery promises of its copies. *)
Class ApimachineryLaws `{AC : ApimachineryCopies} : Prop := {
  laws_Meta :: RepLaws cell GMeta ObjectMeta;
  laws_ListMeta :: RepLaws cell GListMeta ListMeta;
  laws_Selector :: RepLaws cell GSelector LabelSelector;
  laws_Condition :: RepLaws cell GCondition string;
  ObjectMeta_deep : deep_copies ObjectMeta_DeepCopyInto;
  ListMeta_deep : deep_copies ListMeta_DeepCopyInto;
  LabelSelector_deep : deep_copies LabelSelector_DeepCopyInto;
  Condition_deep : deep_copies Condition_DeepCopyInto;
  Time_deep : deep_copies Time_DeepCopy
}.

Section reps.
Context `{AC : ApimachineryCopies}.
#[export] Instance rep_HealthCheckConfig : Rep cell GHealthCheckConfig HealthCheckConfig := {
  denote h g :=
    test ← denote h (gh_Test g);
    Some {| hcc_Test := test; hcc_Interval := gh_Interval g; hcc_Timeout := gh_Timeout g; hcc_Retries := gh_Retries g |};
  reach h g := reach h (gh_Test g)
}.
#[export] Instance rep_EnvVarSource : Rep cell GEnvVarSource EnvVarSource := {
  denote h g :=
    ref ← denote h (gs_SecretKeyRef g);
    Some {| evs_SecretKeyRef := ref |};
  reach h g := reach h (gs_SecretKeyRef g)
}.
#[export] Instance rep_EnvVar : Rep cell GEnvVar EnvVar := {
  denote h g :=
    source ← denote h (ge_ValueFrom g);
    Some {| ev_Name := ge_Name g; ev_Value := ge_Value g; ev_ValueFrom := source |};
  reach h g := reach h (ge_ValueFrom g)
}.
#[export] Instance rep_ContainerSpec : Rep cell GDockerContainerSpec DockerContainerSpec := {
  denote h g :=
    ports ← denote h (gc_Ports g);
    command ← denote h (gc_Command g);
    env ← denote h (gc_Env g);
    mounts ← denote h (gc_VolumeMounts g);
    services ← denote h (gc_Services g);
    envVars ← denote h (gc_EnvVars g);
    secrets ← denote h (gc_SecretVolumes g);
    health ← denote h (gc_HealthCheck g);
    resources ← denote h (gc_Resources g);
    Some {| cs_Image := gc_Image g; cs_ContainerName := gc_ContainerName g; cs_Ports := ports;
            cs_Command := command; cs_Env := env; cs_RestartPolicy := gc_RestartPolicy g;
            cs_DockerHostRef := gc_DockerHostRef g; cs_ImagePullSecret := gc_ImagePullSecret g;
            cs_VolumeMounts := mounts; cs_Services := services; cs_NetworkMode := gc_NetworkMode g;
            cs_EnvVars := envVars; cs_SecretVolumes := secrets; cs_HealthCheck := health;
            cs_Resources := resources |};
  reach h g := reach h (gc_Ports g) ∪ reach h (gc_Command g) ∪ reach h (gc_Env g) ∪ reach h (gc_VolumeMounts g) ∪ reach h (gc_Services g) ∪ reach h (gc_EnvVars g) ∪ reach h (gc_SecretVolumes g) ∪ reach h (gc_HealthCheck g) ∪ reach h (gc_Resources g)
}.
#[export] Instance rep_JobSpec : Rep cell GDockerJobSpec DockerJobSpec := {
  denote h g :=
    command ← denote h (gj_Command g);
    args ← denote h (gj_Args g);
    env ← denote h (gj_Env g);
    envVars ← denote h (gj_EnvVars g);
    mounts ← denote h (gj_VolumeMounts g);
    secrets ← denote h (gj_SecretVolumes g);
    deadline ← denote h (gj_ActiveDeadlineSeconds g);
    ttl ← denote h (gj_TTLSecondsAfterFinished g);
    resources ← denote h (gj_Resources g);
    Some {| js_Image := gj_Image g; js_ContainerName := gj_ContainerName g; js_Command := command;
            js_Args := args; js_Env := env; js_EnvVars := envVars; js_VolumeMounts := mounts;
            js_SecretVolumes := secrets; js_DockerHostRef := gj_DockerHostRef g;
            js_ImagePullSecret := gj_ImagePullSecret g; js_RestartPolicy := gj_RestartPolicy g;
            js_BackoffLimit := gj_BackoffLimit g; js_ActiveDeadlineSeconds := deadline;
            js_TTLSecondsAfterFinished := ttl; js_Resources := resources |};
  reach h g := reach h (gj_Command g) ∪ reach h (gj_Args g) ∪ reach h (gj_Env g) ∪ reach h (gj_EnvVars g) ∪ reach h (gj_VolumeMounts g) ∪ reach h (gj_SecretVolumes g) ∪ reach h (gj_ActiveDeadlineSeconds g) ∪ reach h (gj_TTLSecondsAfterFinished g) ∪ reach h (gj_Resources g)
}.
#[export] Instance rep_JobStatus : Rep cell GDockerJobStatus DockerJobStatus := {
  denote h g :=
    start ← denote h (gt_StartTime g);
    completion ← denote h (gt_CompletionTime g);
    exit ← denote h (gt_ExitCode g);
    Some {| jst_Phase := gt_Phase g; jst_ContainerID := gt_ContainerID g; jst_StartTime := start;
            jst_CompletionTime := completion; jst_ExitCode := exit; jst_Attempts := gt_Attempts g;
            jst_Message := gt_Message g |};
  reach h g := reach h (gt_StartTime g) ∪ reach h (gt_CompletionTime g) ∪ reach h (gt_ExitCode g)
}.
#[export] Instance rep_TemplateMeta : Rep cell GTemplateMeta TemplateMeta := {
  denote h g :=
    labels ← denote h (gm_Labels g);
    annotations ← denote h (gm_Annotations g);
    Some {| tm_Labels := labels; tm_Annotations := annotations |};
  reach h g := reach h (gm_Labels g) ∪ reach h (gm_Annotations g)
}.
#[export] Instance rep_ContainerTemplate : Rep cell GDockerContainerTemplate DockerContainerTemplate := {
  denote h g :=
    metadata ← denote h (gp_Metadata g);
    spec ← denote h (gp_Spec g);
    Some {| tpl_Metadata := metadata; tpl_Spec := spec |};
  reach h g := reach h (gp_Metadata g) ∪ reach h (gp_Spec g)
}.
#[export] Instance rep_DeploymentSpec : Rep cell GDockerDeploymentSpec DockerDeploymentSpec := {
  denote h g :=
    replicas ← denote h (gd_Replicas g);
    selector ← denote h (gd_Selector g);
    template ← denote h (gd_Template g);
    Some {| ds_Replicas := replicas; ds_Selector := selector; ds_Template := template |};
  reach h g := reach h (gd_Replicas g) ∪ reach h (gd_Selector g) ∪ reach h (gd_Template g)
}.
#[export] Instance rep_DeploymentStatus : Rep cell GDockerDeploymentStatus DockerDeploymentStatus := {
  denote h g :=
    conditions ← denote h (gd_Conditions g);
    Some {| dst_AvailableReplicas := gd_AvailableReplicas g; dst_Conditions := conditions |};
  reach h g := reach h (gd_Conditions g)
}.
#[export] Instance rep_ServiceSpec : Rep cell GDockerServiceSpec DockerServiceSpec := {
  denote h g :=
    selector ← denote h (gv_Selector g);
    ports ← denote h (gv_Ports g);
    Some {| ss_ContainerRef := gv_ContainerRef g; ss_Selector := selector; ss_Ports := ports;
            ss_NetworkMode := gv_NetworkMode g |};
  reach h g := reach h (gv_Selector g) ∪ reach h (gv_Ports g)
}.
(** Objects and lists of objects, whatever they are made of. *)
#[export] Instance rep_Object {GS S GT T} `{Rep cell GS S, Rep cell GT T} : Rep cell (GObject GS GT) (ObjectMeta * S * T) := {
  denote h g :=
    meta ← denote h (go_Meta g);
    spec ← denote h (go_Spec g);
    status ← denote h (go_Status g);
    Some (meta, spec, status);
  reach h g := reach h (go_Meta g) ∪ reach h (go_Spec g) ∪ reach h (go_Status g)
}.
#[export] Instance rep_ObjectList {GO O} `{Block cell (list GO), Rep cell GO O} : Rep cell (GObjectList GO) (ListMeta * list O) := {
  denote h g :=
    meta ← denote h (gl_Meta g);
    items ← denote h (gl_Items g);
    Some (meta, items);
  reach h g := reach h (gl_Meta g) ∪ reach h (gl_Items g)
}.
End reps.

(** *** The laws *)
Section laws.
Context `{AL : ApimachineryLaws}.
(** A struct is unfolded to its fields, and no further; its laws follow from theirs. *)
Local Opaque ptr_rep slice_rep strmap_rep.
Local Ltac struct_laws :=
  split;
  [ intros h h' g x Hd Hf; simpl in *; simplify_option_eq;
    repeat match goal with
    | Hx : denote h ?f = Some ?y |- _ =>
        let E := fresh "E" in let F := fresh "F" in
        destruct (rep_frame h h' f y Hx) as [E F]; [by intros l Hl; apply Hf; rewrite ?elem_of_union; auto 10|];
        rewrite ?E, ?F; clear Hx E F; simpl
    end; done
  | intros h g x l Hd Hl; simpl in *; simplify_option_eq;
    repeat apply elem_of_union in Hl as [Hl|Hl];
    match goal with Hx : denote h ?f = Some ?y, Hin : l ∈ reach h ?f |- _ => exact (rep_dom h f y l Hx Hin) end ].
#[export] Instance laws_HealthCheckConfig : RepLaws cell GHealthCheckConfig HealthCheckConfig.
Proof. struct_laws. Qed.
Local Opaque rep_HealthCheckConfig.
#[export] Instance laws_EnvVarSource : RepLaws cell GEnvVarSource EnvVarSource.
Proof. struct_laws. Qed.
Local Opaque rep_EnvVarSource.
#[export] Instance laws_EnvVar : RepLaws cell GEnvVar EnvVar.
Proof. struct_laws. Qed.
Local Opaque rep_EnvVar.
#[export] Instance laws_ContainerSpec : RepLaws cell GDockerContainerSpec DockerContainerSpec.
Proof. struct_laws. Qed.
Local Opaque rep_ContainerSpec.
#[export] Instance laws_JobSpec : RepLaws cell GDockerJobSpec DockerJobSpec.
Proof. struct_laws. Qed.
Local Opaque rep_JobSpec.
#[export] Instance laws_JobStatus : RepLaws cell GDockerJobStatus DockerJobStatus.
Proof. struct_laws. Qed.
Local Opaque rep_JobStatus.
#[export] Instance laws_TemplateMeta : RepLaws cell GTemplateMeta TemplateMeta.
Proof. struct_laws. Qed.
Local Opaque rep_TemplateMeta.
#[export] Instance laws_ContainerTemplate : RepLaws cell GDockerContainerTemplate DockerContainerTemplate.
Proof. struct_laws. Qed.
Local Opaque rep_ContainerTemplate.
#[export] Instance laws_DeploymentSpec : RepLaws cell GDockerDeploymentSpec DockerDeploymentSpec.
Proof. struct_laws. Qed.
Local Opaque rep_DeploymentSpec.
#[export] Instance laws_DeploymentStatus : RepLaws cell GDockerDeploymentStatus DockerDeploymentStatus.
Proof. struct_laws. Qed.
Local Opaque rep_DeploymentStatus.
#[export] Instance laws_ServiceSpec : RepLaws cell GDockerServiceSpec DockerServiceSpec.
Proof. struct_laws. Qed.
Local Opaque rep_ServiceSpec.
#[export] Instance laws_Object {GS S GT T} `{RepLaws cell GS S, RepLaws cell GT T} : RepLaws cell (GObject GS GT) (ObjectMeta * S * T).
Proof. struct_laws. Qed.
#[export] Instance laws_ObjectList {GO O} `{Block cell (list GO), RepLaws cell GO O} : RepLaws cell (GObjectList GO) (ListMeta * list O).
Proof. struct_laws. Qed.
End laws.

(** ** The copies *)
Section copies.
Context `{AC : ApimachineryCopies}.
(** [**out = **in] behind a pointer. *)
Definition ptr_copy_flat {G} `{Block cell G} (zero : G) : ptr G → M cell (ptr G) := ptr_copy zero (λ a, mret a).

Definition HealthCheckConfig_DeepCopyInto (g : GHealthCheckConfig) : M cell GHealthCheckConfig :=
  test ← slice_copy_flat zero (gh_Test g);
  mret {| gh_Test := test; gh_Interval := gh_Interval g; gh_Timeout := gh_Timeout g; gh_Retries := gh_Retries g |}.
Definition EnvVarSource_DeepCopyInto (g : GEnvVarSource) : M cell GEnvVarSource :=
  ref ← ptr_copy_flat zero (gs_SecretKeyRef g);
  mret {| gs_SecretKeyRef := ref |}.
Definition EnvVar_DeepCopyInto (g : GEnvVar) : M cell GEnvVar :=
  source ← ptr_copy zero EnvVarSource_DeepCopyInto (ge_ValueFrom g);
  mret {| ge_Name := ge_Name g; ge_Value := ge_Value g; ge_ValueFrom := source |}.
Definition DockerContainerSpec_DeepCopyInto (g : GDockerContainerSpec) : M cell GDockerContainerSpec :=
  ports ← slice_copy_flat zero (gc_Ports g);
  command ← slice_copy_flat zero (gc_Command g);
  env ← slice_copy_flat zero (gc_Env g);
  mounts ← slice_copy_flat zero (gc_VolumeMounts g);
  services ← slice_copy_flat zero (gc_Services g);
  envVars ← slice_copy zero EnvVar_DeepCopyInto (gc_EnvVars g);
  secrets ← slice_copy_flat zero (gc_SecretVolumes g);
  health ← ptr_copy zero HealthCheckConfig_DeepCopyInto (gc_HealthCheck g);
  resources ← ptr_copy_flat zero (gc_Resources g);
  mret {| gc_Image := gc_Image g; gc_ContainerName := gc_ContainerName g; gc_Ports := ports;
          gc_Command := command; gc_Env := env; gc_RestartPolicy := gc_RestartPolicy g;
          gc_DockerHostRef := gc_DockerHostRef g; gc_ImagePullSecret := gc_ImagePullSecret g;
          gc_VolumeMounts := mounts; gc_Services := services; gc_NetworkMode := gc_NetworkMode g;
          gc_EnvVars := envVars; gc_SecretVolumes := secrets; gc_HealthCheck := health;
          gc_Resources := resources |}.
Definition DockerJobSpec_DeepCopyInto (g : GDockerJobSpec) : M cell GDockerJobSpec :=
  command ← slice_copy_flat zero (gj_Command g);
  args ← slice_copy_flat zero (gj_Args g);
  env ← slice_copy_flat zero (gj_Env g);
  envVars ← slice_copy zero EnvVar_DeepCopyInto (gj_EnvVars g);
  mounts ← slice_copy_flat zero (gj_VolumeMounts g);
  secrets ← slice_copy_flat zero (gj_SecretVolumes g);
  deadline ← ptr_copy_flat zero (gj_ActiveDeadlineSeconds g);
  ttl ← ptr_copy_flat zero (gj_TTLSecondsAfterFinished g);
  resources ← ptr_copy_flat zero (gj_Resources g);
  mret {| gj_Image := gj_Image g; gj_ContainerName := gj_ContainerName g; gj_Command := command;
          gj_Args := args; gj_Env := env; gj_EnvVars := envVars; gj_VolumeMounts := mounts;
          gj_SecretVolumes := secrets; gj_DockerHostRef := gj_DockerHostRef g;
          gj_ImagePullSecret := gj_ImagePullSecret g; gj_RestartPolicy := gj_RestartPolicy g;
          gj_BackoffLimit := gj_BackoffLimit g; gj_ActiveDeadlineSeconds := deadline;
          gj_TTLSecondsAfterFinished := ttl; gj_Resources := resources |}.
(** [if in != nil { *out = ( *in).DeepCopy() }] *)
Definition copy_time (t : ptr Z) : M cell (ptr Z) :=
  match addr t with None => mret t | Some _ => Time_DeepCopy t end.
Definition DockerJobStatus_DeepCopyInto (g : GDockerJobStatus) : M cell GDockerJobStatus :=
  start ← copy_time (gt_StartTime g);
  completion ← copy_time (gt_CompletionTime g);
  exit ← ptr_copy_flat zero (gt_ExitCode g);
  mret {| gt_Phase := gt_Phase g; gt_ContainerID := gt_ContainerID g; gt_StartTime := start;
          gt_CompletionTime := completion; gt_ExitCode := exit; gt_Attempts := gt_Attempts g;
          gt_Message := gt_Message g |}.
(** [ObjectMeta] of deployment_types.go *)
Definition TemplateMeta_DeepCopyInto (g : GTemplateMeta) : M cell GTemplateMeta :=
  labels ← map_copy (gm_Labels g);
  annotations ← map_copy (gm_Annotations g);
  mret {| gm_Labels := labels; gm_Annotations := annotations |}.
Definition DockerContainerTemplate_DeepCopyInto (g : GDockerContainerTemplate) : M cell GDockerContainerTemplate :=
  metadata ← TemplateMeta_DeepCopyInto (gp_Metadata g);
  spec ← DockerContainerSpec_DeepCopyInto (gp_Spec g);
  mret {| gp_Metadata := metadata; gp_Spec := spec |}.
Definition DockerDeploymentSpec_DeepCopyInto (g : GDockerDeploymentSpec) : M cell GDockerDeploymentSpec :=
  replicas ← ptr_copy_flat zero (gd_Replicas g);
  selector ← ptr_copy zero LabelSelector_DeepCopyInto (gd_Selector g);
  template ← DockerContainerTemplate_DeepCopyInto (gd_Template g);
  mret {| gd_Replicas := replicas; gd_Selector := selector; gd_Template := template |}.
Definition DockerDeploymentStatus_DeepCopyInto (g : GDockerDeploymentStatus) : M cell GDockerDeploymentStatus :=
  conditions ← slice_copy zero Condition_DeepCopyInto (gd_Conditions g);
  mret {| gd_AvailableReplicas := gd_AvailableReplicas g; gd_Conditions := conditions |}.
(** The selector is copied with the struct: the pointer, not what it points to. *)
Definition DockerServiceSpec_DeepCopyInto (g : GDockerServiceSpec) : M cell GDockerServiceSpec :=
  ports ← slice_copy_flat zero (gv_Ports g);
  mret {| gv_ContainerRef := gv_ContainerRef g; gv_Selector := gv_Selector g; gv_Ports := ports;
          gv_NetworkMode := gv_NetworkMode g |}.

(** *** Objects *)
Definition DockerContainer_DeepCopyInto (g : GDockerContainer) : M cell GDockerContainer :=
  meta ← ObjectMeta_DeepCopyInto (go_Meta g);
  spec ← DockerContainerSpec_DeepCopyInto (go_Spec g);
  mret {| go_Meta := meta; go_Spec := spec; go_Status := go_Status g |}.
Definition DockerHost_DeepCopyInto (g : GDockerHost) : M cell GDockerHost :=
  meta ← ObjectMeta_DeepCopyInto (go_Meta g);
  mret {| go_Meta := meta; go_Spec := go_Spec g; go_Status := go_Status g |}.
Definition DockerService_DeepCopyInto (g : GDockerService) : M cell GDockerService :=
  meta ← ObjectMeta_DeepCopyInto (go_Meta g);
  spec ← DockerServiceSpec_DeepCopyInto (go_Spec g);
  mret {| go_Meta := meta; go_Spec := spec; go_Status := go_Status g |}.
Definition DockerJob_DeepCopyInto (g : GDockerJob) : M cell GDockerJob :=
  meta ← ObjectMeta_DeepCopyInto (go_Meta g);
  spec ← DockerJobSpec_DeepCopyInto (go_Spec g);
  status ← DockerJobStatus_DeepCopyInto (go_Status g);
  mret {| go_Meta := meta; go_Spec := spec; go_Status := status |}.
Definition DockerDeployment_DeepCopyInto (g : GDockerDeployment) : M cell GDockerDeployment :=
  meta ← ObjectMeta_DeepCopyInto (go_Meta g);
  spec ← DockerDeploymentSpec_DeepCopyInto (go_Spec g);
  status ← DockerDeploymentStatus_DeepCopyInto (go_Status g);
  mret {| go_Meta := meta; go_Spec := spec; go_Status := status |}.

(** *** Lists *)
Definition List_DeepCopyInto {O} `{Block cell (list O)} (zero : O) (copy : O → M cell O) (g : GObjectList O)
    : M cell (GObjectList O) :=
  meta ← ListMeta_DeepCopyInto (gl_Meta g);
  items ← slice_copy zero copy (gl_Items g);
  mret {| gl_Meta := meta; gl_Items := items |}.
Definition DockerContainerList_DeepCopyInto : GObjectList GDockerContainer → M cell (GObjectList GDockerContainer) :=
  List_DeepCopyInto zero DockerContainer_DeepCopyInto.
Definition DockerHostList_DeepCopyInto : GObjectList GDockerHost → M cell (GObjectList GDockerHost) :=
  List_DeepCopyInto zero DockerHost_DeepCopyInto.
Definition DockerServiceList_DeepCopyInto : GObjectList GDockerService → M cell (GObjectList GDockerService) :=
  List_DeepCopyInto zero DockerService_DeepCopyInto.
Definition DockerJobList_DeepCopyInto : GObjectList GDockerJob → M cell (GObjectList GDockerJob) :=
  List_DeepCopyInto zero DockerJob_DeepCopyInto.
Definition DockerDeploymentList_DeepCopyInto : GObjectList GDockerDeployment → M cell (GObjectList GDockerDeployment) :=
  List_DeepCopyInto zero DockerDeployment_DeepCopyInto.

(** *** Structs without references: [ *out = *in] *)
Definition DockerContainerStatus_DeepCopyInto (g : DockerContainerStatus) : M cell DockerContainerStatus := mret g.
Definition DockerHostSpec_DeepCopyInto (g : DockerHostSpec) : M cell DockerHostSpec := mret g.
Definition DockerHostStatus_DeepCopyInto (g : DockerHostStatus) : M cell DockerHostStatus := mret g.
Definition DockerServiceStatus_DeepCopyInto (g : DockerServiceStatus) : M cell DockerServiceStatus := mret g.
Definition ResourceRequirements_DeepCopyInto (g : ResourceRequirements) : M cell ResourceRequirements := mret g.
Definition SecretKeySelector_DeepCopyInto (g : SecretKeySelector) : M cell SecretKeySelector := mret g.
Definition SecretVolume_DeepCopyInto (g : SecretVolume) : M cell SecretVolume := mret g.
Definition ServicePort_DeepCopyInto (g : ServicePort) : M cell ServicePort := mret g.
Definition VolumeMount_DeepCopyInto (g : VolumeMount) : M cell VolumeMount := mret g.

(** *** [DeepCopy] and [DeepCopyObject] on pointers *)
(** [if c := in.DeepCopy(); c != nil { return c }; return nil]: a nil interface for nil. *)
Definition DeepCopyObject {G} (DeepCopy : ptr G → M cell (ptr G)) (p : ptr G) : M cell (option (ptr G)) :=
  c ← DeepCopy p;
  mret (match addr c with Some _ => Some c | None => None end).
Definition DockerContainer_DeepCopy : ptr GDockerContainer → M cell (ptr GDockerContainer) :=
  ptr_copy zero DockerContainer_DeepCopyInto.
Definition DockerContainer_DeepCopyObject : ptr GDockerContainer → M cell (option (ptr GDockerContainer)) :=
  DeepCopyObject DockerContainer_DeepCopy.
Definition DockerContainerList_DeepCopy : ptr (GObjectList GDockerContainer) → M cell (ptr (GObjectList GDockerContainer)) :=
  ptr_copy zero DockerContainerList_DeepCopyInto.
Definition DockerContainerList_DeepCopyObject : ptr (GObjectList GDockerContainer) → M cell (option (ptr (GObjectList GDockerContainer))) :=
  DeepCopyObject DockerContainerList_DeepCopy.
Definition DockerContainerSpec_DeepCopy : ptr GDockerContainerSpec → M cell (ptr GDockerContainerSpec) :=
  ptr_copy zero DockerContainerSpec_DeepCopyInto.
Definition HealthCheckConfig_DeepCopy : ptr GHealthCheckConfig → M cell (ptr GHealthCheckConfig) :=
  ptr_copy zero HealthCheckConfig_DeepCopyInto.
Definition EnvVar_DeepCopy : ptr GEnvVar → M cell (ptr GEnvVar) :=
  ptr_copy zero EnvVar_DeepCopyInto.
Definition EnvVarSource_DeepCopy : ptr GEnvVarSource → M cell (ptr GEnvVarSource) :=
  ptr_copy zero EnvVarSource_DeepCopyInto.
Definition DockerContainerStatus_DeepCopy : ptr DockerContainerStatus → M cell (ptr DockerContainerStatus) :=
  ptr_copy zero DockerContainerStatus_DeepCopyInto.
Definition DockerHost_DeepCopy : ptr GDockerHost → M cell (ptr GDockerHost) :=
  ptr_copy zero DockerHost_DeepCopyInto.
Definition DockerHost_DeepCopyObject : ptr GDockerHost → M cell (option (ptr GDockerHost)) :=
  DeepCopyObject DockerHost_DeepCopy.
Definition DockerHostList_DeepCopy : ptr (GObjectList GDockerHost) → M cell (ptr (GObjectList GDockerHost)) :=
  ptr_copy zero DockerHostList_DeepCopyInto.
Definition DockerHostList_DeepCopyObject : ptr (GObjectList GDockerHost) → M cell (option (ptr (GObjectList GDockerHost))) :=
  DeepCopyObject DockerHostList_DeepCopy.
Definition DockerHostSpec_DeepCopy : ptr DockerHostSpec → M cell (ptr DockerHostSpec) :=
  ptr_copy zero DockerHostSpec_DeepCopyInto.
Definition DockerHostStatus_DeepCopy : ptr DockerHostStatus → M cell (ptr DockerHostStatus) :=
  ptr_copy zero DockerHostStatus_DeepCopyInto.
Definition DockerService_DeepCopy : ptr GDockerService → M cell (ptr GDockerService) :=
  ptr_copy zero DockerService_DeepCopyInto.
Definition DockerService_DeepCopyObject : ptr GDockerService → M cell (option (ptr GDockerService)) :=
  DeepCopyObject DockerService_DeepCopy.
Definition DockerServiceList_DeepCopy : ptr (GObjectList GDockerService) → M cell (ptr (GObjectList GDockerService)) :=
  ptr_copy zero DockerServiceList_DeepCopyInto.
Definition DockerServiceList_DeepCopyObject : ptr (GObjectList GDockerService) → M cell (option (ptr (GObjectList GDockerService))) :=
  DeepCopyObject DockerServiceList_DeepCopy.
Definition DockerServiceSpec_DeepCopy : ptr GDockerServiceSpec → M cell (ptr GDockerServiceSpec) :=
  ptr_copy zero DockerServiceSpec_DeepCopyInto.
Definition DockerServiceStatus_DeepCopy : ptr DockerServiceStatus → M cell (ptr DockerServiceStatus) :=
  ptr_copy zero DockerServiceStatus_DeepCopyInto.
Definition DockerJob_DeepCopy : ptr GDockerJob → M cell (ptr GDockerJob) :=
  ptr_copy zero DockerJob_DeepCopyInto.
Definition DockerJob_DeepCopyObject : ptr GDockerJob → M cell (option (ptr GDockerJob)) :=
  DeepCopyObject DockerJob_DeepCopy.
Definition DockerJobList_DeepCopy : ptr (GObjectList GDockerJob) → M cell (ptr (GObjectList GDockerJob)) :=
  ptr_copy zero DockerJobList_DeepCopyInto.
Definition DockerJobList_DeepCopyObject : ptr (GObjectList GDockerJob) → M cell (option (ptr (GObjectList GDockerJob))) :=
  DeepCopyObject DockerJobList_DeepCopy.
Definition DockerJobSpec_DeepCopy : ptr GDockerJobSpec → M cell (ptr GDockerJobSpec) :=
  ptr_copy zero DockerJobSpec_DeepCopyInto.
Definition DockerJobStatus_DeepCopy : ptr GDockerJobStatus → M cell (ptr GDockerJobStatus) :=
  ptr_copy zero DockerJobStatus_DeepCopyInto.
Definition DockerContainerTemplate_DeepCopy : ptr GDockerContainerTemplate → M cell (ptr GDockerContainerTemplate) :=
  ptr_copy zero DockerContainerTemplate_DeepCopyInto.
Definition DockerDeployment_DeepCopy : ptr GDockerDeployment → M cell (ptr GDockerDeployment) :=
  ptr_copy zero DockerDeployment_DeepCopyInto.
Definition DockerDeployment_DeepCopyObject : ptr GDockerDeployment → M cell (option (ptr GDockerDeployment)) :=
  DeepCopyObject DockerDeployment_DeepCopy.
Definition DockerDeploymentList_DeepCopy : ptr (GObjectList GDockerDeployment) → M cell (ptr (GObjectList GDockerDeployment)) :=
  ptr_copy zero DockerDeploymentList_DeepCopyInto.
Definition DockerDeploymentList_DeepCopyObject : ptr (GObjectList GDockerDeployment) → M cell (option (ptr (GObjectList GDockerDeployment))) :=
  DeepCopyObject DockerDeploymentList_DeepCopy.
Definition DockerDeploymentSpec_DeepCopy : ptr GDockerDeploymentSpec → M cell (ptr GDockerDeploymentSpec) :=
  ptr_copy zero DockerDeploymentSpec_DeepCopyInto.
Definition DockerDeploymentStatus_DeepCopy : ptr GDockerDeploymentStatus → M cell (ptr GDockerDeploymentStatus) :=
  ptr_copy zero DockerDeploymentStatus_DeepCopyInto.
Definition TemplateMeta_DeepCopy : ptr GTemplateMeta → M cell (ptr GTemplateMeta) :=
  ptr_copy zero TemplateMeta_DeepCopyInto.
Definition ResourceRequirements_DeepCopy : ptr ResourceRequirements → M cell (ptr ResourceRequirements) :=
  ptr_copy zero ResourceRequirements_DeepCopyInto.
Definition SecretKeySelector_DeepCopy : ptr SecretKeySelector → M cell (ptr SecretKeySelector) :=
  ptr_copy zero SecretKeySelector_DeepCopyInto.
Definition SecretVolume_DeepCopy : ptr SecretVolume → M cell (ptr SecretVolume) :=
  ptr_copy zero SecretVolume_DeepCopyInto.
Definition ServicePort_DeepCopy : ptr ServicePort → M cell (ptr ServicePort) :=
  ptr_copy zero ServicePort_DeepCopyInto.
Definition VolumeMount_DeepCopy : ptr VolumeMount → M cell (ptr VolumeMount) :=
  ptr_copy zero VolumeMount_DeepCopyInto.
End copies.
