(* ===== verification/DeepCopyTheorems.v ===== *)
(** * The deep copies are deep, but one (src/api/v1alpha1/deepcopy.go)

    Every copier of DeepCopy.v satisfies the contract of Heap.v, given that the copies of
    apimachinery do; the copier of DockerServiceSpec does not: it shares the selector. *)
From S2P Require Import Prelude GoStd Api Heap DeepCopy.

(** The copiers known to be deep. *)
Create HintDb deep.

Section theorems.
Context `{AL : ApimachineryLaws}.

Lemma ptr_deep_flat {A} `{Block cell A} (z : A) :
  @deep_copies cell (ptr A) (option A) (@ptr_rep cell A A _ (flat_rep A)) (ptr_copy_flat z).
Proof. apply (@ptr_deep _ _ _ _ (flat_rep A) (flat_laws A)). apply flat_deep. Qed.
Lemma copy_time_deep : deep_copies copy_time.
Proof.
  intros h [[l|]] x Hd; [by apply Time_deep|]. exists (Ptr None), h. split; [done|].
  split; [done|]. split; [done|]. intros l Hl. simpl in Hl. set_solver.
Qed.

(** ** Every DeepCopyInto *)
(** Structs are unfolded to their fields, and no further. *)
Local Opaque ptr_rep slice_rep strmap_rep.
Hint Resolve slice_deep slice_deep_flat ptr_deep ptr_deep_flat map_deep copy_time_deep flat_deep
  ObjectMeta_deep ListMeta_deep LabelSelector_deep Condition_deep : deep.

(** The fields are copied one by one, those copied before are followed into the larger heap; the
    struct made of the copies denotes the struct made of what they denote, in the last heap. *)
Tactic Notation "struct_deep" reference(copy_into) :=
  apply deep_copies_makes; intros h g x Hd; unfold copy_into; simpl in Hd; simplify_option_eq;
  assert (h ⊆ h) as Hsub by done;
  repeat match goal with
  | Hsub : h ⊆ ?h1 |- makes h ?h1 (?copy ?f ≫= ?k) _ =>
      match goal with
      | Hf : denote h f = Some ?y |- _ =>
          apply (makes_field h h1 copy f y k); [solve [eauto 4 with deep typeclass_instances] | exact Hf | exact Hsub |];
          clear Hf; let f' := fresh "f" in let h' := fresh "h" in let Hsub' := fresh "Hsub" in
          intros f' h' Hsub' ?;
          repeat match goal with
          | Hc : copied h h1 ?f0 ?y0 |- _ => apply (copied_later h h h1 h' f0 y0 (reflexivity h)) in Hc; [|exact Hsub']
          end;
          assert (h ⊆ h') by (by etrans; [exact Hsub|exact Hsub']); clear Hsub Hsub'
      end
  end;
  apply makes_ret; split; [assumption|]; simpl;
  repeat match goal with
  | Hc : copied h _ ?f0 ?y0 |- _ =>
      let Hd := fresh "Hd" in let Hf := fresh "Hf" in destruct Hc as (_ & Hd & Hf); rewrite Hd; clear Hd; simpl
  end;
  split; [done|]; intros l Hl; rewrite ?elem_of_union in Hl;
  repeat match type of Hl with _ ∨ _ => destruct Hl as [Hl|Hl] end;
  match goal with Hf : ∀ l, l ∈ reach _ _ → _ |- _ => exact (Hf l Hl) | _ => by apply elem_of_empty in Hl end.
Lemma HealthCheckConfig_deep : deep_copies HealthCheckConfig_DeepCopyInto.
Proof. struct_deep HealthCheckConfig_DeepCopyInto. Qed.
Local Opaque rep_HealthCheckConfig.
Lemma EnvVarSource_deep : deep_copies EnvVarSource_DeepCopyInto.
Proof. struct_deep EnvVarSource_DeepCopyInto. Qed.
Local Opaque rep_EnvVarSource.
Hint Resolve HealthCheckConfig_deep EnvVarSource_deep : deep.
Lemma EnvVar_deep : deep_copies EnvVar_DeepCopyInto.
Proof. struct_deep EnvVar_DeepCopyInto. Qed.
Local Opaque rep_EnvVar.
Hint Resolve EnvVar_deep : deep.
Lemma DockerContainerSpec_deep : deep_copies DockerContainerSpec_DeepCopyInto.
Proof. struct_deep DockerContainerSpec_DeepCopyInto. Qed.
Local Opaque rep_ContainerSpec.
Lemma DockerJobSpec_deep : deep_copies DockerJobSpec_DeepCopyInto.
Proof. struct_deep DockerJobSpec_DeepCopyInto. Qed.
Local Opaque rep_JobSpec.
Lemma DockerJobStatus_deep : deep_copies DockerJobStatus_DeepCopyInto.
Proof. struct_deep DockerJobStatus_DeepCopyInto. Qed.
Local Opaque rep_JobStatus.
Lemma TemplateMeta_deep : deep_copies TemplateMeta_DeepCopyInto.
Proof. struct_deep TemplateMeta_DeepCopyInto. Qed.
Local Opaque rep_TemplateMeta.
Hint Resolve DockerContainerSpec_deep DockerJobSpec_deep DockerJobStatus_deep TemplateMeta_deep : deep.
Lemma DockerContainerTemplate_deep : deep_copies DockerContainerTemplate_DeepCopyInto.
Proof. struct_deep DockerContainerTemplate_DeepCopyInto. Qed.
Local Opaque rep_ContainerTemplate.
Hint Resolve DockerContainerTemplate_deep : deep.
Lemma DockerDeploymentSpec_deep : deep_copies DockerDeploymentSpec_DeepCopyInto.
Proof. struct_deep DockerDeploymentSpec_DeepCopyInto. Qed.
Local Opaque rep_DeploymentSpec.
Lemma DockerDeploymentStatus_deep : deep_copies DockerDeploymentStatus_DeepCopyInto.
Proof. struct_deep DockerDeploymentStatus_DeepCopyInto. Qed.
Local Opaque rep_DeploymentStatus.
Hint Resolve DockerDeploymentSpec_deep DockerDeploymentStatus_deep : deep.

(** ** Objects and lists *)
Lemma DockerContainer_deep : deep_copies DockerContainer_DeepCopyInto.
Proof. struct_deep DockerContainer_DeepCopyInto. Qed.
Lemma DockerHost_deep : deep_copies DockerHost_DeepCopyInto.
Proof. struct_deep DockerHost_DeepCopyInto. Qed.
Lemma DockerJob_deep : deep_copies DockerJob_DeepCopyInto.
Proof. struct_deep DockerJob_DeepCopyInto. Qed.
Lemma DockerDeployment_deep : deep_copies DockerDeployment_DeepCopyInto.
Proof. struct_deep DockerDeployment_DeepCopyInto. Qed.
Lemma List_deep {GO O} `{Block cell (list GO), RepLaws cell GO O} (zero : GO) (copy : GO → M cell GO) :
  deep_copies copy → deep_copies (List_DeepCopyInto zero copy).
Proof. intros Hcopy. struct_deep List_DeepCopyInto. Qed.
Hint Resolve DockerContainer_deep DockerHost_deep DockerJob_deep DockerDeployment_deep List_deep
  deep_copies_isolated : deep.

(** C31. Every [DeepCopyInto] and [DeepCopy] of a DockerContainer, DockerHost, DockerJob and
    DockerDeployment, and of their lists, returns (without a nil dereference) a value equal to the
    original that shares no memory with it: overwriting, or freeing, anything the copy reaches
    leaves the original as it was, and overwriting anything that was there before leaves the copy
    as it was.  Of the structs of k8s.io/apimachinery only the same contract is assumed. *)
Theorem deepcopy_isolated :
  (isolated DockerContainer_DeepCopyInto ∧ isolated DockerHost_DeepCopyInto ∧
   isolated DockerJob_DeepCopyInto ∧ isolated DockerDeployment_DeepCopyInto) ∧
  (isolated DockerContainer_DeepCopy ∧ isolated DockerHost_DeepCopy ∧
   isolated DockerJob_DeepCopy ∧ isolated DockerDeployment_DeepCopy) ∧
  (isolated DockerContainerList_DeepCopy ∧ isolated DockerHostList_DeepCopy ∧
   isolated DockerJobList_DeepCopy ∧ isolated DockerDeploymentList_DeepCopy).
Proof.
  unfold DockerContainer_DeepCopy, DockerHost_DeepCopy, DockerJob_DeepCopy, DockerDeployment_DeepCopy,
    DockerContainerList_DeepCopy, DockerHostList_DeepCopy, DockerJobList_DeepCopy, DockerDeploymentList_DeepCopy,
    DockerContainerList_DeepCopyInto, DockerHostList_DeepCopyInto, DockerJobList_DeepCopyInto,
    DockerDeploymentList_DeepCopyInto.
  split_and!; apply (deep_copies_isolated _);
    repeat first [apply (ptr_deep _ _) | apply (List_deep _ _)]; eauto with deep.
Qed.

(** ** The copy that is not *)
Definition with_selector (sel : option LabelSelector) (x : DockerServiceSpec) : DockerServiceSpec :=
  {| ss_ContainerRef := ss_ContainerRef x; ss_Selector := sel; ss_Ports := ss_Ports x;
     ss_NetworkMode := ss_NetworkMode x |}.
(** The selector's block is not the array of the ports: their types differ. *)
Lemma selector_block_frame (h : heap_of cell) p ports l y (s : GSelector) :
  denote h (Ptr (G := GSelector) (Some l)) = Some y →
  denote h p = Some ports → denote (<[l := box s]> h) (p : slice ServicePort) = Some ports.
Proof.
  Local Transparent ptr_rep slice_rep.
  intros Hl Hp. refine (proj1 (rep_frame h _ p ports Hp _)). intros l' Hl'.
  destruct (decide (l' = l)) as [->|Hne]; [|by apply lookup_insert_ne]. exfalso.
  destruct p as [[lp|]]; simpl in *; [|set_solver].
  destruct (h !! lp) as [c|] eqn:Hc; simpl in *; [|done].
  destruct c; simpl in *; try done. apply elem_of_union in Hl' as [->%elem_of_singleton|Hl'].
  - by rewrite Hc in Hl.
  - apply elem_of_reach_all in Hl' as (g & _ & Hg). simpl in Hg. set_solver.
Qed.
Lemma selector_block (h : heap_of cell) l (s : GSelector) y :
  denote (<[l := box s]> h) s = Some y → denote (<[l := box s]> h) (Ptr (G := GSelector) (Some l)) = Some (Some y).
Proof. intros Hs. cbn [denote ptr_rep addr]. rewrite lookup_insert_eq. cbn. cbn in Hs. by rewrite Hs. Qed.
Local Opaque ptr_rep slice_rep.
Lemma selector_written (h : heap_of cell) g x l (s : GSelector) y :
  denote h g = Some x → addr (gv_Selector g) = Some l → denote (<[l := box s]> h) s = Some y →
  denote (<[l := box s]> h) g = Some (with_selector (Some y) x).
Proof.
  intros Hd Hl Hs. destruct g as [ref [a] ports mode]; simpl in Hl; subst a.
  change (denote h {| gv_ContainerRef := ref; gv_Selector := Ptr (Some l); gv_Ports := ports; gv_NetworkMode := mode |})
    with (selector ← denote h (Ptr (G := GSelector) (Some l)); ports' ← denote h ports;
          Some {| ss_ContainerRef := ref; ss_Selector := selector; ss_Ports := ports'; ss_NetworkMode := mode |}) in Hd.
  destruct (denote h (Ptr (Some l))) as [sel|] eqn:Hsel; simpl in Hd; [|done].
  destruct (denote h ports) as [ports'|] eqn:Hports; simpl in Hd; [|done]. simplify_eq.
  pose proof (selector_block_frame h ports _ l _ s Hsel Hports) as Hp'.
  cbn [denote rep_ServiceSpec gv_Selector gv_Ports].
  rewrite (selector_block h l s y Hs). cbn [mbind option_bind]. by rewrite Hp'.
Qed.

(** C32. The deep copy of a DockerServiceSpec is an equal value, but its label selector is the
    original's: the pointer is copied with the struct.  Whatever is written to the selector through
    the copy is from then on the selector of the original too. *)
Theorem service_selector_shared (h : heap_of cell) g x l :
  denote h g = Some x → addr (gv_Selector g) = Some l →
  ∃ g' h', DockerServiceSpec_DeepCopyInto g h = Some (g', h') ∧ denote h' g' = Some x ∧
    gv_Selector g' = gv_Selector g ∧
    ∀ (s : GSelector) y, denote (<[l := box s]> h') s = Some y →
      denote (<[l := box s]> h') g = Some (with_selector (Some y) x) ∧
      denote (<[l := box s]> h') g' = Some (with_selector (Some y) x).
Proof.
  intros Hd Hl. pose proof Hd as Hd'. cbn [denote rep_ServiceSpec] in Hd'.
  destruct (denote h (gv_Selector g)) as [sel|] eqn:Hsel; simpl in Hd'; [|done].
  destruct (denote h (gv_Ports g)) as [ports|] eqn:Hports; simpl in Hd'; [|done].
  destruct (slice_deep_flat (zero : ServicePort) h (gv_Ports g) ports Hports) as (p' & h' & Hrun & Hsub & Hp' & _).
  set (g' := {| gv_ContainerRef := gv_ContainerRef g; gv_Selector := gv_Selector g; gv_Ports := p';
                gv_NetworkMode := gv_NetworkMode g |}).
  assert (denote h' g' = Some x) as Hg'.
  { cbn [denote rep_ServiceSpec g' gv_Selector gv_Ports]. destruct (rep_mono h h' _ _ Hsel Hsub) as [-> _].
    unfold g'. simpl. change (denote h' p') with (@denote _ _ _ slice_rep h' p') in *. by rewrite Hp'. }
  exists g', h'. split; [|split; [done|split; [done|]]].
  - unfold DockerServiceSpec_DeepCopyInto, mbind, M_bind. by rewrite Hrun.
  - intros s y Hs. split; [|by apply selector_written]. apply selector_written; [|done..].
    by destruct (rep_mono h h' g x Hd Hsub).
Qed.
End theorems.

(** ** An instance *)
(** The structs of apimachinery as values without references, whose copies are assignments. *)
#[local] Instance plain_apimachinery : Apimachinery := {|
  GMeta := ObjectMeta; GListMeta := string; GSelector := LabelSelector; GCondition := string; TPBlock := unit;
  ListMeta := string;
  zero_GMeta := new_meta "" "" ∅;
  zero_GListMeta := ""; zero_GSelector := {| MatchLabels := ∅; MatchExpressions := [] |}; zero_GCondition := ""
|}.
#[local] Instance plain_copies : ApimachineryCopies := {|
  rep_Meta := flat_rep ObjectMeta; rep_ListMeta := flat_rep string; rep_Selector := flat_rep LabelSelector;
  rep_Condition := flat_rep string;
  ObjectMeta_DeepCopyInto g := mret g; ListMeta_DeepCopyInto g := mret g;
  LabelSelector_DeepCopyInto g := mret g; Condition_DeepCopyInto g := mret g;
  Time_DeepCopy := ptr_copy_flat zero
|}.
#[local] Instance plain_laws : ApimachineryLaws.
Proof. split; first [apply flat_laws | apply flat_deep | apply ptr_deep_flat]. Qed.

(** A container whose published ports are in an array of their own. *)
Definition sample_container : GDockerContainer :=
  {| go_Meta := new_meta "web" "prod" ∅;
     go_Spec := {| gc_Image := "nginx"; gc_ContainerName := "web"; gc_Ports := Slice (Some 1%positive);
                   gc_Command := Slice None; gc_Env := Slice None; gc_RestartPolicy := "always";
                   gc_DockerHostRef := ""; gc_ImagePullSecret := ""; gc_VolumeMounts := Slice None;
                   gc_Services := Slice None; gc_NetworkMode := ""; gc_EnvVars := Slice None;
                   gc_SecretVolumes := Slice None; gc_HealthCheck := Ptr None; gc_Resources := Ptr None |};
     go_Status := zero |}.
Definition sample_service : GDockerServiceSpec :=
  {| gv_ContainerRef := "web"; gv_Selector := Ptr (Some 2%positive); gv_Ports := Slice None; gv_NetworkMode := "" |}.
Definition sample_heap : heap_of cell :=
  {[ 1%positive := BStrings ["8080:80"];
     2%positive := BSelector {| MatchLabels := {[ "app" := "web" ]}; MatchExpressions := [] |};
     3%positive := BContainer sample_container ]}.

Lemma deepcopy_isolated_witness :
  ∃ x g' h', denote sample_heap (Ptr (G := GDockerContainer) (Some 3%positive)) = Some x ∧
    DockerContainer_DeepCopy (Ptr (Some 3%positive)) sample_heap = Some (g', h') ∧ denote h' g' = Some x ∧
    denote (<[ 1%positive := BStrings ["9090:80"] ]> h') g' = Some x.
Proof.
  destruct (denote sample_heap (Ptr (G := GDockerContainer) (Some 3%positive))) as [x|] eqn:Hx;
    [|vm_compute in Hx; discriminate].
  destruct (@deepcopy_isolated _ _ plain_laws) as (_ & (Hcopy & _) & _).
  destruct (Hcopy sample_heap _ x Hx) as (g' & h' & Hrun & Hd & _ & Hold).
  exists x, g', h'. split; [done|]. split; [done|]. split; [done|]. apply Hold.
  intros l Hl. apply lookup_insert_ne. intros <-. apply Hl. apply elem_of_dom. by eexists.
Defined.
Lemma service_selector_shared_witness :
  ∃ x g' h', denote sample_heap sample_service = Some x ∧
    DockerServiceSpec_DeepCopyInto sample_service sample_heap = Some (g', h') ∧
    denote (<[ 2%positive := box {| MatchLabels := ∅; MatchExpressions := [] |} ]> h') sample_service =
      Some (with_selector (Some {| MatchLabels := ∅; MatchExpressions := [] |}) x).
Proof.
  destruct (denote sample_heap sample_service) as [x|] eqn:Hx; [|vm_compute in Hx; discriminate].
  destruct (@service_selector_shared _ _ plain_laws sample_heap sample_service x 2%positive Hx eq_refl)
    as (g' & h' & Hrun & _ & _ & Hw).
  exists x, g', h'. split; [done|]. split; [done|]. by apply Hw.
Defined.
