(* ===== verification/World.v ===== *)
(** * The calls the controllers make

    [op] lists every call that leaves the program: the Kubernetes client of
    controller-runtime, the Docker client, the clock, randomness, the environment
    and the iteration order of Go maps; [ans] is the type of each answer.  Nothing
    is assumed about the answers here.  [ThirdParty] collects the pure functions
    of libraries the code calls, and [ThirdPartyLaws] what is documented about
    them. *)
From S2P Require Import Prelude GoStd Effects Api.

(** ** Kubernetes objects by kind *)
Inductive kind :=
| KDockerContainer | KDockerJob | KDockerService | KDockerDeployment | KDockerHost
| KSecret | KConfigMap | KPod | KNode | KService | KDeployment.
#[global] Instance kind_eq_dec : EqDecision kind.
Proof. solve_decision. Defined.

Definition obj (k : kind) : Type :=
  match k with
  | KDockerContainer => DockerContainer
  | KDockerJob => DockerJob
  | KDockerService => DockerService
  | KDockerDeployment => DockerDeployment
  | KDockerHost => DockerHost
  | KSecret => Secret
  | KConfigMap => ConfigMap
  | KPod => Pod
  | KNode => Node
  | KService => CoreService
  | KDeployment => AppsDeployment
  end.
Definition meta_of (k : kind) : obj k → ObjectMeta :=
  match k return obj k → ObjectMeta with
  | KDockerContainer => dc_Meta
  | KDockerJob => dj_Meta
  | KDockerService => dsv_Meta
  | KDockerDeployment => dd_Meta
  | KDockerHost => dh_Meta
  | KSecret => sec_Meta
  | KConfigMap => cm_Meta
  | KPod => pod_Meta
  | KNode => node_Meta
  | KService => svc_Meta
  | KDeployment => dep_Meta
  end.

(** A label query: everything, or the labels a compiled selector accepts. *)
Definition selector : Type := gmap string string → bool.
Record ListOptions := { lo_Namespace : option string; lo_Selector : option selector }.

(** [client.InNamespace], [client.MatchingLabels], and both options together. *)
Definition MatchingLabels (m : gmap string string) : selector := λ labels, bool_decide (m ⊆ labels).
Definition InNamespace (ns : string) : ListOptions :=
  {| lo_Namespace := Some ns; lo_Selector := None |}.
Definition AllNamespaces (s : selector) : ListOptions :=
  {| lo_Namespace := None; lo_Selector := Some s |}.
Definition InNamespaceMatching (ns : string) (s : selector) : ListOptions :=
  {| lo_Namespace := Some ns; lo_Selector := Some s |}.

Inductive OperationResult := OperationResultNone | OperationResultCreated | OperationResultUpdated.

(** ** Docker clients *)
(** A [dockerclient.APIClient]: only its identity matters. *)
Abbreviation client := positive.

Record TLSConfig := { tls_RootCAs : string; tls_Cert : string; tls_Key : string }.
#[global] Instance TLSConfig_eq_dec : EqDecision TLSConfig.
Proof. solve_decision. Defined.
(** The options given to [NewClientWithOpts]; API version negotiation is always on. *)
Inductive client_opts :=
| FromEnv
| WithHost (url : string) (tls : option TLSConfig) (timeout : Z).
#[global] Instance client_opts_eq_dec : EqDecision client_opts.
Proof. solve_decision. Defined.

(** A log stream: what its successive [Read]s deliver, and how it ends ([None]: EOF). *)
Definition log_reader : Type := list string * option go_error.
Record LogsOptions := { lg_Follow : bool; lg_Tail : string; lg_Timestamps : bool }.

(** ** Calls *)
Inductive op :=
(* the Kubernetes API *)
| KGet (k : kind) (key : NamespacedName)
| KList (k : kind) (opts : ListOptions)
| KCreate (k : kind) (o : obj k)
| KUpdate (k : kind) (o : obj k)
| KStatusUpdate (k : kind) (o : obj k)
| KDelete (k : kind) (o : obj k)
| KCreateOrUpdate (k : kind) (o : obj k) (mutate : obj k → res (obj k))
(* a Docker daemon *)
| DNewClient (opts : client_opts)
| DClose (c : client)
| DPing (c : client)
| DContainerList (c : client)
| DContainerInspect (c : client) (name : string)
| DContainerCreate (c : client) (config : Config) (hostConfig : HostConfig) (name : string)
| DContainerStart (c : client) (id : string)
| DContainerStop (c : client) (id : string) (timeout : Z)
| DContainerRemove (c : client) (id : string) (force : bool)
| DContainerLogs (c : client) (name : string) (opts : LogsOptions)
| DImagePull (c : client) (ref : string) (registryAuth : string)
| DDrain                                             (* io.Copy(io.Discard, reader) *)
| DImageInspect (c : client) (ref : string)
| TarWriteHeader (name : string) (size : Z)           (* mode 0444 *)
| TarWrite (data : string)
| TarClose
| DCopyToContainer (c : client) (id : string) (path : string) (tar : list (string * string))
| DNetworkConnect (c : client) (network : string) (container : string)
(* the Go runtime and operating system *)
| TimeNow
| RandRead (n : nat)
| RandIntn (n : Z)
| Getenv (name : string)
| RangeOrder (keys : list string)                    (* the order a map range visits *)
| AppendCertsFromPEM (pem : string)
| X509KeyPair (cert key : string)
| GoHttpPost (url : string).                         (* http.Post in its own goroutine *)

Definition ans (o : op) : Type :=
  match o with
  | KGet k _ => res (obj k)
  | KList k _ => res (list (obj k))
  | KCreate k _ | KUpdate k _ | KStatusUpdate k _ => res (obj k)
  | KDelete _ _ => res unit
  | KCreateOrUpdate k _ _ => res (OperationResult * obj k)
  | DNewClient _ => res client
  | DClose _ => unit
  | DPing _ => res unit
  | DContainerList _ => res (list ContainerSummary)
  | DContainerInspect _ _ => res ContainerJSON
  | DContainerCreate _ _ _ _ => res string
  | DContainerStart _ _ | DContainerStop _ _ _ | DContainerRemove _ _ _ => res unit
  | DContainerLogs _ _ _ => res log_reader
  | DImagePull _ _ _ => res unit
  | DDrain => unit
  | DImageInspect _ _ => res unit
  | TarWriteHeader _ _ | TarWrite _ | TarClose => res unit
  | DCopyToContainer _ _ _ _ => res unit
  | DNetworkConnect _ _ _ => res unit
  | TimeNow => Z
  | RandRead n => res string
  | RandIntn _ => Z
  | Getenv _ => string
  | RangeOrder _ => list string
  | AppendCertsFromPEM _ => bool
  | X509KeyPair _ _ => res unit
  | GoHttpPost _ => unit
  end.

(** A controller computation, its traces. *)
Abbreviation go := (prog ans).
Abbreviation go_event := (event ans).
Abbreviation go_trace := (list (event ans)).

(** ** Third-party pure functions *)
Class ThirdParty := {
  (* controllerutil *)
  ContainsFinalizer : ObjectMeta → string → bool;
  AddFinalizer : ObjectMeta → string → ObjectMeta;
  RemoveFinalizer : ObjectMeta → string → ObjectMeta;
  (* ctrl.SetControllerReference(owner, controlled, scheme), on the metadata *)
  SetControllerReference : kind → ObjectMeta → ObjectMeta → res ObjectMeta;
  (* metav1.IsControlledBy(obj, owner) *)
  IsControlledBy : ObjectMeta → ObjectMeta → bool;
  LabelSelectorAsSelector : LabelSelector → res selector;
  (* nat.NewPort(proto, port) *)
  NewPort : string → string → res string;
  (* base64.URLEncoding of json.Marshal of a registry.AuthConfig *)
  EncodeAuth : AuthConfig → res string
}.

Class ThirdPartyLaws (T : ThirdParty) : Prop := {
  contains_add m f : ContainsFinalizer (AddFinalizer m f) f = true;
  contains_remove m f : ContainsFinalizer (RemoveFinalizer m f) f = false;
  add_deletion m f : om_DeletionTimestamp (AddFinalizer m f) = om_DeletionTimestamp m;
  add_key m f : key_of (AddFinalizer m f) = key_of m;
  remove_key m f : key_of (RemoveFinalizer m f) = key_of m
}.

(** ** Ranging over a Go map: the keys in the order the runtime picks *)
Definition visit_order (hint keys : list string) : list string :=
  filter (λ k, k ∈ keys) (remove_dups hint) ++ filter (λ k, k ∉ hint) keys.
Definition range_pairs {A} (m : gmap string A) (hint : list string) : list (string * A) :=
  omap (λ k, (k,.) <$> m !! k) (visit_order hint (elements (dom m))).

(** [for k, v := range m]: the pairs in the order of this execution. *)
Definition range_map {A} (m : gmap string A) : go (list (string * A)) :=
  let! hint := RangeOrder (elements (dom m)) in Return (range_pairs m hint).

Lemma visit_order_Permutation hint keys : NoDup keys → visit_order hint keys ≡ₚ keys.
Proof.
  intros Hk. apply NoDup_Permutation; [|done|].
  - apply NoDup_app. split_and!.
    + apply NoDup_filter, NoDup_remove_dups.
    + intros k. rewrite !list_elem_of_filter, elem_of_remove_dups. tauto.
    + by apply NoDup_filter.
  - intros k. unfold visit_order. rewrite elem_of_app, !list_elem_of_filter, elem_of_remove_dups.
    destruct (decide (k ∈ hint)); tauto.
Qed.

Lemma range_pairs_elem {A} (m : gmap string A) hint k v :
  (k, v) ∈ range_pairs m hint ↔ m !! k = Some v.
Proof.
  unfold range_pairs. rewrite list_elem_of_omap. split.
  - intros (k' & _ & Hk). destruct (m !! k') eqn:E; simplify_eq/=. done.
  - intros Hk. exists k. rewrite Hk. split; [|done].
    rewrite visit_order_Permutation by apply NoDup_elements.
    apply elem_of_elements, elem_of_dom. eauto.
Qed.
Lemma range_pairs_keys {A} (m : gmap string A) hint :
  (range_pairs m hint).*1 = visit_order hint (elements (dom m)).
Proof.
  unfold range_pairs.
  assert (∀ k, k ∈ visit_order hint (elements (dom m)) → is_Some (m !! k)) as Hdom.
  { intros k. rewrite visit_order_Permutation by apply NoDup_elements.
    by rewrite elem_of_elements, elem_of_dom. }
  induction (visit_order _ _) as [|k l IH]; simpl; [done|].
  destruct (Hdom k) as [v Hv]; [by left|]. rewrite Hv. simpl. f_equal. apply IH.
  intros k' Hk'. apply Hdom. by right.
Qed.
Lemma range_pairs_Permutation {A} (m : gmap string A) hint : range_pairs m hint ≡ₚ map_to_list m.
Proof.
  apply NoDup_Permutation.
  - eapply NoDup_fmap_1. rewrite range_pairs_keys, visit_order_Permutation; apply NoDup_elements.
  - apply NoDup_map_to_list.
  - intros [k v]. by rewrite range_pairs_elem, elem_of_map_to_list.
Qed.
