(* ===== verification/Samples.v ===== *)
(** * Concrete objects, third-party functions and environments

    What the witnesses of the controllers' theorems run on. *)
From S2P Require Import Prelude GoStd Effects Api World.
Local Open Scope Z_scope.

(** ** Third-party functions that satisfy the documented laws *)
Definition set_finalizers (m : ObjectMeta) (fs : list string) : ObjectMeta :=
  {| om_Name := om_Name m; om_Namespace := om_Namespace m; om_UID := om_UID m; om_Labels := om_Labels m;
     om_Finalizers := fs; om_DeletionTimestamp := om_DeletionTimestamp m;
     om_CreationTimestamp := om_CreationTimestamp m; om_OwnerReferences := om_OwnerReferences m |}.
Definition set_owner (o : OwnerReference) (m : ObjectMeta) : ObjectMeta :=
  {| om_Name := om_Name m; om_Namespace := om_Namespace m; om_UID := om_UID m; om_Labels := om_Labels m;
     om_Finalizers := om_Finalizers m; om_DeletionTimestamp := om_DeletionTimestamp m;
     om_CreationTimestamp := om_CreationTimestamp m; om_OwnerReferences := o :: om_OwnerReferences m |}.
Definition plain_third_party : ThirdParty :=
  {| ContainsFinalizer := λ m f, bool_decide (f ∈ om_Finalizers m);
     AddFinalizer := λ m f,
       if bool_decide (f ∈ om_Finalizers m) then m else set_finalizers m (om_Finalizers m ++ [f]);
     RemoveFinalizer := λ m f, set_finalizers m (filter (λ g, g ≠ f) (om_Finalizers m));
     SetControllerReference := λ _ owner m,
       if existsb or_Controller (om_OwnerReferences m) then Err (new_error "already owned")
       else Ok (set_owner {| or_UID := om_UID owner; or_Name := om_Name owner; or_Controller := true |} m);
     IsControlledBy := λ m owner,
       existsb (λ o, or_Controller o && String.eqb (or_UID o) (om_UID owner)) (om_OwnerReferences m);
     LabelSelectorAsSelector := λ s, Ok (MatchingLabels (MatchLabels s));
     NewPort := λ proto p, Ok (p +:+ "/" +:+ proto);
     EncodeAuth := λ _, Ok "" |}.
Lemma plain_third_party_laws : ThirdPartyLaws plain_third_party.
Proof.
  split; intros m f; simpl; try done; try (by case_bool_decide).
  - apply bool_decide_true. case_bool_decide; simpl; [done|].
    rewrite elem_of_app, list_elem_of_singleton. by right.
  - apply bool_decide_false. rewrite list_elem_of_filter. tauto.
Qed.

(** ** Objects of the namespace "prod" *)
Definition sample_meta (name : string) (finalizers : list string) (created_at : Z) : ObjectMeta :=
  {| om_Name := name; om_Namespace := "prod"; om_UID := "uid-" +:+ name; om_Labels := ∅;
     om_Finalizers := finalizers; om_DeletionTimestamp := None; om_CreationTimestamp := created_at;
     om_OwnerReferences := [] |}.
Definition nginx : DockerContainerSpec :=
  {| cs_Image := "nginx"; cs_ContainerName := "web"; cs_Ports := []; cs_Command := []; cs_Env := [];
     cs_RestartPolicy := "always"; cs_DockerHostRef := ""; cs_ImagePullSecret := ""; cs_VolumeMounts := [];
     cs_Services := []; cs_NetworkMode := ""; cs_EnvVars := []; cs_SecretVolumes := [];
     cs_HealthCheck := None; cs_Resources := None |}.
Definition sample_container (name : string) (created_at : Z) (state ip : string) : DockerContainer :=
  {| dc_Meta := set_owner {| or_UID := "uid-web"; or_Name := "web"; or_Controller := true |}
                  (sample_meta name [] created_at);
     dc_Spec := nginx;
     dc_Status := {| cst_ID := ""; cst_State := state; cst_Health := ""; cst_IPv4 := ip |} |}.
(** Two containers owned by the object "web", the newer one listed first. *)
Definition two_containers : list DockerContainer :=
  [sample_container "new" 9 "created" "172.18.0.3"; sample_container "old" 5 "running" "172.18.0.2"].

(** ** An environment in which everything fails: the base of the concrete runs *)
Definition refused : go_error := MkError "refused" false.
Definition not_found : go_error := MkError "not found" true.
Definition refuse (o : op) : ans o :=
  match o return ans o with
  | DClose _ | DDrain | GoHttpPost _ => tt
  | TimeNow | RandIntn _ => 0%Z
  | Getenv _ => ""
  | RangeOrder keys => keys
  | AppendCertsFromPEM _ => false
  | _ => Err refused
  end.
