(* ===== verification/Resources.v ===== *)
(** * Resource limits
      (parseMemoryString and buildDockerResources of
       src/internal/controller/dockercontainer/reconciler.go and of
       src/internal/controller/dockerjob/reconciler.go)

    The two controllers carry their own copies of the conversion; they read the
    number with different library functions. *)
From S2P Require Import Prelude GoStd GoFloat Api.
Import Strings Strconv.
Local Open Scope Z_scope.

(** The suffix of a trimmed lower-case memory string: the number part and the
    multiplier. *)
Definition memory_suffix (s : string) : string * Z :=
  if HasSuffix s "g" then (TrimSuffix s "g", 1024 * 1024 * 1024)
  else if HasSuffix s "m" then (TrimSuffix s "m", 1024 * 1024)
  else if HasSuffix s "k" then (TrimSuffix s "k", 1024)
  else (s, 1).

Module Container.
(** [strconv.ParseInt]: anything that is not a number counts as 0. *)
Definition parseMemoryString (s : string) : Z :=
  let s := TrimSpace (ToLower s) in
  if String.eqb s "" then 0
  else
    let '(num, multiplier) := memory_suffix s in
    match ParseInt num with
    | None => 0
    | Some val => Int.int64 (val * multiplier)
    end.

Definition buildDockerResources (r : option ResourceRequirements) : Resources :=
  match r with
  | None => {| NanoCPUs := 0; Memory := 0 |}
  | Some r =>
      {| NanoCPUs :=
           if String.eqb (rr_CPULimit r) "" then 0
           else match Float.ParseFloat (rr_CPULimit r) with
                | Some cpuFloat => Float.to_int64 (Float.mul cpuFloat (Float.of_Z 1000000000))
                | None => 0
                end;
         Memory :=
           if String.eqb (rr_MemoryLimit r) "" then 0 else parseMemoryString (rr_MemoryLimit r) |}
  end.
End Container.

Module Job.
(** [fmt.Sscanf]: the longest numeric prefix counts, the rest is ignored. *)
Definition parseMemoryString (s : string) : Z :=
  let s := TrimSpace (ToLower s) in
  if String.eqb s "" then 0
  else
    let '(num, multiplier) := memory_suffix s in
    let val := default 0 (Sscanf_d num) in
    Int.int64 (val * multiplier).

Definition buildDockerResources (r : option ResourceRequirements) : Resources :=
  match r with
  | None => {| NanoCPUs := 0; Memory := 0 |}
  | Some r =>
      {| NanoCPUs :=
           if String.eqb (rr_CPULimit r) "" then 0
           else
             let cpuFloat := default (Float.of_Z 0) (Float.Sscanf_f (rr_CPULimit r)) in
             Float.to_int64 (Float.mul cpuFloat (Float.of_Z 1000000000));
         Memory :=
           if String.eqb (rr_MemoryLimit r) "" then 0 else parseMemoryString (rr_MemoryLimit r) |}
  end.
End Job.

(** The table of TestP1_ResourceLimits_BuildDockerResources. *)
Example build_half_cpu :
  Container.buildDockerResources (Some {| rr_CPULimit := "0.5"; rr_MemoryLimit := "256m" |})
  = {| NanoCPUs := 500000000; Memory := 256 * 1024 * 1024 |}.
Proof. reflexivity. Qed.
Example build_two_cpu :
  Job.buildDockerResources (Some {| rr_CPULimit := "2"; rr_MemoryLimit := "1g" |})
  = {| NanoCPUs := 2000000000; Memory := 1024 * 1024 * 1024 |}.
Proof. reflexivity. Qed.

(** ** Lemmas *)
(** The unit suffixes, in either case, and their multipliers. *)
Definition units : list (string * Z) :=
  [("", 1); ("k", 1024); ("K", 1024); ("m", 1024 * 1024); ("M", 1024 * 1024);
   ("g", 1024 * 1024 * 1024); ("G", 1024 * 1024 * 1024)].

Lemma ToLower_app s t : ToLower (s +:+ t) = ToLower s +:+ ToLower t.
Proof. unfold ToLower. by rewrite chars_app, fmap_app, of_chars_app. Qed.

Lemma digits_plain l : Forall (λ c, Char.is_digit c = true) l → Forall plain l.
Proof. intros Hl. eapply Forall_impl; [exact Hl|]. apply digit_plain. Qed.

(** A string of digits does not end in a unit letter. *)
Lemma digits_no_suffix (s : string) (u : ascii) :
  Forall (λ c, Char.is_digit c = true) (chars s) → Char.is_digit u = false →
  HasSuffix s (String u "") = false.
Proof.
  intros Hs Hu. unfold HasSuffix. apply bool_decide_eq_false_2. intros [r Hr].
  unfold strip_suffix in Hr. simpl in Hr. apply Forall_rev in Hs.
  destruct Hs as [|c l Hc _]; [done|].
  destruct (Ascii.eqb_spec u c) as [->|]; [congruence|done].
Qed.
Lemma HasSuffix_app s t : HasSuffix (s +:+ t) t = true.
Proof.
  unfold HasSuffix. apply bool_decide_eq_true_2. rewrite chars_app, strip_suffix_app. eauto.
Qed.
Lemma TrimSuffix_app s t : TrimSuffix (s +:+ t) t = s.
Proof. unfold TrimSuffix. by rewrite chars_app, strip_suffix_app, of_chars_chars. Qed.
Lemma HasSuffix_other s (u v : ascii) : u ≠ v → HasSuffix (s +:+ String u "") (String v "") = false.
Proof.
  intros Hne. unfold HasSuffix. apply bool_decide_eq_false_2. intros [r Hr].
  unfold strip_suffix in Hr. rewrite chars_app, rev_app_distr in Hr. simpl in Hr.
  by rewrite (proj2 (Ascii.eqb_neq v u)) in Hr.
Qed.

(** Normalisation of a number with a unit, and its split. *)
Lemma memory_normal n sfx mult :
  0 ≤ n → (sfx, mult) ∈ units →
  let s := TrimSpace (ToLower (pretty n +:+ sfx)) in
  String.eqb s "" = false ∧ memory_suffix s = (pretty n, mult).
Proof.
  intros Hn Hin s. destruct (pretty_nonneg n Hn) as (_ & Hd & Hne).
  assert (s = pretty n +:+ ToLower sfx) as ->.
  { unfold s. rewrite ToLower_app, (ToLower_digits (pretty n)) by done. apply TrimSpace_plain.
    rewrite chars_app. apply Forall_app. split; [by apply digits_plain|].
    repeat (apply elem_of_cons in Hin as [[= -> ->]|Hin]; [by repeat (constructor; [by vm_compute|])|]).
    by apply not_elem_of_nil in Hin. }
  split.
  { apply String.eqb_neq. intros He%(f_equal chars). rewrite chars_app in He.
    by apply app_eq_nil in He as [? _]. }
  assert (mult = 1 ∧ ToLower sfx = "" ∨ mult = 1024 ∧ ToLower sfx = "k" ∨
          mult = 1024 * 1024 ∧ ToLower sfx = "m" ∨ mult = 1024 * 1024 * 1024 ∧ ToLower sfx = "g")
    as [[-> ->]|[[-> ->]|[[-> ->]|[-> ->]]]].
  { repeat (apply elem_of_cons in Hin as [[= -> ->]|Hin]; [by vm_compute; auto 10|]).
    by apply not_elem_of_nil in Hin. }
  - replace (pretty n +:+ "") with (pretty n)
      by (apply chars_inj; by rewrite chars_app, app_nil_r).
    unfold memory_suffix. by rewrite !digits_no_suffix.
  - unfold memory_suffix. rewrite !HasSuffix_other by done. by rewrite HasSuffix_app, TrimSuffix_app.
  - unfold memory_suffix. rewrite HasSuffix_other by done. by rewrite HasSuffix_app, TrimSuffix_app.
  - unfold memory_suffix. by rewrite HasSuffix_app, TrimSuffix_app.
Qed.

(** ** Properties *)

(** C38. A memory limit written as a decimal number with an optional unit
    k/m/g (either case) means that many bytes, times 1024, 1024^2 or 1024^3, in
    both controllers; beyond int64 the product wraps around. *)
Theorem memory_units n sfx mult :
  0 ≤ n < 2 ^ 63 → (sfx, mult) ∈ units →
  Container.parseMemoryString (pretty n +:+ sfx) = Int.int64 (n * mult) ∧
  Job.parseMemoryString (pretty n +:+ sfx) = Int.int64 (n * mult) ∧
  (n * mult < 2 ^ 63 → Container.parseMemoryString (pretty n +:+ sfx) = n * mult).
Proof.
  intros Hn Hin. destruct (memory_normal n sfx mult) as [Hne Hsfx]; [lia|done|].
  assert (Container.parseMemoryString (pretty n +:+ sfx) = Int.int64 (n * mult)) as Hc.
  { unfold Container.parseMemoryString. by rewrite Hne, Hsfx, ParseInt_pretty. }
  split_and!; [done| |].
  - unfold Job.parseMemoryString. rewrite Hne, Hsfx.
    by rewrite (Sscanf_d_ParseInt _ n) by (by apply ParseInt_pretty).
  - intros Hlt. rewrite Hc. apply Int.int64_id. unfold Int.in_int64.
    assert (1 ≤ mult) by (repeat (apply elem_of_cons in Hin as [[= -> ->]|Hin]; [lia|]);
                          by apply not_elem_of_nil in Hin). nia.
Qed.
Lemma memory_units_witness :
  (0 ≤ 256 < 2 ^ 63 ∧ ("m", 1024 * 1024) ∈ units) ∧
  Container.parseMemoryString "256m" = 268435456 ∧ Job.parseMemoryString "256m" = 268435456.
Proof.
  split.
  - split; [lia|]. do 3 constructor 2. constructor.
  - destruct (memory_units 256 "m" (1024 * 1024)) as (H1 & H2 & _); [lia| |].
    { do 3 constructor 2. constructor. }
    split; [exact H1|exact H2].
Defined.

(** C39. The two copies of the conversion agree on every string whose number part
    is a decimal int64, and disagree on malformed ones: for ["1.5g"] a
    DockerContainer gets no limit at all and a DockerJob gets 1 GiB, for ["12x"]
    nothing and 12 bytes. *)
Theorem memory_copies s v :
  ParseInt (fst (memory_suffix (TrimSpace (ToLower s)))) = Some v →
  Container.parseMemoryString s = Job.parseMemoryString s ∧
  (Container.parseMemoryString "1.5g" = 0 ∧ Job.parseMemoryString "1.5g" = 1073741824) ∧
  (Container.parseMemoryString "12x" = 0 ∧ Job.parseMemoryString "12x" = 12).
Proof.
  intros Hv. split_and!; try reflexivity.
  unfold Container.parseMemoryString, Job.parseMemoryString.
  destruct (String.eqb _ ""); [done|].
  destruct (memory_suffix _) as [num multiplier]. simpl in Hv.
  by rewrite Hv, (Sscanf_d_ParseInt _ _ Hv).
Qed.
Lemma memory_copies_witness :
  ParseInt (fst (memory_suffix (TrimSpace (ToLower " 512K ")))) = Some 512 ∧
  Container.parseMemoryString " 512K " = Job.parseMemoryString " 512K ".
Proof. split; [reflexivity|]. exact (proj1 (memory_copies " 512K " 512 eq_refl)). Defined.

(** [k] hundredths of a CPU as a CPU limit is written, with two decimals. *)
Definition hundredths (k : Z) : string :=
  pretty (k / 100) +:+ "." +:+ pretty (k / 10 mod 10) +:+ pretty (k mod 10).
(** Both controllers ask Docker for the same number of nano CPUs, and for how much less than is written. *)
Definition cpu_shortfall (k : Z) : Z * Z :=
  let asked := NanoCPUs (Container.buildDockerResources
                           (Some {| rr_CPULimit := hundredths k; rr_MemoryLimit := "" |})) in
  let asked_job := NanoCPUs (Job.buildDockerResources
                               (Some {| rr_CPULimit := hundredths k; rr_MemoryLimit := "" |})) in
  (k * 10000000 - asked, asked_job - asked).
Definition within_one (d : Z * Z) : bool := (0 <=? d.1) && (d.1 <=? 1) && (d.2 =? 0).
Lemma hundredths_checked : forallb (λ k, within_one (cpu_shortfall k)) (seqZ 0 1601) = true.
Proof. vm_compute. reflexivity. Qed.

(** C40. CPU limits.  For every limit with two decimals from 0.00 to 16.00 CPUs, whatever the memory
    limit, both controllers ask Docker for the same number of nano CPUs, although they read the
    number with different library functions, and that is the number written or one less: the
    product is truncated, not rounded, so "2.01" asks for 2009999999. *)
Theorem cpu_limits k memory :
  0 ≤ k ≤ 1600 →
  let asked := NanoCPUs (Container.buildDockerResources
                           (Some {| rr_CPULimit := hundredths k; rr_MemoryLimit := memory |})) in
  NanoCPUs (Job.buildDockerResources
              (Some {| rr_CPULimit := hundredths k; rr_MemoryLimit := memory |})) = asked ∧
  k * 10 ^ 7 - 1 ≤ asked ≤ k * 10 ^ 7 ∧
  hundredths 201 = "2.01" ∧
  NanoCPUs (Container.buildDockerResources
              (Some {| rr_CPULimit := "2.01"; rr_MemoryLimit := memory |})) = 2009999999.
Proof.
  intros Hk asked. pose proof hundredths_checked as Hall. rewrite forallb_forall in Hall.
  specialize (Hall k). unfold within_one in Hall. rewrite !andb_true_iff, !Z.leb_le, Z.eqb_eq in Hall.
  destruct Hall as [[H1 H2] H3]; [apply list_elem_of_In, elem_of_seqZ; lia|].
  unfold cpu_shortfall in H1, H2, H3. cbn [fst snd] in H1, H2, H3.
  assert (10 ^ 7 = 10000000) as -> by done.
  assert (asked = NanoCPUs (Container.buildDockerResources
    (Some {| rr_CPULimit := hundredths k; rr_MemoryLimit := "" |}))) as -> by done.
  split; [|split; [lia|split; reflexivity]].
  etrans; [|apply Z.sub_move_0_r; exact H3]. done.
Qed.
Lemma cpu_limits_witness :
  0 ≤ 150 ≤ 1600 ∧ hundredths 150 = "1.50" ∧
  NanoCPUs (Job.buildDockerResources (Some {| rr_CPULimit := "1.50"; rr_MemoryLimit := "1g" |})) = 1500000000.
Proof.
  assert (0 ≤ 150 ≤ 1600) as Hk by lia. split; [exact Hk|]. split; [reflexivity|].
  etrans; [exact (proj1 (cpu_limits 150 "1g" Hk))|]. vm_compute. reflexivity.
Defined.
