(* ===== verification/Common.v ===== *)
(** * What the controllers share
      (src/internal/controller/common/utils.go, and the functions that the
       dockercontainer, dockerjob and dockerservice packages each carry a copy of)

    Secrets, registry credentials, environment variables, the tar upload of secret
    volumes, and the resolution of a Docker client with its cache.  Where the
    copies differ the difference is a parameter. *)
From S2P Require Import Prelude GoStd Effects Api World.
Local Open Scope Z_scope.

(** ** [common.GetTLSConfig] *)
Definition GetTLSConfig (secret : Secret) : go (res TLSConfig) :=
  match sec_Data secret !! "ca.pem" with
  | None => Return (Err (new_error "secret missing 'ca.pem'"))
  | Some caCert =>
      match sec_Data secret !! "cert.pem" with
      | None => Return (Err (new_error "secret missing 'cert.pem'"))
      | Some certPem =>
          match sec_Data secret !! "key.pem" with
          | None => Return (Err (new_error "secret missing 'key.pem'"))
          | Some keyPem =>
              let! ok := AppendCertsFromPEM caCert in
              if negb ok then Return (Err (new_error "failed to append CA certificate"))
              else
                let! pair := X509KeyPair certPem keyPem in
                match pair with
                | Err err => Return (Err err)
                | Ok _ => Return (Ok {| tls_RootCAs := caCert; tls_Cert := certPem; tls_Key := keyPem |})
                end
          end
      end
  end.

(** ** Secrets *)
Definition getSecretValue (namespace name key : string) : go (res string) :=
  let! s := KGet KSecret {| nn_Namespace := namespace; nn_Name := name |} in
  match s with
  | Err err => Return (Err err)
  | Ok secret =>
      match sec_Data secret !! key with
      | None => Return (Err (new_error ("key " +:+ key +:+ " not found in secret " +:+ name)))
      | Some val => Return (Ok val)
      end
  end.

Definition getAuthConfig (namespace secretName : string) : go (res AuthConfig) :=
  let! s := KGet KSecret {| nn_Namespace := namespace; nn_Name := secretName |} in
  match s with
  | Err err => Return (Err err)
  | Ok secret =>
      let username := default "" (sec_Data secret !! "username") in
      let password := default "" (sec_Data secret !! "password") in
      let serverAddress := default "" (sec_Data secret !! "server") in
      if String.eqb username "" then Return (Err (new_error "username not found in secret"))
      else Return (Ok {| auth_Username := username; auth_Password := password;
                         auth_ServerAddress := serverAddress |})
  end.

(** The archive under construction: (name, contents) of the entries so far. *)
Definition tar_entry (relPath : string) (buf : list (string * string)) (e : string * string)
    : go (res (list (string * string))) :=
  let '(name, data) := e in
  let entry := Filepath.JoinPath [relPath; name] in
  let! h := TarWriteHeader entry (Z.of_nat (String.length data)) in
  match h with
  | Err err => Return (Err err)
  | Ok _ =>
      let! w := TarWrite data in
      match w with
      | Err err => Return (Err err)
      | Ok _ => Return (Ok (buf ++ [(entry, data)]))
      end
  end.

Definition uploadSecretToContainer (cli : client) (namespace : string) (sv : SecretVolume)
    (containerID : string) : go (res unit) :=
  let! s := KGet KSecret {| nn_Namespace := namespace; nn_Name := sv_SecretName sv |} in
  match s with
  | Err err => Return (Err err)
  | Ok secret =>
      let relPath := Strings.TrimPrefix (sv_MountPath sv) "/" in
      bind! entries := range_map (sec_Data secret) in
      bind! r := range_err entries [] (tar_entry relPath) in
      match r with
      | Err err => Return (Err err)
      | Ok buf =>
          let! c := TarClose in
          match c with
          | Err err => Return (Err err)
          | Ok _ =>
              let! u := DCopyToContainer cli containerID "/" buf in Return u
          end
      end
  end.

(** The loops over [SecretVolumes] and [EnvVars] of [createAndStartContainer]. *)
Definition uploadSecretVolumes (cli : client) (namespace : string) (svs : list SecretVolume)
    (containerID : string) : go (res unit) :=
  range_err svs tt (λ _ sv, uploadSecretToContainer cli namespace sv containerID).

Definition resolveEnvVar (namespace : string) (env : list string) (ev : EnvVar)
    : go (res (list string)) :=
  let add (val : string) := Return (Ok (env ++ [ev_Name ev +:+ "=" +:+ val])) in
  match ev_ValueFrom ev with
  | Some src =>
      match evs_SecretKeyRef src with
      | Some ref =>
          bind! v := getSecretValue namespace (sks_Name ref) (sks_Key ref) in
          match v with
          | Err err => Return (Err err)
          | Ok secretVal => add secretVal
          end
      | None => add (ev_Value ev)
      end
  | None => add (ev_Value ev)
  end.
Definition resolveEnv (namespace : string) (env : list string) (envVars : list EnvVar)
    : go (res (list string)) :=
  range_err envVars env (resolveEnvVar namespace).

(** One entry of [HostConfig.Binds]. *)
Definition bind_of (v : VolumeMount) : string :=
  vm_HostPath v +:+ ":" +:+ vm_ContainerPath v +:+ (if vm_ReadOnly v then ":ro" else "").

Section third_party.
Context {T : ThirdParty}.

(** [pullOpts.RegistryAuth] for an [ImagePullSecret]. *)
Definition registryAuth (namespace imagePullSecret : string) : go (res string) :=
  if String.eqb imagePullSecret "" then Return (Ok "")
  else
    bind! a := getAuthConfig namespace imagePullSecret in
    match a with
    | Err err => Return (Err err)
    | Ok authConfig => Return (EncodeAuth authConfig)
    end.
End third_party.

(** ** Resolving a Docker client *)
Record cachedClient := { cc_client : client; cc_createdAt : Z }.
(** The fields every reconciler carries besides the Kubernetes client: the client
    injected for tests, and the cache of clients of DockerHosts. *)
Record Reconciler := {
  r_DockerClient : option client;
  r_dockerClients : gmap string cachedClient
}.
Definition set_clients (m : gmap string cachedClient) (r : Reconciler) : Reconciler :=
  {| r_DockerClient := r_DockerClient r; r_dockerClients := m |}.

Definition cache_ttl : Z := 5 * Time.minute.

(** How an error is wrapped before it is returned: the text in front of [%w]. *)
Definition wrapping : Type := string → go_error → go_error.

Section resolve.
(** [wrap] is [fmt.Errorf] with [%w] in dockercontainer and dockerjob, and the
    identity in dockerservice; [store_key] is the cache key a new client is
    stored under. *)
Context (wrap : wrapping) (store_key : string) (namespace hostName : string).

(** The part after label [found]. *)
Definition connect (r : Reconciler) (host : DockerHost) : go (Reconciler * res client) :=
  bind! tls :=
    (if String.eqb (hs_TLSSecretName (dh_Spec host)) "" then Return (Ok None)
     else
       let! s := KGet KSecret {| nn_Namespace := namespace; nn_Name := hs_TLSSecretName (dh_Spec host) |} in
       match s with
       | Err err =>
           Return (Err (wrap ("failed to get TLS Secret '" +:+ hs_TLSSecretName (dh_Spec host) +:+ "'") err))
       | Ok secret =>
           bind! c := GetTLSConfig secret in
           match c with
           | Err err => Return (Err (wrap "failed to load TLS config" err))
           | Ok tlsConfig => Return (Ok (Some tlsConfig))
           end
       end) in
  match tls with
  | Err err => Return (r, Err err)
  | Ok tlsConfig =>
      let! n := DNewClient (WithHost (hs_HostURL (dh_Spec host)) tlsConfig 0) in
      match n with
      | Err err => Return (r, Err err)
      | Ok newClient =>
          let! now := TimeNow in
          Return (set_clients (<[store_key := {| cc_client := newClient; cc_createdAt := now |}]>
                                 (r_dockerClients r)) r, Ok newClient)
      end
  end.

(** The lookup of the DockerHost: the object's namespace, then "system", then
    for the name "default" the local daemon. *)
Definition find_host (r : Reconciler) : go (Reconciler * res client) :=
  let! h := KGet KDockerHost {| nn_Namespace := namespace; nn_Name := hostName |} in
  match h with
  | Ok host => connect r host
  | Err err =>
      let fail := Return (r, Err (wrap ("failed to get DockerHost '" +:+ hostName +:+ "'") err)) in
      if err_IsNotFound err then
        bind! sys :=
          (if String.eqb namespace "system" then Return None
           else
             let! s := KGet KDockerHost {| nn_Namespace := "system"; nn_Name := hostName |} in
             Return (match s with Ok host => Some host | Err _ => None end)) in
        match sys with
        | Some host => connect r host
        | None =>
            if String.eqb hostName "default" then
              match r_DockerClient r with
              | Some c => Return (r, Ok c)
              | None => let! n := DNewClient FromEnv in Return (r, n)
              end
            else fail
        end
      else fail
  end.

Definition resolve (r : Reconciler) : go (Reconciler * res client) :=
  let cacheKey := namespace +:+ "/" +:+ hostName in
  match r_dockerClients r !! cacheKey with
  | Some cc =>
      let! now := TimeNow in
      if Time.Sub now (cc_createdAt cc) <? cache_ttl then Return (r, Ok (cc_client cc))
      else
        do! DClose (cc_client cc);
        find_host (set_clients (delete cacheKey (r_dockerClients r)) r)
  | None => find_host r
  end.
End resolve.

Definition host_name (dockerHostRef : string) : string :=
  if String.eqb dockerHostRef "" then "default" else dockerHostRef.

(** [getDockerClient] of dockercontainer and of dockerjob. *)
Definition getDockerClient (namespace dockerHostRef : string) (r : Reconciler)
    : go (Reconciler * res client) :=
  let hostName := host_name dockerHostRef in
  resolve wrap_error (namespace +:+ "/" +:+ hostName) namespace hostName r.

(** [getDockerClient] of dockerservice: errors are not wrapped, and a new client
    is stored under the raw reference. *)
Definition getDockerClient_service (namespace dockerHostRef : string) (r : Reconciler)
    : go (Reconciler * res client) :=
  resolve (λ _ err, err) (namespace +:+ "/" +:+ dockerHostRef) namespace (host_name dockerHostRef) r.
