(* ===== verification/Lifecycle.v ===== *)
(** * The life cycle of a container as the controllers drive it

    The monitor [lifecycle] reads the calls of a createAndStartContainer and
    rejects any order but: pull the image, create the container, upload every
    secret volume into it, start it.  The lemmas say how the functions of
    Common.v that both controllers call move it. *)
From S2P Require Import Prelude GoStd Effects Api World Common.

(** ** Calls that only read, or work on local data *)
Definition quiet (o : op) : Prop :=
  match o with
  | KGet _ _ | KList _ _ | DDrain | TarWriteHeader _ _ | TarWrite _ | TarClose | TimeNow
  | RangeOrder _ | AppendCertsFromPEM _ | X509KeyPair _ _ | Getenv _ => True
  | _ => False
  end.
#[global] Instance quiet_dec o : Decision (quiet o).
Proof. destruct o; simpl; apply _. Defined.

Lemma calls_range_map {A} (P : op → Prop) (m : gmap string A) :
  (∀ keys, P (RangeOrder keys)) → calls P (range_map m).
Proof. intros HP. by split. Qed.
#[export] Hint Resolve calls_range_map : go.

Lemma quiet_GetTLSConfig secret : calls quiet (GetTLSConfig secret).
Proof. unfold GetTLSConfig. repeat (case_match; simpl; try done). split; [done|]. intros []; simpl; [|done]. split; [done|]. by intros []. Qed.
Lemma quiet_getSecretValue ns name key : calls quiet (getSecretValue ns name key).
Proof. unfold getSecretValue. split; [done|]. intros [s|e]; simpl; [|done]. by case_match. Qed.
Lemma quiet_registryAuth `{ThirdParty} ns secret : calls quiet (registryAuth ns secret).
Proof.
  unfold registryAuth. case_match; [done|]. apply calls_bind; [|by intros []].
  split; [done|]. intros [s|e]; simpl; [|done]. by case_match.
Qed.
Lemma quiet_resolveEnv ns env envVars : calls quiet (resolveEnv ns env envVars).
Proof.
  apply calls_range_err. intros l ev. unfold resolveEnvVar. repeat (case_match; try done).
  apply calls_bind; [apply quiet_getSecretValue|]. by intros [].
Qed.
Lemma quiet_tar_entry path buf e : calls quiet (tar_entry path buf e).
Proof. destruct e as [name data]. split; [done|]. intros []; simpl; [|done]. split; [done|]. by intros []. Qed.
#[export] Hint Resolve quiet_GetTLSConfig quiet_getSecretValue quiet_registryAuth quiet_resolveEnv
  quiet_tar_entry : go.

(** Uploading secrets reads, and copies into the container. *)
Definition uploading (o : op) : Prop :=
  quiet o ∨ match o with DCopyToContainer _ _ _ _ => True | _ => False end.
Lemma calls_mono {A} (P P' : op → Prop) (p : go A) : (∀ o, P o → P' o) → calls P p → calls P' p.
Proof. intros HP. induction p as [a|w|o k IH]; simpl; [done..|]. intros [Ho Hk]. eauto. Qed.
Lemma calls_uploadSecretVolumes cli ns svs id : calls uploading (uploadSecretVolumes cli ns svs id).
Proof.
  apply calls_range_err. intros _ sv. split; [by left|]. intros [secret|e]; [|done].
  split; [by left|]. intros hint. cbn [pbind]. apply calls_bind.
  - apply calls_range_err. intros buf e. eapply calls_mono; [|apply quiet_tar_entry]. by left.
  - intros [buf|e]; [|done]. split; [by left|]. intros [c|e]; [|done]. split; [by right|]. done.
Qed.

(** Bringing a container up. *)
Definition creating (o : op) : Prop :=
  quiet o ∨ match o with
            | DImagePull _ _ _ | DContainerCreate _ _ _ _ | DCopyToContainer _ _ _ _
            | DContainerStart _ _ => True
            | _ => False
            end.
Lemma calls_quiet_bind {A B} (P : op → Prop) (p : go A) (f : A → go B) :
  (∀ o, quiet o → P o) → calls quiet p → (∀ a, calls P (f a)) → calls P (pbind p f).
Proof. intros HP Hp Hf. apply calls_bind; [by eapply calls_mono|done]. Qed.
Lemma creating_create_upload_start cli config hostConfig name ns svs :
  calls creating
    (let! c := DContainerCreate cli config hostConfig name in
     match c with
     | Err err => Return (Err err)
     | Ok id =>
         bind! up := uploadSecretVolumes cli ns svs id in
         match up with
         | Err err => Return (Err err)
         | Ok _ => let! s := DContainerStart cli id in Return s
         end
     end).
Proof.
  split; [by right|]. intros [id|e]; [|done]. apply calls_bind.
  - eapply calls_mono; [|apply calls_uploadSecretVolumes]. intros o [Ho|Ho]; [by left|right; by destruct o].
  - intros [[]|e]; [|done]. split; [by right|done].
Qed.

(** Calls that change something on the Docker host. *)
Definition changes_host (o : op) : bool :=
  match o with
  | DContainerCreate _ _ _ _ | DContainerStart _ _ | DContainerStop _ _ _ | DContainerRemove _ _ _
  | DCopyToContainer _ _ _ _ | DImagePull _ _ _ | DNetworkConnect _ _ _ => true
  | _ => false
  end.

(** ** The monitor *)
Inductive stage :=
| Idle
| Pulled
| Created (id : string) (uploads : nat)
| Started (id : string)
| Broken.      (* a call failed: nothing more may happen *)

Section monitor.
(** The number of secret volumes that must be in place before the start. *)
Context (volumes : nat).

Definition lifecycle (s : stage) (e : event ans) : option stage :=
  match e with
  | Ev (DImagePull _ _ _) r =>
      match s with Idle => Some (if is_ok r then Pulled else Broken) | _ => None end
  | Ev (DContainerCreate _ _ _ _) r =>
      match s with
      | Pulled => Some (match r with Ok id => Created id 0 | Err _ => Broken end)
      | _ => None
      end
  | Ev (DCopyToContainer _ id path _) r =>
      match s with
      | Created id' n =>
          if decide (id = id' ∧ path = "/" ∧ n < volumes)
          then Some (if is_ok r then Created id (S n) else Broken) else None
      | _ => None
      end
  | Ev (DContainerStart _ id) r =>
      match s with
      | Created id' n =>
          if decide (id = id' ∧ n = volumes) then Some (if is_ok r then Started id else Broken) else None
      | _ => None
      end
  | Ev o _ => if decide (quiet o) then Some s else None
  end.
End monitor.

Abbreviation ordered volumes := (guarded anything (lifecycle volumes)).

Section lemmas.
Context (volumes : nat).
Implicit Types s : stage.

Lemma lifecycle_quiet s o (x : ans o) : quiet o → lifecycle volumes s (Ev o x) = Some s.
Proof. by destruct o. Qed.

(** A quiet program is invisible to the monitor. *)
Lemma ordered_quiet {A B} s (p : go A) (f : A → go B) Q :
  calls quiet p → (∀ a, ordered volumes s (f a) Q) → ordered volumes s (pbind p f) Q.
Proof.
  intros Hq Hf. apply guarded_bind.
  eapply guarded_mono; [|by eapply (guarded_ignored _ _ s quiet); [apply lifecycle_quiet|]].
  intros s' o [-> [a ->]]. apply Hf.
Qed.

(** One secret volume: the archive is copied last, so an error before it leaves
    the stage alone and the copy moves it. *)
Definition uploaded (id : string) (n : nat) (s : stage) (o : outcome (res unit)) : Prop :=
  match o with
  | Returned (Ok _) => s = Created id n
  | Returned (Err _) => ∀ id', s ≠ Started id'
  | Panicked _ => False
  end.
Lemma upload_one cli ns sv id n :
  n < volumes →
  ordered volumes (Created id n) (uploadSecretToContainer cli ns sv id) (uploaded id (S n)).
Proof.
  intros Hn x _. exists (Created id n). split; [done|].
  destruct x as [secret|e]; simpl; [|done].
  intros hint _. exists (Created id n). split; [done|].
  apply ordered_quiet; [apply calls_range_err; intros; apply quiet_tar_entry|].
  intros [buf|e]; [|done].
  intros y _. exists (Created id n). split; [done|].
  destruct y as [?|e]; [|done].
  intros z _. simpl. rewrite decide_True by done. eexists. split; [done|].
  by destruct z as [[]|e].
Qed.

Lemma upload_all cli ns svs id n :
  n + length svs = volumes →
  ordered volumes (Created id n) (uploadSecretVolumes cli ns svs id) (uploaded id volumes).
Proof.
  unfold uploadSecretVolumes. revert n. induction svs as [|sv svs IH]; intros n Hn; simpl in Hn.
  - by replace n with volumes by lia.
  - rewrite range_err_cons. apply guarded_bind. eapply guarded_mono; [|apply upload_one; lia].
    intros s [[[]|e]|w] Hs; simpl in *; [subst|done..]. apply IH. lia.
Qed.

(** The common tail of the two createAndStartContainer functions. *)
Definition started_iff_ok (s : stage) (o : outcome (res unit)) : Prop :=
  match o with
  | Returned (Ok _) => ∃ id, s = Started id
  | Returned (Err _) => ∀ id, s ≠ Started id
  | Panicked _ => False
  end.
Lemma create_upload_start cli config hostConfig name ns svs :
  length svs = volumes →
  ordered volumes Pulled
    (let! c := DContainerCreate cli config hostConfig name in
     match c with
     | Err err => Return (Err err)
     | Ok id =>
         bind! up := uploadSecretVolumes cli ns svs id in
         match up with
         | Err err => Return (Err err)
         | Ok _ => let! s := DContainerStart cli id in Return s
         end
     end) started_iff_ok.
Proof.
  intros Hlen x _. eexists. split; [done|]. destruct x as [id|e]; [|done].
  apply guarded_bind. eapply guarded_mono; [|by apply upload_all].
  intros s [[[]|e]|w] Hs; simpl in Hs; [subst|done..].
  intros y _. simpl. rewrite decide_True by done. eexists. split; [done|].
  destruct y; simpl; eauto.
Qed.
End lemmas.
