(* ===== verification/JobController.v ===== *)
(** * The DockerJob controller (src/internal/controller/dockerjob/reconciler.go)

    Every handler is a program over [op]; the [*DockerJob] it mutates is passed
    along explicitly.  [Status().Update] overwrites the object with the server's
    answer when it succeeds and leaves it alone when it fails. *)
From S2P Require Import Prelude GoStd Effects Api World Common Resources.
Local Open Scope Z_scope.

Definition finalizerName : string := "dockerjob.kdop.io.vn/finalizer".

(** ** Field assignments *)
Definition set_meta (m : ObjectMeta) (job : DockerJob) : DockerJob :=
  {| dj_Meta := m; dj_Spec := dj_Spec job; dj_Status := dj_Status job |}.
Definition set_job_status (st : DockerJobStatus) (job : DockerJob) : DockerJob :=
  {| dj_Meta := dj_Meta job; dj_Spec := dj_Spec job; dj_Status := st |}.

Definition containerName (job : DockerJob) : string :=
  if negb (String.eqb (js_ContainerName (dj_Spec job)) "") then js_ContainerName (dj_Spec job)
  else "job-" +:+ om_Name (dj_Meta job).

Definition requeue_after (d : Z) : reconcile_result := ({| RequeueAfter := d |}, None).
Definition done_ok : reconcile_result := (no_requeue, None).
Definition failed (err : go_error) : reconcile_result := (no_requeue, Some err).

(** [r.Status().Update(ctx, job)] with its error dropped. *)
Definition status_update (job : DockerJob) : go DockerJob :=
  let! u := KStatusUpdate KDockerJob job in
  Return (match u with Ok job' => job' | Err _ => job end).

Definition is_terminal (p : DockerJobPhase) : bool :=
  match p with JobPhaseSucceeded | JobPhaseFailed => true | _ => false end.

(** [setStatus] *)
Definition setStatus (job : DockerJob) (phase : DockerJobPhase) (exitCode : option Z) (message : string)
    : go DockerJob :=
  let! now := TimeNow in
  let st := dj_Status job in
  status_update (set_job_status
    {| jst_Phase := phase;
       jst_ContainerID := jst_ContainerID st;
       jst_StartTime := jst_StartTime st;
       jst_CompletionTime := if is_terminal phase then Some now else jst_CompletionTime st;
       jst_ExitCode := match exitCode with Some _ => exitCode | None => jst_ExitCode st end;
       jst_Attempts := jst_Attempts st;
       jst_Message := message |} job).

(** [handleTTLCleanup] *)
Definition handleTTLCleanup (cli : client) (job : DockerJob) : go reconcile_result :=
  match js_TTLSecondsAfterFinished (dj_Spec job), jst_CompletionTime (dj_Status job) with
  | Some ttlSeconds, Some completion =>
      let ttl := Time.seconds ttlSeconds in
      let! now := TimeNow in
      let elapsed := Time.Sub now completion in
      if elapsed <? ttl then Return (requeue_after (Int.int64 (ttl - elapsed)))
      else
        do! DContainerRemove cli (containerName job) true;
        Return done_ok
  | _, _ => Return done_ok
  end.

(** The restart policy Docker is given. *)
Definition docker_restart_policy (policy : string) : string :=
  if String.eqb policy "" || String.eqb policy "Never" then "no"
  else if String.eqb policy "OnFailure" then "on-failure"
  else policy.

Section job.
Context {T : ThirdParty}.

(** [createAndStartContainer] *)
Definition createAndStartContainer (cli : client) (job : DockerJob) : go (res unit) :=
  let spec := dj_Spec job in
  let ns := om_Namespace (dj_Meta job) in
  bind! auth := registryAuth ns (js_ImagePullSecret spec) in
  match auth with
  | Err err => Return (Err err)
  | Ok authStr =>
      let! p := DImagePull cli (js_Image spec) authStr in
      match p with
      | Err err => Return (Err err)
      | Ok _ =>
          do! DDrain;
          bind! env := resolveEnv ns (js_Env spec) (js_EnvVars spec) in
          match env with
          | Err err => Return (Err err)
          | Ok resolvedEnv =>
              let config :=
                {| cfg_Image := js_Image spec; cfg_Cmd := js_Command spec ++ js_Args spec;
                   cfg_Env := resolvedEnv; cfg_Healthcheck := None; cfg_ExposedPorts := ∅ |} in
              let hostConfig :=
                {| hcf_RestartPolicy := docker_restart_policy (js_RestartPolicy spec);
                   hcf_PortBindings := ∅; hcf_Binds := bind_of <$> js_VolumeMounts spec;
                   hcf_NetworkMode := "";
                   hcf_Resources := match js_Resources spec with
                                    | Some _ => Job.buildDockerResources (js_Resources spec)
                                    | None => {| NanoCPUs := 0; Memory := 0 |}
                                    end |} in
              let! c := DContainerCreate cli config hostConfig (containerName job) in
              match c with
              | Err err => Return (Err err)
              | Ok id =>
                  bind! up := uploadSecretVolumes cli ns (js_SecretVolumes spec) id in
                  match up with
                  | Err err => Return (Err err)
                  | Ok _ => let! s := DContainerStart cli id in Return s
                  end
              end
          end
      end
  end.

(** The branch of [syncJob] for a container that does not exist. *)
Definition start_first (cli : client) (job : DockerJob) : go reconcile_result :=
  bind! c := createAndStartContainer cli job in
  match c with
  | Err err =>
      bind! _ := setStatus job JobPhaseFailed None ("Failed to create container: " +:+ err_Error err) in
      Return (failed err)
  | Ok _ =>
      let! now := TimeNow in
      let st := dj_Status job in
      bind! _ := status_update (set_job_status
        {| jst_Phase := JobPhaseRunning; jst_ContainerID := jst_ContainerID st;
           jst_StartTime := Some now; jst_CompletionTime := jst_CompletionTime st;
           jst_ExitCode := jst_ExitCode st; jst_Attempts := Int.int32 (jst_Attempts st + 1);
           jst_Message := "Container started" |} job) in
      Return (requeue_after (5 * Time.second))
  end.

(** The branch for a running container. *)
Definition still_running (cli : client) (job : DockerJob) (id : string) : go reconcile_result :=
  let st := dj_Status job in
  bind! expired :=
    (match js_ActiveDeadlineSeconds (dj_Spec job), jst_StartTime st with
     | Some limit, Some start =>
         let deadline := Time.Add start (Time.seconds limit) in
         let! now := TimeNow in Return (Time.After now deadline)
     | _, _ => Return false
     end) in
  if expired : bool then
    do! DContainerStop cli id 10;
    do! DContainerRemove cli id true;
    bind! _ := setStatus job JobPhaseFailed None "Job exceeded ActiveDeadlineSeconds" in
    Return done_ok
  else
    bind! _ :=
      (if negb (bool_decide (jst_Phase st = JobPhaseRunning)) then
         status_update (set_job_status
           {| jst_Phase := JobPhaseRunning; jst_ContainerID := id;
              jst_StartTime := jst_StartTime st; jst_CompletionTime := jst_CompletionTime st;
              jst_ExitCode := jst_ExitCode st; jst_Attempts := jst_Attempts st;
              jst_Message := "Container running" |} job)
       else Return job) in
    Return (requeue_after (5 * Time.second)).

(** The branch for an exited container; [job] already carries the container ID,
    the exit code and the completion time. *)
Definition container_exited (cli : client) (job : DockerJob) (id : string) (exitCode now : Z)
    : go reconcile_result :=
  let st := dj_Status job in
  if exitCode =? 0 then
    bind! job := status_update (set_job_status
      {| jst_Phase := JobPhaseSucceeded; jst_ContainerID := id; jst_StartTime := jst_StartTime st;
         jst_CompletionTime := Some now; jst_ExitCode := Some exitCode;
         jst_Attempts := jst_Attempts st; jst_Message := "Job completed successfully" |} job) in
    handleTTLCleanup cli job
  else if jst_Attempts st <=? js_BackoffLimit (dj_Spec job) then
    do! DContainerRemove cli id true;
    let exited := set_job_status
      {| jst_Phase := jst_Phase st; jst_ContainerID := id; jst_StartTime := jst_StartTime st;
         jst_CompletionTime := Some now; jst_ExitCode := Some exitCode;
         jst_Attempts := jst_Attempts st; jst_Message := jst_Message st |} job in
    bind! c := createAndStartContainer cli exited in
    match c with
    | Err err =>
        bind! _ := setStatus exited JobPhaseFailed (Some exitCode) ("Retry failed: " +:+ err_Error err) in
        Return (failed err)
    | Ok _ =>
        let attempts := Int.int32 (jst_Attempts st + 1) in
        bind! _ := status_update (set_job_status
          {| jst_Phase := JobPhaseRunning; jst_ContainerID := id; jst_StartTime := jst_StartTime st;
             jst_CompletionTime := None; jst_ExitCode := None; jst_Attempts := attempts;
             jst_Message := "Retrying (attempt " +:+ pretty attempts +:+ "/"
                            +:+ pretty (Int.int32 (js_BackoffLimit (dj_Spec job) + 1)) +:+ ")" |} job) in
        Return (requeue_after (5 * Time.second))
    end
  else
    bind! job := status_update (set_job_status
      {| jst_Phase := JobPhaseFailed; jst_ContainerID := id; jst_StartTime := jst_StartTime st;
         jst_CompletionTime := Some now; jst_ExitCode := Some exitCode; jst_Attempts := jst_Attempts st;
         jst_Message := "Job failed with exit code " +:+ pretty exitCode +:+ " after "
                        +:+ pretty (jst_Attempts st) +:+ " attempt(s)" |} job) in
    handleTTLCleanup cli job.

(** [syncJob] *)
Definition syncJob (cli : client) (job : DockerJob) : go reconcile_result :=
  let! i := DContainerInspect cli (containerName job) in
  match i with
  | Err err =>
      if negb (err_IsNotFound err) then Return (failed err) else start_first cli job
  | Ok inspected =>
      match cj_State inspected with
      | None => Return (requeue_after (5 * Time.second))
      | Some state =>
          if st_Running state then still_running cli job (cj_ID inspected)
          else if String.eqb (st_Status state) "exited" then
            let! now := TimeNow in
            container_exited cli job (cj_ID inspected) (Int.int32 (st_ExitCode state)) now
          else Return (requeue_after (5 * Time.second))
      end
  end.

(** [Reconcile] *)
Definition Reconcile (req : NamespacedName) (r : Reconciler) : go (Reconciler * reconcile_result) :=
  let! g := KGet KDockerJob req in
  match g with
  | Err err =>
      if err_IsNotFound err then Return (r, done_ok) else Return (r, failed err)
  | Ok job =>
      bind! '(r, c) := getDockerClient (om_Namespace (dj_Meta job)) (js_DockerHostRef (dj_Spec job)) r in
      match c with
      | Err err => Return (r, failed err)
      | Ok cli =>
          if not_deleting (dj_Meta job) then
              bind! u :=
                (if negb (ContainsFinalizer (dj_Meta job) finalizerName) then
                   let! u := KUpdate KDockerJob (set_meta (AddFinalizer (dj_Meta job) finalizerName) job) in
                   Return u
                 else Return (Ok job)) in
              match u with
              | Err err => Return (r, failed err)
              | Ok job =>
                  bind! out :=
                    (if is_terminal (jst_Phase (dj_Status job)) then handleTTLCleanup cli job
                     else syncJob cli job) in
                  Return (r, out)
              end
          else
              if ContainsFinalizer (dj_Meta job) finalizerName then
                do! DContainerRemove cli (containerName job) true;
                let! u := KUpdate KDockerJob (set_meta (RemoveFinalizer (dj_Meta job) finalizerName) job) in
                match u with
                | Err err => Return (r, failed err)
                | Ok _ => Return (r, done_ok)
                end
              else Return (r, done_ok)
      end
  end.
End job.
