(* ===== verification/ContainerController.v ===== *)
(** * The DockerContainer controller
      (src/internal/controller/dockercontainer/reconciler.go and logs.go)

    Reconcile and everything it calls, and the tunnel functions the package still
    carries.  The [*DockerContainer] a handler mutates is passed along
    explicitly. *)
From S2P Require Import Prelude GoStd GoFloat Effects Api World Common Resources.
Local Open Scope Z_scope.

Definition finalizerName : string := "dockercontainer.kdop.io.vn/finalizer".

Definition set_meta (m : ObjectMeta) (cr : DockerContainer) : DockerContainer :=
  {| dc_Meta := m; dc_Spec := dc_Spec cr; dc_Status := dc_Status cr |}.
Definition set_cr_status (st : DockerContainerStatus) (cr : DockerContainer) : DockerContainer :=
  {| dc_Meta := dc_Meta cr; dc_Spec := dc_Spec cr; dc_Status := st |}.

(** ** Desired configuration *)
(** [buildDockerHealthCheck]: durations that do not parse stay 0. *)
Definition parse_interval (s : string) : Z :=
  if String.eqb s "" then 0 else default 0 (Duration.ParseDuration s).
Definition buildDockerHealthCheck (hc : option HealthCheckConfig) : option HealthConfig :=
  match hc with
  | None => None
  | Some hc =>
      Some {| hc_Test := hcc_Test hc;
              hc_Interval := parse_interval (hcc_Interval hc);
              hc_Timeout := parse_interval (hcc_Timeout hc);
              hc_Retries := if 0 <? hcc_Retries hc then hcc_Retries hc else 0 |}
  end.

(** [needsRecreate] *)
Definition needsRecreate (inspected : ContainerJSON) (spec : DockerContainerSpec) : bool :=
  match cj_Config inspected with
  | None => false
  | Some config =>
      if negb (String.eqb (cfg_Image config) (cs_Image spec)) then true
      else if (0 <? length (cs_Command spec))%nat && negb (bool_decide (cfg_Cmd config = cs_Command spec))
      then true
      else if (0 <? length (cs_Env spec))%nat
              && existsb (λ expected, negb (existsb (String.eqb expected) (cfg_Env config)))
                   (Sort.Strings (cs_Env spec))
      then true
      else
        match cj_HostConfig inspected with
        | None => false
        | Some hostConfig =>
            if negb (String.eqb (cs_RestartPolicy spec) "")
               && negb (String.eqb (Strings.ToLower (hcf_RestartPolicy hostConfig))
                                   (Strings.ToLower (cs_RestartPolicy spec)))
            then true
            else
              match cs_Resources spec with
              | None => false
              | Some _ =>
                  let desired := Container.buildDockerResources (cs_Resources spec) in
                  if negb (NanoCPUs desired =? NanoCPUs (hcf_Resources hostConfig)) then true
                  else if negb (Memory desired =? Memory (hcf_Resources hostConfig)) then true
                  else false
              end
        end
  end.

(** ** Names of the containers a DockerContainer owns on its host *)
Definition tunnel_name (base : string) (i : Z) : string := base +:+ "-tunnel-" +:+ pretty i.

(** [deleteExternalResources]: the names it removes besides the main container. *)
Definition tunnel_names (cr : DockerContainer) : list string :=
  let maxPorts := if (10 <? length (cs_Services (dc_Spec cr)))%nat
                  then length (cs_Services (dc_Spec cr)) else 10%nat in
  concat ((λ i, [tunnel_name (cs_ContainerName (dc_Spec cr)) i; tunnel_name (om_Name (dc_Meta cr)) i])
            <$> seqZ 0 (Z.of_nat maxPorts))
  ++ [cs_ContainerName (dc_Spec cr) +:+ "-tunnel"].

Definition deleteExternalResources (cli : client) (cr : DockerContainer) : go (res unit) :=
  let! e := DContainerRemove cli (cs_ContainerName (dc_Spec cr)) true in
  if negb (ok_or_not_found e) then Return e
  else
    bind! _ := range_do (tunnel_names cr) tt
                 (λ _ tn, do! DContainerRemove cli tn true; Return tt) in
    Return (Ok tt).

(** ** Looking at the existing container *)
(** The container of the listing one of whose names is ["/" + ContainerName]. *)
Definition find_target (containers : list ContainerSummary) (name : string) : option ContainerSummary :=
  List.find (λ c, existsb (String.eqb ("/" +:+ name)) (csm_Names c)) containers.

(** The first non-empty address, the networks visited in map order. *)
Fixpoint first_ip (networks : list (string * EndpointSettings)) : string :=
  match networks with
  | [] => ""
  | (_, netSettings) :: rest =>
      if negb (String.eqb (es_IPAddress netSettings) "") then es_IPAddress netSettings else first_ip rest
  end.

(** The status fields [syncContainer] recomputes, and whether any changed. *)
Definition observe_summary (target : ContainerSummary) (st : DockerContainerStatus)
    : DockerContainerStatus * bool :=
  if negb (String.eqb (cst_ID st) (csm_ID target)) || negb (String.eqb (cst_State st) (csm_State target))
  then ({| cst_ID := csm_ID target; cst_State := csm_State target;
           cst_Health := cst_Health st; cst_IPv4 := cst_IPv4 st |}, true)
  else (st, false).
Definition observe_health (state : ContainerState) (acc : DockerContainerStatus * bool)
    : DockerContainerStatus * bool :=
  let '(st, changed) := acc in
  let health := match st_Health state with Some h => h | None => "none" end in
  if negb (String.eqb (cst_Health st) health)
  then ({| cst_ID := cst_ID st; cst_State := cst_State st; cst_Health := health;
           cst_IPv4 := cst_IPv4 st |}, true)
  else acc.
Definition observe_ip (ip : string) (acc : DockerContainerStatus * bool)
    : DockerContainerStatus * bool :=
  let '(st, changed) := acc in
  if negb (String.eqb (cst_IPv4 st) ip)
  then ({| cst_ID := cst_ID st; cst_State := cst_State st; cst_Health := cst_Health st;
           cst_IPv4 := ip |}, true)
  else acc.

(** What the daemon's answer to an inspection contributes. *)
Definition observe (target : ContainerSummary) (inspect : res ContainerJSON) (st : DockerContainerStatus)
    : go (DockerContainerStatus * bool) :=
  let acc := observe_summary target st in
  match inspect with
  | Err _ => Return acc
  | Ok inspectResp =>
      let acc := match cj_State inspectResp with
                 | Some state => observe_health state acc
                 | None => acc
                 end in
      match cj_Networks inspectResp with
      | Some networks =>
          bind! visited := range_map networks in Return (observe_ip (first_ip visited) acc)
      | None => Return acc
      end
  end.

(** ** Port mappings *)
Definition port_mapping : Type := gmap string (list PortBinding) * gset string.
Section container.
Context {T : ThirdParty}.

(** The body of the loop over [Spec.Ports]: "host:container" entries; anything
    else, and container ports [nat.NewPort] refuses, is skipped. *)
Definition add_port (acc : port_mapping) (p : string) : port_mapping :=
  match Strings.Split p ":"%char with
  | [hostPort; containerPort] =>
      match NewPort "tcp" containerPort with
      | Err _ => acc
      | Ok portKey =>
          (<[portKey := [{| HostIP := "0.0.0.0"; HostPort := hostPort |}]]> (fst acc),
           {[portKey]} ∪ snd acc)
      end
  | _ => acc
  end.
Definition map_ports (ports : list string) : port_mapping := foldl add_port (∅, ∅) ports.

Definition build_config (spec : DockerContainerSpec) (resolvedEnv : list string) : Config :=
  {| cfg_Image := cs_Image spec; cfg_Cmd := cs_Command spec; cfg_Env := resolvedEnv;
     cfg_Healthcheck := buildDockerHealthCheck (cs_HealthCheck spec);
     cfg_ExposedPorts := snd (map_ports (cs_Ports spec)) |}.
Definition build_host_config (spec : DockerContainerSpec) : HostConfig :=
  {| hcf_RestartPolicy := Strings.ToLower (cs_RestartPolicy spec);
     hcf_PortBindings := fst (map_ports (cs_Ports spec));
     hcf_Binds := bind_of <$> cs_VolumeMounts spec;
     hcf_NetworkMode := "";
     hcf_Resources := match cs_Resources spec with
                      | Some _ => Container.buildDockerResources (cs_Resources spec)
                      | None => {| NanoCPUs := 0; Memory := 0 |}
                      end |}.

(** [createAndStartContainer] *)
Definition createAndStartContainer (cli : client) (cr : DockerContainer) : go (res unit) :=
  let spec := dc_Spec cr in
  let ns := om_Namespace (dc_Meta cr) in
  bind! auth := registryAuth ns (cs_ImagePullSecret spec) in
  match auth with
  | Err err => Return (Err err)
  | Ok authStr =>
      let! p := DImagePull cli (cs_Image spec) authStr in
      match p with
      | Err err => Return (Err err)
      | Ok _ =>
          do! DDrain;
          bind! env := resolveEnv ns (cs_Env spec) (cs_EnvVars spec) in
          match env with
          | Err err => Return (Err err)
          | Ok resolvedEnv =>
              let! c := DContainerCreate cli (build_config spec resolvedEnv) (build_host_config spec)
                          (cs_ContainerName spec) in
              match c with
              | Err err => Return (Err err)
              | Ok id =>
                  bind! up := uploadSecretVolumes cli ns (cs_SecretVolumes spec) id in
                  match up with
                  | Err err => Return (Err err)
                  | Ok _ => let! s := DContainerStart cli id in Return s
                  end
              end
          end
      end
  end.

(** [syncContainer]; the mutated object is not read by the caller afterwards. *)
Definition recreate (cli : client) (cr : DockerContainer) (id : string) : go (res unit) :=
  do! DContainerStop cli id 10;
  let! rm := DContainerRemove cli id true in
  match rm with
  | Err err => Return (Err err)
  | Ok _ => createAndStartContainer cli cr
  end.

Definition syncContainer (cli : client) (cr : DockerContainer) : go (res unit) :=
  let! l := DContainerList cli in
  match l with
  | Err err => Return (Err err)
  | Ok containers =>
      match find_target containers (cs_ContainerName (dc_Spec cr)) with
      | None => createAndStartContainer cli cr
      | Some target =>
          let! inspect := DContainerInspect cli (csm_ID target) in
          bind! '(st, statusChanged) := observe target inspect (dc_Status cr) in
          let cr := set_cr_status st cr in
          bind! cr :=
            (if statusChanged : bool then
               let! u := KStatusUpdate KDockerContainer cr in
               Return (match u with Ok cr' => cr' | Err _ => cr end)
             else Return cr) in
          bind! started :=
            (if negb (String.eqb (csm_State target) "running") then
               let! s := DContainerStart cli (csm_ID target) in Return s
             else Return (Ok tt)) in
          match started with
          | Err err => Return (Err err)
          | Ok _ =>
              match inspect with
              | Ok inspectResp =>
                  if needsRecreate inspectResp (dc_Spec cr) then recreate cli cr (csm_ID target)
                  else Return (Ok tt)
              | Err _ => Return (Ok tt)
              end
          end
      end
  end.

(** [Reconcile] *)
Definition Reconcile (req : NamespacedName) (r : Reconciler) : go (Reconciler * reconcile_result) :=
  let failed (err : go_error) : reconcile_result := (no_requeue, Some err) in
  let done_ok : reconcile_result := (no_requeue, None) in
  let! g := KGet KDockerContainer req in
  match g with
  | Err err => Return (r, if err_IsNotFound err then done_ok else failed err)
  | Ok cr =>
      bind! '(r, c) := getDockerClient (om_Namespace (dc_Meta cr)) (cs_DockerHostRef (dc_Spec cr)) r in
      match c with
      | Err err => Return (r, failed err)
      | Ok cli =>
          if not_deleting (dc_Meta cr) then
            bind! u :=
              (if negb (ContainsFinalizer (dc_Meta cr) finalizerName) then
                 let! u := KUpdate KDockerContainer (set_meta (AddFinalizer (dc_Meta cr) finalizerName) cr) in
                 Return u
               else Return (Ok cr)) in
            match u with
            | Err err => Return (r, failed err)
            | Ok cr =>
                bind! s := syncContainer cli cr in
                match s with
                | Err err => Return (r, failed err)
                | Ok _ => Return (r, ({| RequeueAfter := Time.minute |}, None))
                end
            end
          else if ContainsFinalizer (dc_Meta cr) finalizerName then
            bind! d := deleteExternalResources cli cr in
            match d with
            | Err err => Return (r, failed err)
            | Ok _ =>
                let! u := KUpdate KDockerContainer (set_meta (RemoveFinalizer (dc_Meta cr) finalizerName) cr) in
                match u with
                | Err err => Return (r, failed err)
                | Ok _ => Return (r, done_ok)
                end
            end
          else Return (r, done_ok)
      end
  end.
End container.
