(* ===== verification/ContainerTunnel.v ===== *)
(** * The tunnel functions and the log endpoint of the dockercontainer package
      (src/internal/controller/dockercontainer/reconciler.go from generateToken on,
       and logs.go)

    One tunnel server per DockerContainer in the cluster, one tunnel client per
    service port on the Docker host.  Reconcile no longer calls the tunnel
    functions (the DockerService controller has its own), the HTTP handler of the
    logs server is registered by main. *)
From S2P Require Import Prelude GoStd Effects Api World Common ContainerController.
Local Open Scope Z_scope.

(** [generateToken] *)
Definition generateToken : go (res string) :=
  let! b := RandRead 32 in
  match b with
  | Err err => Return (Err err)
  | Ok bytes => Return (Ok (Hex.EncodeToString bytes))
  end.

(** [OPERATOR_IMAGE], or the fallback. *)
Definition operator_image (fallback : string) : go string :=
  let! img := Getenv "OPERATOR_IMAGE" in
  Return (if String.eqb img "" then fallback else img).

(** The node the clients of a "kind" cluster reach the gateway on. *)
Definition gateway_host (netMode : string) : go string :=
  if String.eqb netMode "kind" then
    let! nodes := KList KNode (AllNamespaces (MatchingLabels {["node-role.kubernetes.io/control-plane" := ""]})) in
    Return (match nodes with
            | Ok (n :: _) => om_Name (node_Meta n)
            | _ => "localhost"
            end)
  else Return "localhost".

Definition gatewayPort : Z := 30000.
Definition clientConnectURL (gatewayHost wsURL authToken : string) : string :=
  "ws://" +:+ gatewayHost +:+ ":" +:+ pretty gatewayPort +:+ "/ws?target=" +:+ Url.QueryEscape wsURL
  +:+ "&token=" +:+ Url.QueryEscape authToken.

Section tunnel.
Context {T : ThirdParty}.

(** [ensureTunnelAuthSecret] *)
Definition ensureTunnelAuthSecret (cr : DockerContainer) : go (res string) :=
  let secretName := "tunnel-auth-" +:+ om_Name (dc_Meta cr) in
  let namespace := om_Namespace (dc_Meta cr) in
  let! g := KGet KSecret {| nn_Namespace := namespace; nn_Name := secretName |} in
  match g with
  | Ok existingSecret => Return (Ok (default "" (sec_Data existingSecret !! "token")))
  | Err err =>
      if negb (err_IsNotFound err) then Return (Err err)
      else
        bind! t := generateToken in
        match t with
        | Err err => Return (Err (wrap_error "failed to generate tunnel token" err))
        | Ok token =>
            match SetControllerReference KDockerContainer (dc_Meta cr) (new_meta secretName namespace ∅) with
            | Err err => Return (Err err)
            | Ok meta =>
                let! c := KCreate KSecret {| sec_Meta := meta; sec_Data := {["token" := token]} |} in
                match c with
                | Err err => Return (Err (wrap_error "failed to create tunnel auth secret" err))
                | Ok _ => Return (Ok token)
                end
            end
        end
  end.

(** One tunnel client container: created and started unless it exists. *)
Definition ensure_tunnel_client (cli : client) (config : Config) (hostConfig : HostConfig)
    (tunnelName : string) : go (res unit) :=
  let! e := DContainerInspect cli tunnelName in
  match e with
  | Ok _ => Return (Ok tt)
  | Err err =>
      if negb (err_IsNotFound err) then Return (Err err)
      else
        let! c := DContainerCreate cli config hostConfig tunnelName in
        match c return go (res unit) with
        | Err err => Return (Err err)
        | Ok id => let! s := DContainerStart cli id in Return s
        end
  end.

Definition tunnel_client_config (img connectURL targetIP : string) (svc : ServicePort) : Config :=
  {| cfg_Image := img;
     cfg_Cmd := ["tunnel"; "-mode"; "client"; "-server-url"; connectURL;
                 "-target-addr"; targetIP +:+ ":" +:+ pretty (sp_TargetPort svc)];
     cfg_Env := []; cfg_Healthcheck := None; cfg_ExposedPorts := ∅ |}.
Definition tunnel_host_config (netMode : string) : HostConfig :=
  {| hcf_RestartPolicy := "always"; hcf_PortBindings := ∅; hcf_Binds := [];
     hcf_NetworkMode := netMode; hcf_Resources := {| NanoCPUs := 0; Memory := 0 |} |}.

(** [reconcileTunnelClient] *)
Definition reconcileTunnelClient (cli : client) (cr : DockerContainer) (wsURL : string) : go (res unit) :=
  let spec := dc_Spec cr in
  if (length (cs_Services spec) =? 0)%nat then Return (Ok tt)
  else if String.eqb wsURL "" then Return (Ok tt)
  else
    let! m := DContainerInspect cli (cs_ContainerName spec) in
    match m with
    | Err err => if err_IsNotFound err then Return (Ok tt) else Return (Err err)
    | Ok mainContainer =>
        match cj_Networks mainContainer with
        | None => Panic "invalid memory address or nil pointer dereference"
        | Some networks =>
            bind! visited := range_map networks in
            let targetIP := match visited with (_, netConf) :: _ => es_IPAddress netConf | [] => "" end in
            if String.eqb targetIP "" then Return (Ok tt)
            else
              bind! img := operator_image "controller:latest" in
              let! p := DImagePull cli img "" in
              bind! _ := match p with Ok _ => call DDrain | Err _ => Return tt end in
              bind! gatewayHost := gateway_host (cs_NetworkMode spec) in
              bind! a := ensureTunnelAuthSecret cr in
              match a with
              | Err err => Return (Err err)
              | Ok authToken =>
                  let connectURL := clientConnectURL gatewayHost wsURL authToken in
                  range_err (imap pair (cs_Services spec)) tt (λ _ '(i, svc),
                    ensure_tunnel_client cli (tunnel_client_config img connectURL targetIP svc)
                      (tunnel_host_config (cs_NetworkMode spec))
                      (tunnel_name (cs_ContainerName spec) (Z.of_nat i)))
              end
        end
    end.

Definition server_containers (img authToken : string) : list PodContainer :=
  [{| pc_Name := "tunnel"; pc_Image := img; pc_ImagePullPolicy := "";
      pc_Command := ["/manager"; "tunnel"; "-mode"; "server"; "-listen-addr"; ":8080";
                     "-ws-addr"; ":8081"; "-auth-token"; authToken];
      pc_Args := []; pc_Ports := [8080; 8081]; pc_VolumeMounts := [] |}].
Definition service_ports (services : list ServicePort) : list CorePort :=
  {| cp_Name := "ws"; cp_Port := 8081; cp_TargetPort := 8081 |} ::
  imap (λ i sp, {| cp_Name := if String.eqb (sp_Name sp) "" then "traffic-" +:+ pretty (Z.of_nat i)
                              else sp_Name sp;
                   cp_Port := sp_Port sp; cp_TargetPort := 8080 |}) services.

(** The Deployment: created, or its containers brought up to date. *)
Definition apply_server_deployment (key : NamespacedName) (dep : AppsDeployment) : go (res unit) :=
  let! f := KGet KDeployment key in
  match f with
  | Err err =>
      if err_IsNotFound err then
        let! c := KCreate KDeployment dep in
        Return (match c with Ok _ => Ok tt | Err err => Err err end)
      else Return (Err err)
  | Ok foundDep =>
      let! u := KUpdate KDeployment
                  {| dep_Meta := dep_Meta foundDep; dep_Replicas := dep_Replicas foundDep;
                     dep_Selector := dep_Selector foundDep; dep_TemplateLabels := dep_TemplateLabels foundDep;
                     dep_Containers := dep_Containers dep; dep_Volumes := dep_Volumes foundDep |} in
      Return (match u with Ok _ => Ok tt | Err err => Err err end)
  end.

(** [reconcileTunnelServer] *)
Definition reconcileTunnelServer (cr : DockerContainer) : go (res string) :=
  let services := cs_Services (dc_Spec cr) in
  if (length services =? 0)%nat then Return (Ok "")
  else
    let name := "tunnel-" +:+ om_Name (dc_Meta cr) in
    let namespace := om_Namespace (dc_Meta cr) in
    let key := {| nn_Namespace := namespace; nn_Name := name |} in
    let labels : gmap string string := {["app" := name]} in
    bind! a := ensureTunnelAuthSecret cr in
    match a with
    | Err err => Return (Err (wrap_error "failed to ensure tunnel auth" err))
    | Ok authToken =>
        bind! img := operator_image "controller:latest" in
        match SetControllerReference KDockerContainer (dc_Meta cr) (new_meta name namespace ∅) with
        | Err err => Return (Err err)
        | Ok meta =>
            bind! d := apply_server_deployment key
              {| dep_Meta := meta; dep_Replicas := Some 1; dep_Selector := labels;
                 dep_TemplateLabels := labels; dep_Containers := server_containers img authToken;
                 dep_Volumes := [] |} in
            match d with
            | Err err => Return (Err err)
            | Ok _ =>
                match SetControllerReference KDockerContainer (dc_Meta cr) (new_meta name namespace ∅) with
                | Err err => Return (Err err)
                | Ok meta =>
                    let! s := KGet KService key in
                    match s with
                    | Err err =>
                        if err_IsNotFound err then
                          let! c := KCreate KService
                            {| svc_Meta := meta; svc_Selector := labels; svc_Type := "ClusterIP";
                               svc_Ports := service_ports services |} in
                          Return (match c with Ok _ => Ok "" | Err err => Err err end)
                        else Return (Err err)
                    | Ok foundSvc =>
                        Return (Ok ("ws://" +:+ om_Name (svc_Meta foundSvc) +:+ "."
                                    +:+ om_Namespace (svc_Meta foundSvc) +:+ ".svc:8081/ws"))
                    end
                end
            end
        end
    end.
End tunnel.

(** ** The log endpoint (logs.go) *)
(** What the handler writes: a status, and for a stream the chunks flushed. *)
Record http_response := { hr_Status : Z; hr_ContentType : string; hr_Writes : list string }.
Definition http_Error (code : Z) (msg : string) : http_response :=
  {| hr_Status := code; hr_ContentType := "text/plain; charset=utf-8";
     hr_Writes := [msg +:+ String (Char.of_code 10) ""] |}.

(** [getLogsClient] *)
Definition getLogsClient (r : Reconciler) : go (res client) :=
  match r_DockerClient r with
  | Some c => Return (Ok c)
  | None => let! n := DNewClient FromEnv in Return n
  end.

(** The read loop: every non-empty read is written (and flushed); an error, EOF
    included, ends it silently. *)
Definition copy_logs (reader : log_reader) : list string :=
  filter (λ chunk, chunk ≠ "") (fst reader).

(** [HandleLogs] on the query of the request. *)
Definition HandleLogs (r : Reconciler) (rawQuery : string) : go http_response :=
  let q := Url.Query rawQuery in
  let containerName := Url.Get q "name" in
  if String.eqb containerName "" then Return (http_Error 400 "missing 'name' query parameter")
  else
    let follow := String.eqb (Url.Get q "follow") "true" in
    let tail := if String.eqb (Url.Get q "tail") "" then "100" else Url.Get q "tail" in
    bind! c := getLogsClient r in
    match c with
    | Err err => Return (http_Error 500 ("failed to create docker client: " +:+ err_Error err))
    | Ok cli =>
        let! l := DContainerLogs cli containerName
                    {| lg_Follow := follow; lg_Tail := tail; lg_Timestamps := true |} in
        match l with
        | Err err =>
            if err_IsNotFound err then
              Return (http_Error 404 ("container '" +:+ containerName +:+ "' not found"))
            else Return (http_Error 500 ("failed to get logs: " +:+ err_Error err))
        | Ok reader =>
            Return {| hr_Status := 200; hr_ContentType := "text/plain; charset=utf-8";
                      hr_Writes := copy_logs reader |}
        end
    end.

(** [GetContainerLogs] *)
Definition GetContainerLogs (r : Reconciler) (containerName tail : string) : go (res string) :=
  bind! c := getLogsClient r in
  match c with
  | Err err => Return (Err err)
  | Ok cli =>
      let! l := DContainerLogs cli containerName
                  {| lg_Follow := false; lg_Tail := if String.eqb tail "" then "100" else tail;
                     lg_Timestamps := false |} in
      match l with
      | Err err => Return (Err err)
      | Ok (chunks, ended) =>
          match ended with
          | Some err => Return (Err err)
          | None => Return (Ok (String.concat "" chunks))
          end
      end
  end.
