(* ===== verification/HostController.v ===== *)
(** * The DockerHost controller (src/internal/controller/dockerhost/reconciler.go) *)
From S2P Require Import Prelude GoStd Effects Api World Common.
Local Open Scope Z_scope.

(** [pingDockerHost]: [None] is success.  The client is closed by the deferred
    [Close] once it has been built. *)
Definition pingDockerHost (host : DockerHost) : go (option go_error) :=
  bind! tls :=
    (if String.eqb (hs_TLSSecretName (dh_Spec host)) "" then Return (Ok None)
     else
       let! s := KGet KSecret {| nn_Namespace := om_Namespace (dh_Meta host);
                                 nn_Name := hs_TLSSecretName (dh_Spec host) |} in
       match s with
       | Err err => Return (Err (wrap_error "failed to get TLS Secret" err))
       | Ok secret =>
           bind! c := GetTLSConfig secret in
           match c with
           | Err err => Return (Err (wrap_error "failed to load TLS config" err))
           | Ok tlsConfig => Return (Ok (Some tlsConfig))
           end
       end) in
  match tls with
  | Err err => Return (Some err)
  | Ok tlsConfig =>
      let timeout := match tlsConfig with Some _ => 5 * Time.second | None => 0 end in
      let! n := DNewClient (WithHost (hs_HostURL (dh_Spec host)) tlsConfig timeout) in
      match n with
      | Err err => Return (Some err)
      | Ok cli =>
          let! p := DPing cli in
          do! DClose cli;
          Return (match p with Ok _ => None | Err err => Some err end)
      end
  end.

(** The phase and message for the outcome of a ping. *)
Definition verdict (ping : option go_error) : DockerHostStatus :=
  match ping with
  | None => {| hst_Phase := "Connected"; hst_Message := "Successfully connected to Docker Daemon" |}
  | Some err => {| hst_Phase := "Error"; hst_Message := err_Error err |}
  end.

(** [Reconcile] *)
Definition Reconcile (req : NamespacedName) : go reconcile_result :=
  let! g := KGet KDockerHost req in
  match g with
  | Err err => Return (if err_IsNotFound err then (no_requeue, None) else (no_requeue, Some err))
  | Ok host =>
      bind! ping := pingDockerHost host in
      let new := verdict ping in
      let requeue : reconcile_result := ({| RequeueAfter := 30 * Time.second |}, None) in
      if negb (String.eqb (hst_Phase (dh_Status host)) (hst_Phase new))
         || negb (String.eqb (hst_Message (dh_Status host)) (hst_Message new))
      then
        let! u := KStatusUpdate KDockerHost
                    {| dh_Meta := dh_Meta host; dh_Spec := dh_Spec host; dh_Status := new |} in
        match u with
        | Err err => Return (no_requeue, Some err)
        | Ok _ => Return requeue
        end
      else Return requeue
  end.
