(* ===== verification/DeploymentController.v ===== *)
(** * The DockerDeployment controller
      (src/internal/controller/dockerdeployment/controller.go) *)
From S2P Require Import Prelude GoStd Effects Api World.
Local Open Scope Z_scope.

(** [sort.Slice] by creation time.  It is not stable, so the order of containers of
    the same age is unspecified: an argument, of which only the documented
    behaviour is used. *)
Definition not_younger (c d : DockerContainer) : Prop :=
  om_CreationTimestamp (dc_Meta c) ≤ om_CreationTimestamp (dc_Meta d).
#[global] Instance not_younger_dec : RelDecision not_younger.
Proof. intros c d. unfold not_younger. apply _. Defined.
Class SortSlice := sort_Slice : list DockerContainer → list DockerContainer.
Class SortSliceLaws (S : SortSlice) : Prop := {
  sort_Slice_Permutation l : sort_Slice l ≡ₚ l;
  sort_Slice_Sorted l : StronglySorted not_younger (sort_Slice l)
}.

(** [letterRunes], [utilRandString] *)
Definition letterRunes : string := "abcdefghijklmnopqrstuvwxyz0123456789".
Fixpoint utilRandString (n : nat) : go string :=
  match n with
  | O => Return ""
  | S n =>
      let! i := RandIntn (Z.of_nat (String.length letterRunes)) in
      match Strings.chars letterRunes !! Z.to_nat i with
      | Some c => bind! rest := utilRandString n in Return (String c rest)
      | None => Panic "index out of range"
      end
  end.

Definition set_container_name (name : string) (s : DockerContainerSpec) : DockerContainerSpec :=
  {| cs_Image := cs_Image s; cs_ContainerName := name; cs_Ports := cs_Ports s;
     cs_Command := cs_Command s; cs_Env := cs_Env s; cs_RestartPolicy := cs_RestartPolicy s;
     cs_DockerHostRef := cs_DockerHostRef s; cs_ImagePullSecret := cs_ImagePullSecret s;
     cs_VolumeMounts := cs_VolumeMounts s; cs_Services := cs_Services s;
     cs_NetworkMode := cs_NetworkMode s; cs_EnvVars := cs_EnvVars s;
     cs_SecretVolumes := cs_SecretVolumes s; cs_HealthCheck := cs_HealthCheck s;
     cs_Resources := cs_Resources s |}.

Section deployment.
Context {T : ThirdParty} {S : SortSlice}.

(** [constructContainer] *)
Definition constructContainer (deploy : DockerDeployment) : go DockerContainer :=
  let template := ds_Template (dd_Spec deploy) in
  bind! suffix := utilRandString 5 in
  let name := om_Name (dd_Meta deploy) +:+ "-" +:+ suffix in
  let meta := new_meta name (om_Namespace (dd_Meta deploy)) (tm_Labels (tpl_Metadata template)) in
  Return {| dc_Meta := match SetControllerReference KDockerDeployment (dd_Meta deploy) meta with
                       | Ok meta' => meta'
                       | Err _ => meta
                       end;
            dc_Spec := set_container_name
              (if String.eqb (cs_ContainerName (tpl_Spec template)) "" then name
               else cs_ContainerName (tpl_Spec template) +:+ "-" +:+ suffix) (tpl_Spec template);
            dc_Status := {| cst_ID := ""; cst_State := ""; cst_Health := ""; cst_IPv4 := "" |} |}.

(** The scaling loops. *)
Definition scale_up (deploy : DockerDeployment) (diff : Z) : go (res unit) :=
  range_err (seqZ 0 diff) tt (λ _ _,
    bind! newContainer := constructContainer deploy in
    let! c := KCreate KDockerContainer newContainer in
    Return (match c with Ok _ => Ok tt | Err err => Err err end)).

Definition scale_down (ownedContainers : list DockerContainer) (removeCount : Z) : go (res unit) :=
  range_err (seqZ 0 removeCount) tt (λ _ i,
    let index := Z.of_nat (length ownedContainers) - 1 - i in
    match (if 0 <=? index then ownedContainers !! Z.to_nat index else None) with
    | None => Panic "index out of range"
    | Some victim => let! d := KDelete KDockerContainer victim in Return d
    end).

Definition desired_replicas (deploy : DockerDeployment) : Z :=
  match ds_Replicas (dd_Spec deploy) with Some n => n | None => 1 end.
Definition running (c : DockerContainer) : bool := String.eqb (cst_State (dc_Status c)) "running".
Definition available (ownedContainers : list DockerContainer) : Z :=
  foldl (λ n c, if running c then Int.int32 (n + 1) else n) 0 ownedContainers.

(** [Reconcile] *)
Definition Reconcile (req : NamespacedName) : go reconcile_result :=
  let failed (err : go_error) : reconcile_result := (no_requeue, Some err) in
  let! g := KGet KDockerDeployment req in
  match g with
  | Err err => Return (if err_IsNotFound err then (no_requeue, None) else failed err)
  | Ok deployment =>
      if negb (not_deleting (dd_Meta deployment)) then Return (no_requeue, None)
      else
        let replicas := desired_replicas deployment in
        let! l := KList KDockerContainer (InNamespace (om_Namespace (dd_Meta deployment))) in
        match l with
        | Err err => Return (failed err)
        | Ok children =>
            let ownedContainers :=
              sort_Slice (List.filter (λ child, IsControlledBy (dc_Meta child) (dd_Meta deployment)) children) in
            let currentCount := Int.int32 (Z.of_nat (length ownedContainers)) in
            let diff := Int.int32 (replicas - currentCount) in
            bind! scaled :=
              (if 0 <? diff then scale_up deployment diff
               else if diff <? 0 then scale_down ownedContainers (Int.int32 (- diff))
               else Return (Ok tt)) in
            match scaled with
            | Err err => Return (failed err)
            | Ok _ =>
                let n := available ownedContainers in
                let requeue : reconcile_result := ({| RequeueAfter := 10 * Time.second |}, None) in
                if negb (dst_AvailableReplicas (dd_Status deployment) =? n) then
                  let! u := KStatusUpdate KDockerDeployment
                    {| dd_Meta := dd_Meta deployment; dd_Spec := dd_Spec deployment;
                       dd_Status := {| dst_AvailableReplicas := n;
                                       dst_Conditions := dst_Conditions (dd_Status deployment) |} |} in
                  match u with
                  | Err err => Return (failed err)
                  | Ok _ => Return requeue
                  end
                else Return requeue
            end
        end
  end.
End deployment.
