(* ===== verification/ServiceController.v ===== *)
(** * The DockerService controller (src/internal/controller/dockerservice/reconciler.go)

    A tunnel server in the cluster (Service, auth Secret, targets ConfigMap,
    Deployment) and one tunnel client container on the Docker host of the first
    selected container. *)
From S2P Require Import Prelude GoStd Effects Api World Common ContainerTunnel.
Local Open Scope Z_scope.

Definition finalizerName : string := "dockerservice.kdop.io.vn/finalizer".

Definition set_meta (m : ObjectMeta) (ds : DockerService) : DockerService :=
  {| dsv_Meta := m; dsv_Spec := dsv_Spec ds; dsv_Status := dsv_Status ds |}.

Definition server_name (ds : DockerService) : string := "tunnel-" +:+ om_Name (dsv_Meta ds).
Definition client_name (ds : DockerService) : string := "tunnel-client-" +:+ om_Name (dsv_Meta ds).
(** [make([]byte, n)] *)
Definition zero_bytes (n : nat) : string := Strings.of_chars (repeat Ascii.zero n).
Definition operatorImage : string := "hvtung/k8s-docker-operator:latest".

(** ** Targets *)
(** The "IP:port" of every container that has an address; the port is that of the
    first service port, whose absence panics. *)
Fixpoint gather_targets (ports : list ServicePort) (containers : list DockerContainer) : go (list string) :=
  match containers with
  | [] => Return []
  | tc :: rest =>
      if negb (String.eqb (cst_IPv4 (dc_Status tc)) "") then
        match ports with
        | [] => Panic "index out of range [0] with length 0"
        | p :: _ =>
            bind! more := gather_targets ports rest in
            Return ((cst_IPv4 (dc_Status tc) +:+ ":" +:+ pretty (sp_TargetPort p)) :: more)
        end
      else gather_targets ports rest
  end.

(** [triggerTunnelReload] *)
Definition reload_url (ip targetsCSV : string) : string :=
  "http://" +:+ ip +:+ ":8081/reload?targets=" +:+ Url.QueryEscape targetsCSV.
Definition triggerTunnelReload (namespace appName targetsCSV : string) : go unit :=
  let! l := KList KPod (InNamespaceMatching namespace (MatchingLabels {["app" := appName]})) in
  match l with
  | Err _ => Return tt
  | Ok pods =>
      range_do pods tt (λ _ pod,
        if negb (String.eqb (pod_Phase pod) "Running") || String.eqb (pod_PodIP pod) "" then Return tt
        else do! GoHttpPost (reload_url (pod_PodIP pod) targetsCSV); Return tt)
  end.

Section service.
Context {T : ThirdParty}.

(** ** The tunnel server *)
(** [ensureTunnelAuthSecret]; a failing [rand.Read] is not looked at. *)
Definition ensureTunnelAuthSecret (ds : DockerService) : go (res string) :=
  let secretName := om_Name (dsv_Meta ds) +:+ "-tunnel-auth" in
  let namespace := om_Namespace (dsv_Meta ds) in
  let generate :=
    let! b := RandRead 16 in
    let token := Hex.EncodeToString (match b with Ok bytes => bytes | Err _ => zero_bytes 16 end) in
    match SetControllerReference KDockerService (dsv_Meta ds) (new_meta secretName namespace ∅) with
    | Err err => Return (Err err)
    | Ok meta =>
        let! c := KCreate KSecret {| sec_Meta := meta; sec_Data := {["token" := token]} |} in
        match c with
        | Err err => Return (Err err)
        | Ok _ => Return (Ok token)
        end
    end in
  let! g := KGet KSecret {| nn_Namespace := namespace; nn_Name := secretName |} in
  match g with
  | Ok secret =>
      match sec_Data secret !! "token" with
      | Some token => Return (Ok token)
      | None => generate
      end
  | Err err => if negb (err_IsNotFound err) then Return (Err err) else generate
  end.

Definition mutate_service (ds : DockerService) (svc : CoreService) : res CoreService :=
  match SetControllerReference KDockerService (dsv_Meta ds) (svc_Meta svc) with
  | Err err => Err err
  | Ok meta =>
      Ok {| svc_Meta := meta; svc_Selector := {["app" := server_name ds]}; svc_Type := svc_Type svc;
            svc_Ports := {| cp_Name := "ws"; cp_Port := 8081; cp_TargetPort := 8081 |} ::
              ((λ p, {| cp_Name := sp_Name p; cp_Port := sp_Port p; cp_TargetPort := sp_Port p |})
                 <$> ss_Ports (dsv_Spec ds)) |}
  end.
Definition mutate_targets (ds : DockerService) (targetsCSV : string) (cm : ConfigMap) : res ConfigMap :=
  match SetControllerReference KDockerService (dsv_Meta ds) (cm_Meta cm) with
  | Err err => Err err
  | Ok meta => Ok {| cm_Meta := meta; cm_Data := {["targets" := targetsCSV]} |}
  end.
Definition server_args (ds : DockerService) (authToken : string) : list string :=
  ["tunnel"; "-mode=server"; "-ws-addr=:8081"; "-auth-token=" +:+ authToken;
   "-targets-file=/etc/tunnel/targets"] ++
  ((λ p, "-listen-addr=:" +:+ pretty (sp_Port p)) <$> ss_Ports (dsv_Spec ds)).
Definition set_labels (labels : gmap string string) (m : ObjectMeta) : ObjectMeta :=
  {| om_Name := om_Name m; om_Namespace := om_Namespace m; om_UID := om_UID m; om_Labels := labels;
     om_Finalizers := om_Finalizers m; om_DeletionTimestamp := om_DeletionTimestamp m;
     om_CreationTimestamp := om_CreationTimestamp m; om_OwnerReferences := om_OwnerReferences m |}.
Definition mutate_deployment (ds : DockerService) (authToken img : string) (dep : AppsDeployment)
    : res AppsDeployment :=
  let name := server_name ds in
  let labels : gmap string string := {["app" := name]} in
  match SetControllerReference KDockerService (dsv_Meta ds) (set_labels labels (dep_Meta dep)) with
  | Err err => Err err
  | Ok meta =>
      Ok {| dep_Meta := meta; dep_Replicas := Some 1; dep_Selector := labels;
            dep_TemplateLabels := labels;
            dep_Containers :=
              [{| pc_Name := "server"; pc_Image := img; pc_ImagePullPolicy := "IfNotPresent";
                  pc_Command := []; pc_Args := server_args ds authToken; pc_Ports := [8081];
                  pc_VolumeMounts := [("targets", "/etc/tunnel")] |}];
            dep_Volumes := [{| pv_Name := "targets"; pv_ConfigMap := name +:+ "-targets";
                               pv_Items := [("targets", "targets")] |}] |}
  end.

(** [reconcileTunnelServer]; its [targetCount] argument is never read.  The
    environment is looked up just before the closure that reads it runs. *)
Definition reconcileTunnelServer (ds : DockerService) (targetIPs : list string) : go (res string) :=
  let name := server_name ds in
  let namespace := om_Namespace (dsv_Meta ds) in
  let! s := KCreateOrUpdate KService
    {| svc_Meta := new_meta name namespace {["app" := name]}; svc_Selector := ∅; svc_Type := "";
       svc_Ports := [] |} (mutate_service ds) in
  match s with
  | Err err => Return (Err err)
  | Ok _ =>
      bind! a := ensureTunnelAuthSecret ds in
      match a with
      | Err err => Return (Err err)
      | Ok authToken =>
          let targetsCSV := Strings.Join (Sort.Strings targetIPs) "," in
          let! c := KCreateOrUpdate KConfigMap
            {| cm_Meta := new_meta (name +:+ "-targets") namespace ∅; cm_Data := ∅ |}
            (mutate_targets ds targetsCSV) in
          match c with
          | Err err => Return (Err err)
          | Ok (opResult, _) =>
              bind! _ := match opResult with
                         | OperationResultUpdated => triggerTunnelReload namespace name targetsCSV
                         | _ => Return tt
                         end in
              bind! img := operator_image operatorImage in
              let! d := KCreateOrUpdate KDeployment
                {| dep_Meta := new_meta name namespace ∅; dep_Replicas := None; dep_Selector := ∅;
                   dep_TemplateLabels := ∅; dep_Containers := []; dep_Volumes := [] |}
                (mutate_deployment ds authToken img) in
              match d with
              | Err err => Return (Err err)
              | Ok _ => Return (Ok ("ws://" +:+ name +:+ "." +:+ namespace +:+ ".svc:" +:+ pretty 8081 +:+ "/ws"))
              end
          end
      end
  end.

(** ** The tunnel client *)
Definition tunnel_client_config (img connectURL authToken : string) : Config :=
  {| cfg_Image := img;
     cfg_Cmd := ["tunnel"; "-mode=client"; "-server-url=" +:+ connectURL; "-auth-token=" +:+ authToken];
     cfg_Env := []; cfg_Healthcheck := None; cfg_ExposedPorts := ∅ |}.
Definition tunnel_host_config (netMode : string) : HostConfig :=
  {| hcf_RestartPolicy := "always"; hcf_PortBindings := ∅; hcf_Binds := [];
     hcf_NetworkMode := if String.eqb netMode "host" then "host"
                        else if String.eqb netMode "kind" then "kind" else "";
     hcf_Resources := {| NanoCPUs := 0; Memory := 0 |} |}.

(** The image is pulled when the daemon does not have it; a failed pull is only logged. *)
Definition pull_if_missing (cli : client) (img : string) : go unit :=
  let! i := DImageInspect cli img in
  match i with
  | Ok _ => Return tt
  | Err _ =>
      let! p := DImagePull cli img "" in
      match p with Ok _ => do! DDrain; Return tt | Err _ => Return tt end
  end.

(** The status both successful exits write. *)
Definition set_active (ds : DockerService) (wsURL : string) : go (res unit) :=
  let! u := KStatusUpdate KDockerService
    {| dsv_Meta := dsv_Meta ds; dsv_Spec := dsv_Spec ds;
       dsv_Status := {| sst_Phase := "Active"; sst_TunnelClients := 1; sst_TunnelServerURL := wsURL;
                        sst_Message := sst_Message (dsv_Status ds) |} |} in
  Return (match u with Ok _ => Ok tt | Err err => Err err end).

(** From [// Create] on. *)
Definition create_tunnel_client (cli : client) (ds : DockerService)
    (img connectURL authToken targetNetworkID wsURL : string) : go (res unit) :=
  let! c := DContainerCreate cli (tunnel_client_config img connectURL authToken)
              (tunnel_host_config (ss_NetworkMode (dsv_Spec ds))) (client_name ds) in
  match c return go (res unit) with
  | Err err => Return (Err err)
  | Ok _ =>
      let! s := DContainerStart cli (client_name ds) in
      match s return go (res unit) with
      | Err err => Return (Err err)
      | Ok _ =>
          bind! _ :=
            (if negb (String.eqb targetNetworkID "") && negb (String.eqb targetNetworkID "host")
                && negb (String.eqb targetNetworkID "none")
             then do! DNetworkConnect cli targetNetworkID (client_name ds); Return tt
             else Return tt) in
          set_active ds wsURL
      end
  end.

(** [reconcileTunnelClient] *)
Definition reconcileTunnelClient (cli : client) (ds : DockerService)
    (representative : DockerContainer) (wsURL : string) : go (res unit) :=
  let nil_dereference := Panic "invalid memory address or nil pointer dereference" in
  let! m := DContainerInspect cli (cs_ContainerName (dc_Spec representative)) in
  match m return go (res unit) with
  | Err err => if err_IsNotFound err then Return (Ok tt) else Return (Err err)
  | Ok mainContainer =>
      match cj_Networks mainContainer with
      | None => nil_dereference
      | Some networks =>
          bind! visited := range_map networks in
          let targetNetworkID :=
            match visited with (_, netConf) :: _ => es_NetworkID netConf | [] => "" end in
          bind! gatewayHost := gateway_host (ss_NetworkMode (dsv_Spec ds)) in
          bind! a := ensureTunnelAuthSecret ds in
          match a with
          | Err err => Return (Err err)
          | Ok authToken =>
              bind! img := operator_image operatorImage in
              bind! _ := pull_if_missing cli img in
              let connectURL := clientConnectURL gatewayHost wsURL authToken in
              let create := create_tunnel_client cli ds img connectURL authToken targetNetworkID wsURL in
              let! e := DContainerInspect cli (client_name ds) in
              match e return go (res unit) with
              | Err err => if negb (err_IsNotFound err) then Return (Err err) else create
              | Ok existing =>
                  match cj_Config existing with
                  | None => nil_dereference
                  | Some config =>
                      if negb (String.eqb (cfg_Image config) img) then
                        let! rm := DContainerRemove cli (client_name ds) true in
                        match rm return go (res unit) with
                        | Err err => Return (Err err)
                        | Ok _ => create
                        end
                      else
                        match cj_State existing with
                        | None => nil_dereference
                        | Some state =>
                            bind! st :=
                              (if negb (st_Running state) then
                                 let! s := DContainerStart cli (client_name ds) in Return s
                               else Return (Ok tt)) in
                            match st with
                            | Err err => Return (Err err)
                            | Ok _ => set_active ds wsURL
                            end
                        end
                  end
              end
          end
      end
  end.

(** ** Deletion *)
(** The containers the service selects, as [deleteExternalResources] finds them:
    errors count as none. *)
Definition selected_or_none (ds : DockerService) : go (list DockerContainer) :=
  let namespace := om_Namespace (dsv_Meta ds) in
  match ss_Selector (dsv_Spec ds) with
  | Some labelSelector =>
      match LabelSelectorAsSelector labelSelector with
      | Err _ => Return []
      | Ok sel =>
          let! l := KList KDockerContainer (InNamespaceMatching namespace sel) in
          Return (match l with Ok items => items | Err _ => [] end)
      end
  | None =>
      if negb (String.eqb (ss_ContainerRef (dsv_Spec ds)) "") then
        let! g := KGet KDockerContainer
                    {| nn_Namespace := namespace; nn_Name := ss_ContainerRef (dsv_Spec ds) |} in
        Return (match g with Ok c => [c] | Err _ => [] end)
      else Return []
  end.

(** One container per Docker host, the last one seen. *)
Definition hosts_of (containers : list DockerContainer) : gmap string DockerContainer :=
  foldl (λ hosts tc, <[cs_DockerHostRef (dc_Spec tc) := tc]> hosts) ∅ containers.

Definition cleanup_host (ds : DockerService) (r : Reconciler) (tc : DockerContainer) : go Reconciler :=
  bind! '(r, c) := getDockerClient_service (om_Namespace (dc_Meta tc)) (cs_DockerHostRef (dc_Spec tc)) r in
  match c with
  | Err _ => Return r
  | Ok cli =>
      do! DContainerRemove cli (client_name ds) true;
      do! DContainerRemove cli (om_Name (dsv_Meta ds) +:+ "-tunnel") true;
      Return r
  end.

(** [deleteExternalResources]; it always returns nil. *)
Definition deleteExternalResources (ds : DockerService) (r : Reconciler) : go Reconciler :=
  bind! targetContainers := selected_or_none ds in
  bind! hosts := range_map (hosts_of targetContainers) in
  range_do hosts r (λ r '(_, tc), cleanup_host ds r tc).

(** ** [Reconcile] *)
(** The containers to serve; [inl] is an early return. *)
Definition find_targets (req : NamespacedName) (ds : DockerService)
    : go (reconcile_result + list DockerContainer) :=
  match ss_Selector (dsv_Spec ds) with
  | Some labelSelector =>
      match LabelSelectorAsSelector labelSelector with
      | Err err => Return (inl (no_requeue, Some err))
      | Ok sel =>
          let! l := KList KDockerContainer (InNamespaceMatching (nn_Namespace req) sel) in
          Return (match l with Ok items => inr items | Err err => inl (no_requeue, Some err) end)
      end
  | None =>
      if negb (String.eqb (ss_ContainerRef (dsv_Spec ds)) "") then
        let! g := KGet KDockerContainer
                    {| nn_Namespace := nn_Namespace req; nn_Name := ss_ContainerRef (dsv_Spec ds) |} in
        Return (match g with
                | Ok c => inr [c]
                | Err err => inl (if err_IsNotFound err then ({| RequeueAfter := 10 * Time.second |}, None)
                                  else (no_requeue, Some err))
                end)
      else Return (inl (no_requeue, None))
  end.

(** The part after the finalizer logic. *)
Definition sync (r : Reconciler) (ds : DockerService) (targetContainers : list DockerContainer)
    : go (Reconciler * reconcile_result) :=
  let requeue : reconcile_result := ({| RequeueAfter := 30 * Time.second |}, None) in
  bind! targetIPs := gather_targets (ss_Ports (dsv_Spec ds)) targetContainers in
  bind! w := reconcileTunnelServer ds targetIPs in
  match w with
  | Err err => Return (r, (no_requeue, Some err))
  | Ok wsURL =>
      match head targetContainers with
      | None => Return (r, requeue)
      | Some firstContainer =>
          bind! '(r, c) := getDockerClient_service (om_Namespace (dc_Meta firstContainer))
                             (cs_DockerHostRef (dc_Spec firstContainer)) r in
          match c with
          | Err err => Return (r, (no_requeue, Some err))
          | Ok cli => bind! _ := reconcileTunnelClient cli ds firstContainer wsURL in Return (r, requeue)
          end
      end
  end.

Definition Reconcile (req : NamespacedName) (r : Reconciler) : go (Reconciler * reconcile_result) :=
  let! g := KGet KDockerService req in
  match g with
  | Err err => Return (r, if err_IsNotFound err then (no_requeue, None) else (no_requeue, Some err))
  | Ok ds =>
      bind! t := find_targets req ds in
      match t with
      | inl early => Return (r, early)
      | inr targetContainers =>
          if not_deleting (dsv_Meta ds) then
            bind! u :=
              (if negb (ContainsFinalizer (dsv_Meta ds) finalizerName) then
                 let! u := KUpdate KDockerService (set_meta (AddFinalizer (dsv_Meta ds) finalizerName) ds) in
                 Return u
               else Return (Ok ds)) in
            match u with
            | Err err => Return (r, (no_requeue, Some err))
            | Ok ds => sync r ds targetContainers
            end
          else if ContainsFinalizer (dsv_Meta ds) finalizerName then
            bind! r := deleteExternalResources ds r in
            let! u := KUpdate KDockerService (set_meta (RemoveFinalizer (dsv_Meta ds) finalizerName) ds) in
            Return (r, (no_requeue, match u with Err err => Some err | Ok _ => None end))
          else Return (r, (no_requeue, None))
      end
  end.

(** ** [findDockerServicesForContainer] *)
Definition selects (container : DockerContainer) (ds : DockerService) : bool :=
  match ss_Selector (dsv_Spec ds) with
  | None => false
  | Some labelSelector =>
      match LabelSelectorAsSelector labelSelector with
      | Err _ => false
      | Ok sel => sel (om_Labels (dc_Meta container))
      end
  end.
Definition findDockerServicesForContainer (container : DockerContainer) : go (list NamespacedName) :=
  let! l := KList KDockerService (InNamespace (om_Namespace (dc_Meta container))) in
  match l with
  | Err _ => Return []
  | Ok services => Return ((λ ds, key_of (dsv_Meta ds)) <$> List.filter (selects container) services)
  end.
End service.
