(* ===== verification/MockDocker.v ===== *)
(** * The in-memory Docker daemon of the unit tests
      (src/internal/controller/common/mock_client.go)

    [MockDockerClient] keeps the containers and what it was last asked for; one function per
    method of the Docker client it implements, from the state to the answer and the next state.
    [docker_call] dispatches the calls of World.v to them: a method it leaves to the embedded nil
    [APIClient] panics, which is [None]. *)
From S2P Require Import Prelude GoStd Effects Api World.
Local Open Scope Z_scope.

(** [types.Container] with its optional [NetworkSettings]. *)
Record Container := { mc_Summary : ContainerSummary; mc_Networks : option (gmap string EndpointSettings) }.
Definition with_state (state : string) (c : Container) : Container :=
  {| mc_Summary := {| csm_ID := csm_ID (mc_Summary c); csm_Names := csm_Names (mc_Summary c);
                      csm_Image := csm_Image (mc_Summary c); csm_State := state |};
     mc_Networks := mc_Networks c |}.
Definition c_ID (c : Container) : string := csm_ID (mc_Summary c).
Definition c_Names (c : Container) : list string := csm_Names (mc_Summary c).
Definition c_State (c : Container) : string := csm_State (mc_Summary c).

Record MockDockerClient := {
  m_Containers : list Container;
  m_Created : list string;
  m_Removed : list string;
  m_Started : list string;
  m_LastHostConfig : option HostConfig;
  m_LastConfig : option Config;
  m_LastPullOptions : string;            (* RegistryAuth *)
  m_HealthStatus : string
}.
Definition set_containers (l : list Container) (m : MockDockerClient) : MockDockerClient :=
  {| m_Containers := l; m_Created := m_Created m; m_Removed := m_Removed m; m_Started := m_Started m;
     m_LastHostConfig := m_LastHostConfig m; m_LastConfig := m_LastConfig m;
     m_LastPullOptions := m_LastPullOptions m; m_HealthStatus := m_HealthStatus m |}.

(** ** The methods *)
Definition ContainerList (m : MockDockerClient) : res (list ContainerSummary) :=
  Ok (mc_Summary <$> m_Containers m).

(** Called by name: Docker names start with "/". *)
Definition called (id name : string) : bool := String.eqb name id || String.eqb name ("/" +:+ id).
Definition matches (id : string) (c : Container) : bool :=
  String.eqb (c_ID c) id || existsb (called id) (c_Names c).

(** What an inspection says of [c]: the configuration is the last one created, whichever
    container it was for. *)
Definition describe (m : MockDockerClient) (c : Container) : ContainerJSON :=
  let health := if negb (String.eqb (m_HealthStatus m) "") then Some (m_HealthStatus m) else None in
  let cfg := default {| cfg_Image := csm_Image (mc_Summary c); cfg_Cmd := []; cfg_Env := [];
                        cfg_Healthcheck := None; cfg_ExposedPorts := ∅ |} (m_LastConfig m) in
  let hostCfg := default {| hcf_RestartPolicy := ""; hcf_PortBindings := ∅; hcf_Binds := [];
                            hcf_NetworkMode := ""; hcf_Resources := {| NanoCPUs := 0; Memory := 0 |} |}
                   (m_LastHostConfig m) in
  {| cj_ID := c_ID c;
     cj_State := Some {| st_Status := c_State c; st_Running := String.eqb (c_State c) "running";
                         st_ExitCode := 0; st_Health := health |};
     cj_HostConfig := Some hostCfg; cj_Config := Some cfg;
     cj_Networks := Some (default ∅ (mc_Networks c)) |}.
(** [None]: [c.Names[0]] of a container without names panics. *)
Definition ContainerInspect (id : string) (m : MockDockerClient) : option (res ContainerJSON) :=
  match List.find (matches id) (m_Containers m) with
  | Some c => match c_Names c with [] => None | _ :: _ => Some (Ok (describe m c)) end
  | None => Some (Err (MkError "container not found" true))
  end.

Definition created_container (config : Config) (name : string) : Container :=
  {| mc_Summary := {| csm_ID := "mock-id-" +:+ name; csm_Names := ["/" +:+ name];
                      csm_Image := cfg_Image config; csm_State := "created" |};
     mc_Networks := None |}.
Definition ContainerCreate (config : Config) (hostConfig : HostConfig) (name : string) (m : MockDockerClient)
    : res string * MockDockerClient :=
  (Ok ("mock-id-" +:+ name),
   {| m_Containers := m_Containers m ++ [created_container config name];
      m_Created := m_Created m ++ [name]; m_Removed := m_Removed m; m_Started := m_Started m;
      m_LastHostConfig := Some hostConfig; m_LastConfig := Some config;
      m_LastPullOptions := m_LastPullOptions m; m_HealthStatus := m_HealthStatus m |}).

Definition start_matching (id : string) (c : Container) : Container :=
  if String.eqb (c_ID c) id then with_state "running" c else c.
Definition ContainerStart (id : string) (m : MockDockerClient) : res unit * MockDockerClient :=
  (Ok tt,
   {| m_Containers := start_matching id <$> m_Containers m;
      m_Created := m_Created m; m_Removed := m_Removed m; m_Started := m_Started m ++ [id];
      m_LastHostConfig := m_LastHostConfig m; m_LastConfig := m_LastConfig m;
      m_LastPullOptions := m_LastPullOptions m; m_HealthStatus := m_HealthStatus m |}).
Definition ContainerStop (m : MockDockerClient) : res unit * MockDockerClient := (Ok tt, m).

(** [for i, c := range l { if p(c) { l = append(l[:i], l[i+1:]...); break } }] *)
Fixpoint remove_where (p : Container → bool) (l : list Container) : list Container :=
  match l with
  | [] => []
  | c :: rest => if p c then rest else c :: remove_where p rest
  end.
Definition ContainerRemove (id : string) (m : MockDockerClient) : res unit * MockDockerClient :=
  let byID := remove_where (λ c, String.eqb (c_ID c) id) (m_Containers m) in
  let byName := remove_where (λ c, existsb (called id) (c_Names c)) byID in
  (Ok tt,
   {| m_Containers := byName;
      m_Created := m_Created m; m_Removed := m_Removed m ++ [id]; m_Started := m_Started m;
      m_LastHostConfig := m_LastHostConfig m; m_LastConfig := m_LastConfig m;
      m_LastPullOptions := m_LastPullOptions m; m_HealthStatus := m_HealthStatus m |}).

Definition ImagePull (registryAuth : string) (m : MockDockerClient) : res unit * MockDockerClient :=
  (Ok tt,
   {| m_Containers := m_Containers m; m_Created := m_Created m; m_Removed := m_Removed m;
      m_Started := m_Started m; m_LastHostConfig := m_LastHostConfig m; m_LastConfig := m_LastConfig m;
      m_LastPullOptions := registryAuth; m_HealthStatus := m_HealthStatus m |}).
Definition Ping (m : MockDockerClient) : res unit := Ok tt.
Definition ImageInspectWithRaw (m : MockDockerClient) : res unit := Ok tt.
Definition Close (m : MockDockerClient) : unit := tt.

(** ** Dispatch *)
Definition docker_call (o : op) (m : MockDockerClient) : option (ans o * MockDockerClient) :=
  match o return option (ans o * MockDockerClient) with
  | DContainerList _ => Some (ContainerList m, m)
  | DContainerInspect _ id => (., m) <$> ContainerInspect id m
  | DContainerCreate _ config hostConfig name => Some (ContainerCreate config hostConfig name m)
  | DContainerStart _ id => Some (ContainerStart id m)
  | DContainerStop _ _ _ => Some (ContainerStop m)
  | DContainerRemove _ id _ => Some (ContainerRemove id m)
  | DImagePull _ _ auth => Some (ImagePull auth m)
  | DPing _ => Some (Ping m, m)
  | DImageInspect _ _ => Some (ImageInspectWithRaw m, m)
  | DClose _ => Some (Close m, m)
  | _ => None
  end.

(** ** What the methods do to a list with one match *)
(** [t] is the only container of the list that satisfies [p]. *)
Definition none_of (p : Container → bool) (l : list Container) : Prop := Forall (λ c, p c = false) l.

Lemma find_split p (l : list Container) t :
  List.find p l = Some t → ∃ pre post, l = pre ++ t :: post ∧ none_of p pre ∧ p t = true.
Proof.
  induction l as [|c l IH]; simpl; [done|]. destruct (p c) eqn:Hc.
  - intros [= ->]. exists [], l. by split_and!; [|constructor|].
  - intros (pre & post & -> & Hpre & Ht)%IH. exists (c :: pre), post. by split_and!; [|constructor|].
Qed.
Lemma find_here p pre t post : none_of p pre → p t = true → List.find p (pre ++ t :: post) = Some t.
Proof. intros Hpre Ht. induction Hpre as [|c pre Hc _ IH]; simpl; [by rewrite Ht|by rewrite Hc]. Qed.
Lemma find_none p (l : list Container) : List.find p l = None ↔ none_of p l.
Proof.
  induction l as [|c l IH]; simpl; [by split; [constructor|]|].
  destruct (p c) eqn:Hc; split; intros H; [done|inversion H; congruence|constructor; tauto|].
  apply IH. by inversion H.
Qed.
Lemma remove_none p (l : list Container) : none_of p l → remove_where p l = l.
Proof. induction 1 as [|c l Hc _ IH]; simpl; [done|]. by rewrite Hc, IH. Qed.
Lemma remove_here p pre t post : none_of p pre → p t = true → remove_where p (pre ++ t :: post) = pre ++ post.
Proof. intros Hpre Ht. induction Hpre as [|c pre Hc _ IH]; simpl; [by rewrite Ht|by rewrite Hc, IH]. Qed.
Lemma none_app p l1 l2 : none_of p (l1 ++ l2) ↔ none_of p l1 ∧ none_of p l2.
Proof. apply Forall_app. Qed.
Lemma none_weaken (p q : Container → bool) l : (∀ c, q c = true → p c = true) → none_of p l → none_of q l.
Proof.
  intros Hpq Hl. eapply Forall_impl; [exact Hl|]. intros c Hc. simpl in *. destruct (q c) eqn:E; [|done]. apply Hpq in E. congruence.
Qed.
Lemma matches_ID id c : String.eqb (c_ID c) id = true → matches id c = true.
Proof. intros H. unfold matches. by rewrite H. Qed.
Lemma matches_name id c : existsb (called id) (c_Names c) = true → matches id c = true.
Proof. intros H. unfold matches. by rewrite H, orb_true_r. Qed.
Lemma start_none id l : none_of (matches id) l → start_matching id <$> l = l.
Proof.
  induction 1 as [|c l Hc _ IH]; [done|]. rewrite fmap_cons, IH. f_equal. unfold start_matching.
  destruct (String.eqb (c_ID c) id) eqn:E; [|done]. apply matches_ID in E. congruence.
Qed.
Lemma start_here id pre t post :
  none_of (matches id) pre → none_of (matches id) post → c_ID t = id →
  start_matching id <$> (pre ++ t :: post) = pre ++ with_state "running" t :: post.
Proof.
  intros Hpre Hpost <-. rewrite fmap_app, fmap_cons, !start_none by done. unfold start_matching.
  by rewrite String.eqb_refl.
Qed.
Lemma remove_id id pre t post m :
  m_Containers m = pre ++ t :: post → none_of (matches id) pre → none_of (matches id) post → c_ID t = id →
  m_Containers (ContainerRemove id m).2 = pre ++ post.
Proof.
  intros Hm Hpre Hpost <-. unfold ContainerRemove. simpl. rewrite Hm.
  rewrite remove_here; [|by eapply none_weaken; [apply matches_ID|]|apply String.eqb_refl].
  apply remove_none. apply none_app. split; by eapply none_weaken; [apply matches_name|].
Qed.
