(* ===== verification/CommonTheorems.v ===== *)
(** * Properties of what the controllers share

    For the functions of Common.v: which calls the resolution of a Docker client makes, that the
    client is opened as the DockerHost says and cached, and what the upload of a secret copies. *)
From S2P Require Import Prelude GoStd Effects Api World Common Lifecycle.
Local Open Scope Z_scope.

(** ** Which calls the resolution of a client makes *)
(** Secrets are read in the object's own namespace, DockerHosts there or in "system". *)
Definition scoped (namespace : string) (o : op) : Prop :=
  match o with
  | KGet KSecret key => nn_Namespace key = namespace
  | KGet KDockerHost key => nn_Namespace key = namespace ∨ nn_Namespace key = "system"
  | DNewClient _ | DClose _ | TimeNow | AppendCertsFromPEM _ | X509KeyPair _ _ => True
  | _ => False
  end.

Lemma scoped_GetTLSConfig ns secret : calls (scoped ns) (GetTLSConfig secret).
Proof.
  unfold GetTLSConfig. repeat (case_match; simpl; try done).
  split; [done|]. intros []; simpl; [|done]. split; [done|]. by intros [].
Qed.
Lemma scoped_connect wrap key ns r host : calls (scoped ns) (connect wrap key ns r host).
Proof.
  apply calls_bind.
  - case_match; [done|]. split; [done|]. intros [s|e]; [|done].
    apply calls_bind; [apply scoped_GetTLSConfig|]. by intros [].
  - intros [tls|e]; [|done]. split; [done|]. intros [c|e]; [|done]. by split.
Qed.
Lemma scoped_find_host wrap key ns name r : calls (scoped ns) (find_host wrap key ns name r).
Proof.
  split; [by left|]. intros [h|e]; [apply scoped_connect|].
  destruct (err_IsNotFound e); [|done]. apply calls_bind.
  - case_match; [done|]. split; [by right|]. by intros [].
  - intros [h|]; [apply scoped_connect|]. case_match; [|done]. by case_match.
Qed.
Lemma scoped_resolve wrap key ns name r : calls (scoped ns) (resolve wrap key ns name r).
Proof.
  unfold resolve. case_match; [|apply scoped_find_host].
  split; [done|]. intros now. case_match; [done|]. split; [done|]. intros _. apply scoped_find_host.
Qed.
Lemma getDockerClient_miss ns ref r :
  r_dockerClients r !! (ns +:+ "/" +:+ host_name ref) = None →
  getDockerClient ns ref r = find_host wrap_error (ns +:+ "/" +:+ host_name ref) ns (host_name ref) r.
Proof. intros Hr. unfold getDockerClient, resolve. cbn zeta. by rewrite Hr. Qed.
Lemma scoped_getDockerClient ns ref r : calls (scoped ns) (getDockerClient ns ref r).
Proof. apply scoped_resolve. Qed.
#[export] Hint Resolve scoped_resolve scoped_getDockerClient : go.

(** ** What a client is built from *)
(** [GetTLSConfig] on a secret: the calls it makes and what it returns. *)
Definition loads (secret : Secret) (tr : go_trace) (c : res TLSConfig) : Prop :=
  match sec_Data secret !! "ca.pem", sec_Data secret !! "cert.pem", sec_Data secret !! "key.pem" with
  | None, _, _ => tr = [] ∧ c = Err (new_error "secret missing 'ca.pem'")
  | Some _, None, _ => tr = [] ∧ c = Err (new_error "secret missing 'cert.pem'")
  | Some _, Some _, None => tr = [] ∧ c = Err (new_error "secret missing 'key.pem'")
  | Some ca, Some cert, Some key =>
      (tr = [Ev (AppendCertsFromPEM ca) false] ∧ c = Err (new_error "failed to append CA certificate")) ∨
      ∃ pair, tr = [Ev (AppendCertsFromPEM ca) true; Ev (X509KeyPair cert key) pair] ∧
        c = match pair with
            | Ok _ => Ok {| tls_RootCAs := ca; tls_Cert := cert; tls_Key := key |}
            | Err e => Err e
            end
  end.
Lemma GetTLSConfig_wp secret :
  wp anything (GetTLSConfig secret) (λ tr o, ∃ c, o = Returned c ∧ loads secret tr c).
Proof.
  unfold GetTLSConfig, loads. repeat (case_match; simpl; try by eauto).
  intros [] _; simpl; [|by eauto 10]. intros pair _. destruct pair as [[]|e]; simpl; eexists; (split; [done|]); right; by eexists.
Qed.

(** The secret a TLS configuration was taken from. *)
Definition tls_from (secret : Secret) (c : TLSConfig) : Prop :=
  sec_Data secret !! "ca.pem" = Some (tls_RootCAs c) ∧
  sec_Data secret !! "cert.pem" = Some (tls_Cert c) ∧
  sec_Data secret !! "key.pem" = Some (tls_Key c).
Lemma loads_from secret tr c : loads secret tr (Ok c) → tls_from secret c.
Proof.
  unfold loads, tls_from. destruct (_ !! "ca.pem"), (_ !! "cert.pem"), (_ !! "key.pem"); try naive_solver.
  intros [[_ ?]|([[]|] & _ & ?)]; by simplify_eq.
Qed.

(** The TLS configuration for a host that names the secret [name] (or none): read from the
    namespace [ns], with the errors wrapped. *)
Definition tls_setup (wrap_get wrap_load : go_error → go_error) (ns name : string) (tr : go_trace)
    (tls : res (option TLSConfig)) : Prop :=
  if decide (name = "") then tr = [] ∧ tls = Ok None
  else ∃ s tr', tr = Ev (KGet KSecret {| nn_Namespace := ns; nn_Name := name |}) s :: tr' ∧
    match s with
    | Err e => tr' = [] ∧ tls = Err (wrap_get e)
    | Ok secret => ∃ c, loads secret tr' c ∧
        tls = match c with Ok c => Ok (Some c) | Err e => Err (wrap_load e) end
    end.
Lemma tls_setup_wp wrap_get wrap_load ns name :
  wp anything
    (if String.eqb name "" then Return (Ok None)
     else
       let! s := KGet KSecret {| nn_Namespace := ns; nn_Name := name |} in
       match s with
       | Err err => Return (Err (wrap_get err))
       | Ok secret =>
           bind! c := GetTLSConfig secret in
           match c with
           | Err err => Return (Err (wrap_load err))
           | Ok tlsConfig => Return (Ok (Some tlsConfig))
           end
       end) (λ tr o, ∃ tls, o = Returned tls ∧ tls_setup wrap_get wrap_load ns name tr tls).
Proof.
  unfold tls_setup. destruct (String.eqb_spec name "") as [->|Hne].
  { exists (Ok None). by rewrite decide_True. }
  intros s _. destruct s as [secret|e].
  2: { eexists. split; [done|]. rewrite decide_False by done. by eexists (Err e), []. }
  apply wp_bind. eapply wp_mono; [|apply GetTLSConfig_wp]. intros tr o (c & -> & Hc).
  destruct c as [c|e]; simpl; rewrite app_nil_r; eexists; (split; [done|]); rewrite decide_False by done;
    eexists (Ok secret), tr; (split; [done|]); by eexists.
Qed.

(** The clients a trace tries to open. *)
Definition opening (e : go_event) : option client_opts := match ev_op e with DNewClient opts => Some opts | _ => None end.
Definition opens (tr : go_trace) : list client_opts := omap opening tr.
Lemma opens_app tr1 tr2 : opens (tr1 ++ tr2) = opens tr1 ++ opens tr2.
Proof. apply omap_app. Qed.
(** TLS exactly when the host names a secret, and then from that secret, as it was read. *)
Definition tls_as_configured (ns : string) (host : DockerHost) (tr : go_trace) (tls : option TLSConfig) : Prop :=
  match tls with
  | None => hs_TLSSecretName (dh_Spec host) = ""
  | Some c => hs_TLSSecretName (dh_Spec host) ≠ "" ∧ ∃ secret,
      Ev (KGet KSecret {| nn_Namespace := ns; nn_Name := hs_TLSSecretName (dh_Spec host) |}) (Ok secret) ∈ tr ∧
      tls_from secret c
  end.
Lemma tls_as_configured_mono ns host tr tr' tls :
  tr ⊆ tr' → tls_as_configured ns host tr tls → tls_as_configured ns host tr' tls.
Proof. intros Hsub. destruct tls as [c|]; [|done]. intros (? & secret & ? & ?). split; [done|]. exists secret. auto. Qed.

Lemma loads_opens secret tr c : loads secret tr c → opens tr = [].
Proof. unfold loads. repeat case_match; naive_solver. Qed.
Lemma tls_setup_opens wg wl ns name tr tls : tls_setup wg wl ns name tr tls → opens tr = [].
Proof.
  unfold tls_setup. case_decide; [by intros [-> _]|]. intros (s & tr' & -> & Hs). simpl.
  destruct s as [secret|e]; [|by destruct Hs as [-> _]]. destruct Hs as (c & Hc & _). by eapply loads_opens.
Qed.
Lemma tls_setup_configured wg wl ns host tr tls :
  tls_setup wg wl ns (hs_TLSSecretName (dh_Spec host)) tr (Ok tls) → tls_as_configured ns host tr tls.
Proof.
  unfold tls_setup. case_decide as Hn; [by intros [-> [= ->]]|]. intros (s & tr' & -> & Hs).
  destruct s as [secret|e]; [|by destruct Hs as [_ ?]]. destruct Hs as (c & Hc & Htls).
  destruct c as [c|e]; [|done]. injection Htls as ->. split; [done|]. exists secret.
  split; [by left|]. by eapply loads_from.
Qed.

(** What the connection to a DockerHost that was found does: at most one client is opened, for the
    URL of the host. *)
Definition connected (key ns : string) (r : Reconciler) (host : DockerHost)
    (tr : go_trace) (o : outcome (Reconciler * res client)) : Prop :=
  (opens tr = [] ∨ ∃ tls, opens tr = [WithHost (hs_HostURL (dh_Spec host)) tls 0] ∧ tls_as_configured ns host tr tls) ∧
  match o with
  | Returned (r', Ok c) => ∃ opts now,
      Ev (DNewClient opts) (Ok c) ∈ tr ∧ Ev TimeNow now ∈ tr ∧
      r' = set_clients (<[key := {| cc_client := c; cc_createdAt := now |}]> (r_dockerClients r)) r
  | Returned (r', Err _) => r' = r
  | Panicked _ => False
  end.

Lemma connect_wp wrap key ns r host : wp anything (connect wrap key ns r host) (connected key ns r host).
Proof.
  unfold connect. apply wp_bind. eapply wp_mono; [|apply (tls_setup_wp (wrap _) (wrap _))].
  intros tr o (tls & -> & Htls). cbn [and_then]. pose proof (tls_setup_opens _ _ _ _ _ _ Htls) as Hop.
  destruct tls as [tls|e]; [|split; [left; by rewrite app_nil_r|done]]. apply tls_setup_configured in Htls.
  intros n _. destruct n as [c|e]; simpl; [intros now _|]; (split; [right; exists tls; split|]).
  - by rewrite opens_app, Hop.
  - eapply tls_as_configured_mono; [|exact Htls]. set_solver.
  - eexists _, now. split; [|split; [|done]]; rewrite elem_of_app; right; repeat constructor.
  - by rewrite opens_app, Hop.
  - eapply tls_as_configured_mono; [|exact Htls]. set_solver.
  - done.
Qed.

(** ** Which host a client may be opened for *)
Abbreviation host_key ns name := {| nn_Namespace := ns; nn_Name := name |}.
Section lookup.
Context (ns name : string).
(** The host of that name was not found in the namespace; it was found there, or in "system" because
    it is missing in the namespace; it was found in neither. *)
Definition missing_host (tr : go_trace) : Prop :=
  ∃ e, Ev (KGet KDockerHost (host_key ns name)) (Err e) ∈ tr ∧ err_IsNotFound e = true.
Definition found_host (host : DockerHost) (tr : go_trace) : Prop :=
  Ev (KGet KDockerHost (host_key ns name)) (Ok host) ∈ tr ∨
  (ns ≠ "system" ∧ missing_host tr ∧ Ev (KGet KDockerHost (host_key "system" name)) (Ok host) ∈ tr).
Definition no_host (tr : go_trace) : Prop :=
  missing_host tr ∧ (ns = "system" ∨ ∃ e, Ev (KGet KDockerHost (host_key "system" name)) (Err e) ∈ tr).

(** The client handed out is the injected one only for the name "default", when no host has it. *)
Definition as_configured (injected : option client) (tr : go_trace) : Prop :=
  opens tr = [] ∨
  (∃ host tls, opens tr = [WithHost (hs_HostURL (dh_Spec host)) tls 0] ∧
     found_host host tr ∧ tls_as_configured ns host tr tls) ∨
  (opens tr = [FromEnv] ∧ name = "default" ∧ injected = None ∧ no_host tr).

Lemma missing_host_mono tr tr' : tr ⊆ tr' → missing_host tr → missing_host tr'.
Proof. intros Hsub (e & ? & ?). exists e. auto. Qed.
Lemma found_host_mono host tr tr' : tr ⊆ tr' → found_host host tr → found_host host tr'.
Proof. intros Hsub [?|(? & ? & ?)]; [left|right]; eauto using missing_host_mono. Qed.
Lemma no_host_mono tr tr' : tr ⊆ tr' → no_host tr → no_host tr'.
Proof. intros Hsub [? [?|[e ?]]]; split; eauto using missing_host_mono. Qed.
Lemma as_configured_app injected pre tr :
  opens pre = [] → as_configured injected tr → as_configured injected (pre ++ tr).
Proof.
  intros Hpre Hcfg. unfold as_configured. rewrite opens_app, Hpre. simpl.
  assert (tr ⊆ pre ++ tr) by set_solver.
  destruct Hcfg as [?|[(host & tls & ? & ? & ?)|(? & ? & ? & ?)]]; [by left| |].
  - right. left. exists host, tls. eauto using found_host_mono, tls_as_configured_mono.
  - right. right. eauto using no_host_mono.
Qed.
End lookup.

(** Where the client handed out comes from: opened for a DockerHost and stored under
    [key], or the local daemon (injected, or opened from the environment), which is used only for
    the name "default" when no DockerHost has it. *)
Definition provided (ns name key : string) (r : Reconciler) (tr : go_trace)
    (o : outcome (Reconciler * res client)) : Prop :=
  match o with
  | Returned (r', Ok c) =>
      (∃ opts now, Ev (DNewClient opts) (Ok c) ∈ tr ∧ Ev TimeNow now ∈ tr ∧
         r' = set_clients (<[key := {| cc_client := c; cc_createdAt := now |}]> (r_dockerClients r)) r) ∨
      (r' = r ∧ name = "default" ∧ no_host ns name tr ∧
       (r_DockerClient r = Some c ∨ Ev (DNewClient FromEnv) (Ok c) ∈ tr))
  | Returned (r', Err _) => r' = r
  | Panicked _ => False
  end.
Lemma provided_app ns name key r pre tr o : provided ns name key r tr o → provided ns name key r (pre ++ tr) o.
Proof.
  assert (tr ⊆ pre ++ tr) by set_solver. destruct o as [[r' [c|e]]|w]; simpl; [|done..].
  intros [(opts & now & H1 & H2 & ->)|(-> & -> & Hno & Hc)]; [left; exists opts, now; auto|right].
  split_and!; [done|done|by eapply no_host_mono|]. destruct Hc; auto.
Qed.

Lemma connected_prefix key ns name r host tr o pre :
  connected key ns r host tr o → opens pre = [] → found_host ns name host pre →
  as_configured ns name (r_DockerClient r) (pre ++ tr) ∧ provided ns name key r (pre ++ tr) o.
Proof.
  intros [Hcfg Ho] Hpre Hfound. split.
  - unfold as_configured. rewrite opens_app, Hpre. simpl. destruct Hcfg as [?|(tls & ? & ?)]; [by left|].
    right. left. exists host, tls. split; [done|]. split.
    + eapply found_host_mono; [|exact Hfound]. set_solver.
    + eapply tls_as_configured_mono; [|done]. set_solver.
  - apply provided_app. destruct o as [[r' [c|e]]|w]; [left|done..]. exact Ho.
Qed.

(** The fall-back, once neither lookup found the host. *)
Lemma fallback_wp ns name key r (err : go_error) pre :
  no_host ns name pre → opens pre = [] →
  wp anything
    (if String.eqb name "default" then
       match r_DockerClient r with
       | Some c => Return (r, Ok c)
       | None => let! n := DNewClient FromEnv in Return (r, n)
       end
     else Return (r, Err err)) (λ tr o,
    as_configured ns name (r_DockerClient r) (pre ++ tr) ∧ provided ns name key r (pre ++ tr) o).
Proof.
  intros Hno Hpre. destruct (String.eqb_spec name "default") as [->|Hne].
  2: { split; [left; by rewrite app_nil_r|done]. }
  destruct (r_DockerClient r) as [c|] eqn:Hr.
  - split; [left; by rewrite app_nil_r|]. right. rewrite app_nil_r. split_and!; [done..|by left].
  - intros n _. assert (no_host ns "default" (pre ++ [Ev (DNewClient FromEnv) n])) as Hno'.
    { eapply no_host_mono; [|exact Hno]. set_solver. }
    split; [right; right; by rewrite opens_app, Hpre|].
    destruct n as [c|e]; [|done]. right. split_and!; [done..|]. right. set_solver.
Qed.

Lemma find_host_wp wrap key ns name r :
  wp anything (find_host wrap key ns name r) (λ tr o,
    as_configured ns name (r_DockerClient r) tr ∧ provided ns name key r tr o).
Proof.
  intros [host|e] _.
  { eapply wp_mono; [|apply connect_wp]. intros tr o Hc.
    apply (connected_prefix _ _ _ _ host _ _ [_]); [done..|]. left. by left. }
  destruct (err_IsNotFound e) eqn:He; [|by split; [left|]].
  assert (∀ tr, missing_host ns name (Ev (KGet KDockerHost (host_key ns name)) (Err e) :: tr)) as Hmissing.
  { intros tr. exists e. split; [by left|done]. }
  destruct (String.eqb_spec ns "system") as [Hs|Hs].
  - apply (fallback_wp ns name key r _ [Ev (KGet KDockerHost (host_key ns name)) (Err e)]); [|done].
    split; [apply Hmissing|by left].
  - intros [host|e2] _.
    { eapply wp_mono; [|apply connect_wp]. intros tr o Hc.
      apply (connected_prefix _ _ _ _ host _ _ [_; _]); [done..|]. right. split_and!; [done|apply Hmissing|set_solver]. }
    apply (fallback_wp ns name key r _ [Ev (KGet KDockerHost (host_key ns name)) (Err e);
                                        Ev (KGet KDockerHost (host_key "system" name)) (Err e2)]); [|done].
    split; [apply Hmissing|]. right. exists e2. set_solver.
Qed.

(** Expired entries are closed and dropped before the host is looked up again. *)
Definition evict (key : string) (r : Reconciler) : Reconciler :=
  set_clients (delete key (r_dockerClients r)) r.
Definition cache_hit (key : string) (r : Reconciler) (tr : go_trace) (o : outcome (Reconciler * res client)) : Prop :=
  ∃ cc now, r_dockerClients r !! key = Some cc ∧ Time.Sub now (cc_createdAt cc) < cache_ttl ∧
            tr = [Ev TimeNow now] ∧ o = Returned (r, Ok (cc_client cc)).
Definition cache_miss (ns name store_key : string) (r : Reconciler) (tr : go_trace)
    (o : outcome (Reconciler * res client)) : Prop :=
  let key := ns +:+ "/" +:+ name in
  (r_dockerClients r !! key = None ∧ provided ns name store_key r tr o) ∨
  (∃ cc now, r_dockerClients r !! key = Some cc ∧ cache_ttl ≤ Time.Sub now (cc_createdAt cc) ∧
     Ev (DClose (cc_client cc)) tt ∈ tr ∧ provided ns name store_key (evict key r) tr o).

Lemma resolve_wp wrap store_key ns name r :
  wp anything (resolve wrap store_key ns name r) (λ tr o, as_configured ns name (r_DockerClient r) tr ∧
    (cache_hit (ns +:+ "/" +:+ name) r tr o ∨ cache_miss ns name store_key r tr o)).
Proof.
  unfold resolve. destruct (r_dockerClients r !! (ns +:+ "/" +:+ name)) as [cc|] eqn:Hr.
  - intros now _. destruct (Z.ltb_spec (Time.Sub now (cc_createdAt cc)) cache_ttl).
    + split; [by left|]. left. by exists cc, now.
    + intros [] _. eapply wp_mono; [|apply find_host_wp]. intros tr o [Hcfg Hp]. split.
      * by apply (as_configured_app _ _ _ [_; _]).
      * right. right. exists cc, now. split_and!; [done|lia|by right; left|].
        by apply (provided_app _ _ _ _ [_; _]).
  - eapply wp_mono; [|apply find_host_wp]. intros tr o [Hcfg Hp]. split; [done|]. right. by left.
Qed.

(** ** Properties *)


(** Answers of a clock that has not yet left the lifetime of a client. *)
Definition within_ttl (created : Z) (o : op) : ans o → Prop :=
  match o with TimeNow => λ now, Time.Sub now created < cache_ttl | _ => λ _, True end.

Lemma hit_again ns name wrap store_key r cc :
  r_dockerClients r !! (ns +:+ "/" +:+ name) = Some cc →
  wp (within_ttl (cc_createdAt cc)) (resolve wrap store_key ns name r)
    (λ tr o, o = Returned (r, Ok (cc_client cc)) ∧ ∃ now, tr = [Ev TimeNow now]).
Proof.
  intros Hr. unfold resolve. rewrite Hr. intros now Hnow. simpl in Hnow.
  destruct (Z.ltb_spec (Time.Sub now (cc_createdAt cc)) cache_ttl); [|lia]. simpl. eauto.
Qed.

(** C34. The client cache of the container and job controllers works: when
    getDockerClient hands out a client opened for a DockerHost, that client is cached
    under the key that is looked up, the other entries are unchanged, and a second
    call within five minutes of the client's creation returns the same client having
    called nothing but the clock.  An entry older than that is closed before it is
    replaced. *)
Theorem client_cached ns ref r :
  let key := ns +:+ "/" +:+ host_name ref in
  wp anything (getDockerClient ns ref r) (λ tr o, ∀ r' c, o = Returned (r', Ok c) →
    (∀ k, k ≠ key → r_dockerClients r' !! k = r_dockerClients r !! k) ∧
    (∀ cc, r_dockerClients r !! key = Some cc → r_dockerClients r' !! key ≠ Some cc →
       Ev (DClose (cc_client cc)) tt ∈ tr) ∧
    match r_dockerClients r' !! key with
    | Some cc => cc_client cc = c ∧
        wp (within_ttl (cc_createdAt cc)) (getDockerClient ns ref r')
          (λ tr o, o = Returned (r', Ok c) ∧ ∃ now, tr = [Ev TimeNow now])
    | None => r_DockerClient r = Some c ∨ Ev (DNewClient FromEnv) (Ok c) ∈ tr
    end).
Proof.
  intros key. eapply wp_mono; [|apply (resolve_wp _ _ ns (host_name ref) r)]. 
  intros tr o [_ Hres] r' c ->. unfold cache_miss in Hres. cbv zeta in Hres. fold key in Hres.
  assert (∀ cc, r_dockerClients r' !! key = Some cc → cc_client cc = c → cc_client cc = c ∧
    wp (within_ttl (cc_createdAt cc)) (getDockerClient ns ref r')
       (λ tr o, o = Returned (r', Ok c) ∧ ∃ now, tr = [Ev TimeNow now])) as Hagain.
  { intros cc Hcc <-. split; [done|]. by apply hit_again. }
  destruct Hres as [(cc & now & Hcc & Hlt & -> & [= -> ->])|[[Hnone Hp]|(cc & now & Hcc & Hle & Hin & Hp)]].
  - split; [done|]. split; [intros ? H1 H2; by destruct (H2 H1)|]. rewrite Hcc. by apply Hagain.
  - destruct Hp as [(opts & t & H1 & H2 & Hr')|(-> & _ & _ & Hp)].
    + split; [intros k Hk; subst; simpl; by rewrite lookup_insert_ne|].
      split; [intros ? H; by rewrite Hnone in H|]. destruct (r_dockerClients r' !! key) as [cc|] eqn:Hcc.
      * apply Hagain; [done|]. subst. simpl in Hcc. rewrite lookup_insert_eq in Hcc. by simplify_eq.
      * subst. simpl in Hcc. by rewrite lookup_insert_eq in Hcc.
    + split; [done|]. split; [intros ? H; by rewrite Hnone in H|]. by rewrite Hnone.
  - split; [|split].
    + intros k Hk. destruct Hp as [(opts & t & H1 & H2 & ->)|(-> & _ & _ & Hp)]; simpl;
        [rewrite lookup_insert_ne by done|]; by rewrite lookup_delete_ne.
    + intros cc' Hcc' _. rewrite Hcc in Hcc'. by simplify_eq.
    + destruct Hp as [(opts & t & H1 & H2 & Hr')|(-> & _ & _ & Hp)].
      * destruct (r_dockerClients r' !! key) as [cc'|] eqn:Hcc'.
        -- apply Hagain; [done|]. subst. simpl in Hcc'. rewrite lookup_insert_eq in Hcc'. by simplify_eq.
        -- subst. simpl in Hcc'. by rewrite lookup_insert_eq in Hcc'.
      * simpl. by rewrite lookup_delete_eq.
Qed.

(** The client cache of the service controller does not work for containers that
    name no DockerHost: their clients are stored under "namespace/" but looked up under
    "namespace/default", so an empty cache stays without that entry and every
    reconcile resolves the host and opens a client again (the old one is not
    closed).  For a named host the two keys agree and the copy is the one of the other
    controllers but for the text of errors. *)
Theorem service_default_never_cached ns r :
  r_dockerClients r !! (ns +:+ "/default") = None →
  wp anything (getDockerClient_service ns "" r) (λ tr o,
    (∃ r' x, o = Returned (r', x) ∧ r_dockerClients r' !! (ns +:+ "/default") = None) ∧
    ∃ h tr', tr = Ev (KGet KDockerHost {| nn_Namespace := ns; nn_Name := "default" |}) h :: tr') ∧
  (∀ ref, ref ≠ "" → getDockerClient_service ns ref =
     resolve (λ _ err, err) (ns +:+ "/" +:+ host_name ref) ns (host_name ref)).
Proof.
  intros Hnone. split.
  - assert (getDockerClient_service ns "" r = find_host (λ _ err, err) (ns +:+ "/") ns "default" r) as ->.
    { unfold getDockerClient_service, resolve. cbn zeta.
      change (host_name "") with "default". change ("/" +:+ "default") with "/default".
      rewrite Hnone. f_equal. }
    eapply wp_mono; [|apply wp_and; [apply (find_host_wp (λ _ err, err) (ns +:+ "/") ns "default" r)|]].
    2: apply wp_first.
    intros tr o [[_ Hp] Hfst]. split; [|done]. destruct o as [[r' x]|w]; [|by destruct Hp].
    exists r', x. split; [done|]. destruct x as [c|e]; simpl in Hp; [|by subst].
    destruct Hp as [(opts & t & H1 & H2 & ->)|[-> _]]; [simpl|done].
    rewrite lookup_insert_ne; [done|]. intros Heq%(f_equal Strings.chars).
    rewrite !chars_app in Heq. by apply app_inv_head in Heq.
  - intros ref Href. unfold getDockerClient_service, host_name. by apply String.eqb_neq in Href as ->.
Qed.

Lemma service_default_never_cached_witness :
  let r := {| r_DockerClient := None; r_dockerClients := ∅ |} in
  r_dockerClients r !! "prod/default" = None ∧
  wp anything (getDockerClient_service "prod" "" r) (λ tr o,
    (∃ r' x, o = Returned (r', x) ∧ r_dockerClients r' !! "prod/default" = None) ∧
    ∃ h tr', tr = Ev (KGet KDockerHost {| nn_Namespace := "prod"; nn_Name := "default" |}) h :: tr').
Proof.
  split; [reflexivity|].
  exact (proj1 (service_default_never_cached "prod" {| r_DockerClient := None; r_dockerClients := ∅ |} eq_refl)).
Defined.

(** The tar entry of one key of a secret mounted at [mountPath]. *)
Definition tar_file (mountPath : string) (e : string * string) : string * string :=
  (Filepath.JoinPath [Strings.TrimPrefix mountPath "/"; e.1], e.2).
Definition is_copy (o : op) : bool := match o with DCopyToContainer _ _ _ _ => true | _ => false end.

Lemma tar_entries_wp relPath entries buf :
  wp anything (range_err entries buf (tar_entry relPath)) (λ tr o,
    Forall (λ e, is_copy (ev_op e) = false) tr ∧
    match o with
    | Returned (Ok b) => b = buf ++ ((λ e, (Filepath.JoinPath [relPath; e.1], e.2)) <$> entries)
    | Returned (Err _) => True
    | Panicked _ => False
    end).
Proof.
  revert buf. induction entries as [|[name data] entries IH]; intros buf; [by rewrite app_nil_r|].
  rewrite range_err_cons. apply wp_bind. intros [h|e] _; simpl; [|by repeat constructor].
  intros [w|e] _; simpl; [|by repeat constructor].
  eapply wp_mono; [|apply IH]. intros tr o [Htr Ho]. split; [by repeat constructor|].
  destruct o as [[b|e]|?]; [|done..]. by rewrite Ho, <- app_assoc.
Qed.

(** C35. Uploading a secret volume copies the whole secret or reports an error: when it
    returns nil, exactly one archive has been copied to the root of the container, and
    its entries are, in some order, one file per key of the secret that was read, named
    by the key under the mount path, with the value of the key; when it returns an
    error no copy has succeeded.  It does not panic. *)
Theorem upload_is_secret cli ns sv id :
  wp anything (uploadSecretToContainer cli ns sv id) (λ tr o,
    match o with
    | Returned (Ok _) => ∃ secret buf pre,
        tr = pre ++ [Ev (DCopyToContainer cli id "/" buf) (Ok tt)] ∧
        Forall (λ e, is_copy (ev_op e) = false) pre ∧
        Ev (KGet KSecret {| nn_Namespace := ns; nn_Name := sv_SecretName sv |}) (Ok secret) ∈ pre ∧
        buf ≡ₚ tar_file (sv_MountPath sv) <$> map_to_list (sec_Data secret)
    | Returned (Err e) =>
        Forall (λ ev, is_copy (ev_op ev) = false ∨ ∃ buf, ev = Ev (DCopyToContainer cli id "/" buf) (Err e)) tr
    | Panicked _ => False
    end).
Proof.
  intros [secret|e] _; simpl; [|repeat constructor].
  intros hint _. apply wp_bind. eapply wp_mono; [|apply tar_entries_wp].
  intros tr [[buf|e]|w] [Htr Ho]; [| |done]; simpl.
  2: { do 2 (constructor; [by left|]). rewrite app_nil_r. eapply Forall_impl; [exact Htr|]. by left. }
  intros [c|e] _; simpl.
  2: { do 2 (constructor; [by left|]). apply Forall_app. split; [|by repeat constructor].
       eapply Forall_impl; [exact Htr|]. by left. }
  intros [[]|e] _; simpl.
  - eexists secret, buf, (_ :: _ :: tr ++ [_]).
    split; [simpl; rewrite <- app_assoc; simpl; reflexivity|]. split_and!.
    + do 2 (constructor; [done|]). apply Forall_app. split; [done|]. by repeat constructor.
    + left.
    + rewrite Ho. simpl. rewrite range_pairs_Permutation. done.
  - do 2 (constructor; [by left|]). apply Forall_app. split.
    + eapply Forall_impl; [exact Htr|]. by left.
    + constructor; [by left|]. constructor; [right; by eexists|constructor].
Qed.
