(* ===== verification/HostTheorems.v ===== *)
(** * Properties of the DockerHost controller

    A reconcile of HostController.v writes the verdict of one ping, when it changed. *)
From S2P Require Import Prelude GoStd Effects Api World Common Lifecycle CommonTheorems HostController.
Local Open Scope Z_scope.

#[global] Instance DockerHostStatus_eq_dec : EqDecision DockerHostStatus.
Proof. solve_decision. Defined.

(** The time-out of the client a host is pinged with: five seconds with TLS, none without. *)
Definition ping_timeout (tls : option TLSConfig) : Z := match tls with Some _ => 5 * Time.second | None => 0 end.
Definition ping_error (p : res unit) : option go_error := match p with Ok _ => None | Err err => Some err end.

(** A ping, call for call: the TLS configuration of the host as it was read, from the secret in its
    own namespace; one client for its URL; one ping of that client, which is then closed.  The
    result is the error of the first of these that failed (the first with the text in front that
    the code puts there), or none. *)
Definition pinged (host : DockerHost) (tr : go_trace) (ping : option go_error) : Prop :=
  ∃ setup tls rest, tr = setup ++ rest ∧
    tls_setup (wrap_error "failed to get TLS Secret") (wrap_error "failed to load TLS config")
      (om_Namespace (dh_Meta host)) (hs_TLSSecretName (dh_Spec host)) setup tls ∧
    match tls with
    | Err e => rest = [] ∧ ping = Some e
    | Ok tls => ∃ n rest',
        rest = Ev (DNewClient (WithHost (hs_HostURL (dh_Spec host)) tls (ping_timeout tls))) n :: rest' ∧
        match n with
        | Err e => rest' = [] ∧ ping = Some e
        | Ok cli => ∃ p, rest' = [Ev (DPing cli) p; Ev (DClose cli) tt] ∧ ping = ping_error p
        end
    end.

Lemma ping_wp host : wp anything (pingDockerHost host) (λ tr o, ∃ ping, o = Returned ping ∧ pinged host tr ping).
Proof.
  unfold pingDockerHost. apply wp_bind.
  eapply wp_mono; [|apply (tls_setup_wp (wrap_error _) (wrap_error _))].
  intros setup o (tls & -> & Htls). cbn [and_then]. destruct tls as [tls|e].
  2: { eexists. split; [done|]. eexists setup, _, []. split; [done|]. split; [exact Htls|done]. }
  intros n _. assert (∀ rest' ping, match n with
      | Err e => rest' = [] ∧ ping = Some e
      | Ok cli => ∃ p, rest' = [Ev (DPing cli) p; Ev (DClose cli) tt] ∧ ping = ping_error p
      end → pinged host (setup ++ Ev (DNewClient (WithHost (hs_HostURL (dh_Spec host)) tls (ping_timeout tls))) n :: rest') ping)
    as Hping.
  { intros rest' ping Hrest. eexists setup, (Ok tls), _. split; [done|]. split; [exact Htls|]. by exists n, rest'. }
  destruct n as [cli|e]; [|eexists; split; [done|]; by apply Hping].
  intros p _ [] _. eexists. split; [done|]. apply Hping. by exists p.
Qed.

(** C37. A reconcile of a DockerHost reports what one ping said.  It reads the host; a host that is
    gone is left alone, and any other read error is returned.  Otherwise it makes exactly the
    calls of one ping (the TLS configuration from the secret the host names, one client for the
    host's URL, one ping of it, one close) and no others before the status.  The status it stands for is Connected
    exactly when the daemon answered, and otherwise Error with the text of the error that stopped
    the ping; it is written, once, exactly when it differs in phase or message from the one that
    was read.  The host is checked again after 30 seconds, unless writing the status failed, whose
    error is returned. *)
Theorem host_reports_ping req :
  wp anything (Reconcile req) (λ tr o, ∃ g tr', tr = Ev (KGet KDockerHost req) g :: tr' ∧
    match g with
    | Err e => tr' = [] ∧ o = Returned (no_requeue, if err_IsNotFound e then None else Some e)
    | Ok host => ∃ calls written ping, tr' = calls ++ written ∧ pinged host calls ping ∧
        let status := {| hst_Phase := match ping with None => "Connected" | Some _ => "Error" end;
                         hst_Message := match ping with
                                        | None => "Successfully connected to Docker Daemon"
                                        | Some e => err_Error e
                                        end |} in
        let requeue := Returned ({| RequeueAfter := 30 * Time.second |}, None) in
        if decide (dh_Status host = status) then written = [] ∧ o = requeue
        else ∃ u, written = [Ev (KStatusUpdate KDockerHost
                               {| dh_Meta := dh_Meta host; dh_Spec := dh_Spec host; dh_Status := status |}) u] ∧
               o = match u with Ok _ => requeue | Err e => Returned (no_requeue, Some e) end
    end).
Proof.
  intros [host|e] _.
  2: { simpl. destruct (err_IsNotFound e) eqn:He; eexists (Err e), []; by rewrite He. }
  eapply wp_mono; [intros tr o H; eexists (Ok host), tr; split; [reflexivity|exact H]|].
  apply wp_bind. eapply wp_mono; [|apply ping_wp]. intros tr o (ping & -> & Hping). cbn [and_then].
  assert ({| hst_Phase := match ping with None => "Connected" | Some _ => "Error" end;
             hst_Message := match ping with
                            | None => "Successfully connected to Docker Daemon"
                            | Some e => err_Error e
                            end |} = verdict ping) as Hverdict by by destruct ping.
  destruct (negb _ || negb _) eqn:Hchanged.
  - assert (dh_Status host ≠ verdict ping) as Hne.
    { intros Heq. by rewrite Heq, !String.eqb_refl in Hchanged. }
    intros u _. destruct u as [h|e]; (eexists tr, _, ping; split; [done|]; split; [done|];
      rewrite Hverdict, decide_False by done; by eexists (_ : ans (KStatusUpdate KDockerHost _))).
  - assert (dh_Status host = verdict ping) as Heq.
    { apply orb_false_iff in Hchanged as [H1%negb_false_iff%String.eqb_eq H2%negb_false_iff%String.eqb_eq].
      destruct (dh_Status host), (verdict ping). simpl in *. by subst. }
    eexists tr, [], ping. split; [done|]. split; [done|]. by rewrite Hverdict, decide_True.
Qed.
