(* ===== verification/Creation.v ===== *)
(** * What a creation of a container does

    The contract [brings_up] of createAndStartContainer (dockercontainer/reconciler.go) that the
    theorems about a sync use in place of its code: the order of its calls, the arguments of each,
    and that an error is reported only after something went wrong. *)
From S2P Require Import Prelude GoStd Effects Api World Common Resources Lifecycle ContainerController.

(** ** Errors with a cause *)
Section blamed.
Context (cause : event ans → Prop).

(** An error is returned only after an event that caused it. *)
Definition blamed {A} (tr : go_trace) (o : outcome (res A)) : Prop :=
  match o with
  | Returned (Ok _) => True
  | Returned (Err _) => Exists cause tr
  | Panicked _ => False
  end.

Lemma blamed_bind {A B} (p : go (res A)) (f : res A → go (res B)) :
  wp anything p blamed → (∀ a, wp anything (f (Ok a)) blamed) →
  (∀ e, ∃ e', f (Err e) = Return (Err e')) → wp anything (pbind p f) blamed.
Proof.
  intros Hp Hok Herr. apply wp_bind. eapply wp_mono; [|exact Hp].
  intros tr [[a|e]|w]; simpl; [|destruct (Herr e) as [e' ->]; simpl; by rewrite app_nil_r|done].
  intros _. eapply wp_mono; [|apply Hok]. intros tr' [[b|e]|w]; simpl; [done| |done].
  intros. apply Exists_app. by right.
Qed.
Lemma blamed_call {A} (o : op) (k : ans o → go (res A)) :
  (∀ x, wp anything (k x) (λ tr out, blamed (Ev o x :: tr) out)) → wp anything (Call o k) blamed.
Proof. intros Hk x _. apply Hk. Qed.
Lemma blamed_later {A} e (p : go (res A)) : wp anything p blamed → wp anything p (λ tr out, blamed (e :: tr) out).
Proof.
  apply wp_mono. intros tr [[a|e']|w]; simpl; [done| |done]. intros. by apply Exists_cons_tl.
Qed.
Lemma blamed_now {A} e (err : go_error) :
  cause e → wp (Ans := ans) anything (Return (Err err) : go (res A)) (λ tr out, blamed (e :: tr) out).
Proof. intros. by apply Exists_cons_hd. Qed.
Lemma blamed_range_err {X S} (l : list X) (s : S) body :
  (∀ s x, x ∈ l → wp anything (body s x) blamed) → wp anything (range_err l s body) blamed.
Proof.
  revert s. induction l as [|x l IH]; intros s Hbody; [done|]. rewrite range_err_cons.
  apply blamed_bind; [apply Hbody; set_solver| |by eexists]. intros s'. apply IH. set_solver.
Qed.
End blamed.

(** ** What can go wrong in a creation *)
Section creation.
Context {T : ThirdParty}.

(** A secret that does not hold registry credentials. *)
Definition no_credentials (secret : Secret) : Prop :=
  default "" (sec_Data secret !! "username") = "" ∨
  ∃ e, EncodeAuth {| auth_Username := default "" (sec_Data secret !! "username");
                     auth_Password := default "" (sec_Data secret !! "password");
                     auth_ServerAddress := default "" (sec_Data secret !! "server") |} = Err e.

(** A call of a creation that failed, or a secret that lacks what the specification refers to. *)
Definition mishap (spec : DockerContainerSpec) (e : event ans) : Prop :=
  match e with
  | Ev (KGet k key) x =>
      match k return res (obj k) → Prop with
      | KSecret => λ r,
          match r with
          | Err _ => True
          | Ok secret =>
              (nn_Name key = cs_ImagePullSecret spec ∧ no_credentials secret) ∨
              ∃ ev src ref, ev ∈ cs_EnvVars spec ∧ ev_ValueFrom ev = Some src ∧ evs_SecretKeyRef src = Some ref ∧
                sks_Name ref = nn_Name key ∧ sec_Data secret !! sks_Key ref = None
          end
      | _ => λ _, False
      end x
  | Ev (DImagePull _ _ _) r | Ev (DContainerStart _ _) r | Ev (DCopyToContainer _ _ _ _) r
  | Ev (TarWriteHeader _ _) r | Ev (TarWrite _) r | Ev TarClose r => r ≠ Ok tt
  | Ev (DContainerCreate _ _ _ _) r => ∃ e, r = Err e
  | _ => False
  end.

Lemma blamed_uploads spec cli ns svs id : wp anything (uploadSecretVolumes cli ns svs id) (blamed (mishap spec)).
Proof.
  apply blamed_range_err. intros _ sv _. apply blamed_call. intros [secret|e]; [|by apply blamed_now].
  apply blamed_later, blamed_call. intros hint. apply blamed_later. cbn [pbind]. apply blamed_bind; [|
    |by eexists].
  - apply blamed_range_err. intros buf [name data] _. apply blamed_call. intros [[]|e]; [|by apply blamed_now].
    apply blamed_later, blamed_call. intros [[]|e]; [by apply blamed_later|by apply blamed_now].
  - intros buf. apply blamed_call. intros [[]|e]; [|by apply blamed_now].
    apply blamed_later, blamed_call. intros [[]|e]; [by apply blamed_later|by apply blamed_now].
Qed.

Lemma blamed_env spec ns env :
  wp anything (resolveEnv ns env (cs_EnvVars spec)) (blamed (mishap spec)).
Proof.
  apply blamed_range_err. intros env' ev Hev. unfold resolveEnvVar.
  destruct (ev_ValueFrom ev) as [src|] eqn:Hsrc; [|done].
  destruct (evs_SecretKeyRef src) as [ref|] eqn:Href; [|done].
  apply blamed_bind; [|done|by eexists]. apply blamed_call. intros [secret|e]; [|by apply blamed_now].
  destruct (sec_Data secret !! sks_Key ref) as [val|] eqn:Hkey; [by apply blamed_later|].
  apply blamed_now. right. by eauto 10.
Qed.

Lemma blamed_auth spec ns : wp anything (registryAuth ns (cs_ImagePullSecret spec)) (blamed (mishap spec)).
Proof.
  unfold registryAuth. case_match; [done|]. intros [secret|e] _; cbn [pbind]; [|by apply blamed_now].
  simpl. destruct (String.eqb_spec (default "" (sec_Data secret !! "username")) "") as [Hu|Hu]; simpl.
  - apply Exists_cons_hd. left. by split; [|left].
  - destruct (EncodeAuth _) as [a|e] eqn:Ha; simpl; [done|].
    apply Exists_cons_hd. left. split; [done|]. right. by eexists.
Qed.

Lemma blamed_create cli cr :
  wp anything (createAndStartContainer cli cr) (blamed (mishap (dc_Spec cr))).
Proof.
  unfold createAndStartContainer. apply blamed_bind; [apply blamed_auth| |by eexists].
  intros auth. apply blamed_call. intros [[]|e]; [|by apply blamed_now].
  apply blamed_later, blamed_call. intros []. apply blamed_later, blamed_bind; [apply blamed_env| |by eexists].
  intros env. apply blamed_call. intros [id|e]; [|by apply blamed_now; eexists].
  apply blamed_later, blamed_bind; [apply blamed_uploads| |by eexists].
  intros []. apply blamed_call. intros [[]|e]; [by apply blamed_later|by apply blamed_now].
Qed.

(** ** The arguments of the calls *)
(** The environment of the spec: the plain entries, then one NAME=value for each variable. *)
Definition env_of (spec : DockerContainerSpec) (env : list string) : Prop :=
  ∃ extra, env = cs_Env spec ++ extra ∧
    Forall2 (λ ev s, ∃ v, s = ev_Name ev +:+ "=" +:+ v ∧ (ev_ValueFrom ev = None → v = ev_Value ev))
            (cs_EnvVars spec) extra.

Definition for_spec (cli : client) (spec : DockerContainerSpec) (o : op) : Prop :=
  match o with
  | DImagePull c ref _ => c = cli ∧ ref = cs_Image spec
  | DContainerCreate c config hostConfig name =>
      c = cli ∧ name = cs_ContainerName spec ∧ hostConfig = build_host_config spec ∧
      ∃ env, env_of spec env ∧ config = build_config spec env
  | DCopyToContainer c _ _ _ | DContainerStart c _ => c = cli
  | _ => quiet o
  end.
Lemma quiet_for_spec cli spec o : quiet o → for_spec cli spec o.
Proof. by destruct o. Qed.

Lemma resolveEnv_env ns env envVars :
  wp anything (resolveEnv ns env envVars) (λ _ o,
    match o with
    | Returned (Ok env') => ∃ extra, env' = env ++ extra ∧
        Forall2 (λ ev s, ∃ v, s = ev_Name ev +:+ "=" +:+ v ∧ (ev_ValueFrom ev = None → v = ev_Value ev)) envVars extra
    | _ => True
    end).
Proof.
  unfold resolveEnv. revert env. induction envVars as [|ev envVars IH]; intros env.
  { exists []. by rewrite app_nil_r. }
  rewrite range_err_cons. apply wp_bind.
  assert (∀ v, (ev_ValueFrom ev = None → v = ev_Value ev) →
    wp anything (range_err envVars (env ++ [ev_Name ev +:+ "=" +:+ v]) (resolveEnvVar ns)) (λ _ o,
    match o with
    | Returned (Ok env') => ∃ extra, env' = env ++ extra ∧
        Forall2 (λ ev s, ∃ v, s = ev_Name ev +:+ "=" +:+ v ∧ (ev_ValueFrom ev = None → v = ev_Value ev))
          (ev :: envVars) extra
    | _ => True
    end)) as Hrest.
  { intros v Hv. eapply wp_mono; [|apply IH]. intros _ [[env'|e]|w]; [|done..].
    intros (extra & -> & Hextra). exists ((ev_Name ev +:+ "=" +:+ v) :: extra). rewrite <- app_assoc.
    split; [done|]. constructor; [by eauto|done]. }
  unfold resolveEnvVar. destruct (ev_ValueFrom ev) as [src|]; [|by apply Hrest].
  destruct (evs_SecretKeyRef src) as [ref|]; [|by apply Hrest].
  intros [secret|e] _; simpl; [|done]. destruct (sec_Data secret !! sks_Key ref); [by apply Hrest|done].
Qed.

(** Calls that all satisfy [P], seen through a prefix. *)
Lemma for_spec_calls {A} cli spec (P : op → Prop) (p : go A) :
  (∀ o, P o → for_spec cli spec o) → calls P p →
  wp anything p (λ tr _, Forall (λ e, for_spec cli spec (ev_op e)) tr).
Proof.
  intros HP Hp. eapply wp_mono; [|by apply calls_wp]. intros tr o [Htr _].
  eapply Forall_impl; [exact Htr|]. intros e. apply HP.
Qed.
Lemma for_spec_bind {A B} cli spec (p : go A) (f : A → go B) Q :
  calls quiet p → wp anything p (λ _ o, match o with Returned a => Q a | _ => True end) →
  (∀ a, Q a → wp anything (f a) (λ tr _, Forall (λ e, for_spec cli spec (ev_op e)) tr)) →
  wp anything (pbind p f) (λ tr _, Forall (λ e, for_spec cli spec (ev_op e)) tr).
Proof.
  intros Hq HQ Hf. apply wp_bind. eapply wp_mono; [|apply wp_and; [by apply calls_wp|exact HQ]].
  intros tr o [[Htr [a ->]] Ha]. cbn [and_then]. eapply wp_mono; [|by apply Hf].
  intros tr' o Htr'. apply Forall_app. split; [|done].
  eapply Forall_impl; [exact Htr|]. intros e. apply quiet_for_spec.
Qed.

Lemma create_for_spec cli cr :
  wp anything (createAndStartContainer cli cr) (λ tr _, Forall (λ e, for_spec cli (dc_Spec cr) (ev_op e)) tr).
Proof.
  unfold createAndStartContainer. eapply (for_spec_bind _ _ _ _ (λ _, True)); [auto with go|by apply wp_any; intros ? []|].
  intros [auth|e] _; [|by constructor]. intros p _. destruct p as [[]|e]; [|by repeat constructor].
  intros d _. eapply wp_mono; [|eapply (for_spec_bind cli (dc_Spec cr)); [apply quiet_resolveEnv| |]].
  - intros tr o Htr. by repeat constructor.
  - eapply wp_mono; [|apply resolveEnv_env]. intros _ [a|w] Ha; [exact Ha|done].
  - intros [env|e] Henv; [|by constructor]. intros c _.
    eapply wp_mono; [|apply (for_spec_calls cli (dc_Spec cr) (for_spec cli (dc_Spec cr))); [done|]].
    + intros tr o Htr. constructor; [|done]. simpl. split_and!; [done..|]. by exists env.
    + destruct c as [id|e]; [|done]. apply calls_bind; [|by intros [[]|e]].
      apply calls_range_err. intros _ sv. split; [done|]. intros [secret|e]; [|done].
      split; [done|]. intros hint. cbn [pbind]. apply calls_bind.
      * apply calls_range_err. intros buf e. eapply calls_mono; [|apply quiet_tar_entry]. apply quiet_for_spec.
      * intros [buf|e]; [|done]. split; [done|]. by intros [c|e].
Qed.

Lemma create_ordered cli cr :
  ordered (length (cs_SecretVolumes (dc_Spec cr))) Idle (createAndStartContainer cli cr) started_iff_ok.
Proof.
  unfold createAndStartContainer. apply ordered_quiet; [auto with go|]. intros [auth|e]; [|done].
  intros p _. eexists. split; [done|]. destruct p as [[]|e]; [|done].
  intros d _. eexists. split; [done|].
  apply ordered_quiet; [auto with go|]. intros [env|e]; [|done].
  by apply create_upload_start.
Qed.

(** ** The contract *)
(** The container of [spec] is pulled, created, filled and started through [cli], in this order
    and with these arguments; the result is nil exactly when it was started, and an error only
    when something went wrong on the way. *)
Definition brings_up (cli : client) (spec : DockerContainerSpec) (tr : go_trace) (o : outcome (res unit)) : Prop :=
  (∃ s, accepts (lifecycle (length (cs_SecretVolumes spec))) Idle tr = Some s ∧ started_iff_ok s o) ∧
  Forall (λ e, for_spec cli spec (ev_op e)) tr ∧
  blamed (mishap spec) tr o.

Lemma create_brings_up cli cr :
  wp anything (createAndStartContainer cli cr) (brings_up cli (dc_Spec cr)).
Proof.
  apply wp_and; [apply guarded_wp, create_ordered|]. apply wp_and; [apply create_for_spec|apply blamed_create].
Qed.
End creation.
