(* ===== verification/ContainerTheorems.v ===== *)
(** * Properties of the DockerContainer controller

    The order of a creation, drift and its repair, the status a sync writes, and the finalizer
    protocol of Reconcile, for the definitions of ContainerController.v. *)
From S2P Require Import Prelude GoStd Effects Api World Common Resources Lifecycle CommonTheorems ContainerController Creation.
Local Open Scope Z_scope.

Section creation.
Context {T : ThirdParty}.

Lemma create_calls cli cr : calls creating (createAndStartContainer cli cr).
Proof.
  assert (∀ o, quiet o → creating o) as Hq by (by left).
  unfold createAndStartContainer. apply calls_quiet_bind; [done|apply quiet_registryAuth|].
  intros [auth|e]; [|done]. split; [by right|]. intros [[]|e]; [|done]. split; [by left|]. intros _.
  apply calls_quiet_bind; [done|apply quiet_resolveEnv|].
  intros [env|e]; [|done]. apply creating_create_upload_start.
Qed.
End creation.

(** C5. A DockerContainer is brought up in one order only: the image is pulled, then the
    container created, then every secret volume copied into that container, then it is
    started; a failing call ends the sequence, so a container never starts without its
    image or with a secret missing, and the function returns nil exactly when the start
    succeeded.  Nothing else happens on the Docker host and nothing panics. *)
Theorem container_start_order {T : ThirdParty} cli cr :
  wp anything (createAndStartContainer cli cr) (λ tr o, ∃ s,
    accepts (lifecycle (length (cs_SecretVolumes (dc_Spec cr)))) Idle tr = Some s ∧ started_iff_ok s o).
Proof. apply guarded_wp, create_ordered. Qed.

(** ** Drift *)
(** The differences that count as drift. *)
Definition drift (inspected : ContainerJSON) (spec : DockerContainerSpec) : Prop :=
  ∃ config, cj_Config inspected = Some config ∧
    (cfg_Image config ≠ cs_Image spec ∨
     (cs_Command spec ≠ [] ∧ cfg_Cmd config ≠ cs_Command spec) ∨
     (∃ e, e ∈ cs_Env spec ∧ e ∉ cfg_Env config) ∨
     ∃ hostConfig, cj_HostConfig inspected = Some hostConfig ∧
       ((cs_RestartPolicy spec ≠ "" ∧
         Strings.ToLower (hcf_RestartPolicy hostConfig) ≠ Strings.ToLower (cs_RestartPolicy spec)) ∨
        (cs_Resources spec ≠ None ∧ Container.buildDockerResources (cs_Resources spec) ≠ hcf_Resources hostConfig))).

Lemma existsb_eqb (x : string) l : existsb (String.eqb x) l = true ↔ x ∈ l.
Proof.
  rewrite existsb_exists. split.
  - intros (y & Hy & ->%String.eqb_eq). by apply list_elem_of_In.
  - intros Hx. exists x. split; [by apply list_elem_of_In|]. by apply String.eqb_eq.
Qed.
Lemma missing_env env actual :
  existsb (λ expected, negb (existsb (String.eqb expected) actual)) (Sort.Strings env) = true ↔
  ∃ e, e ∈ env ∧ e ∉ actual.
Proof.
  rewrite existsb_exists. apply exist_proper. intros e.
  rewrite <- list_elem_of_In. unfold Sort.Strings. rewrite merge_sort_Permutation.
  rewrite negb_true_iff, <- not_true_iff_false, existsb_eqb. done.
Qed.
Lemma resources_eqb (d h : Resources) : (NanoCPUs d =? NanoCPUs h) && (Memory d =? Memory h) = true ↔ d = h.
Proof.
  rewrite andb_true_iff, !Z.eqb_eq. split; [|by intros ->]. destruct d, h. simpl. by intros [-> ->].
Qed.

Lemma needsRecreate_host hostConfig spec :
  (if negb (String.eqb (cs_RestartPolicy spec) "")
      && negb (String.eqb (Strings.ToLower (hcf_RestartPolicy hostConfig)) (Strings.ToLower (cs_RestartPolicy spec)))
   then true
   else match cs_Resources spec with
        | None => false
        | Some _ =>
            let desired := Container.buildDockerResources (cs_Resources spec) in
            if negb (NanoCPUs desired =? NanoCPUs (hcf_Resources hostConfig)) then true
            else if negb (Memory desired =? Memory (hcf_Resources hostConfig)) then true else false
        end) = true ↔
  (cs_RestartPolicy spec ≠ "" ∧
   Strings.ToLower (hcf_RestartPolicy hostConfig) ≠ Strings.ToLower (cs_RestartPolicy spec)) ∨
  (cs_Resources spec ≠ None ∧ Container.buildDockerResources (cs_Resources spec) ≠ hcf_Resources hostConfig).
Proof.
  destruct (String.eqb_spec (cs_RestartPolicy spec) "") as [H1|H1];
  destruct (String.eqb_spec (Strings.ToLower (hcf_RestartPolicy hostConfig)) (Strings.ToLower (cs_RestartPolicy spec)))
    as [H2|H2]; simpl; try (split; [by left|done]).
  all: destruct (cs_Resources spec) as [rr|] eqn:Hr; [|naive_solver].
  all: rewrite <- (resources_eqb (Container.buildDockerResources (Some rr)) (hcf_Resources hostConfig)).
  all: destruct (NanoCPUs _ =? _), (Memory _ =? _); simpl; naive_solver.
Qed.

Lemma needsRecreate_drift_iff inspected spec : needsRecreate inspected spec = true ↔ drift inspected spec.
Proof.
  unfold needsRecreate, drift. destruct (cj_Config inspected) as [config|]; [|naive_solver].
  destruct (String.eqb_spec (cfg_Image config) (cs_Image spec)) as [Hi|Hi]; simpl; [|naive_solver].
  destruct ((0 <? length (cs_Command spec))%nat && negb (bool_decide (cfg_Cmd config = cs_Command spec))) eqn:Hc.
  { apply andb_true_iff in Hc as [Hc1 Hc2]. split; [intros _|done]. exists config. split; [done|].
    right. left. split; [by destruct (cs_Command spec)|]. by apply negb_true_iff, bool_decide_eq_false in Hc2. }
  destruct ((0 <? length (cs_Env spec))%nat && _) eqn:He.
  { apply andb_true_iff in He as [_ He%missing_env]. split; [intros _|done]. exists config. naive_solver. }
  assert (¬ (cs_Command spec ≠ [] ∧ cfg_Cmd config ≠ cs_Command spec)) as Hc'.
  { intros [H1 H2]. apply andb_false_iff in Hc as [Hc|Hc]; [by destruct (cs_Command spec)|].
    by apply negb_false_iff, bool_decide_eq_true in Hc. }
  assert (¬ ∃ e, e ∈ cs_Env spec ∧ e ∉ cfg_Env config) as He'.
  { intros (e & H1 & H2). apply andb_false_iff in He as [He|He].
    - destruct (cs_Env spec); [by apply not_elem_of_nil in H1|done].
    - apply not_true_iff_false in He. apply He, missing_env. eauto. }
  destruct (cj_HostConfig inspected) as [hostConfig|]; [|naive_solver].
  rewrite needsRecreate_host. naive_solver.
Qed.

(** C36. needsRecreate decides drift: a container is recreated exactly when its image
    differs, or the spec names a command and the command differs, or a variable of the
    spec's env is missing (in any order, extra variables allowed), or the spec names a
    restart policy that differs other than in case, or the spec has resources and the
    limits differ.  A container whose configuration Docker did not report is left
    alone. *)
Theorem needsRecreate_drift inspected spec : needsRecreate inspected spec = true ↔ drift inspected spec.
Proof. apply needsRecreate_drift_iff. Qed.

(** ** No recreate loop *)
(** What Docker reports for a container that was created with this configuration: the
    same image, command (its own when none was given), restart policy (its default when
    none was given) and limits, and at least the given environment. *)
Definition echoes (config : Config) (hostConfig : HostConfig) (inspected : ContainerJSON) : Prop :=
  (∀ c, cj_Config inspected = Some c →
     cfg_Image c = cfg_Image config ∧ (cfg_Cmd config ≠ [] → cfg_Cmd c = cfg_Cmd config) ∧
     cfg_Env config ⊆ cfg_Env c) ∧
  (∀ h, cj_HostConfig inspected = Some h →
     (hcf_RestartPolicy hostConfig ≠ "" → hcf_RestartPolicy h = hcf_RestartPolicy hostConfig) ∧
     hcf_Resources h = hcf_Resources hostConfig).

Lemma to_lower_idemp c : Char.to_lower (Char.to_lower c) = Char.to_lower c.
Proof.
  apply Ascii.eqb_eq. revert c.
  apply (all_bytes (λ c, Ascii.eqb (Char.to_lower (Char.to_lower c)) (Char.to_lower c))). reflexivity.
Qed.
Lemma ToLower_idemp s : Strings.ToLower (Strings.ToLower s) = Strings.ToLower s.
Proof.
  unfold Strings.ToLower. rewrite chars_of_chars, <- list_fmap_compose. f_equal.
  apply list_fmap_ext. intros _ c _. apply to_lower_idemp.
Qed.
Lemma ToLower_empty s : Strings.ToLower s = "" → s = "".
Proof. intros H%(f_equal Strings.chars). unfold Strings.ToLower in H. rewrite chars_of_chars in H. by destruct s. Qed.

(** A creation whose result, as Docker reports it, is not drift. *)
Definition stable (spec : DockerContainerSpec) (o : op) : Prop :=
  match o with
  | DContainerCreate _ config hostConfig _ =>
      ∀ inspected, echoes config hostConfig inspected → needsRecreate inspected spec = false
  | _ => True
  end.
Lemma quiet_stable spec o : quiet o → stable spec o.
Proof. by destruct o. Qed.

Lemma calls_stable {A} spec (P : op → Prop) (p : go A) :
  (∀ o, P o → stable spec o) → calls P p →
  wp anything p (λ tr o, Forall (λ e, stable spec (ev_op e)) tr ∧ ∃ a, o = Returned a).
Proof.
  intros HP Hp. eapply wp_mono; [|by apply calls_wp]. intros tr o [Htr Ho]. split; [|done].
  eapply Forall_impl; [exact Htr|]. intros e. apply HP.
Qed.
Definition not_create (o : op) : Prop := match o with DContainerCreate _ _ _ _ => False | _ => True end.

Lemma resolveEnv_extends ns env envVars :
  wp anything (resolveEnv ns env envVars) (λ _ o,
    match o with Returned (Ok env') => env ⊆ env' | _ => True end).
Proof.
  unfold resolveEnv. revert env. induction envVars as [|ev envVars IH]; intros env; [simpl; set_solver|].
  rewrite range_err_cons. apply wp_bind.
  assert (∀ val, wp anything (range_err envVars (env ++ [val]) (resolveEnvVar ns)) (λ _ o,
    match o with Returned (Ok env') => env ⊆ env' | _ => True end)) as Hrest.
  { intros val. eapply wp_mono; [|apply IH]. intros _ [[env'|e]|w]; [|done..]. set_solver. }
  unfold resolveEnvVar. destruct (ev_ValueFrom ev) as [src|]; [|apply Hrest].
  destruct (evs_SecretKeyRef src) as [ref|]; [|apply Hrest].
  intros [secret|e] _; simpl; [|done]. destruct (sec_Data secret !! sks_Key ref); [apply Hrest|done].
Qed.

Section no_loop.
Context {T : ThirdParty}.

Lemma created_stable spec env :
  cs_Env spec ⊆ env → ∀ inspected,
  echoes (build_config spec env) (build_host_config spec) inspected → needsRecreate inspected spec = false.
Proof.
  intros Henv inspected [Hc Hh]. apply not_true_iff_false. rewrite needsRecreate_drift_iff.
  intros (config & Hconfig & Hdrift). destruct (Hc config Hconfig) as (Himg & Hcmd & Hsub). simpl in *.
  destruct Hdrift as [?|[[H1 H2]|[(e & He & Hne)|(h & Hhost & Hd)]]]; [congruence|naive_solver|set_solver|].
  destruct (Hh h Hhost) as [Hrp Hres]. simpl in *. destruct Hd as [[H1 H2]|[H1 H2]].
  - rewrite Hrp, ToLower_idemp in H2; [done|]. by intros ?%ToLower_empty.
  - rewrite Hres in H2. by destruct (cs_Resources spec).
Qed.
End no_loop.

(** C4. Creation settles: whatever container this controller creates, the configuration
    Docker then reports for it (image, given command, given restart policy and limits as
    requested, environment extended at will) is not drift, so a reconcile does not
    recreate the container the last one made, and with an unchanged spec the controller
    does not loop. *)
Theorem created_is_stable {T : ThirdParty} cli cr :
  wp anything (createAndStartContainer cli cr) (λ tr _, Forall (λ e, stable (dc_Spec cr) (ev_op e)) tr).
Proof.
  unfold createAndStartContainer. apply wp_bind.
  eapply wp_mono; [|by apply (calls_stable (dc_Spec cr) quiet), quiet_registryAuth; apply quiet_stable].
  intros tr _ [Htr [[auth|e] ->]]; cbn [and_then]; [|simpl; by rewrite app_nil_r].
  intros p _. destruct p as [[]|e]; [|apply Forall_app; by repeat constructor].
  intros d _. apply wp_bind.
  eapply wp_mono; [|apply wp_and; [|apply resolveEnv_extends]].
  2: by apply (calls_stable (dc_Spec cr) quiet), quiet_resolveEnv; apply quiet_stable.
  intros tr2 _ [[Htr2 [[env|e] ->]] Henv]; cbn [and_then].
  2: { simpl. rewrite app_nil_r. apply Forall_app. by repeat constructor. }
  intros c _. eapply wp_mono; [|apply (calls_stable (dc_Spec cr) not_create)]; [|by intros []|].
  - intros tr3 o [Htr3 _]. apply Forall_app. split; [done|].
    constructor; [done|]. constructor; [done|]. apply Forall_app. split; [done|].
    constructor; [|done]. simpl. intros inspected. by apply created_stable.
  - destruct c as [id|e]; [|done]. apply calls_bind.
    + eapply calls_mono; [|apply calls_uploadSecretVolumes]. intros o [Ho|Ho]; by destruct o.
    + intros [[]|e]; [|done]. by split.
Qed.

(** ** The finalizer protocol *)
Definition got_container (e : event ans) : option (res DockerContainer) :=
  match e with
  | Ev (KGet k _) x =>
      match k return res (obj k) → option (res DockerContainer) with
      | KDockerContainer => λ r, Some r
      | _ => λ _, None
      end x
  | _ => None
  end.
(** [Update] of a DockerContainer: the object and whether it was accepted. *)
Definition updated_container (e : event ans) : option (DockerContainer * bool) :=
  match e with
  | Ev (KUpdate k u) x =>
      match k return obj k → res (obj k) → option (DockerContainer * bool) with
      | KDockerContainer => λ u r, Some (u, is_ok r)
      | _ => λ _ _, None
      end u x
  | _ => None
  end.

Inductive lifeline :=
| Unread
| Absent
| Live (cr : DockerContainer) (protected : bool)     (* not being deleted *)
| Deleting (cr : DockerContainer) (gone : option (list string))
    (* being deleted; once the main container is gone, the names still to remove *)
| Released.                                          (* the finalizer is off *)

Section protocol.
Context {T : ThirdParty}.

(** The protocol: the host is changed only under the finalizer; during deletion the
    main container goes first, each tunnel only after it is gone, and the finalizer
    after the last; nothing is created during deletion. *)
Definition finalizer_protocol (s : lifeline) (e : event ans) : option lifeline :=
  match s with
  | Unread =>
      match got_container e with
      | Some (Ok cr) =>
          Some (if not_deleting (dc_Meta cr) then Live cr (ContainsFinalizer (dc_Meta cr) finalizerName)
                else Deleting cr None)
      | Some (Err _) => Some Absent
      | None => None
      end
  | Live cr protected =>
      match updated_container e with
      | Some (u, accepted) =>
          if protected then None
          else if decide (u = set_meta (AddFinalizer (dc_Meta cr) finalizerName) cr)
               then Some (Live cr accepted) else None
      | None => if changes_host (ev_op e) && negb protected then None else Some s
      end
  | Deleting cr gone =>
      match updated_container e with
      | Some (u, accepted) =>
          if bool_decide (gone = Some [] ∧ u = set_meta (RemoveFinalizer (dc_Meta cr) finalizerName) cr)
          then Some Released else None
      | None =>
          match e with
          | Ev (DContainerRemove _ name _) r =>
              match gone with
              | None =>
                  if String.eqb name (cs_ContainerName (dc_Spec cr))
                  then Some (Deleting cr (if ok_or_not_found r then Some (tunnel_names cr) else None))
                  else None
              | Some todo =>
                  match todo with
                  | next :: rest => if String.eqb name next then Some (Deleting cr (Some rest)) else None
                  | [] => None
                  end
              end
          | _ => if changes_host (ev_op e) then None else Some s
          end
      end
  | Absent | Released =>
      match updated_container e with
      | Some _ => None
      | None => if changes_host (ev_op e) then None else Some s
      end
  end.

Lemma protocol_scoped cr s ns o x :
  s = Live cr true ∨ s = Live cr false ∨ s = Deleting cr None →
  scoped ns o → finalizer_protocol s (Ev o x) = Some s.
Proof. intros Hs Ho. by destruct o; destruct Hs as [->|[->| ->]]. Qed.

(** Everything a sync does. *)
Definition syncing (o : op) : Prop := match o with KUpdate _ _ => False | _ => True end.
Lemma protocol_syncing cr o x : syncing o → finalizer_protocol (Live cr true) (Ev o x) = Some (Live cr true).
Proof. intros Ho. destruct o; try done; simpl; by rewrite ?andb_false_r. Qed.

Lemma syncing_create cli cr : calls syncing (createAndStartContainer cli cr).
Proof. eapply calls_mono; [|apply create_calls]. intros o [Ho|Ho]; by destruct o. Qed.
Lemma syncing_observe target i st : calls syncing (observe target i st).
Proof. unfold observe. by repeat case_match. Qed.
Lemma syncing_sync cli cr : calls syncing (syncContainer cli cr).
Proof.
  split; [done|]. intros [containers|e]; [|done].
  destruct (find_target _ _) as [target|]; [|apply syncing_create].
  split; [done|]. intros i. apply calls_bind; [apply syncing_observe|]. intros [st changed].
  apply calls_bind; [by destruct changed|]. intros cr'.
  apply calls_bind; [case_match; [by split|done]|]. intros [[]|e]; [|done].
  destruct i as [inspected|e]; [|done]. destruct (needsRecreate _ _); [|done].
  split; [done|]. intros _. split; [done|]. intros [[]|e]; [apply syncing_create|done].
Qed.
Lemma protocol_tunnels cr cli todo :
  guarded anything finalizer_protocol (Deleting cr (Some todo))
    (range_do todo tt (λ _ tn, do! DContainerRemove cli tn true; Return tt))
    (λ s o, s = Deleting cr (Some []) ∧ o = Returned tt).
Proof.
  induction todo as [|tn todo IH]; [done|]. intros x _. simpl. rewrite String.eqb_refl.
  eexists. split; [done|]. apply IH.
Qed.
End protocol.

(** C1. A container on a Docker host is always covered by a finalizer: Reconcile changes
    the host for a DockerContainer only after the API server has accepted the object
    with the finalizer on it; for an object being deleted it creates and starts nothing,
    removes the main container first, and only when that is gone (removed, or not found)
    every possible tunnel container in turn, and takes the finalizer off only after the
    last of them, in one update of the object as it was read; otherwise it never updates
    the object.  It does not panic. *)
Theorem container_finalizer_protocol {T : ThirdParty} req r :
  wp anything (Reconcile req r) (λ tr o,
    is_Some (accepts finalizer_protocol Unread tr) ∧ ∃ x, o = Returned x).
Proof.
  eapply wp_mono; [|apply (guarded_wp _ finalizer_protocol Unread _ (λ _ o, ∃ x, o = Returned x))].
  { intros tr o (s & Hs & Ho). by rewrite Hs. }
  intros [cr|e] _; [|eexists; split; [done|by eexists]].
  eexists. split; [done|]. apply guarded_bind.
  assert (∀ s, s = Live cr true ∨ s = Live cr false ∨ s = Deleting cr None →
    guarded anything finalizer_protocol s
      (getDockerClient (om_Namespace (dc_Meta cr)) (cs_DockerHostRef (dc_Spec cr)) r)
      (λ s' o, s' = s ∧ ∃ a, o = Returned a)) as Hclient.
  { intros s Hs. eapply guarded_ignored; [|apply scoped_resolve]. intros. by eapply protocol_scoped. }
  eapply guarded_mono; [|apply Hclient].
  2: { destruct (not_deleting _); [|by right; right]. destruct (ContainsFinalizer _ _); [by left|by right; left]. }
  intros s o [-> [[r' c] ->]]. cbn [continue].
  destruct c as [cli|e]; [|by eexists].
  assert (∀ cr', guarded anything finalizer_protocol (Live cr true)
    (bind! s := syncContainer cli cr' in
     match s with
     | Err err => Return (r', (no_requeue, Some err))
     | Ok _ => Return (r', ({| RequeueAfter := Time.minute |}, None))
     end) (λ _ o, ∃ x : Reconciler * reconcile_result, o = Returned x)) as Hsync.
  { intros cr'. apply guarded_bind. eapply guarded_mono; [|eapply guarded_ignored; [|apply syncing_sync]].
    - intros s o [-> [[u|e] ->]]; simpl; by eexists.
    - intros. by apply protocol_syncing. }
  destruct (not_deleting (dc_Meta cr)).
  - destruct (ContainsFinalizer (dc_Meta cr) finalizerName); [apply Hsync|].
    intros u _. simpl. rewrite decide_True by done. eexists. split; [done|].
    destruct u as [cr'|e]; [apply Hsync|by eexists].
  - destruct (ContainsFinalizer (dc_Meta cr) finalizerName); [|by eexists].
    intros rm _. simpl. rewrite String.eqb_refl. eexists. split; [done|].
    destruct (ok_or_not_found rm) eqn:Hrm; simpl.
    2: { destruct rm; [done|]. by eexists. }
    apply guarded_bind, guarded_bind. eapply guarded_mono; [|apply protocol_tunnels].
    intros s o [-> ->]. intros u _. simpl. rewrite bool_decide_true by done. eexists. split; [done|].
    destruct u; by eexists.
Qed.

(** ** Status *)
(** The DockerContainers written with [Status().Update]. *)
Definition container_update (o : op) : option DockerContainer :=
  match o with
  | KStatusUpdate k u =>
      match k return obj k → option DockerContainer with KDockerContainer => λ u, Some u | _ => λ _, None end u
  | _ => None
  end.
Definition container_updates (tr : go_trace) : list DockerContainer := omap container_update (ev_op <$> tr).

(** The address of some network that has one, or "" when none has. *)
Definition address_of (networks : gmap string EndpointSettings) (ip : string) : Prop :=
  (ip = "" ∧ ∀ k e, networks !! k = Some e → es_IPAddress e = "") ∨
  (ip ≠ "" ∧ ∃ k e, networks !! k = Some e ∧ es_IPAddress e = ip).

(** The status [st] says what Docker reported; what it did not report is as in [old]. *)
Definition reported (target : ContainerSummary) (inspect : res ContainerJSON) (old st : DockerContainerStatus) : Prop :=
  cst_ID st = csm_ID target ∧ cst_State st = csm_State target ∧
  match inspect with
  | Err _ => cst_Health st = cst_Health old ∧ cst_IPv4 st = cst_IPv4 old
  | Ok i =>
      cst_Health st = match cj_State i with
                      | Some s => default "none" (st_Health s)
                      | None => cst_Health old
                      end ∧
      match cj_Networks i with
      | Some networks => address_of networks (cst_IPv4 st)
      | None => cst_IPv4 st = cst_IPv4 old
      end
  end.

Lemma quiet_observe target i st : calls quiet (observe target i st).
Proof. unfold observe. by repeat case_match. Qed.

Lemma first_ip_address networks hint : address_of networks (first_ip (range_pairs networks hint)).
Proof.
  assert (∀ l : list (string * EndpointSettings),
    (first_ip l = "" ∧ Forall (λ p, es_IPAddress p.2 = "") l) ∨
    (first_ip l ≠ "" ∧ ∃ k e, (k, e) ∈ l ∧ es_IPAddress e = first_ip l)) as Hip.
  { induction l as [|[k e] l IH]; [by left|]. simpl.
    destruct (String.eqb_spec (es_IPAddress e) "") as [H|H]; simpl.
    - destruct IH as [[-> Hl]|(Hne & k' & e' & Hin & Heq)]; [left|right].
      + split; [done|]. by constructor.
      + split; [done|]. exists k', e'. by split; [right|].
    - right. split; [done|]. exists k, e. by split; [left|]. }
  destruct (Hip (range_pairs networks hint)) as [[H1 H2]|(H1 & k & e & Hin & Heq)]; [left|right].
  - split; [done|]. intros k e He. rewrite <- (range_pairs_elem networks hint) in He.
    by apply (proj1 (Forall_forall _ _) H2) in He.
  - split; [done|]. exists k, e. split; [|done]. by apply (range_pairs_elem networks hint).
Qed.

(** Each observer sets its fields, and raises the flag exactly when one changes. *)
Definition set_health (h : string) (st : DockerContainerStatus) : DockerContainerStatus :=
  {| cst_ID := cst_ID st; cst_State := cst_State st; cst_Health := h; cst_IPv4 := cst_IPv4 st |}.
Definition set_ip (ip : string) (st : DockerContainerStatus) : DockerContainerStatus :=
  {| cst_ID := cst_ID st; cst_State := cst_State st; cst_Health := cst_Health st; cst_IPv4 := ip |}.
Definition set_summary (t : ContainerSummary) (st : DockerContainerStatus) : DockerContainerStatus :=
  {| cst_ID := csm_ID t; cst_State := csm_State t; cst_Health := cst_Health st; cst_IPv4 := cst_IPv4 st |}.

Lemma observe_summary_spec t st :
  observe_summary t st = (set_summary t st, bool_decide (set_summary t st ≠ st)).
Proof.
  destruct st as [i s h p]. unfold observe_summary, set_summary. simpl.
  destruct (String.eqb_spec i (csm_ID t)) as [->|]; destruct (String.eqb_spec s (csm_State t)) as [->|]; simpl;
    f_equal; symmetry; (apply bool_decide_eq_true_2 || apply bool_decide_eq_false_2); naive_solver.
Qed.
Lemma observe_health_spec state st b :
  observe_health state (st, b) =
    (set_health (default "none" (st_Health state)) st, b || bool_decide (cst_Health st ≠ default "none" (st_Health state))).
Proof.
  unfold observe_health, default, id. 
  change (match st_Health state with Some h => h | None => "none" end) with (default "none" (st_Health state)).
  destruct (String.eqb_spec (cst_Health st) (default "none" (st_Health state))) as [H|H]; simpl.
  - rewrite bool_decide_false by naive_solver. rewrite orb_false_r, <- H. by destruct st.
  - rewrite bool_decide_true by done. by rewrite orb_true_r.
Qed.
Lemma observe_ip_spec ip st b :
  observe_ip ip (st, b) = (set_ip ip st, b || bool_decide (cst_IPv4 st ≠ ip)).
Proof.
  unfold observe_ip. destruct (String.eqb_spec (cst_IPv4 st) ip) as [H|H]; simpl.
  - rewrite bool_decide_false by naive_solver. rewrite orb_false_r, <- H. by destruct st.
  - rewrite bool_decide_true by done. by rewrite orb_true_r.
Qed.

#[local] Arguments observe_health : simpl never.
#[local] Arguments observe_ip : simpl never.
Lemma observe_spec target i st :
  wp anything (observe target i st) (λ tr o, container_updates tr = [] ∧
    ∃ st', o = Returned (st', bool_decide (st' ≠ st)) ∧ reported target i st st').
Proof.
  unfold observe. rewrite observe_summary_spec.
  destruct i as [c|e]; [|split; [done|]; by eexists].
  assert (∀ h ip, bool_decide (set_summary target st ≠ st) || bool_decide (cst_Health st ≠ h) || bool_decide (cst_IPv4 st ≠ ip)
    = bool_decide (set_ip ip (set_health h (set_summary target st)) ≠ st)) as Hflag.
  { intros h ip. rewrite !bool_decide_not, <- !negb_andb. f_equal.
    rewrite <- !bool_decide_and. apply bool_decide_ext. destruct st; unfold set_ip, set_health, set_summary; simpl.
    naive_solver. }
  assert (∀ h, bool_decide (set_summary target st ≠ st) || bool_decide (cst_Health st ≠ h)
    = bool_decide (set_health h (set_summary target st) ≠ st)) as Hflag2.
  { intros h. rewrite <- (orb_false_r (_ || _)), <- (bool_decide_false (cst_IPv4 st ≠ cst_IPv4 st)) by naive_solver.
    rewrite Hflag. by unfold set_ip. }
  assert (∀ ip, bool_decide (set_summary target st ≠ st) || bool_decide (cst_IPv4 st ≠ ip)
    = bool_decide (set_ip ip (set_summary target st) ≠ st)) as Hflag3.
  { intros ip. rewrite <- (orb_false_r (bool_decide (set_summary target st ≠ st))).
    rewrite <- (bool_decide_false (cst_Health st ≠ cst_Health st)) by naive_solver.
    by rewrite Hflag. }
  destruct (cj_State c) as [s|] eqn:Hs, (cj_Networks c) as [networks|] eqn:Hn;
    rewrite ?observe_health_spec; simpl;
    try intros hint _; rewrite ?observe_ip_spec; simpl; (split; [done|]).
  - rewrite Hflag. eexists. split; [done|]. unfold reported. rewrite Hs, Hn. simpl.
    split_and!; [done..|]. apply first_ip_address.
  - rewrite Hflag2. eexists. split; [done|]. unfold reported. by rewrite Hs, Hn.
  - rewrite Hflag3. eexists. split; [done|]. unfold reported. rewrite Hs, Hn. simpl.
    split_and!; [done..|]. apply first_ip_address.
  - eexists. split; [done|]. unfold reported. by rewrite Hs, Hn.
Qed.

Lemma container_updates_app tr1 tr2 :
  container_updates (tr1 ++ tr2) = container_updates tr1 ++ container_updates tr2.
Proof. unfold container_updates. by rewrite fmap_app, omap_app. Qed.

Lemma container_updates_none tr :
  Forall (λ e, container_update (ev_op e) = None) tr → container_updates tr = [].
Proof. induction 1 as [|e tr He Htr IH]; [done|]. unfold container_updates in *. simpl. by rewrite He. Qed.

(** The status subresource: an accepted status update does not alter the spec. *)
Definition keeps_spec (o : op) : ans o → Prop :=
  match o with
  | KStatusUpdate k u =>
      match k return obj k → res (obj k) → Prop with
      | KDockerContainer => λ u r, ∀ u', r = Ok u' → dc_Spec u' = dc_Spec u
      | _ => λ _ _, True
      end u
  | _ => λ _, True
  end.

(** What a sync does with a listed container once it has looked at it: it starts it when it is not
    running, and nothing more if that fails.  Then a container that has not drifted (or that could
    not be inspected) is left alone; one that has is stopped, removed and, if the removal
    succeeded, brought up again. *)
Section repairs.
Context {T : ThirdParty} (cli : client) (target : ContainerSummary) (inspect : res ContainerJSON)
  (spec : DockerContainerSpec).

Definition mends (tr : go_trace) (o : outcome (res unit)) : Prop :=
  ((∀ c, inspect = Ok c → ¬ drift c spec) ∧ tr = [] ∧ o = Returned (Ok tt)) ∨
  ((∃ c, inspect = Ok c ∧ drift c spec) ∧ ∃ stop rm tr',
     tr = Ev (DContainerStop cli (csm_ID target) 10) stop ::
          Ev (DContainerRemove cli (csm_ID target) true) rm :: tr' ∧
     match rm with
     | Err e => tr' = [] ∧ o = Returned (Err e)
     | Ok _ => brings_up cli spec tr' o
     end).
Definition repairs (tr : go_trace) (o : outcome (res unit)) : Prop :=
  if decide (csm_State target = "running") then mends tr o
  else ∃ s tr', tr = Ev (DContainerStart cli (csm_ID target)) s :: tr' ∧
         match s with
         | Err e => tr' = [] ∧ o = Returned (Err e)
         | Ok _ => mends tr' o
         end.
End repairs.

Section sync.
Context {T : ThirdParty}.

Lemma recreate_mends cli cr target c :
  drift c (dc_Spec cr) →
  wp anything (recreate cli cr (csm_ID target)) (mends cli target (Ok c) (dc_Spec cr)).
Proof.
  intros Hd s _ rm _. destruct rm as [[]|e].
  - eapply wp_mono; [|apply create_brings_up]. intros tr o Hup. right. split; [by exists c|]. by eexists s, (Ok tt), tr.
  - right. split; [by exists c|]. by eexists s, (Err e), [].
Qed.

(** The part of a sync after the status has been dealt with. *)
Lemma repair_wp cli cr target inspect :
  wp anything
    (bind! started :=
       (if negb (String.eqb (csm_State target) "running") then
          let! s := DContainerStart cli (csm_ID target) in Return s
        else Return (Ok tt)) in
     match started with
     | Err err => Return (Err err)
     | Ok _ =>
         match inspect with
         | Ok inspectResp =>
             if needsRecreate inspectResp (dc_Spec cr) then recreate cli cr (csm_ID target)
             else Return (Ok tt)
         | Err _ => Return (Ok tt)
         end
     end)
    (repairs cli target inspect (dc_Spec cr)).
Proof.
  assert (wp anything (match inspect with
         | Ok inspectResp =>
             if needsRecreate inspectResp (dc_Spec cr) then recreate cli cr (csm_ID target)
             else Return (Ok tt)
         | Err _ => Return (Ok tt)
         end) (mends cli target inspect (dc_Spec cr))) as Htail.
  { destruct inspect as [c|e]; [|by left].
    destruct (needsRecreate c (dc_Spec cr)) eqn:Hn; [by apply recreate_mends, needsRecreate_drift_iff|].
    left. split; [|done]. intros c' [= <-]. by rewrite <- needsRecreate_drift_iff, Hn. }
  destruct (String.eqb_spec (csm_State target) "running") as [Hrun|Hrun].
  - eapply wp_mono; [|exact Htail]. intros tr o H. unfold repairs. by rewrite decide_True.
  - assert (∀ tr o, (∃ s tr', tr = Ev (DContainerStart cli (csm_ID target)) s :: tr' ∧
      match s with
      | Err e => tr' = [] ∧ o = Returned (Err e)
      | Ok _ => mends cli target inspect (dc_Spec cr) tr' o
      end) → repairs cli target inspect (dc_Spec cr) tr o) as Hdef by (intros; unfold repairs; by rewrite decide_False).
    intros s _. destruct s as [u|e]; simpl; [|by apply Hdef; eexists (Err e), []].
    eapply wp_mono; [|exact Htail]. intros tr o Ho. apply Hdef. by exists (Ok u), tr.
Qed.

(** The rest of a sync writes no status. *)
Lemma brings_up_updates cli spec tr o : brings_up cli spec tr o → container_updates tr = [].
Proof.
  intros (_ & Htr & _). apply container_updates_none. eapply Forall_impl; [exact Htr|].
  intros [o' x] Ho. by destruct o'.
Qed.
Lemma mends_updates cli target inspect spec tr o : mends cli target inspect spec tr o → container_updates tr = [].
Proof.
  intros [(_ & -> & _)|(_ & stop & rm & tr' & -> & Hrest)]; [done|].
  change (container_updates tr' = []). destruct rm as [[]|e]; [by eapply brings_up_updates|by destruct Hrest as [-> _]].
Qed.
Lemma repairs_updates cli target inspect spec tr o : repairs cli target inspect spec tr o → container_updates tr = [].
Proof.
  unfold repairs. case_decide; [by apply mends_updates|]. intros (s & tr' & -> & Hrest).
  change (container_updates tr' = []). destruct s as [[]|e]; [by eapply mends_updates|by destruct Hrest as [-> _]].
Qed.

(** The status a sync writes, and what the rest of it works with. *)
Definition status_written (st : DockerContainerStatus) (cr : DockerContainer) (tr : go_trace) : Prop :=
  Forall (λ e, changes_host (ev_op e) = false) tr ∧
  container_updates tr = (if decide (st = dc_Status cr) then [] else [set_cr_status st cr]).
End sync.

(** C2. A sync writes the truth and repairs exactly what is needed.  It lists the containers and
    returns the error if that fails.  If the container is not listed it is brought up from the
    spec, and nothing else happens: no status is written.  If it is listed it is inspected; a
    status is written exactly when it would differ from the old one, and it holds the id and
    state of the listing, the health of the inspection ("none" without a health check) and the
    address of one of the container's networks.  After that the container is started when it is
    not running and, when the inspection shows drift, stopped, removed and brought up anew from
    the spec; an error of the start or of the removal ends the sync and is returned, and a
    running container without drift is left alone, with a nil error.  Bringing up is pull,
    create, upload and start in this order, with the image, configuration and name of the spec,
    nil exactly when the container was started, and an error only after a failed call or a secret
    that lacks what the spec refers to. *)
Theorem sync_observes_and_repairs {T : ThirdParty} cli cr :
  wp keeps_spec (syncContainer cli cr) (λ tr o, ∃ l tr', tr = Ev (DContainerList cli) l :: tr' ∧
    match l with
    | Err e => tr' = [] ∧ o = Returned (Err e)
    | Ok containers =>
        match find_target containers (cs_ContainerName (dc_Spec cr)) with
        | None => brings_up cli (dc_Spec cr) tr' o ∧ container_updates tr' = []
        | Some target => ∃ i looked st rest,
            tr' = Ev (DContainerInspect cli (csm_ID target)) i :: looked ++ rest ∧
            reported target i (dc_Status cr) st ∧ status_written st cr looked ∧
            repairs cli target i (dc_Spec cr) rest o ∧ container_updates rest = []
        end
    end).
Proof.
  intros l _. destruct l as [containers|e]; [|by eexists _, _].
  eapply wp_mono; [intros tr o H; eexists (Ok containers), tr; split; [reflexivity|exact H]|].
  destruct (find_target containers (cs_ContainerName (dc_Spec cr))) as [target|] eqn:Ht.
  2: { eapply wp_mono; [|apply (wp_rely anything); [done|apply create_brings_up]].
       intros tr o Hup. split; [done|]. by eapply brings_up_updates. }
  intros i _. apply wp_bind.
  eapply wp_mono; [|apply wp_and; [apply calls_wp, quiet_observe|apply (wp_rely anything); [done|apply observe_spec]]].
  intros tr _ [[Hq _] (Hupd & st & -> & Hrep)]. cbn [and_then].
  assert (Forall (λ e, changes_host (ev_op e) = false) tr) as Hhost.
  { eapply Forall_impl; [exact Hq|]. intros [o x]. by destruct o. }
  assert (∀ cr' looked tr2 o, dc_Spec cr' = dc_Spec cr → status_written st cr looked →
    repairs cli target i (dc_Spec cr') tr2 o →
    ∃ i' looked' st' rest, Ev (DContainerInspect cli (csm_ID target)) i :: looked ++ tr2 =
      Ev (DContainerInspect cli (csm_ID target)) i' :: looked' ++ rest ∧
      reported target i' (dc_Status cr) st' ∧ status_written st' cr looked' ∧
      repairs cli target i' (dc_Spec cr) rest o ∧ container_updates rest = []) as Hfinish.
  { intros cr' looked tr2 o Hspec Hlooked H. rewrite Hspec in H. exists i, looked, st, tr2.
    split_and!; [done..|]. by eapply repairs_updates. }
  unfold status_written in Hfinish. destruct (decide (st = dc_Status cr)) as [Heq|Hne].
  - rewrite bool_decide_false by naive_solver. cbn [pbind].
    eapply wp_mono; [|apply (wp_rely anything); [done|apply repair_wp]].
    intros tr2 o H. by apply (Hfinish (set_cr_status st cr) tr).
  - rewrite bool_decide_true by done. intros u Hu. simpl in Hu.
    eapply wp_mono; [|apply (wp_rely anything); [done|apply repair_wp]].
    intros tr2 o H. rewrite (cons_middle _ tr tr2), app_assoc.
    eapply (Hfinish _ (tr ++ [_])); [|split|exact H].
    + destruct u as [u'|e]; [by apply Hu|done].
    + apply Forall_app. by repeat constructor.
    + by rewrite container_updates_app, Hupd.
Qed.
