(* ===== verification/Convergence.v ===== *)
(** * The DockerContainer controller against the daemon of its tests

    The reconcile loop is run in a world made of one DockerContainer, the secrets of the cluster
    and the daemon of MockDocker.v: from any state the second reconcile has converged, and from
    then on reconciles change nothing. *)
From S2P Require Import Prelude GoStd Effects Api World Samples Common Lifecycle.
From S2P Require Import ContainerController MockDocker ContainerTheorems.
Local Open Scope Z_scope.

(** ** The world *)
Record world := {
  w_Object : DockerContainer;
  w_Secrets : gmap (string * string) Secret;      (* by namespace and name *)
  w_Docker : MockDockerClient
}.
Definition set_object (o : DockerContainer) (w : world) : world :=
  {| w_Object := o; w_Secrets := w_Secrets w; w_Docker := w_Docker w |}.
Definition set_docker (m : MockDockerClient) (w : world) : world :=
  {| w_Object := w_Object w; w_Secrets := w_Secrets w; w_Docker := m |}.

(** The API server: an update replaces all but the status, a status update the status only. *)
Definition get (k : kind) (key : NamespacedName) (w : world) : res (obj k) :=
  match k return res (obj k) with
  | KDockerContainer =>
      if decide (key_of (dc_Meta (w_Object w)) = key) then Ok (w_Object w) else Err not_found
  | KSecret => match w_Secrets w !! (nn_Namespace key, nn_Name key) with Some s => Ok s | None => Err not_found end
  | _ => Err not_found
  end.
Definition update (k : kind) (o : obj k) (w : world) : res (obj k) * world :=
  match k return obj k → res (obj k) * world with
  | KDockerContainer => λ o,
      if decide (key_of (dc_Meta (w_Object w)) = key_of (dc_Meta o))
      then let stored := set_cr_status (dc_Status (w_Object w)) o in (Ok stored, set_object stored w)
      else (Err not_found, w)
  | _ => λ _, (Err not_found, w)
  end o.
Definition status_update (k : kind) (o : obj k) (w : world) : res (obj k) * world :=
  match k return obj k → res (obj k) * world with
  | KDockerContainer => λ o,
      if decide (key_of (dc_Meta (w_Object w)) = key_of (dc_Meta o))
      then let stored := set_cr_status (dc_Status o) (w_Object w) in (Ok stored, set_object stored w)
      else (Err not_found, w)
  | _ => λ _, (Err not_found, w)
  end o.
(** The daemon answers the calls to a Docker client; everything else is refused. *)
Definition answer (o : op) (w : world) : ans o * world :=
  match o return ans o * world with
  | KGet k key => (get k key w, w)
  | KUpdate k x => update k x w
  | KStatusUpdate k x => status_update k x w
  | o => match docker_call o (w_Docker w) with
         | Some (x, m) => (x, set_docker m w)
         | None => (refuse o, w)
         end
  end.

(** The outcome and the world behind a program. *)
Definition after {A} (p : go A) (w : world) : outcome A * world :=
  let '(o, _, w') := run answer p w in (o, w').
Lemma after_bind {A B} (p : go A) (f : A → go B) w :
  after (pbind p f) w = match after p w with
                        | (Returned a, w') => after (f a) w'
                        | (Panicked s, w') => (Panicked s, w')
                        end.
Proof.
  unfold after. rewrite run_bind. destruct (run answer p w) as [[[a|s] tr] w']; [|done].
  by destruct (run answer (f a) w') as [[o tr'] w2].
Qed.
Lemma after_call {A} o (k : ans o → go A) w x w' : answer o w = (x, w') → after (Call o k) w = after (k x) w'.
Proof. unfold after. simpl. intros ->. by destruct (run answer (k x) w') as [[o' tr] w2]. Qed.
Lemma after_wp {A} (p : go A) w Q : wp anything p (λ _ o, Q o) → Q (after p w).1.
Proof.
  intros Hwp. unfold after. destruct (run answer p w) as [[o tr] w'] eqn:Hrun. simpl.
  by apply (wp_run answer anything p (λ _ o, Q o) w o tr w').
Qed.
(** What only reads leaves the world alone. *)
Lemma answer_quiet o w : quiet o → (answer o w).2 = w.
Proof. by destruct o. Qed.
Lemma after_quiet {A} (p : go A) w : calls quiet p → (after p w).2 = w.
Proof.
  unfold after. revert w. induction p as [a|s|o k IH]; intros w; simpl; [done..|]. intros [Ho Hk].
  pose proof (answer_quiet o w Ho) as Hw. destruct (answer o w) as [x w1]. simpl in Hw. subst w1.
  specialize (IH x w (Hk x)). by destruct (run answer (k x) w) as [[o' tr] w2].
Qed.

(** ** One container of the daemon *)
Definition named (name : string) (c : Container) : bool := existsb (String.eqb ("/" +:+ name)) (c_Names c).
Lemma find_target_named l name : find_target (mc_Summary <$> l) name = mc_Summary <$> List.find (named name) l.
Proof.
  unfold find_target. induction l as [|c l IH]; [done|]. rewrite fmap_cons. simpl. unfold named at 1, c_Names.
  by destruct (existsb _ (csm_Names _)).
Qed.
(** The listed containers have names, an ID designates one container, at most one container has
    the name of the object, and only that one may answer to the ID it would be created with. *)
Record well_formed (name : string) (l : list Container) : Prop := {
  wf_names : Forall (λ c, c_Names c ≠ []) l;
  wf_ids pre c post : l = pre ++ c :: post → none_of (matches (c_ID c)) pre ∧ none_of (matches (c_ID c)) post;
  wf_name pre c post : l = pre ++ c :: post → named name c = true → none_of (named name) post;
  wf_new c : c ∈ l → matches ("mock-id-" +:+ name) c = true → named name c = true
}.
(** The container is there, runs, and is what the specification asks for. *)
Record settled (spec : DockerContainerSpec) (m : MockDockerClient) (pre : list Container) (t : Container)
    (post : list Container) : Prop := {
  set_list : m_Containers m = pre ++ t :: post;
  set_first : none_of (named (cs_ContainerName spec)) pre;
  set_named : named (cs_ContainerName spec) t = true;
  set_id : none_of (matches (c_ID t)) pre;
  set_names : c_Names t ≠ [];
  set_running : c_State t = "running";
  set_same : needsRecreate (describe m t) spec = false
}.

Section convergence.
Context {T : ThirdParty}.

(** The secrets the object refers to can be read, and no secret is to be copied into the
    container, which the daemon of the tests does not support. *)
Definition secrets_resolve (cr : DockerContainer) (w : world) : Prop :=
  ∀ w', w_Secrets w' = w_Secrets w →
  (∃ auth, (after (registryAuth (om_Namespace (dc_Meta cr)) (cs_ImagePullSecret (dc_Spec cr))) w').1
           = Returned (Ok auth)) ∧
  (∃ env, (after (resolveEnv (om_Namespace (dc_Meta cr)) (cs_Env (dc_Spec cr)) (cs_EnvVars (dc_Spec cr))) w').1
          = Returned (Ok env)).

(** What [createAndStartContainer] leaves in the daemon. *)
Definition brought_up (spec : DockerContainerSpec) (auth : string) (env : list string) (m : MockDockerClient)
    : MockDockerClient :=
  (ContainerStart ("mock-id-" +:+ cs_ContainerName spec)
     (ContainerCreate (build_config spec env) (build_host_config spec) (cs_ContainerName spec)
        (ImagePull auth m).2).2).2.
Lemma create_after cli cr w :
  secrets_resolve cr w → cs_SecretVolumes (dc_Spec cr) = [] →
  ∃ auth env, cs_Env (dc_Spec cr) ⊆ env ∧
    after (createAndStartContainer cli cr) w =
      (Returned (Ok tt), set_docker (brought_up (dc_Spec cr) auth env (w_Docker w)) w).
Proof.
  intros Hsec Hvol. destruct (Hsec w eq_refl) as [[auth Ha] _].
  unfold createAndStartContainer. rewrite after_bind.
  pose proof (after_quiet _ w (quiet_registryAuth (om_Namespace (dc_Meta cr)) (cs_ImagePullSecret (dc_Spec cr)))) as Hw.
  destruct (after (registryAuth _ _) w) as [o w'] eqn:E. simpl in Ha, Hw. subst o w'.
  set (w1 := set_docker (ImagePull auth (w_Docker w)).2 w).
  rewrite (after_call (DImagePull _ _ _) _ w (Ok tt) w1) by done. rewrite (after_call DDrain _ w1 tt w1) by done.
  destruct (Hsec w1 eq_refl) as [_ [env He]]. rewrite after_bind.
  pose proof (after_quiet _ w1 (quiet_resolveEnv (om_Namespace (dc_Meta cr)) (cs_Env (dc_Spec cr)) (cs_EnvVars (dc_Spec cr)))) as Hw.
  pose proof (after_wp _ w1 _ (resolveEnv_extends (om_Namespace (dc_Meta cr)) (cs_Env (dc_Spec cr)) (cs_EnvVars (dc_Spec cr)))) as Henv.
  destruct (after (resolveEnv _ _ _) w1) as [o w'] eqn:E2. simpl in He, Hw, Henv. subst o w'.
  exists auth, env. split; [done|]. erewrite after_call by done. rewrite Hvol. cbn [uploadSecretVolumes range_err pbind].
  by erewrite after_call by done.
Qed.

(** A container was brought up where there was none of that name or ID. *)
Lemma brought_up_settled spec auth env m :
  cs_Env spec ⊆ env → none_of (named (cs_ContainerName spec)) (m_Containers m) →
  none_of (matches ("mock-id-" +:+ cs_ContainerName spec)) (m_Containers m) →
  ∃ t, settled spec (brought_up spec auth env m) (m_Containers m) t [].
Proof.
  intros Henv Hname Hid.
  set (t := with_state "running" (created_container (build_config spec env) (cs_ContainerName spec))).
  exists t. split; [|done| |done|unfold t, c_Names; simpl; congruence|done|].
  - unfold brought_up, ContainerStart, ContainerCreate, ImagePull. simpl.
    by rewrite start_here by (done || by constructor).
  - unfold named. simpl. by rewrite String.eqb_refl.
  - apply (created_stable spec env Henv). split.
    + intros config [= <-]. done.
    + intros h [= <-]. done.
Qed.

(** ** Observing the container *)
Definition status_of (m : MockDockerClient) (t : Container) (ip : string) : DockerContainerStatus :=
  {| cst_ID := c_ID t; cst_State := c_State t;
     cst_Health := if negb (String.eqb (m_HealthStatus m) "") then m_HealthStatus m else "none";
     cst_IPv4 := ip |}.
Lemma observed_all m t ip st :
  let '(st', changed) := observe_ip ip (observe_health
      {| st_Status := c_State t; st_Running := String.eqb (c_State t) "running"; st_ExitCode := 0;
         st_Health := if negb (String.eqb (m_HealthStatus m) "") then Some (m_HealthStatus m) else None |}
      (observe_summary (mc_Summary t) st)) in
  st' = status_of m t ip ∧ (changed = false ↔ st = status_of m t ip).
Proof.
  unfold observe_summary, observe_health, observe_ip, status_of, c_ID, c_State. destruct st as [id state health ip0]; simpl.
  destruct (String.eqb_spec (m_HealthStatus m) ""); simpl;
  repeat (match goal with |- context [String.eqb ?a ?b] => destruct (String.eqb_spec a b) end; simpl); subst; naive_solver.
Qed.
(** The address the status gets: that of the first network with one, in the order the daemon of
    the tests is ranged over. *)
Definition ip_of (t : Container) : string :=
  first_ip (range_pairs (default ∅ (mc_Networks t)) (elements (dom (default ∅ (mc_Networks t) : gmap string EndpointSettings)))).
Lemma observe_after m t st w :
  ∃ changed, after (observe (mc_Summary t) (Ok (describe m t)) st) w = (Returned (status_of m t (ip_of t), changed), w) ∧
    (changed = false ↔ st = status_of m t (ip_of t)).
Proof.
  unfold observe. cbn [describe cj_State cj_Networks]. pose proof (observed_all m t (ip_of t) st) as Ho.
  destruct (observe_ip _ _) as [st' changed] eqn:E. destruct Ho as [-> Hc]. exists changed. split; [|done].
  unfold range_map. cbn [pbind]. erewrite after_call by done. cbn [pbind]. unfold after. simpl.
  fold (ip_of t). by rewrite E.
Qed.
Lemma inspect_here m pre t post :
  m_Containers m = pre ++ t :: post → none_of (matches (c_ID t)) pre → c_Names t ≠ [] →
  ContainerInspect (c_ID t) m = Some (Ok (describe m t)).
Proof.
  intros Hm Hpre Hn. unfold ContainerInspect. rewrite Hm, find_here; [|done|by apply matches_ID, String.eqb_refl].
  by destruct (c_Names t).
Qed.

(** ** One sync *)
Lemma set_object_same w : set_object (w_Object w) w = w.
Proof. by destruct w. Qed.
Lemma set_status_same cr : set_cr_status (dc_Status cr) cr = cr.
Proof. by destruct cr. Qed.
(** The container found in the listing, and the world with its state in the object's status. *)
Definition noted (t : Container) (w : world) : world :=
  set_object (set_cr_status (status_of (w_Docker w) t (ip_of t)) (w_Object w)) w.
Lemma sync_target cli w pre t post :
  let cr := w_Object w in
  let m := w_Docker w in
  m_Containers m = pre ++ t :: post → none_of (named (cs_ContainerName (dc_Spec cr))) pre →
  named (cs_ContainerName (dc_Spec cr)) t = true → none_of (matches (c_ID t)) pre → c_Names t ≠ [] →
  after (syncContainer cli cr) w =
    (let w1 := noted t w in
     let w2 := if negb (String.eqb (c_State t) "running") then set_docker (ContainerStart (c_ID t) m).2 w1 else w1 in
     if needsRecreate (describe m t) (dc_Spec cr) then after (recreate cli (w_Object w1) (c_ID t)) w2
     else (Returned (Ok tt), w2)).
Proof.
  intros cr m Hm Hpre Ht Hid Hn. unfold syncContainer.
  rewrite (after_call (DContainerList _) _ w (ContainerList m) w) by by destruct w.
  cbn [ContainerList]. rewrite find_target_named, Hm, find_here by done. cbn [fmap option_fmap option_map].
  rewrite (after_call (DContainerInspect _ _) _ w (Ok (describe m t)) w).
  2: { unfold answer, docker_call. change (ContainerInspect _ (w_Docker w)) with (ContainerInspect (c_ID t) m).
       rewrite (inspect_here m pre t post) by done. by destruct w. }
  rewrite after_bind. destruct (observe_after m t (dc_Status cr) w) as (changed & -> & Hchanged).
  rewrite after_bind. set (cr1 := set_cr_status _ cr).
  assert (after (if changed then let! u := KStatusUpdate KDockerContainer cr1 in
                   Return (match u with Ok cr' => cr' | Err _ => cr1 end) else Return cr1) w =
          (Returned cr1, noted t w)) as ->.
  { destruct changed; [|unfold after; simpl].
    - rewrite (after_call (KStatusUpdate KDockerContainer cr1) _ w (Ok cr1) (noted t w)); [done|].
      unfold answer, status_update. by rewrite decide_True.
    - unfold noted. fold m cr. rewrite <- (proj1 Hchanged eq_refl). unfold cr. by rewrite set_status_same, set_object_same. }
  rewrite after_bind. change (csm_State (mc_Summary t)) with (c_State t). change (csm_ID (mc_Summary t)) with (c_ID t).
  destruct (String.eqb (c_State t) "running"); cbn [negb].
  - unfold after at 1. simpl. by case_match.
  - erewrite after_call by done. unfold after at 1. simpl. by case_match.
Qed.

Lemma sync_settled cli w pre t post :
  settled (dc_Spec (w_Object w)) (w_Docker w) pre t post →
  after (syncContainer cli (w_Object w)) w = (Returned (Ok tt), noted t w).
Proof.
  intros []. rewrite (sync_target cli w pre t post) by done. cbv zeta.
  rewrite set_same0, set_running0. done.
Qed.

(** The list around a removed container, and the one created in its place. *)
Lemma no_other name pre t post :
  well_formed name (pre ++ t :: post) → none_of (named name) (pre ++ post) →
  none_of (matches ("mock-id-" +:+ name)) (pre ++ post).
Proof.
  intros Hwf Hnone. apply Forall_forall. intros c Hc. apply not_true_is_false. intros Hm.
  apply (wf_new name _ Hwf) in Hm; [|set_solver].
  eapply Forall_forall in Hnone; [|exact Hc]. simpl in Hnone. congruence.
Qed.
Lemma recreate_after cli cr w pre t post :
  secrets_resolve cr w → cs_SecretVolumes (dc_Spec cr) = [] →
  m_Containers (w_Docker w) = pre ++ t :: post → none_of (matches (c_ID t)) pre → none_of (matches (c_ID t)) post →
  none_of (named (cs_ContainerName (dc_Spec cr))) (pre ++ post) →
  none_of (matches ("mock-id-" +:+ cs_ContainerName (dc_Spec cr))) (pre ++ post) →
  ∃ m' t', after (recreate cli cr (c_ID t)) w = (Returned (Ok tt), set_docker m' w) ∧
    settled (dc_Spec cr) m' (pre ++ post) t' [].
Proof.
  intros Hsec Hvol Hm Hpre Hpost Hname Hid. unfold recreate.
  rewrite (after_call (DContainerStop _ _ _) _ w (Ok tt) w) by by destruct w.
  set (m1 := (ContainerRemove (c_ID t) (w_Docker w)).2).
  rewrite (after_call (DContainerRemove _ _ _) _ w (Ok tt) (set_docker m1 w)) by done.
  pose proof (remove_id (c_ID t) pre t post (w_Docker w) Hm Hpre Hpost eq_refl) as Hm1. fold m1 in Hm1.
  destruct (create_after cli cr (set_docker m1 w)) as (auth & env & Henv & ->); [done..|].
  cbn [w_Docker set_docker].
  destruct (brought_up_settled (dc_Spec cr) auth env m1 Henv) as [t' Hs]; rewrite ?Hm1 in *; [done..|].
  eauto.
Qed.

(** A container that was not running is started first. *)
Definition started_if (t : Container) (m : MockDockerClient) : MockDockerClient :=
  if negb (String.eqb (c_State t) "running") then (ContainerStart (c_ID t) m).2 else m.
Lemma started_if_list m pre t post :
  m_Containers m = pre ++ t :: post → none_of (matches (c_ID t)) pre → none_of (matches (c_ID t)) post →
  m_Containers (started_if t m) = pre ++ with_state "running" t :: post.
Proof.
  intros Hm Hpre Hpost. unfold started_if. destruct (String.eqb_spec (c_State t) "running") as [Hr|Hr]; simpl.
  - rewrite Hm. do 2 f_equal. destruct t as [[id names image state] nets]. unfold c_State in Hr. simpl in Hr. by subst.
  - rewrite Hm. by apply start_here.
Qed.
Lemma started_if_same t m spec :
  needsRecreate (describe (started_if t m) (with_state "running" t)) spec = needsRecreate (describe m t) spec.
Proof. unfold started_if. by destruct (negb _). Qed.
Lemma set_docker_same w : set_docker (w_Docker w) w = w.
Proof. by destruct w. Qed.

(** One sync settles the daemon, whatever state it was in. *)
Lemma sync_settles_found cli w pre t post :
  let cr := w_Object w in
  let name := cs_ContainerName (dc_Spec cr) in
  m_Containers (w_Docker w) = pre ++ t :: post → well_formed name (pre ++ t :: post) →
  none_of (named name) pre → named name t = true →
  secrets_resolve cr w → cs_SecretVolumes (dc_Spec cr) = [] →
  ∃ m', after (syncContainer cli cr) w = (Returned (Ok tt), set_docker m' (noted t w)) ∧
    ∃ pre t post, settled (dc_Spec cr) m' pre t post.
Proof.
  intros cr name Hm Hwf Hpre Ht Hsec Hvol.
  destruct (wf_ids _ _ Hwf pre t post eq_refl) as [Hid1 Hid2].
  pose proof (wf_name _ _ Hwf pre t post eq_refl Ht) as Hpost.
  assert (c_Names t ≠ []) as Hn.
  { pose proof (wf_names _ _ Hwf) as Hns. eapply Forall_forall in Hns; [exact Hns|set_solver]. }
  pose proof (sync_target cli w pre t post Hm Hpre Ht Hid1 Hn) as Hsync. cbv zeta in Hsync. fold cr in Hsync.
  rewrite Hsync. clear Hsync.
  assert ((if negb (String.eqb (c_State t) "running") then set_docker (ContainerStart (c_ID t) (w_Docker w)).2 (noted t w)
           else noted t w) = set_docker (started_if t (w_Docker w)) (noted t w)) as ->.
  { unfold started_if. by destruct (negb _). }
  pose proof (started_if_list _ pre t post Hm Hid1 Hid2) as Hm2. fold cr.
  destruct (needsRecreate (describe (w_Docker w) t) (dc_Spec cr)) eqn:Hdrift.
  - destruct (recreate_after cli (w_Object (noted t w)) (set_docker (started_if t (w_Docker w)) (noted t w)) pre
      (with_state "running" t) post Hsec Hvol Hm2 Hid1 Hid2) as (m' & t' & Hrun & Hset).
    + by apply none_app.
    + apply (no_other name pre t post Hwf). by apply none_app.
    + exists m'. split; [exact Hrun|]. by eexists _, _, _.
  - eexists. split; [done|]. exists pre, (with_state "running" t), post. split; try done.
    by rewrite started_if_same.
Qed.
Lemma sync_settles cli w :
  let cr := w_Object w in
  well_formed (cs_ContainerName (dc_Spec cr)) (m_Containers (w_Docker w)) →
  secrets_resolve cr w → cs_SecretVolumes (dc_Spec cr) = [] →
  ∃ m' st, after (syncContainer cli cr) w = (Returned (Ok tt), set_docker m' (set_object (set_cr_status st cr) w)) ∧
    ∃ pre t post, settled (dc_Spec cr) m' pre t post.
Proof.
  intros cr Hwf Hsec Hvol. set (name := cs_ContainerName (dc_Spec cr)).
  destruct (List.find (named name) (m_Containers (w_Docker w))) as [t|] eqn:Hfind.
  - apply find_split in Hfind as (pre & post & Hm & Hpre & Ht). rewrite Hm in Hwf.
    destruct (sync_settles_found cli w pre t post Hm Hwf Hpre Ht Hsec Hvol) as (m' & Hrun & Hs).
    exists m', (status_of (w_Docker w) t (ip_of t)). done.
  - unfold syncContainer. rewrite (after_call (DContainerList _) _ w (ContainerList (w_Docker w)) w) by by destruct w.
    cbn [ContainerList]. fold name. rewrite find_target_named, Hfind. cbn [fmap option_fmap option_map].
    destruct (create_after cli cr w Hsec Hvol) as (auth & env & Henv & ->). apply find_none in Hfind.
    eexists _, (dc_Status cr). unfold cr. rewrite set_status_same, set_object_same. split; [done|].
    eexists _. destruct (brought_up_settled (dc_Spec cr) auth env (w_Docker w) Henv Hfind) as [t Hs]; [|by eauto].
    apply Forall_forall. intros c Hc. apply not_true_is_false. intros Hmc.
    apply (wf_new name _ Hwf) in Hmc; [|done]. eapply Forall_forall in Hfind; [|exact Hc]. simpl in Hfind. congruence.
Qed.

(** ** The reconcile loop *)
Context {L : ThirdPartyLaws T}.
(** The reconciler of the tests: the daemon is injected, no client is cached. *)
Definition test_reconciler (cli : client) : Reconciler := {| r_DockerClient := Some cli; r_dockerClients := ∅ |}.
Definition reconciled (cli : client) : Reconciler * reconcile_result :=
  (test_reconciler cli, ({| RequeueAfter := Time.minute |}, None)).
(** A DockerContainer on the default host that is not being deleted. *)
Record ready (req : NamespacedName) (w : world) : Prop := {
  rd_key : key_of (dc_Meta (w_Object w)) = req;
  rd_alive : not_deleting (dc_Meta (w_Object w)) = true;
  rd_host : host_name (cs_DockerHostRef (dc_Spec (w_Object w))) = "default";
  rd_volumes : cs_SecretVolumes (dc_Spec (w_Object w)) = [];
  rd_secrets : secrets_resolve (w_Object w) w
}.
Definition with_finalizer (w : world) : world :=
  if ContainsFinalizer (dc_Meta (w_Object w)) finalizerName then w
  else set_object (set_meta (AddFinalizer (dc_Meta (w_Object w)) finalizerName) (w_Object w)) w.
Lemma default_client cli ns ref w :
  host_name ref = "default" →
  after (getDockerClient ns ref (test_reconciler cli)) w = (Returned (test_reconciler cli, Ok cli), w).
Proof.
  intros Href. unfold getDockerClient, resolve. rewrite Href. cbn [r_dockerClients test_reconciler].
  rewrite lookup_empty. unfold find_host. rewrite (after_call (KGet KDockerHost _) _ w (Err not_found) w) by done.
  cbn [err_IsNotFound not_found]. unfold after. by destruct (String.eqb ns "system").
Qed.
Lemma reconcile_after cli req w :
  ready req w →
  after (Reconcile req (test_reconciler cli)) w =
    match after (syncContainer cli (w_Object (with_finalizer w))) (with_finalizer w) with
    | (Returned (Ok _), w') => (Returned (reconciled cli), w')
    | (Returned (Err err), w') => (Returned (test_reconciler cli, (no_requeue, Some err)), w')
    | (Panicked s, w') => (Panicked s, w')
    end.
Proof.
  intros []. unfold Reconcile. cbv zeta.
  rewrite (after_call (KGet KDockerContainer req) _ w (Ok (w_Object w)) w) by (by unfold answer, get; rewrite decide_True).
  rewrite after_bind, default_client by done. rewrite rd_alive0, after_bind.
  assert (after (if negb (ContainsFinalizer (dc_Meta (w_Object w)) finalizerName)
           then let! u := KUpdate KDockerContainer
                  (set_meta (AddFinalizer (dc_Meta (w_Object w)) finalizerName) (w_Object w)) in Return u
           else Return (Ok (w_Object w))) w = (Returned (Ok (w_Object (with_finalizer w))), with_finalizer w)) as Hfin.
  { unfold with_finalizer. destruct (ContainsFinalizer _ _); [done|]. cbn [negb].
    set (o := set_meta _ _).
    rewrite (after_call (KUpdate KDockerContainer o) _ w (Ok o) (set_object o w)); [done|].
    unfold answer, update. rewrite decide_True; [done|]. symmetry. apply add_key. }
  rewrite Hfin, after_bind.
  destruct (after (syncContainer _ _) _) as [[[[]|err]|why] w']; done.
Qed.
Lemma finalizer_ready req w : ready req w → ready req (with_finalizer w) ∧
  ContainsFinalizer (dc_Meta (w_Object (with_finalizer w))) finalizerName = true.
Proof.
  intros Hr. unfold with_finalizer. destruct (ContainsFinalizer _ _) eqn:Hc; [done|]. destruct Hr.
  split; [split; try done; simpl|apply contains_add].
  - by rewrite add_key.
  - unfold not_deleting in *. by rewrite add_deletion.
  - intros w' Hw'. cbn [w_Object set_object set_meta dc_Meta dc_Spec].
    pose proof (add_key (dc_Meta (w_Object w)) finalizerName) as [= -> _]. by apply rd_secrets0.
Qed.
(** A reconcile of a settled daemon writes the status, once. *)
Lemma reconcile_settled cli req w pre t post :
  ready req w → ContainsFinalizer (dc_Meta (w_Object w)) finalizerName = true →
  settled (dc_Spec (w_Object w)) (w_Docker w) pre t post →
  after (Reconcile req (test_reconciler cli)) w = (Returned (reconciled cli), noted t w).
Proof.
  intros Hr Hfin Hset. rewrite reconcile_after by done. unfold with_finalizer. rewrite Hfin.
  by rewrite (sync_settled cli w pre t post).
Qed.
Lemma noted_twice t w : noted t (noted t w) = noted t w.
Proof. done. Qed.
Lemma noted_ready req t w : ready req w → ready req (noted t w).
Proof. intros []. by split. Qed.

(** C3. With the daemon of the tests the controller converges: whatever containers there are and
    whatever the object's status says, two reconciles succeed, after which the object carries the
    finalizer, the container with its name runs with the configuration the specification asks for,
    and the status is what the daemon says of that container; a third reconcile (and so every later
    one) succeeds and changes nothing.  The object must not be being deleted, be on the default
    host, have readable secrets and no secret volumes. *)
Theorem container_converges cli req w :
  ready req w → well_formed (cs_ContainerName (dc_Spec (w_Object w))) (m_Containers (w_Docker w)) →
  ∃ w1 w2, after (Reconcile req (test_reconciler cli)) w = (Returned (reconciled cli), w1) ∧
    after (Reconcile req (test_reconciler cli)) w1 = (Returned (reconciled cli), w2) ∧
    after (Reconcile req (test_reconciler cli)) w2 = (Returned (reconciled cli), w2) ∧
    ContainsFinalizer (dc_Meta (w_Object w2)) finalizerName = true ∧
    dc_Spec (w_Object w2) = dc_Spec (w_Object w) ∧
    ∃ pre t post, settled (dc_Spec (w_Object w)) (w_Docker w2) pre t post ∧
      dc_Status (w_Object w2) = status_of (w_Docker w2) t (ip_of t).
Proof.
  intros Hr Hwf. rewrite reconcile_after by done. destruct (finalizer_ready req w Hr) as [Hr1 Hfin].
  assert (w_Docker (with_finalizer w) = w_Docker w ∧ dc_Spec (w_Object (with_finalizer w)) = dc_Spec (w_Object w))
    as [Hdocker Hspec].
  { unfold with_finalizer. destruct (ContainsFinalizer (dc_Meta (w_Object w)) finalizerName); split; reflexivity. }
  destruct (sync_settles cli (with_finalizer w)) as (m' & st & -> & pre & t & post & Hset);
    [by rewrite Hdocker, Hspec|apply (rd_secrets _ _ Hr1)|apply (rd_volumes _ _ Hr1)|].
  set (w1 := set_docker m' (set_object (set_cr_status st (w_Object (with_finalizer w))) (with_finalizer w))).
  assert (ready req w1) as Hr2 by (destruct Hr1; by split).
  assert (settled (dc_Spec (w_Object w1)) (w_Docker w1) pre t post) as Hset' by done.
  exists w1, (noted t w1). split; [done|].
  rewrite (reconcile_settled cli req w1 pre t post Hr2 Hfin Hset'). split; [done|].
  rewrite (reconcile_settled cli req (noted t w1) pre t post (noted_ready _ _ _ Hr2) Hfin Hset').
  split; [by rewrite noted_twice|]. split; [done|]. split; [done|].
  exists pre, t, post. by rewrite <- Hspec.
Qed.
End convergence.

(** ** A concrete run *)
(** The object is new; the daemon runs another container and has a stopped one of its name, made
    from an older image. *)
Definition test_world : world :=
  {| w_Object := {| dc_Meta := sample_meta "web" [] 0; dc_Spec := nginx;
                    dc_Status := {| cst_ID := ""; cst_State := ""; cst_Health := ""; cst_IPv4 := "" |} |};
     w_Secrets := ∅;
     w_Docker := {| m_Containers :=
                      [{| mc_Summary := {| csm_ID := "a1"; csm_Names := ["/db"]; csm_Image := "postgres";
                                           csm_State := "running" |};
                          mc_Networks := None |};
                       {| mc_Summary := {| csm_ID := "b2"; csm_Names := ["/web"]; csm_Image := "nginx:old";
                                           csm_State := "exited" |};
                          mc_Networks := None |}];
                    m_Created := []; m_Removed := []; m_Started := []; m_LastHostConfig := None;
                    m_LastConfig := None; m_LastPullOptions := ""; m_HealthStatus := "healthy" |} |}.
Lemma test_world_ready : ready (T := plain_third_party) {| nn_Namespace := "prod"; nn_Name := "web" |} test_world.
Proof. split; try done. intros w' _. split; by eexists. Qed.
Lemma test_world_well_formed : well_formed "web" (m_Containers (w_Docker test_world)).
Proof.
  split; simpl.
  - by repeat constructor.
  - intros [|c1 [|c2 [|c3 pre]]] c post [=]; subst; split; by repeat constructor.
  - intros [|c1 [|c2 [|c3 pre]]] c post [=]; subst; by repeat constructor.
  - intros c Hc. apply elem_of_cons in Hc as [->|Hc]; [done|]. by apply list_elem_of_singleton in Hc as ->.
Qed.
Lemma container_converges_witness :
  ready (T := plain_third_party) {| nn_Namespace := "prod"; nn_Name := "web" |} test_world ∧
  well_formed "web" (m_Containers (w_Docker test_world)) ∧
  ∃ w1 w2, after (@Reconcile plain_third_party {| nn_Namespace := "prod"; nn_Name := "web" |} (test_reconciler 1)) test_world
             = (Returned (reconciled 1), w1) ∧
    after (@Reconcile plain_third_party {| nn_Namespace := "prod"; nn_Name := "web" |} (test_reconciler 1)) w1
             = (Returned (reconciled 1), w2) ∧
    m_Removed (w_Docker w2) = ["b2"] ∧ m_Started (w_Docker w2) = ["b2"; "mock-id-web"] ∧
    dc_Status (w_Object w2) = {| cst_ID := "mock-id-web"; cst_State := "running"; cst_Health := "healthy"; cst_IPv4 := "" |}.
Proof.
  split; [exact test_world_ready|]. split; [exact test_world_well_formed|].
  destruct (@container_converges plain_third_party plain_third_party_laws 1 {| nn_Namespace := "prod"; nn_Name := "web" |}
    test_world test_world_ready test_world_well_formed) as (w1 & w2 & H1 & H2 & _).
  exists w1, w2. split; [exact H1|]. split; [exact H2|].
  assert (w1 = (Returned (reconciled 1), w1).2) as E1 by done. rewrite <- H1 in E1.
  assert (w2 = (Returned (reconciled 1), w2).2) as E2 by done. rewrite <- H2, E1 in E2.
  rewrite E2. split; [vm_compute; reflexivity|]. split; vm_compute; reflexivity.
Defined.
