(* ===== verification/JobTheorems.v ===== *)
(** * Properties of the DockerJob controller

    One run of JobController.v: the status a sync writes and what justifies it, the order of a
    start, the deadline, the TTL and the finalizer protocol. *)
From S2P Require Import Prelude GoStd Effects Api World Common Lifecycle CommonTheorems JobController.
Local Open Scope Z_scope.

(** Run over calls whose answers do not matter. *)
Ltac wp_intros := repeat (simpl; intros ? _); simpl.

(** The trace holds exactly one status update: what justifies it is left. *)
Ltac one_update :=
  split_and!; [apply List.Forall_cons; [simpl|exact (List.Forall_nil _)]|simpl; lia|by eexists].

(** ** Reading a trace *)
(** The DockerJobs written with [Status().Update], in order. *)
Definition job_update (e : event ans) : option DockerJob :=
  match e with
  | Ev (KStatusUpdate k o) _ =>
      match k return obj k → option DockerJob with
      | KDockerJob => λ job, Some job
      | _ => λ _, None
      end o
  | _ => None
  end.
Definition job_updates (tr : go_trace) : list DockerJob := omap job_update tr.

(** The trace contains a successful start; a stop. *)
Definition start_ok (e : event ans) : bool :=
  match e with Ev (DContainerStart _ _) r => is_ok r | _ => false end.
Definition is_stop (e : event ans) : bool :=
  match e with Ev (DContainerStop _ _ _) _ => true | _ => false end.

Lemma job_updates_app tr1 tr2 : job_updates (tr1 ++ tr2) = job_updates tr1 ++ job_updates tr2.
Proof. apply omap_app. Qed.

(** What the monitor has seen when it says [Started]. *)
Lemma lifecycle_started volumes s tr id :
  accepts (lifecycle volumes) s tr = Some (Started id) → (∀ id', s ≠ Started id') →
  existsb start_ok tr = true.
Proof.
  revert s. induction tr as [|e tr IH]; intros s; simpl; [intros [= ->] Hs; by destruct (Hs id)|].
  destruct (lifecycle volumes s e) as [s'|] eqn:He; [|done]. intros Hacc Hs.
  apply orb_true_iff. destruct (start_ok e) eqn:Hst; [by left|right].
  apply (IH s' Hacc). intros id' ->. destruct e as [o x].
  destruct o; simpl in *; repeat (case_match; simplify_eq/=; try done); by destruct (Hs id'); congruence.
Qed.

Lemma lifecycle_no_updates volumes s tr s' :
  accepts (lifecycle volumes) s tr = Some s' → job_updates tr = [].
Proof.
  revert s. induction tr as [|e tr IH]; intros s; simpl; [done|].
  destruct (lifecycle volumes s e) as [s1|] eqn:He; [|done]. intros Hacc.
  assert (job_update e = None) as ->.
  { destruct e as [o x]. by destruct o. }
  by eapply IH.
Qed.
Lemma lifecycle_no_stop volumes s tr s' :
  accepts (lifecycle volumes) s tr = Some s' → existsb is_stop tr = false.
Proof.
  revert s. induction tr as [|e tr IH]; intros s; simpl; [done|].
  destruct (lifecycle volumes s e) as [s1|] eqn:He; [|done]. intros Hacc.
  destruct e as [o x]. by destruct o; simpl in *; eauto.
Qed.

Lemma lifecycle_not_started volumes s tr s' :
  accepts (lifecycle volumes) s tr = Some s' → (∀ id, s' ≠ Started id) → existsb start_ok tr = false.
Proof.
  assert (∀ tr id, accepts (lifecycle volumes) (Started id) tr = Some s' → s' = Started id) as Hdone.
  { clear. induction tr as [|e tr IH]; simpl; intros id; [by intros [=]|].
    destruct (lifecycle volumes (Started id) e) as [s|] eqn:He; [|done]. intros Hacc.
    assert (s = Started id) as ->; [|by apply IH].
    destruct e as [o x]. destruct o; simpl in *; try case_decide; congruence. }
  revert s. induction tr as [|e tr IH]; intros s; simpl; [done|].
  destruct (lifecycle volumes s e) as [s1|] eqn:He; [|done]. intros Hacc Hs'.
  apply orb_false_iff. split; [|by eapply IH].
  destruct e as [o x]. destruct o; try done. simpl in *. destruct s; try done. case_decide; [|done].
  destruct (is_ok x); [|done]. simplify_eq. by destruct (Hs' _ (Hdone _ _ Hacc)).
Qed.

(** What a createAndStartContainer leaves in the trace: no status update, and a
    successful start exactly when it returns nil. *)
Definition creation (tr : go_trace) (o : outcome (res unit)) : Prop :=
  job_updates tr = [] ∧ existsb is_stop tr = false ∧
  match o with
  | Returned r => existsb start_ok tr = is_ok r
  | Panicked _ => False
  end.

(** ** What justifies a status *)
(** The inspection showed a container that has run to an end with this exit code. *)
Definition exited_with (i : res ContainerJSON) (code : Z) : Prop :=
  ∃ c st, i = Ok c ∧ cj_State c = Some st ∧ st_Running st = false ∧ st_Status st = "exited" ∧
          Int.int32 (st_ExitCode st) = code.
Definition seen_running (i : res ContainerJSON) : Prop :=
  ∃ c st, i = Ok c ∧ cj_State c = Some st ∧ st_Running st = true.

(** What must have been observed ([i]: the inspection, [tr]: the calls after it)
    before a status may say what [job] says. *)
Definition justified (i : res ContainerJSON) (tr : go_trace) (job : DockerJob) : Prop :=
  let st := dj_Status job in
  match jst_Phase st with
  | JobPhaseSucceeded =>
      exited_with i 0 ∧ jst_ExitCode st = Some 0 ∧ is_Some (jst_CompletionTime st)
  | JobPhaseFailed =>
      is_Some (jst_CompletionTime st) ∧ existsb start_ok tr = false ∧
      ((∃ code, code ≠ 0 ∧ exited_with i code ∧ jst_ExitCode st = Some code) ∨
       (seen_running i ∧ existsb is_stop tr = true) ∨
       (∃ e, i = Err e ∧ err_IsNotFound e = true))
  | JobPhaseRunning => existsb start_ok tr = true ∨ seen_running i
  | _ => False
  end.
Definition truthful (i : res ContainerJSON) (tr : go_trace) (o : outcome reconcile_result) : Prop :=
  Forall (justified i tr) (job_updates tr) ∧ (length (job_updates tr) ≤ 1)%nat ∧ ∃ r, o = Returned r.

Section job_theorems.
Context {T : ThirdParty}.

Lemma job_create_ordered cli job :
  ordered (length (js_SecretVolumes (dj_Spec job))) Idle (createAndStartContainer cli job) started_iff_ok.
Proof.
  unfold createAndStartContainer. apply ordered_quiet; [auto with go|]. intros [auth|e]; [|done].
  intros p _. eexists. split; [done|]. destruct p as [[]|e]; [|done].
  intros d _. eexists. split; [done|].
  apply ordered_quiet; [auto with go|]. intros [env|e]; [|done].
  by apply create_upload_start.
Qed.

Lemma create_wp cli job : wp anything (createAndStartContainer cli job) creation.
Proof.
  eapply wp_mono; [|apply guarded_wp, job_create_ordered].
  intros tr o (s & Hacc & Ho). split_and!; [by eapply lifecycle_no_updates| |].
  - by eapply lifecycle_no_stop.
  - destruct o as [[u|e]|w]; [..|done]; simpl in *.
    + destruct Ho as [id ->]. by eapply lifecycle_started.
    + by eapply lifecycle_not_started.
Qed.

(** The cleanup after the last status update neither updates nor starts. *)
Definition cleanup_only (tr : go_trace) (o : outcome reconcile_result) : Prop :=
  job_updates tr = [] ∧ existsb start_ok tr = false ∧ existsb is_stop tr = false ∧ ∃ r, o = Returned r.
Lemma ttl_wp cli job : wp anything (handleTTLCleanup cli job) cleanup_only.
Proof.
  unfold handleTTLCleanup, cleanup_only. repeat (case_match; simpl; eauto 10).
  intros now _. case_match; simpl; eauto 10.
Qed.

Lemma start_first_truthful cli job e :
  err_IsNotFound e = true → wp anything (start_first cli job) (truthful (Err e)).
Proof.
  intros He. apply wp_bind. eapply wp_mono; [|apply create_wp].
  intros tr [[u|err]|w] (Hupd & Hstop & Hst); [| |done]; simpl; unfold truthful;
    intros now _ u' _; rewrite !job_updates_app, Hupd; simpl.
  - split_and!; [|lia|eauto]. constructor; [|constructor]. left. simpl.
    by rewrite existsb_app, Hst.
  - split_and!; [|lia|eauto]. constructor; [|constructor].
    split_and!; simpl; [done|by rewrite existsb_app, Hst|eauto].
Qed.

Lemma still_running_truthful cli job c st :
  cj_State c = Some st → st_Running st = true →
  wp anything (still_running cli job (cj_ID c)) (truthful (Ok c)).
Proof.
  intros Hc Hst. assert (seen_running (Ok c)) as Hseen by (by exists c, st).
  unfold still_running, truthful.
  destruct (js_ActiveDeadlineSeconds _), (jst_StartTime _); simpl.
  1: intros now _; destruct (Time.After _ _); simpl.
  1: wp_intros; one_update; split_and!; eauto 10.
  all: destruct (negb _); wp_intros; [one_update; by right|].
  all: split_and!; [constructor|simpl; lia|by eexists].
Qed.

Lemma container_exited_truthful cli job c st now :
  cj_State c = Some st → st_Running st = false → st_Status st = "exited" →
  wp anything (container_exited cli job (cj_ID c) (Int.int32 (st_ExitCode st)) now) 
    (λ tr, truthful (Ok c) (Ev TimeNow now :: tr)).
Proof.
  intros Hc Hrun Hst. set (code := Int.int32 (st_ExitCode st)).
  assert (exited_with (Ok c) code) as Hex by (by exists c, st).
  unfold container_exited. destruct (Z.eqb_spec code 0) as [H0|H0]; [|case_match].
  - intros u _. eapply wp_mono; [|apply ttl_wp].
    intros tr o (Hupd & Hst' & Hstop & r & ->). unfold truthful. simpl. rewrite Hupd.
    one_update. rewrite H0 in *. split_and!; [done..|by eexists].
  - intros rm _. apply wp_bind. eapply wp_mono; [|apply create_wp].
    intros tr [[u|err]|w] (Hupd & Hstop & Hst'); [| |done]; simpl; unfold truthful; wp_intros;
      rewrite !job_updates_app, Hupd; simpl; one_update.
    + left. simpl. by rewrite existsb_app, Hst'.
    + split; [by eexists|]. split; [simpl; by rewrite existsb_app, Hst'|]. eauto.
  - intros u _. eapply wp_mono; [|apply ttl_wp].
    intros tr o (Hupd & Hst' & Hstop & r & ->). unfold truthful. simpl. rewrite Hupd.
    one_update. split; [by eexists|]. split; [simpl; by rewrite Hst'|]. eauto.
Qed.
End job_theorems.

(** C6. Every status a sync writes is true of what it saw: one sync writes at most
    one status and does not panic; Succeeded only after Docker reported the
    container exited with code 0; Failed only with no container started in this
    sync, because the container exited with another code, or was running and has
    been stopped for its deadline, or could not be created; Running only if the
    container runs or was started just now. *)
Theorem syncJob_truthful {T : ThirdParty} cli job :
  wp anything (syncJob cli job) (λ tr o,
    ∃ i tr', tr = Ev (DContainerInspect cli (containerName job)) i :: tr' ∧ truthful i tr' o).
Proof.
  intros i _. apply (wp_mono _ _ (truthful i)); [eauto|].
  assert (∀ r, truthful i [] (Returned r)) as Hnone by (unfold truthful; simpl; eauto with lia).
  destruct i as [c|e].
  - destruct (cj_State c) as [st|] eqn:Hc; [|apply Hnone].
    destruct (st_Running st) eqn:Hrun; [by eapply still_running_truthful|].
    destruct (String.eqb_spec (st_Status st) "exited"); [|apply Hnone].
    intros now _. by apply container_exited_truthful.
  - destruct (err_IsNotFound e) eqn:He; [|apply Hnone].
    by apply start_first_truthful.
Qed.

(** A DockerJob's container is brought up in one order only: pull, create, copy
    every secret volume into it, start; a failing call ends the sequence, the function
    returns nil exactly when the start succeeded, and nothing panics. *)
Theorem job_start_order {T : ThirdParty} cli job :
  wp anything (createAndStartContainer cli job) (λ tr o, ∃ s,
    accepts (lifecycle (length (js_SecretVolumes (dj_Spec job)))) Idle tr = Some s ∧ started_iff_ok s o).
Proof. apply guarded_wp, job_create_ordered. Qed.

(** ** Deadlines *)
(** C8. ActiveDeadlineSeconds: one look at the clock decides.  A running container is
    stopped, removed and the job marked Failed exactly when more than the deadline has
    passed since the start; otherwise it is left alone and looked at again in five
    seconds.  Deadlines of up to 9223372036 seconds are meant exactly; beyond that the
    duration overflows: 9223372037 seconds make a negative deadline, which has passed
    when the container starts. *)
Theorem deadline_enforced cli job id limit start :
  js_ActiveDeadlineSeconds (dj_Spec job) = Some limit →
  jst_StartTime (dj_Status job) = Some start →
  wp anything (still_running cli job id) (λ tr o, ∃ now rest, tr = Ev TimeNow now :: rest ∧
    if start + Time.seconds limit <? now
    then o = Returned done_ok ∧ ∃ t job', ev_op <$> rest =
           [DContainerStop cli id 10; DContainerRemove cli id true; t; KStatusUpdate KDockerJob job'] ∧
           jst_Phase (dj_Status job') = JobPhaseFailed
    else o = Returned (requeue_after (5 * Time.second)) ∧ Forall (λ e, quiet (ev_op e) ∨ is_Some (job_update e)) rest) ∧
  (0 ≤ limit ≤ 9223372036 → Time.seconds limit = limit * Time.second) ∧
  Time.seconds 9223372037 < 0.
Proof.
  intros Hlimit Hstart. split; [|split; [intros ?; apply Time.seconds_id; lia|reflexivity]].
  unfold still_running. rewrite Hlimit, Hstart. simpl. intros now _.
  unfold Time.After, Time.Add. destruct (start + Time.seconds limit <? now) eqn:Hlt; simpl.
  - intros st _ rm _ t _ u _. eexists now, _. split; [done|]. rewrite Hlt. split; [done|].
    eexists _, _. simpl. by split.
  - destruct (negb _); simpl; [intros u _|]; eexists now, _; (split; [done|]); rewrite Hlt; (split; [done|]).
    + apply Forall_singleton. right. by eexists.
    + apply Forall_nil_2.
Qed.
Definition sample_job (spec : DockerJobSpec) (st : DockerJobStatus) : DockerJob :=
  {| dj_Meta := new_meta "job" "prod" ∅; dj_Spec := spec; dj_Status := st |}.
Definition sample_spec (backoff : Z) (deadline ttl : option Z) : DockerJobSpec :=
  {| js_Image := "busybox"; js_ContainerName := ""; js_Command := ["false"]; js_Args := []; js_Env := [];
     js_EnvVars := []; js_VolumeMounts := []; js_SecretVolumes := []; js_DockerHostRef := "";
     js_ImagePullSecret := ""; js_RestartPolicy := "Never"; js_BackoffLimit := backoff;
     js_ActiveDeadlineSeconds := deadline; js_TTLSecondsAfterFinished := ttl; js_Resources := None |}.
Definition sample_status (phase : DockerJobPhase) (start completion : option Z) : DockerJobStatus :=
  {| jst_Phase := phase; jst_ContainerID := "c1"; jst_StartTime := start; jst_CompletionTime := completion;
     jst_ExitCode := None; jst_Attempts := 1; jst_Message := "" |}.
Lemma deadline_enforced_witness :
  let job := sample_job (sample_spec 0 (Some 30) None) (sample_status JobPhaseRunning (Some 100) None) in
  wp anything (still_running 1%positive job "c1") (λ tr o, ∃ now rest, tr = Ev TimeNow now :: rest ∧
    if 100 + Time.seconds 30 <? now
    then o = Returned done_ok ∧ ∃ t job', ev_op <$> rest =
           [DContainerStop 1%positive "c1" 10; DContainerRemove 1%positive "c1" true; t; KStatusUpdate KDockerJob job'] ∧
           jst_Phase (dj_Status job') = JobPhaseFailed
    else o = Returned (requeue_after (5 * Time.second)) ∧ Forall (λ e, quiet (ev_op e) ∨ is_Some (job_update e)) rest).
Proof.
  exact (proj1 (deadline_enforced 1%positive
    (sample_job (sample_spec 0 (Some 30) None) (sample_status JobPhaseRunning (Some 100) None)) "c1" 30 100
    eq_refl eq_refl)).
Defined.

(** ** Time to live *)
(** A clock that is not more than 2^62 ns (146 years) behind [completion]. *)
Definition clock_after (completion : Z) (o : op) : ans o → Prop :=
  match o with TimeNow => λ now, completion - 2 ^ 62 ≤ now | _ => λ _, True end.

(** C9. TTLSecondsAfterFinished: the TTL decides about the Docker container of a finished job,
    never about the DockerJob object.  Before completion + TTL nothing is called but the clock,
    and the job is looked at again after a positive delay that ends exactly when the TTL does;
    from that instant on (equality included) the one call made is a forced removal of the job's
    own container, once, with a nil result whatever its answer. *)
Theorem ttl_respected cli job ttl completion :
  js_TTLSecondsAfterFinished (dj_Spec job) = Some ttl → Int.in_int32 ttl →
  jst_CompletionTime (dj_Status job) = Some completion →
  wp (clock_after completion) (handleTTLCleanup cli job) (λ tr o, ∃ now rest, tr = Ev TimeNow now :: rest ∧
    let due := completion + ttl * Time.second in
    if now <? due
    then rest = [] ∧ ∃ d, o = Returned (requeue_after d) ∧ 0 < d ∧ now + d = due
    else ev_op <$> rest = [DContainerRemove cli (containerName job) true] ∧ o = Returned done_ok).
Proof.
  intros Httl Hrange Hdone. unfold handleTTLCleanup. rewrite Httl, Hdone. intros now Hnow. simpl in Hnow.
  unfold Int.in_int32 in Hrange. rewrite Time.seconds_id by (revert Hrange; eval_pow2; lia).
  assert ((Time.Sub now completion <? ttl * Time.second) = (now <? completion + ttl * Time.second)) as Hiff.
  { unfold Time.Sub, Time.min_duration, Time.max_duration, Time.second. revert Hnow Hrange. eval_pow2. intros.
    apply eq_bool_prop_intro. rewrite !Is_true_true, !Z.ltb_lt. lia. }
  rewrite Hiff. destruct (Z.ltb_spec now (completion + ttl * Time.second)) as [Hlt|Hge]; simpl.
  - eexists now, _. split; [done|]. rewrite (proj2 (Z.ltb_lt _ _)) by done. split; [done|].
    eexists. split; [done|].
    assert (Time.Sub now completion = now - completion) as ->.
    { unfold Time.Sub, Time.min_duration, Time.max_duration, Time.second in *. revert Hnow Hrange Hlt. eval_pow2. lia. }
    rewrite Int.int64_id; [lia|]. unfold Int.in_int64, Time.second in *. revert Hnow Hrange. eval_pow2. lia.
  - intros rm _. eexists now, _. split; [done|]. by rewrite (proj2 (Z.ltb_ge _ _)).
Qed.
Lemma ttl_respected_witness :
  let job := sample_job (sample_spec 0 None (Some 60)) (sample_status JobPhaseSucceeded None (Some 5)) in
  Int.in_int32 60 ∧
  wp (clock_after 5) (handleTTLCleanup 1%positive job) (λ tr o, ∃ now rest, tr = Ev TimeNow now :: rest ∧
    let due := 5 + 60 * Time.second in
    if now <? due
    then rest = [] ∧ ∃ d, o = Returned (requeue_after d) ∧ 0 < d ∧ now + d = due
    else ev_op <$> rest = [DContainerRemove 1%positive "job-job" true] ∧ o = Returned done_ok).
Proof.
  assert (Int.in_int32 60) as H by (unfold Int.in_int32; lia). split; [exact H|].
  exact (ttl_respected 1%positive
    (sample_job (sample_spec 0 None (Some 60)) (sample_status JobPhaseSucceeded None (Some 5))) 60 5 eq_refl H eq_refl).
Defined.

(** ** The finalizer protocol, and finished jobs *)
Definition got_job (e : event ans) : option (res DockerJob) :=
  match e with
  | Ev (KGet k _) x =>
      match k return res (obj k) → option (res DockerJob) with
      | KDockerJob => λ r, Some r
      | _ => λ _, None
      end x
  | _ => None
  end.
Definition updated_job (e : event ans) : option (DockerJob * res DockerJob) :=
  match e with
  | Ev (KUpdate k u) x =>
      match k return obj k → res (obj k) → option (DockerJob * res DockerJob) with
      | KDockerJob => λ u r, Some (u, r)
      | _ => λ _ _, None
      end u x
  | _ => None
  end.
(** An accepted [Update] leaves the status, a subresource, alone. *)
Definition keeps_job (o : op) : ans o → Prop :=
  match o with
  | KUpdate k u =>
      match k return obj k → res (obj k) → Prop with
      | KDockerJob => λ u r, ∀ u', r = Ok u' → dj_Status u' = dj_Status u
      | _ => λ _ _, True
      end u
  | _ => λ _, True
  end.

Inductive job_line :=
| JobUnread
| JobAbsent
| JobLive (job : DockerJob) (protected : bool)
| JobDeleting (job : DockerJob)
| JobRemoved (job : DockerJob) (answer : res unit)    (* its container was to be removed: the answer *)
| JobReleased.

Definition job_finished (job : DockerJob) : bool := is_terminal (jst_Phase (dj_Status job)).
Definition removes (name : string) (o : op) : bool :=
  match o with DContainerRemove _ n force => String.eqb n name && force | _ => false end.

Section job_protocol.
Context {T : ThirdParty}.

Definition job_protocol (s : job_line) (e : event ans) : option job_line :=
  match s with
  | JobUnread =>
      match got_job e with
      | Some (Ok job) =>
          Some (if not_deleting (dj_Meta job) then JobLive job (ContainsFinalizer (dj_Meta job) finalizerName)
                else JobDeleting job)
      | Some (Err _) => Some JobAbsent
      | None => None
      end
  | JobLive job protected =>
      match updated_job e with
      | Some (u, answer) =>
          if protected then None
          else if bool_decide (u = set_meta (AddFinalizer (dj_Meta job) finalizerName) job)
               then Some (match answer with Ok job' => JobLive job' true | Err _ => JobLive job false end)
               else None
      | None =>
          if changes_host (ev_op e) || bool_decide (is_Some (job_update e)) then
            if protected && (negb (job_finished job) || removes (containerName job) (ev_op e))
            then Some s else None
          else Some s
      end
  | JobDeleting job =>
      match updated_job e with
      | Some _ => None
      | None =>
          match e with
          | Ev (DContainerRemove _ name force) r =>
              if String.eqb name (containerName job) && force then Some (JobRemoved job r) else None
          | _ => if changes_host (ev_op e) || bool_decide (is_Some (job_update e)) then None else Some s
          end
      end
  | JobRemoved job _ =>
      match updated_job e with
      | Some (u, _) =>
          if bool_decide (u = set_meta (RemoveFinalizer (dj_Meta job) finalizerName) job)
          then Some JobReleased else None
      | None => None
      end
  | JobAbsent | JobReleased =>
      match updated_job e with
      | Some _ => None
      | None => if changes_host (ev_op e) || bool_decide (is_Some (job_update e)) then None else Some s
      end
  end.

Lemma job_protocol_scoped s ns o x :
  s ≠ JobUnread → (∀ job r, s ≠ JobRemoved job r) → scoped ns o → job_protocol s (Ev o x) = Some s.
Proof. intros Hs Hr Ho. destruct o; destruct s; naive_solver. Qed.

(** Everything a sync does. *)
Definition job_syncing (o : op) : Prop := match o with KUpdate _ _ => False | _ => True end.
Lemma job_protocol_syncing job o x :
  job_finished job = false → job_syncing o → job_protocol (JobLive job true) (Ev o x) = Some (JobLive job true).
Proof. intros Hf Ho. destruct o; try done; simpl; rewrite ?Hf; simpl; by repeat case_match. Qed.

Lemma job_create_calls cli job : calls creating (createAndStartContainer cli job).
Proof.
  assert (∀ o, quiet o → creating o) as Hq by (by left).
  unfold createAndStartContainer. apply calls_quiet_bind; [done|apply quiet_registryAuth|].
  intros [auth|e]; [|done]. split; [by right|]. intros [[]|e]; [|done]. split; [by left|]. intros _.
  apply calls_quiet_bind; [done|apply quiet_resolveEnv|].
  intros [env|e]; [|done]. apply creating_create_upload_start.
Qed.
Lemma syncing_job_create cli job : calls job_syncing (createAndStartContainer cli job).
Proof. eapply calls_mono; [|apply job_create_calls]. intros o [Ho|Ho]; by destruct o. Qed.
Lemma syncing_setStatus job phase code msg : calls job_syncing (setStatus job phase code msg).
Proof. by repeat split. Qed.
Lemma syncing_ttl cli job : calls job_syncing (handleTTLCleanup cli job).
Proof. unfold handleTTLCleanup. repeat case_match; try done. split; [done|]. intros now. by case_match. Qed.
#[local] Hint Resolve syncing_job_create syncing_setStatus syncing_ttl : go.

Lemma syncing_syncJob cli job : calls job_syncing (syncJob cli job).
Proof.
  split; [done|]. intros [c|e].
  - destruct (cj_State c) as [st|]; [|done]. destruct (st_Running st).
    + apply calls_bind; [by repeat case_match|]. intros [].
      * split; [done|]. intros _. split; [done|]. intros _. by repeat split.
      * apply calls_bind; [by case_match|done].
    + destruct (String.eqb _ _); [|done]. split; [done|]. intros now. unfold container_exited.
      case_match; [split; [done|]; intros; apply syncing_ttl|].
      case_match; [|split; [done|]; intros; apply syncing_ttl].
      split; [done|]. intros _. apply calls_bind; [apply syncing_job_create|]. intros [u|e]; by repeat split.
  - destruct (negb _); [done|]. apply calls_bind; [apply syncing_job_create|]. intros [u|e2]; by repeat split.
Qed.
End job_protocol.

(** C7. A job's container is handled under a finalizer and a finished job stays finished:
    Reconcile changes the Docker host or the status only after the API server has
    accepted the job with the finalizer on it; for a job whose phase is Succeeded or
    Failed it starts nothing and writes no status, whatever happened to the container -
    the only change it may make is to remove the job's own container.  For a job being
    deleted the one change it makes to the host is a single forced removal of the job's own
    container, and the very next call takes the finalizer off the object as it was read,
    whatever the answer to the removal was: a removal that fails is not tried again.  The
    finalizer never comes off without that attempt, and an attempt is always followed by it.
    It does not panic. *)
Theorem job_finalizer_protocol {T : ThirdParty} req r :
  wp keeps_job (Reconcile req r) (λ tr o, ∃ s,
    accepts job_protocol JobUnread tr = Some s ∧ (∀ job answer, s ≠ JobRemoved job answer) ∧
    ∃ x, o = Returned x).
Proof.
  apply (guarded_wp _ job_protocol JobUnread _ (λ s o, (∀ job answer, s ≠ JobRemoved job answer) ∧ ∃ x, o = Returned x)).
  assert (∀ s (x : Reconciler * reconcile_result), (∀ job answer, s ≠ JobRemoved job answer) →
    (∀ job answer, s ≠ JobRemoved job answer) ∧ ∃ x', Returned x = Returned x') as Hend by eauto.
  intros [job|e] _.
  2: { eexists. split; [done|]. destruct (err_IsNotFound e); by apply Hend. }
  eexists. split; [done|]. apply guarded_bind.
  eapply guarded_mono; [|eapply guarded_ignored; [|apply scoped_resolve]].
  2: { intros. by eapply job_protocol_scoped; [..|done]; destruct (not_deleting _). }
  intros s o [-> [[r' c] ->]]. cbn [continue].
  destruct c as [cli|e]; [|by apply Hend; destruct (not_deleting _)].
  assert (∀ job', dj_Status job' = dj_Status job →
    guarded keeps_job job_protocol (JobLive job' true)
      (bind! out := (if is_terminal (jst_Phase (dj_Status job')) then handleTTLCleanup cli job' else syncJob cli job') in
       Return (r', out)) (λ s o, (∀ job answer, s ≠ JobRemoved job answer) ∧ ∃ x : Reconciler * reconcile_result, o = Returned x)) as Hsync.
  { intros job' Hst. rewrite Hst. apply guarded_bind.
    destruct (is_terminal (jst_Phase (dj_Status job))) eqn:Hterm.
    - unfold handleTTLCleanup. repeat (case_match; try by apply Hend). intros now _. eexists. split; [done|].
      case_match; [by apply Hend|]. intros rm _. exists (JobLive job' true). split; [|by apply Hend].
      simpl. unfold job_finished. by rewrite Hst, Hterm, String.eqb_refl.
    - eapply guarded_mono; [|eapply guarded_ignored; [|apply syncing_syncJob]].
      + intros s o [-> [out ->]]. by apply Hend.
      + intros. apply job_protocol_syncing; [unfold job_finished; by rewrite Hst|done]. }
  destruct (not_deleting (dj_Meta job)).
  - destruct (ContainsFinalizer (dj_Meta job) finalizerName); [by apply Hsync|].
    intros u Hu. simpl. rewrite bool_decide_true by done. eexists. split; [done|].
    destruct u as [job'|e]; [|by apply Hend]. apply Hsync. exact (Hu job' eq_refl).
  - destruct (ContainsFinalizer (dj_Meta job) finalizerName); [|by apply Hend].
    intros rm _. simpl. rewrite String.eqb_refl. eexists. split; [done|].
    intros u _. simpl. rewrite bool_decide_true by done. eexists. split; [done|]. destruct u; by apply Hend.
Qed.
