(* ===== verification/JobTypes.v ===== *)
(** * The status of a DockerJob is well formed

    An invariant of the statuses in the API server: the completion time is there exactly for the
    finished phases, the exit code only for them and 0 exactly for Succeeded, and the 32-bit
    fields hold 32-bit values.  The controller keeps it in every run. *)
From S2P Require Import Prelude GoStd Effects Api World Samples Common Lifecycle CommonTheorems JobController JobTheorems.
Local Open Scope Z_scope.

Definition in_int32b (z : Z) : bool := (- 2 ^ 31 <=? z) && (z <? 2 ^ 31).
#[global] Arguments in_int32b : simpl never.
Definition succeeded (p : DockerJobPhase) : bool := match p with JobPhaseSucceeded => true | _ => false end.
Definition wf_status (st : DockerJobStatus) : bool :=
  Bool.eqb (is_terminal (jst_Phase st)) (bool_decide (is_Some (jst_CompletionTime st)))
  && match jst_ExitCode st with
     | Some code => is_terminal (jst_Phase st) && Bool.eqb (succeeded (jst_Phase st)) (code =? 0) && in_int32b code
     | None => negb (succeeded (jst_Phase st))
     end
  && in_int32b (jst_Attempts st).

(** The API server answers with jobs whose status is well formed, *)
Definition serves_wf (o : op) : ans o → Prop :=
  match o with
  | KGet k _ => match k return res (obj k) → Prop with
                | KDockerJob => λ x, match x with Ok job => wf_status (dj_Status job) = true | Err _ => True end
                | _ => λ _, True end
  | KUpdate k _ => match k return res (obj k) → Prop with
                | KDockerJob => λ x, match x with Ok job => wf_status (dj_Status job) = true | Err _ => True end
                | _ => λ _, True end
  | _ => λ _, True
  end.
(** and is sent only such jobs. *)
Definition sends_wf (o : op) : bool :=
  match o with
  | KUpdate k x | KStatusUpdate k x | KCreate k x =>
      match k return obj k → bool with
      | KDockerJob => λ job, wf_status (dj_Status job)
      | _ => λ _, true
      end x
  | _ => true
  end.
Definition typed (_ : unit) (e : event ans) : option unit := if sends_wf (ev_op e) then Some tt else None.

Lemma in_int32_b z : Int.in_int32 z → in_int32b z = true.
Proof. unfold Int.in_int32, in_int32b. eval_pow2. lia. Qed.
#[local] Hint Resolve in_int32_b Int.int32_range : go.
(** A job that is still to be worked on has no completion time and no exit code. *)
Lemma wf_active st :
  wf_status st = true → is_terminal (jst_Phase st) = false →
  jst_CompletionTime st = None ∧ jst_ExitCode st = None ∧ in_int32b (jst_Attempts st) = true.
Proof.
  unfold wf_status. intros Hwf Ht. rewrite Ht in Hwf.
  destruct (jst_CompletionTime st); simpl in *; [done|].
  destruct (jst_ExitCode st); simpl in *; [done|]. split_and!; [done..|]. by destruct (succeeded _).
Qed.

Section typed.
Context {T : ThirdParty}.
(** A program that sends well-formed jobs only and returns. *)
Abbreviation well_typed_run p := (guarded serves_wf typed tt p (λ _ o, ∃ a, o = Returned a)).

Lemma sends_silent {A} (P : op → Prop) (p : go A) : (∀ o, P o → sends_wf o = true) → calls P p → well_typed_run p.
Proof.
  intros HP Hp. eapply guarded_mono; [|apply (guarded_ignored _ _ tt P)]; [by intros s o [_ ?]| |done].
  intros o x Ho. unfold typed. simpl. by rewrite HP.
Qed.
Lemma sends_bind {A B} (p : go A) (f : A → go B) :
  well_typed_run p → (∀ a, well_typed_run (f a)) → well_typed_run (pbind p f).
Proof. intros Hp Hf. apply guarded_bind. eapply guarded_mono; [|exact Hp]. intros [] o [a ->]. apply Hf. Qed.
Lemma quiet_sends o : quiet o → sends_wf o = true.
Proof. by destruct o. Qed.
Lemma scoped_sends ns o : scoped ns o → sends_wf o = true.
Proof. by destruct o. Qed.
Lemma sends_update job (Q : go reconcile_result) :
  wf_status (dj_Status job) = true → well_typed_run Q → well_typed_run (bind! _ := status_update job in Q).
Proof. intros Hwf HQ. apply sends_bind; [|done]. intros x _. exists tt. unfold typed. simpl. by rewrite Hwf; eauto. Qed.
Lemma sends_ttl cli job : well_typed_run (handleTTLCleanup cli job).
Proof.
  unfold handleTTLCleanup. repeat (case_match; try by eexists). intros now _. exists tt. split; [done|].
  case_match; [by eexists|]. intros x _. exists tt. by split; [|eexists].
Qed.
Lemma creating_sends o : creating o → sends_wf o = true.
Proof. intros [Ho|Ho]; [by apply quiet_sends|by destruct o]. Qed.

(** Marking an active job as failed, with an exit code other than 0 if any. *)
Lemma sends_setStatus job code msg (Q : go reconcile_result) :
  jst_CompletionTime (dj_Status job) = None ∨ is_Some code →
  match code with
  | Some c => negb (c =? 0) && in_int32b c = true
  | None => jst_ExitCode (dj_Status job) = None
  end →
  in_int32b (jst_Attempts (dj_Status job)) = true → well_typed_run Q →
  well_typed_run (bind! _ := setStatus job JobPhaseFailed code msg in Q).
Proof.
  intros Hc Hcode Ha HQ now _. exists tt. split; [done|]. apply (sends_update _ Q); [|done].
  unfold wf_status. simpl. rewrite Ha. destruct code as [c|]; simpl; [|by rewrite Hcode].
  apply andb_prop in Hcode as [H1 H2]. rewrite H2. by destruct (c =? 0).
Qed.
Lemma sends_start_first cli job :
  wf_status (dj_Status job) = true → is_terminal (jst_Phase (dj_Status job)) = false →
  well_typed_run (start_first cli job).
Proof.
  intros Hwf Ht. destruct (wf_active _ Hwf Ht) as (Hc & He & Ha).
  apply sends_bind; [by eapply sends_silent; [apply creating_sends|apply job_create_calls]|].
  intros [[]|err]; [|by apply sends_setStatus; eauto; eexists].
  intros now _. exists tt. split; [done|]. apply sends_update; [|by eexists].
  unfold wf_status. simpl. rewrite Hc, He. simpl. auto with go.
Qed.
Lemma sends_still_running cli job id :
  wf_status (dj_Status job) = true → is_terminal (jst_Phase (dj_Status job)) = false →
  well_typed_run (still_running cli job id).
Proof.
  intros Hwf Ht. destruct (wf_active _ Hwf Ht) as (Hc & He & Ha).
  apply sends_bind; [apply (sends_silent quiet); [apply quiet_sends|by repeat case_match]|]. intros [].
  - intros x _. exists tt. split; [done|]. intros y _. exists tt. split; [done|].
    apply sends_setStatus; auto. by eexists.
  - apply sends_bind; [|by eexists]. destruct (negb _); [|by eexists].
    intros x _. exists tt. split; [|by eexists]. unfold typed. simpl. unfold wf_status. simpl. rewrite Hc, He. simpl. by rewrite Ha.
Qed.
Lemma sends_exited cli job id code now :
  wf_status (dj_Status job) = true → is_terminal (jst_Phase (dj_Status job)) = false → in_int32b code = true →
  well_typed_run (container_exited cli job id code now).
Proof.
  intros Hwf Ht Hcode. destruct (wf_active _ Hwf Ht) as (Hc & He & Ha).
  unfold container_exited. destruct (code =? 0) eqn:Hz; [|case_match].
  - apply sends_bind; [|intros; apply sends_ttl]. intros x _. exists tt. split; [|by eexists].
    unfold typed. simpl. unfold wf_status. simpl. by rewrite Hz, Hcode, Ha.
  - intros x _. exists tt. split; [done|].
    apply sends_bind; [by eapply sends_silent; [apply creating_sends|apply job_create_calls]|].
    intros [[]|err].
    + apply sends_update; [|by eexists]. unfold wf_status. simpl. auto with go.
    + apply sends_setStatus; simpl; [by right; eexists|by rewrite Hz, Hcode|done|by eexists].
  - apply sends_bind; [|intros; apply sends_ttl]. intros x _. exists tt. split; [|by eexists].
    unfold typed. simpl. unfold wf_status. simpl. by rewrite Hz, Hcode, Ha.
Qed.
Lemma sends_syncJob cli job :
  wf_status (dj_Status job) = true → is_terminal (jst_Phase (dj_Status job)) = false →
  well_typed_run (syncJob cli job).
Proof.
  intros Hwf Ht i _. exists tt. split; [done|]. destruct i as [inspected|err].
  - destruct (cj_State inspected) as [state|]; [|by eexists].
    destruct (st_Running state); [by apply sends_still_running|].
    destruct (String.eqb _ _); [|by eexists]. intros now _. exists tt. split; [done|].
    apply sends_exited; auto with go.
  - destruct (negb _); [by eexists|]. by apply sends_start_first.
Qed.
End typed.

(** C12. Every job the controller sends to the API server has a well-formed status, provided the
    API server serves such jobs: the completion time is set exactly when the phase is Succeeded or
    Failed, an exit code is there only then, for Succeeded always and exactly there equal to 0,
    and Attempts and the exit code are 32-bit.  So the invariant of the stored statuses is kept by
    every run of Reconcile, whatever Docker and the clock answer. *)
Theorem job_status_wf {T : ThirdParty} req r :
  wp serves_wf (Reconcile req r) (λ tr o, Forall (λ e, sends_wf (ev_op e) = true) tr ∧ ∃ a, o = Returned a).
Proof.
  eapply wp_mono; [|apply (guarded_wp _ typed tt _ (λ _ o, ∃ a, o = Returned a))].
  { intros tr o ([] & Hacc & Ho). split; [|done]. clear Ho. induction tr as [|e tr IH]; [done|].
    simpl in Hacc. unfold typed at 1 in Hacc. destruct (sends_wf (ev_op e)) eqn:He; [|done]. constructor; auto. }
  intros [job|e] Hjob; exists tt; (split; [done|]); [|by destruct (err_IsNotFound e); eexists]. simpl in Hjob.
  apply sends_bind; [eapply sends_silent; [|apply scoped_getDockerClient]; apply scoped_sends|].
  intros [r' [cli|e]]; [|by eexists].
  assert (∀ job, wf_status (dj_Status job) = true → guarded serves_wf typed tt
    (bind! out := (if is_terminal (jst_Phase (dj_Status job)) then handleTTLCleanup cli job else syncJob cli job) in
     Return (r', out)) (λ _ o, ∃ a, o = Returned a)) as Hsync.
  { intros job' Hwf. apply sends_bind; [|by eexists].
    destruct (is_terminal _) eqn:Ht; [apply sends_ttl|by apply sends_syncJob]. }
  destruct (not_deleting (dj_Meta job)).
  - destruct (ContainsFinalizer _ _); [by apply Hsync|]. intros u Hu. exists tt.
    split; [unfold typed; simpl; by rewrite Hjob|]. destruct u as [job'|e]; [by apply Hsync|by eexists].
  - destruct (ContainsFinalizer _ _); [|by eexists]. intros x _. exists tt. split; [done|].
    intros u _. exists tt. split; [unfold typed; simpl; by rewrite Hjob|]. destruct u; by eexists.
Qed.
