(* ===== verification/JobSystem.v ===== *)
(** * DockerJobs over time: the retry bound

    The controller, the API server and the Docker daemon as one transition system for one
    DockerJob: reconciles run against an API server and a daemon that may fail any call, before or
    after it took effect; between them the container may exit with any code, the daemon may restart
    it as its restart policy tells it to, somebody may remove it, and the job may be deleted. *)
From S2P Require Import Prelude GoStd Effects Api World Samples Common Lifecycle CommonTheorems JobController JobTheorems.
Local Open Scope Z_scope.

(** The job's container on its host. *)
Inductive container_state := CCreated | CRunning | CExited (code : Z).
Record world := {
  w_job : DockerJob;                        (* the object in the API server *)
  w_container : option container_state;
  w_policy : string;                        (* the restart policy it was created with *)
  w_starts : nat;                           (* how often the controller started a container *)
  w_restarts : nat;                         (* how often the daemon restarted one by itself *)
  w_lost : nat       (* status updates refused, starts reported as failed, containers removed by others *)
}.
Definition with_job (job : DockerJob) (w : world) : world :=
  {| w_job := job; w_container := w_container w; w_policy := w_policy w; w_starts := w_starts w;
     w_restarts := w_restarts w; w_lost := w_lost w |}.
Definition with_container (c : option container_state) (w : world) : world :=
  {| w_job := w_job w; w_container := c; w_policy := w_policy w; w_starts := w_starts w;
     w_restarts := w_restarts w; w_lost := w_lost w |}.
Definition created (policy : string) (w : world) : world :=
  {| w_job := w_job w; w_container := Some CCreated; w_policy := policy; w_starts := w_starts w;
     w_restarts := w_restarts w; w_lost := w_lost w |}.
Definition started (w : world) : world :=
  {| w_job := w_job w; w_container := Some CRunning; w_policy := w_policy w; w_starts := S (w_starts w);
     w_restarts := w_restarts w; w_lost := w_lost w |}.
Definition restarted (w : world) : world :=
  {| w_job := w_job w; w_container := Some CRunning; w_policy := w_policy w; w_starts := w_starts w;
     w_restarts := S (w_restarts w); w_lost := w_lost w |}.
Definition lost (w : world) : world :=
  {| w_job := w_job w; w_container := w_container w; w_policy := w_policy w; w_starts := w_starts w;
     w_restarts := w_restarts w; w_lost := S (w_lost w) |}.

(** Docker's restart policies: whether the daemon restarts a container that exits with [code]. *)
Definition restarts_itself (policy : string) (code : Z) : bool :=
  String.eqb policy "always" || String.eqb policy "unless-stopped"
  || (String.eqb policy "on-failure" && negb (code =? 0)).

(** What an inspection shows.  A container the daemon is about to restart is reported with status
    "restarting", and as running. *)
Definition shows (policy : string) (c : container_state) (i : ContainerJSON) : Prop :=
  ∃ st, cj_State i = Some st ∧
  match c with
  | CCreated => st_Running st = false ∧ st_Status st = "created"
  | CRunning => st_Running st = true
  | CExited code =>
      (st_Running st = false ∧ st_Status st = "exited" ∧ st_ExitCode st = code) ∨
      (restarts_itself policy code = true ∧ st_Running st = true)
  end.

(** The environment.  The API server answers reads of the job with the current object or an error;
    an update may fail, with or without having taken effect (a conflict, a lost answer), and keeps
    the spec, the deletion time and (for the object) the status.  Every Docker call may fail with an error
    other than "not found", again with or without effect; "not found" is answered to an
    inspection exactly when there is no container, and a container is created only when there is
    none, with the restart policy that was asked for.  Every other call is answered at will. *)
Definition same_but_meta (u job : DockerJob) : Prop :=
  dj_Spec u = dj_Spec job ∧ dj_Status u = dj_Status job ∧
  om_DeletionTimestamp (dj_Meta u) = om_DeletionTimestamp (dj_Meta job).
Definition answers (w : world) (o : op) : ans o → world → Prop :=
  match o with
  | KGet k _ =>
      match k return res (obj k) → world → Prop with
      | KDockerJob => λ r w', w' = w ∧ (r = Ok (w_job w) ∨ ∃ e, r = Err e)
      | _ => λ _ w', w' = w
      end
  | KUpdate k u =>
      match k return obj k → res (obj k) → world → Prop with
      | KDockerJob => λ _ r w',
          (w' = w ∧ ∃ e, r = Err e) ∨
          ∃ job', (r = Ok job' ∨ ∃ e, r = Err e) ∧ same_but_meta job' (w_job w) ∧ w' = with_job job' w
      | _ => λ _ _ w', w' = w
      end u
  | KStatusUpdate k u =>
      match k return obj k → res (obj k) → world → Prop with
      | KDockerJob => λ u r w',
          let job' := set_job_status (dj_Status u) (w_job w) in
          (w' = with_job job' w ∧ (r = Ok job' ∨ ∃ e, r = Err e)) ∨
          (w' = lost w ∧ ∃ e, r = Err e)
      | _ => λ _ _ w', w' = w
      end u
  | DContainerInspect _ _ => λ r w',
      w' = w ∧
      ((∃ e, r = Err e ∧ err_IsNotFound e = false) ∨
       match w_container w with
       | None => ∃ e, r = Err e ∧ err_IsNotFound e = true
       | Some c => ∃ i, r = Ok i ∧ shows (w_policy w) c i
       end)
  | DContainerCreate _ _ hostConfig _ => λ r w',
      (w' = w ∧ ∃ e, r = Err e) ∨
      (w_container w = None ∧ w' = created (hcf_RestartPolicy hostConfig) w)
  | DContainerStart _ _ => λ r w',
      (w' = w ∧ ∃ e, r = Err e) ∨ (r = Ok tt ∧ w' = started w) ∨ ((∃ e, r = Err e) ∧ w' = lost (started w))
  | DContainerStop _ _ _ => λ r w',
      w' = w ∨ ∃ c code, w_container w = Some c ∧ w' = with_container (Some (CExited code)) w
  | DContainerRemove _ _ _ => λ r w', (w' = w ∧ ∃ e, r = Err e) ∨ w' = with_container None w
  | _ => λ _ w', w' = w
  end.

(** What the daemon does by itself. *)
Inductive daemon : world → world → Prop :=
| daemon_idle w : daemon w w
| daemon_restart w code :
    w_container w = Some (CExited code) → restarts_itself (w_policy w) code = true → daemon w (restarted w).

Section system.
Context {T : ThirdParty}.

Inductive system_step : world → world → Prop :=
| step_reconcile w w' req r out :
    exec answers (Reconcile req r) w out w' → system_step w w'
| step_exit w code :
    w_container w = Some CRunning → system_step w (with_container (Some (CExited code)) w)
| step_daemon w w' : daemon w w' → system_step w w'
| step_removed w : system_step w (lost (with_container None w))
| step_delete w meta' :
    not_deleting meta' = false →
    system_step w (with_job (set_meta meta' (w_job w)) w).

(** A new job. *)
Definition fresh (w : world) : Prop :=
  is_terminal (jst_Phase (dj_Status (w_job w))) = false ∧ jst_Attempts (dj_Status (w_job w)) = 0 ∧
  w_container w = None ∧ w_policy w = "" ∧ w_starts w = 0%nat ∧ w_restarts w = 0%nat ∧ w_lost w = 0%nat ∧
  0 ≤ js_BackoffLimit (dj_Spec (w_job w)) < 2 ^ 31 - 1.

(** ** The invariant *)
Definition may_start (w : world) : Prop :=
  is_terminal (jst_Phase (dj_Status (w_job w))) = false ∧ not_deleting (dj_Meta (w_job w)) = true.
Abbreviation attempts w := (jst_Attempts (dj_Status (w_job w))).
Abbreviation n_starts w := (Z.of_nat (w_starts w)).
Abbreviation n_lost w := (Z.of_nat (w_lost w)).

Section invariant.
Context (limit : Z) (policy : string).

(** Before the 32-bit counter of attempts can wrap. *)
Definition small (w : world) : Prop := limit + 1 + n_lost w < 2 ^ 31.
Definition the_policy (w : world) : Prop :=
  (w_policy w = "" ∨ w_policy w = docker_restart_policy policy) ∧
  (docker_restart_policy policy = "no" → w_restarts w = 0%nat).
Definition core (w : world) : Prop :=
  (js_BackoffLimit (dj_Spec (w_job w)) = limit ∧ js_RestartPolicy (dj_Spec (w_job w)) = policy) ∧
  the_policy w ∧
  (small w → 0 ≤ attempts w ≤ n_starts w ∧ n_starts w ≤ attempts w + n_lost w ∧ n_starts w ≤ limit + 1 + n_lost w).
(** A start would not break the bounds. *)
Definition slack (w : world) : Prop :=
  small w → n_starts w = 0 ∨ (n_starts w < attempts w + n_lost w ∧ n_starts w < limit + 1 + n_lost w).
(** The controller starts a container without looking at the limit when there is none. *)
Definition bounded (w : world) : Prop :=
  core w ∧ (may_start w → w_container w = None → slack w).
(** States in which the container does not matter. *)
Definition settled (w : world) : Prop := core w ∧ (may_start w → slack w).

Lemma settled_bounded w : settled w → bounded w.
Proof. intros [Hc Hs]. by split; auto. Qed.
Lemma settled_container w c : settled w → settled (with_container c w).
Proof. done. Qed.
Lemma core_lost w : core w → core (lost w) ∧ slack (lost w).
Proof.
  intros (Hspec & Hpol & Hc). unfold slack, small in *. simpl. split; [split; [done|]; split; [done|]|];
    unfold small in *; simpl; intros Hs; destruct Hc as (? & ? & ?); lia.
Qed.
Lemma lost_settled w : core w → settled (lost w).
Proof. intros Hc. destruct (core_lost w Hc) as [? ?]. by split. Qed.
Lemma core_container w c : core w → core (with_container c w).
Proof. done. Qed.

(** Statuses that keep the number of attempts. *)
Lemma core_status w st : core w → jst_Attempts st = attempts w → core (with_job (set_job_status st (w_job w)) w).
Proof. intros (Hspec & Hpol & Hc) Ha. unfold core, the_policy, small in *. simpl. rewrite Ha. done. Qed.

(** A start: the attempts are counted by the status update that follows, or that update is lost. *)
Definition room (w : world) : Prop := small w → n_starts w < limit + 1 + n_lost w.
Definition just_started (w w' : world) : Prop :=
  w_job w' = w_job w ∧ the_policy w' ∧ w_container w' = Some CRunning ∧
  w_starts w' = S (w_starts w) ∧ w_lost w' = w_lost w.
Lemma slack_room w : 0 ≤ limit → slack w → room w.
Proof. unfold slack, room. intros Hl Hs Hsm. specialize (Hs Hsm). lia. Qed.
Lemma retry_room w : core w → attempts w ≤ limit → room w.
Proof. intros (_ & _ & Hc) Ha Hsm. destruct (Hc Hsm) as (? & ? & ?). lia. Qed.
Lemma started_counted w w' st :
  core w → room w → just_started w w' → jst_Attempts st = Int.int32 (attempts w + 1) →
  bounded (with_job (set_job_status st (w_job w')) w').
Proof.
  intros (Hspec & Hpol & Hc) Hr (Hj & Hp & Hcon & Hst & Hl) Ha. split; [|by simpl; rewrite Hcon].
  split; [by simpl; rewrite Hj|]. split; [exact Hp|].
  unfold room, small in *. simpl. rewrite Hst, Hl. intros Hsm. specialize (Hc Hsm). specialize (Hr Hsm).
  rewrite Ha, Int.int32_id by (unfold Int.in_int32; revert Hsm; eval_pow2; lia). lia.
Qed.
Lemma started_lost w w' : core w → just_started w w' → bounded (lost w').
Proof.
  intros (Hspec & Hpol & Hc) (Hj & Hp & Hcon & Hst & Hl). split; [|by simpl; rewrite Hcon].
  split; [by simpl; rewrite Hj|]. split; [exact Hp|].
  unfold small in *. simpl. rewrite Hj, Hst, Hl. intros Hsm. destruct Hc as (? & ? & ?); lia.
Qed.
(** An accepted or lost update of the metadata. *)
Lemma meta_bounded w job' : same_but_meta job' (w_job w) → bounded w → bounded (with_job job' w).
Proof.
  intros (Hsp & Hst & Hdel) [(Hspec & Hpol & Hc) Hs].
  unfold bounded, core, slack, may_start, small, not_deleting in *. simpl.
  rewrite Hsp, Hst, Hdel. split; [split; [done|split; done]|done].
Qed.
End invariant.

(** ** Lemmas *)
Lemma quiet_answers w o x w' : quiet o → answers w o x w' → w' = w.
Proof. destruct o; simpl; try done. destruct k; simpl; naive_solver. Qed.
Lemma scoped_answers ns w o x w' : scoped ns o → answers w o x w' → w' = w.
Proof. destruct o; simpl; try done. destruct k; simpl; naive_solver. Qed.
Lemma uploading_answers w o x w' : uploading o → answers w o x w' → w' = w.
Proof. intros [Ho|Ho]; [by apply quiet_answers|]. by destruct o. Qed.

(** [status_update] stores the status of the object it is given, or is lost. *)
Lemma update_sat job w (Q : outcome DockerJob → world → Prop) :
  (∀ job', Q (Returned job') (with_job (set_job_status (dj_Status job) (w_job w)) w)) →
  (∀ job', Q (Returned job') (lost w)) →
  sat answers (status_update job) w Q.
Proof. intros Hok Hlost r w' [[-> _]|[-> _]]; simpl; [apply Hok|apply Hlost]. Qed.

Section runs.
Context (limit : Z) (policy : string) (Hlimit : 0 ≤ limit).
Abbreviation core := (core limit policy).
Abbreviation bounded := (bounded limit policy).
Abbreviation settled := (settled limit policy).
#[local] Hint Resolve settled_bounded : core.

(** A createAndStartContainer starts a container exactly when it returns nil; when it fails the
    bounds stay as they were. *)
Lemma create_sat cli job w :
  core w → js_RestartPolicy (dj_Spec job) = policy →
  sat answers (createAndStartContainer cli job) w (λ o w',
    match o with
    | Returned (Ok _) => just_started policy w w'
    | Returned (Err _) => core w' ∧ w_job w' = w_job w
    | Panicked _ => False
    end).
Proof.
  intros Hcore Hpolicy. unfold createAndStartContainer.
  eapply sat_neutral_bind; [intros *; apply quiet_answers|apply quiet_registryAuth|].
  intros [auth|e]; [|done]. intros [[]|e] w1 Hw1; simpl in Hw1; subst w1; [|done].
  intros d w2 Hw2. simpl in Hw2. subst w2.
  eapply sat_neutral_bind; [intros *; apply quiet_answers|apply quiet_resolveEnv|].
  intros [env|e]; [|done]. intros c w3 Hc3. simpl in Hc3.
  assert (core w3 ∧ w_job w3 = w_job w ∧ w_starts w3 = w_starts w ∧ w_lost w3 = w_lost w) as (Hcore3 & Hj & Hst & Hl).
  { destruct Hc3 as [[-> _]|(_ & ->)]; [done|]. split; [|done]. destruct Hcore as (Hspec & [_ Hpol] & Hc).
    split; [done|]. split; [|done]. split; [right; simpl; by rewrite Hpolicy|done]. }
  clear Hc3. destruct c as [id|e]; [|done].
  eapply sat_neutral_bind; [intros *; apply uploading_answers|apply calls_uploadSecretVolumes|].
  intros [[]|e]; [|done]. pose proof Hcore3 as (_ & Hpol & _).
  intros s w4 [[-> [e ->]]|[[-> ->]|[[e ->] ->]]]; simpl; [done| |].
  - split; [done|]. split; [exact Hpol|]. simpl. by rewrite Hst, Hl.
  - split; [|done]. by apply (started_lost limit policy w3 (started w3)).
Qed.

Lemma ttl_sat cli job w : settled w → sat answers (handleTTLCleanup cli job) w (λ _ w', bounded w').
Proof.
  intros Hs. unfold handleTTLCleanup. repeat (case_match; try by apply settled_bounded).
  intros now w1 Hw1. simpl in Hw1. subst w1. case_match; [by apply settled_bounded|].
  intros r w2 [[-> _]| ->]; [by apply settled_bounded|]. by apply settled_bounded, settled_container.
Qed.

(** A status of a finished phase settles the job, stored or lost. *)
Lemma finish_sat job w (Q : outcome DockerJob → world → Prop) :
  core w → is_terminal (jst_Phase (dj_Status job)) = true → jst_Attempts (dj_Status job) = attempts w →
  (∀ job' w', settled w' → Q (Returned job') w') →
  sat answers (status_update job) w Q.
Proof.
  intros Hc Ht Ha HQ. apply update_sat; intros job'; apply HQ; [|by apply lost_settled].
  split; [by apply core_status|]. intros [H _]. simpl in H. by rewrite Ht in H.
Qed.
Lemma fail_sat job w code msg (Q : outcome DockerJob → world → Prop) :
  core w → jst_Attempts (dj_Status job) = attempts w →
  (∀ job' w', settled w' → Q (Returned job') w') →
  sat answers (setStatus job JobPhaseFailed code msg) w Q.
Proof. intros Hc Ha HQ now w1 Hw1. simpl in Hw1. subst w1. by apply finish_sat. Qed.

(** The object at hand agrees with the one in the API server. *)
Definition current (job : DockerJob) (w : world) : Prop :=
  dj_Status job = dj_Status (w_job w) ∧ dj_Spec job = dj_Spec (w_job w).
Lemma current_policy job w : core w → current job w → js_RestartPolicy (dj_Spec job) = policy.
Proof. intros ([_ Hp] & _) [_ ->]. done. Qed.

Lemma start_first_sat cli job w :
  bounded w → current job w → may_start w → w_container w = None →
  sat answers (start_first cli job) w (λ _ w', bounded w').
Proof.
  intros [Hcore Hslack] Hcur Hm Hc. specialize (Hslack Hm Hc).
  apply sat_bind. eapply sat_mono; [|apply create_sat; [done|by eapply current_policy]].
  destruct Hcur as [Hst Hsp]. intros [[u|e]|s] w' Hw; [..|done].
  - intros now w1 Hw1. simpl in Hw1. subst w1. apply sat_bind, update_sat; intros job'; simpl.
    + eapply started_counted; [done|by apply slack_room|done|]. simpl. by rewrite Hst.
    + by eapply started_lost.
  - destruct Hw as [Hcore' Hj]. apply sat_bind.
    apply fail_sat; [done|by rewrite Hst, Hj|]. intros job' w2 Hs. by apply settled_bounded.
Qed.

Lemma still_running_sat cli job w id c :
  bounded w → current job w → w_container w = Some c →
  sat answers (still_running cli job id) w (λ _ w', bounded w').
Proof.
  intros [Hcore Hslack] [Hst Hsp] Hc. apply sat_bind.
  assert (∀ b, sat answers (if b : bool then
      do! DContainerStop cli id 10; do! DContainerRemove cli id true;
      bind! _ := setStatus job JobPhaseFailed None "Job exceeded ActiveDeadlineSeconds" in Return done_ok
    else
      bind! _ := (if negb (bool_decide (jst_Phase (dj_Status job) = JobPhaseRunning)) then
           status_update (set_job_status
             {| jst_Phase := JobPhaseRunning; jst_ContainerID := id;
                jst_StartTime := jst_StartTime (dj_Status job); jst_CompletionTime := jst_CompletionTime (dj_Status job);
                jst_ExitCode := jst_ExitCode (dj_Status job); jst_Attempts := jst_Attempts (dj_Status job);
                jst_Message := "Container running" |} job)
         else Return job) in Return (requeue_after (5 * Time.second))) w (λ _ w', bounded w')) as Hrest.
  { intros [].
    - intros r1 w1 Hw1 r2 w2 Hw2. apply sat_bind.
      assert (core w2 ∧ w_job w2 = w_job w) as [Hcore2 Hj].
      { destruct Hw1 as [->|(c' & code & _ & ->)]; destruct Hw2 as [[-> _]| ->]; by split. }
      apply fail_sat; [done|by rewrite Hst, Hj|]. intros job' w' Hs. by apply settled_bounded.
    - destruct (negb _); [|by split]. apply sat_bind, update_sat; intros job'; simpl.
      + split; [apply core_status; [done|by rewrite Hst]|]. simpl. by rewrite Hc.
      + by apply settled_bounded, lost_settled. }
  destruct (js_ActiveDeadlineSeconds _), (jst_StartTime _); [|apply Hrest..].
  intros now w1 Hw1. simpl in Hw1. subst w1. apply Hrest.
Qed.

Lemma exited_sat cli job w id code t :
  bounded w → current job w → 
  sat answers (container_exited cli job id code t) w (λ _ w', bounded w').
Proof.
  intros [Hcore Hslack] Hcur. pose proof Hcur as [Hst Hsp]. unfold container_exited.
  assert (∀ st', is_terminal (jst_Phase st') = true → jst_Attempts st' = jst_Attempts (dj_Status job) →
    sat answers (bind! job := status_update (set_job_status st' job) in handleTTLCleanup cli job) w
      (λ _ w', bounded w')) as Hend.
  { intros st' Ht Ha. apply sat_bind, finish_sat; [done|done|simpl; by rewrite Ha, Hst|].
    intros job' w' Hs. by apply ttl_sat. }
  destruct (code =? 0); [by apply Hend|].
  destruct (Z.leb_spec (jst_Attempts (dj_Status job)) (js_BackoffLimit (dj_Spec job))) as [Hle|Hgt]; [|by apply Hend].
  assert (attempts w ≤ limit) as Hroom by (destruct Hcore as ([Hb _] & _); by rewrite Hst, Hsp, Hb in Hle).
  intros rm w1 Hrm.
  assert (core w1 ∧ w_job w1 = w_job w) as [Hcore1 Hj1] by by destruct Hrm as [[-> _]| ->].
  apply sat_bind. eapply sat_mono; [|apply create_sat; [done|exact (current_policy job w Hcore Hcur)]].
  intros [[u|e]|s] w2 Hw; [..|done].
  - apply sat_bind, update_sat; intros job'; simpl.
    + eapply started_counted; [exact Hcore1|apply (retry_room limit policy); [exact Hcore1|by rewrite Hj1]|exact Hw|].
      simpl. by rewrite Hst, Hj1.
    + by eapply started_lost.
  - destruct Hw as [Hcore2 Hj2]. apply sat_bind.
    apply fail_sat; [done|by simpl; rewrite Hst, Hj2, Hj1|]. intros job' w' Hs. by apply settled_bounded.
Qed.

Lemma syncJob_sat cli job w :
  bounded w → current job w → may_start w → sat answers (syncJob cli job) w (λ _ w', bounded w').
Proof.
  intros Hb Hcur Hm i w1 [-> Hi].
  destruct Hi as [(e & -> & He)|Hi]; [simpl; rewrite He; done|].
  destruct (w_container w) as [c|] eqn:Hc.
  - destruct Hi as (i' & -> & st & Hst & Hshow). rewrite Hst.
    destruct (st_Running st); [by eapply still_running_sat|].
    destruct (String.eqb _ _); [|done]. intros now w1 Hw1. simpl in Hw1. subst w1. by eapply exited_sat.
  - destruct Hi as (e & -> & He). rewrite He. by apply start_first_sat.
Qed.

Lemma reconcile_sat req r w : bounded w → sat answers (Reconcile req r) w (λ _ w', bounded w').
Proof.
  intros Hb g w1 [-> Hg]. destruct Hg as [->|[e ->]]; [|by destruct (err_IsNotFound e)].
  eapply sat_neutral_bind; [|apply scoped_getDockerClient|]; [intros *; apply scoped_answers|].
  intros [r' [cli|e]]; [|done].
  assert (∀ job w, bounded w → current job w → not_deleting (dj_Meta (w_job w)) = true →
    sat answers (bind! out := (if is_terminal (jst_Phase (dj_Status job)) then handleTTLCleanup cli job
                               else syncJob cli job) in Return (r', out)) w (λ _ w', bounded w')) as Hsync.
  { clear w Hb. intros job w Hb Hcur Hd. apply sat_bind.
    apply (sat_mono _ _ _ (λ _ w', bounded w')); [by intros []|].
    destruct Hcur as [Hst Hsp]. destruct (is_terminal _) eqn:Ht.
    - apply ttl_sat. split; [apply Hb|]. intros [H _]. by rewrite <- Hst, Ht in H.
    - apply syncJob_sat; [done..|]. split; [|done]. by rewrite <- Hst. }
  destruct (not_deleting (dj_Meta (w_job w))) eqn:Hd.
  - destruct (ContainsFinalizer _ _); [by apply Hsync|].
    intros u w2 [[-> [e ->]]|(job' & Hu & Hsame & ->)]; [done|].
    pose proof (meta_bounded _ _ _ _ Hsame Hb) as Hb2. destruct Hu as [->|[e ->]]; [|done].
    destruct Hsame as (Hsp & Hst & Hdel). apply Hsync; [done|done|].
    simpl. unfold not_deleting in *. by rewrite Hdel.
  - destruct (ContainsFinalizer _ _); [|done].
    intros rm w2 Hrm.
    assert (bounded w2 ∧ w_job w2 = w_job w) as [Hb2 Hj2].
    { destruct Hrm as [[-> _]| ->]; [done|]. split; [|done]. destruct Hb as [Hc _]. split; [done|].
      intros [_ H]. simpl in H. by rewrite Hd in H. }
    intros u w3 [[-> [e ->]]|(job' & Hu & Hsame & ->)]; [done|].
    destruct Hu as [->|[e ->]]; by apply meta_bounded.
Qed.

Lemma daemon_bounded w w' : daemon w w' → bounded w → bounded w'.
Proof.
  intros [w1|w1 code Hc Hr] Hb; [done|]. destruct Hb as [(Hspec & [Hp Hno] & Hcore) Hs].
  split; [|done]. split; [done|]. split; [|done]. split; [done|]. simpl. intros Hpol.
  exfalso. destruct Hp as [Hp|Hp]; rewrite Hp in Hr; [done|]. by rewrite Hpol in Hr.
Qed.
Lemma bounded_step w w' : system_step w w' → bounded w → bounded w'.
Proof.
  intros Hstep Hb. destruct Hstep as [w w' req r out Hrun|w code Hc|w w' Hd|w|w meta' Hd].
  - by eapply (sat_exec _ _ _ (λ _ w', bounded w')) in Hrun; [|by apply reconcile_sat].
  - destruct Hb as [Hcore _]. by split.
  - by eapply daemon_bounded.
  - destruct Hb as [Hcore _]. by apply settled_bounded, lost_settled.
  - destruct Hb as [Hcore _]. split; [done|]. intros [_ H]. simpl in H. by rewrite Hd in H.
Qed.
End runs.
End system.

(** C10. The retry bound.  From a new job with a backoff limit of n, whatever the interleaving of
    reconciles, exits with any codes, restarts by the daemon, removals by others and deletion,
    whatever calls fail (before or after they took effect) and whatever the clock says, the
    controller starts the job's container at most n + 1 times, plus once for every event of three
    kinds the controller does not find out about: a status update the API server refused, a
    start the daemon reported as failed, a container somebody else removed.  The Attempts of the status
    count the starts up to those events, so without them they are exactly the number of starts.
    (A reconcile is one step here, and reads of the job are up to date.)
    Unless the job's policy tells Docker to restart the container ("OnFailure", and names handed on
    verbatim like "always"), every run of a container is such a start. *)
Theorem retries_bounded {T : ThirdParty} w w' :
  let limit := js_BackoffLimit (dj_Spec (w_job w)) in
  fresh w → rtc system_step w w' → limit + 1 + Z.of_nat (w_lost w') < 2 ^ 31 →
  Z.of_nat (w_starts w') ≤ limit + 1 + Z.of_nat (w_lost w') ∧
  jst_Attempts (dj_Status (w_job w')) ≤ Z.of_nat (w_starts w')
    ≤ jst_Attempts (dj_Status (w_job w')) + Z.of_nat (w_lost w') ∧
  (docker_restart_policy (js_RestartPolicy (dj_Spec (w_job w))) = "no" → w_restarts w' = 0%nat).
Proof.
  intros limit (Ht & Ha & Hc & Hp & Hn & Hr & Hl & Hlim) Hsteps Hsmall.
  set (policy := js_RestartPolicy (dj_Spec (w_job w))).
  assert (bounded limit policy w) as Hb.
  { split; [|by intros _ _ _; left; rewrite Hn]. split; [done|]. split; [split; [by left|done]|].
    intros _. rewrite Ha, Hn, Hl. lia. }
  assert (bounded limit policy w') as [(_ & [_ Hno] & Hcore) _]; [|destruct (Hcore Hsmall) as (H1 & H2 & H3); split; [exact H3|]; split; [lia|exact Hno]].
  assert (0 ≤ limit) as Hpos by lia. clearbody limit policy. clear -Hpos Hb Hsteps.
  induction Hsteps as [|w1 w2 w3 Hs _ IH]; [done|]. apply IH. by eapply bounded_step.
Qed.

(** ** Witness *)
Definition new_job : DockerJob :=
  set_meta {| om_Name := "job"; om_Namespace := "prod"; om_UID := ""; om_Labels := ∅;
              om_Finalizers := [finalizerName]; om_DeletionTimestamp := None;
              om_CreationTimestamp := 0; om_OwnerReferences := [] |}
    (sample_job (sample_spec 2 None None)
       {| jst_Phase := JobPhaseNone; jst_ContainerID := ""; jst_StartTime := None; jst_CompletionTime := None;
          jst_ExitCode := None; jst_Attempts := 0; jst_Message := "" |}).
Definition new_world : world :=
  {| w_job := new_job; w_container := None; w_policy := ""; w_starts := 0; w_restarts := 0; w_lost := 0 |}.
Definition running_status : DockerJobStatus :=
  {| jst_Phase := JobPhaseRunning; jst_ContainerID := ""; jst_StartTime := Some 7; jst_CompletionTime := None;
     jst_ExitCode := None; jst_Attempts := 1; jst_Message := "Container started" |}.
(** The first reconcile starts the container. *)
Definition running_world : world :=
  {| w_job := set_job_status running_status new_job; w_container := Some CRunning; w_policy := "no";
     w_starts := 1; w_restarts := 0; w_lost := 0 |}.

(** Run to the next call and answer it. *)
Ltac run_to_call :=
  match goal with |- exec _ ?p _ _ _ => let q := eval lazy head in p in change p with q end.
Tactic Notation "answer" uconstr(x) :=
  run_to_call;
  lazymatch goal with |- exec ?a (Call ?o ?k) _ _ _ => eapply (exec_call a o k x) end.

Lemma first_reconcile :
  @system_step plain_third_party new_world running_world.
Proof.
  eapply (@step_reconcile plain_third_party _ _ {| nn_Namespace := "prod"; nn_Name := "job" |}
            {| r_DockerClient := Some 1%positive; r_dockerClients := ∅ |}).
  answer (Ok new_job); [split; [reflexivity|by left]|].
  cbv beta iota. rewrite getDockerClient_miss by apply lookup_empty.
  answer (Err not_found); [reflexivity|].
  answer (Err not_found); [reflexivity|].
  answer (Err not_found); [split; [reflexivity|right; by exists not_found]|].
  answer (Ok tt); [reflexivity|].
  answer tt; [reflexivity|].
  answer (Ok "id"); [right; split; reflexivity|].
  answer (Ok tt); [right; left; split; reflexivity|].
  answer 7; [reflexivity|].
  answer _; [left; split; [reflexivity|by left]|].
  run_to_call. apply exec_return.
Qed.

(** The container exits with code 1 and is removed by hand. *)
Lemma retries_bounded_witness :
  let w := lost (with_container None (with_container (Some (CExited 1)) running_world)) in
  fresh new_world ∧ rtc (@system_step plain_third_party) new_world w ∧
  Z.of_nat (w_starts w) ≤ 2 + 1 + 1 ∧ 1 ≤ Z.of_nat (w_starts w) ≤ 1 + 1 ∧ w_restarts w = 0%nat.
Proof.
  intros w.
  assert (fresh new_world) as Hf by (repeat split; simpl; lia).
  assert (rtc (@system_step plain_third_party) new_world w) as Hr.
  { eapply rtc_l; [apply first_reconcile|]. eapply rtc_l; [by apply (step_exit running_world 1)|].
    eapply rtc_l; [apply step_removed|]. apply rtc_refl. }
  split; [exact Hf|]. split; [exact Hr|].
  destruct (@retries_bounded plain_third_party new_world w Hf Hr eq_refl) as (H1 & H2 & H3).
  split; [exact H1|]. split; [exact H2|]. exact (H3 eq_refl).
Defined.
