(* ===== verification/JobOutcome.v ===== *)
(** * What becomes of a DockerJob

    The abstract life of a job is a function of the exit codes of its containers ([job_verdict]).  In
    the transition system of JobSystem.v, with a daemon and an API server that do what they are
    asked - the daemon restarts what it was created to restart - the controller implements it for
    jobs whose containers Docker is told not to restart: after any number of exits, each followed by
    a reconcile, the status in the API server is the verdict of the codes so far. *)
From S2P Require Import Prelude GoStd Effects Api World Samples Common Lifecycle CommonTheorems JobController JobTheorems JobSystem.
Local Open Scope Z_scope.

(** ** The specification *)
(** The phase and the number of attempts, after one more exit. *)
Definition after_exit (limit : Z) (s : DockerJobPhase * Z) (code : Z) : DockerJobPhase * Z :=
  match s with
  | (JobPhaseRunning, n) =>
      if Int.int32 code =? 0 then (JobPhaseSucceeded, n)
      else if n <=? limit then (JobPhaseRunning, n + 1)
      else (JobPhaseFailed, n)
  | _ => s
  end.
Definition job_verdict (limit : Z) (codes : list Z) : DockerJobPhase * Z :=
  foldl (after_exit limit) (JobPhaseRunning, 1) codes.

Lemma verdict_shape limit codes :
  0 ≤ limit →
  let '(phase, n) := job_verdict limit codes in
  (phase = JobPhaseRunning ∨ is_terminal phase = true) ∧ 1 ≤ n ≤ limit + 1.
Proof.
  intros Hl. induction codes as [|code codes IH] using rev_ind; [simpl; split; [by left|lia]|].
  unfold job_verdict in *. rewrite foldl_app. simpl.
  destruct (foldl _ _ codes) as [phase n]. destruct IH as [Hp Hn].
  destruct phase; simpl; try (by split); [destruct Hp; done..|].
  destruct (Int.int32 code =? 0); [split; [by right|done]|].
  destruct (Z.leb_spec n limit); split; [by left|lia|by right|done].
Qed.

(** ** The environment that does what it is asked *)
(** Calls do not fail, and no DockerHost is found, so that the injected daemon is used. *)
Definition succeeds (o : op) : ans o → Prop :=
  match o with
  | KGet k _ => match k return res (obj k) → Prop with
                | KDockerJob => λ x, is_ok x = true
                | KDockerHost => λ x, ∃ e, x = Err e ∧ err_IsNotFound e = true
                | _ => λ _, True end
  | KUpdate k _ | KStatusUpdate k _ =>
      match k return res (obj k) → Prop with
      | KDockerJob => λ x, is_ok x = true
      | _ => λ _, True end
  | DContainerInspect _ _ => λ x, ∀ e, x = Err e → err_IsNotFound e = true
  | DImagePull _ _ _ | DContainerStart _ _ | DContainerRemove _ _ _ => λ x, is_ok x = true
  | DContainerCreate _ _ _ _ => λ x, is_ok x = true
  | _ => λ _, True
  end.
Definition obeys (w : world) (o : op) (x : ans o) (w' : world) : Prop := answers w o x w' ∧ succeeds o x.

(** A job on the default host that needs no secrets and has no deadline, and whose container
    Docker is told not to restart by itself: its policy is "Never" or empty (or "no"). *)
Record plain_job (job : DockerJob) : Prop := {
  pj_host : host_name (js_DockerHostRef (dj_Spec job)) = "default";
  pj_pull : js_ImagePullSecret (dj_Spec job) = "";
  pj_env : Forall (λ ev, ev_ValueFrom ev = None) (js_EnvVars (dj_Spec job));
  pj_volumes : js_SecretVolumes (dj_Spec job) = [];
  pj_deadline : js_ActiveDeadlineSeconds (dj_Spec job) = None;
  pj_policy : docker_restart_policy (js_RestartPolicy (dj_Spec job)) = "no";
  pj_limit : 0 ≤ js_BackoffLimit (dj_Spec job) < 2 ^ 31 - 1
}.
Definition injected (cli : client) : Reconciler := {| r_DockerClient := Some cli; r_dockerClients := ∅ |}.

(** The running container exits. *)
Definition exits (code : Z) (w : world) : world :=
  match w_container w with Some CRunning => with_container (Some (CExited code)) w | _ => w end.

Section outcome.
Context {T : ThirdParty} (cli : client).

(** A first reconcile, then exits with these codes, each followed by what the daemon does with the
    exited container and a reconcile. *)
Inductive played : world → list Z → world → Prop :=
| played_start w req out w' :
    exec obeys (Reconcile req (injected cli)) w out w' → played w [] w'
| played_exit w codes w1 code w1' req out w2 :
    played w codes w1 → daemon (exits code w1) w1' →
    exec obeys (Reconcile req (injected cli)) w1' out w2 →
    played w (codes ++ [code]) w2.

(** What the world shows of the abstract state [s]. *)
Record follows (spec : DockerJobSpec) (s : DockerJobPhase * Z) (w : world) : Prop := {
  fo_spec : dj_Spec (w_job w) = spec;
  fo_alive : not_deleting (dj_Meta (w_job w)) = true;
  fo_phase : jst_Phase (dj_Status (w_job w)) = s.1;
  fo_attempts : jst_Attempts (dj_Status (w_job w)) = s.2;
  fo_container : s.1 = JobPhaseRunning →
    w_container w = Some CRunning ∧ w_policy w = docker_restart_policy (js_RestartPolicy spec)
}.

(** ** Lemmas *)
Lemma obeys_quiet w o x w' : quiet o → obeys w o x w' → w' = w.
Proof. intros Ho [Ha _]. by apply quiet_answers in Ha. Qed.
Lemma default_host_sat ns ref w :
  host_name ref = "default" →
  sat obeys (getDockerClient ns ref (injected cli)) w (λ o w', w' = w ∧ o = Returned (injected cli, Ok cli)).
Proof.
  intros Href. unfold getDockerClient, resolve. rewrite Href. cbn [r_dockerClients injected].
  rewrite lookup_empty. intros h w1 [Hw1 (e & -> & He)]. simpl in Hw1. subst w1. rewrite He.
  destruct (String.eqb ns "system"); [done|]. intros h w1 [Hw1 (e' & -> & He')]. simpl in Hw1. by subst w1.
Qed.
Lemma resolveEnv_plain ns env envVars :
  Forall (λ ev, ev_ValueFrom ev = None) envVars → ∃ env', resolveEnv ns env envVars = Return (Ok env').
Proof.
  unfold resolveEnv. intros Hp. revert env. induction Hp as [|ev envVars Hev _ IH]; intros env; [by eexists|].
  rewrite range_err_cons. unfold resolveEnvVar at 1. rewrite Hev. apply IH.
Qed.
Lemma create_succeeds job w :
  plain_job job →
  sat obeys (createAndStartContainer cli job) w (λ o w',
    o = Returned (Ok tt) ∧ w_job w' = w_job w ∧ w_container w' = Some CRunning ∧
    w_policy w' = docker_restart_policy (js_RestartPolicy (dj_Spec job))).
Proof.
  intros []. unfold createAndStartContainer. rewrite pj_pull0. cbn [registryAuth String.eqb pbind].
  intros [u|e] w1 [Hw1 Hok]; simpl in Hw1, Hok; subst; [|done].
  intros d w2 [Hw2 _]. simpl in Hw2. subst.
  destruct (resolveEnv_plain (om_Namespace (dj_Meta job)) (js_Env (dj_Spec job)) (js_EnvVars (dj_Spec job)) pj_env0)
    as [env ->]. cbn [pbind].
  intros [id|e] w3 [[[_ [e' He]]|(_ & ->)] Hok3]; simpl in Hok3; try done.
  rewrite pj_volumes0. cbn [uploadSecretVolumes range_err pbind].
  intros [[]|e] w4 [[[_ [e' He]]|[[_ ->]|[[e' He] _]]] Hok4]; simpl in Hok4; done.
Qed.
Lemma update_obeys job w (Q : outcome DockerJob → world → Prop) :
  (∀ job', dj_Spec job' = dj_Spec (w_job w) →
     Q (Returned job') (with_job (set_job_status (dj_Status job) (w_job w)) w)) →
  sat obeys (status_update job) w Q.
Proof. intros HQ r w' [[[-> [->|[e ->]]]|[_ [e ->]]] Hok]; simpl in Hok; [|done..]. by apply HQ. Qed.

(** The calls around the work on the job: the world the work starts in differs in the job's
    metadata only. *)
Definition worked_on (w w1 : world) (job : DockerJob) : Prop :=
  current job w1 ∧ dj_Status (w_job w1) = dj_Status (w_job w) ∧ dj_Spec (w_job w1) = dj_Spec (w_job w) ∧
  not_deleting (dj_Meta (w_job w1)) = true ∧ w_container w1 = w_container w ∧ w_policy w1 = w_policy w.
Lemma reconcile_work req w (Q : world → Prop) :
  plain_job (w_job w) → not_deleting (dj_Meta (w_job w)) = true →
  (∀ job w1, worked_on w w1 job →
     sat obeys (if is_terminal (jst_Phase (dj_Status job)) then handleTTLCleanup cli job else syncJob cli job) w1
       (λ _ w', Q w')) →
  sat obeys (Reconcile req (injected cli)) w (λ _ w', Q w').
Proof.
  intros Hp Hd HQ g w1 [[-> Hg] Hok]. destruct Hg as [->|[e ->]]; [|done].
  apply sat_bind. eapply sat_mono; [|apply default_host_sat, Hp].
  intros o w2 [-> ->]. rewrite Hd. apply sat_bind.
  assert (∀ job w1, worked_on w w1 job →
    sat obeys (bind! out := (if is_terminal (jst_Phase (dj_Status job)) then handleTTLCleanup cli job
                             else syncJob cli job) in Return (injected cli, out)) w1 (λ _ w', Q w')) as Hwork.
  { intros job w1 Hw. apply sat_bind. eapply sat_mono; [|by apply HQ]. by intros []. }
  destruct (ContainsFinalizer _ _).
  - apply (Hwork _ w). by repeat split.
  - intros u w2 [[[_ [e He]]|(job' & [->|[e ->]] & (Hsp & Hst & Hdel) & ->)] Hu]; simpl in Hu; [by subst| |done].
    apply (Hwork job'). unfold worked_on, current. simpl. unfold not_deleting in *. by rewrite Hdel.
Qed.

Lemma ttl_follows spec s job w :
  follows spec s w → is_terminal s.1 = true → sat obeys (handleTTLCleanup cli job) w (λ _ w', follows spec s w').
Proof.
  intros Hf Ht. unfold handleTTLCleanup. repeat (case_match; try done).
  intros now w1 [Hw1 _]. simpl in Hw1. subst. case_match; [done|].
  intros r w2 [[[-> _]| ->] _]; [done|]. destruct Hf. split; try done.
  intros Hr. by rewrite Hr in Ht.
Qed.

(** The first reconcile of a job starts its container. *)
Lemma start_follows spec job w :
  plain_job job → current job w → dj_Spec job = spec → not_deleting (dj_Meta (w_job w)) = true →
  jst_Attempts (dj_Status job) = 0 →
  sat obeys (start_first cli job) w (λ _ w', follows spec (JobPhaseRunning, 1) w').
Proof.
  intros Hp [_ Hsp] <- Hd Ha. apply sat_bind. eapply sat_mono; [|by apply create_succeeds].
  intros o w1 (-> & Hj & Hc & Hpol) now w2 [Hw2 _]. simpl in Hw2. subst. apply sat_bind, update_obeys. intros job' _.
  split; simpl; [by rewrite Hj, Hsp|by rewrite Hj|done|by rewrite Ha|by intros _].
Qed.

Lemma exited_follows spec job w n id code t :
  plain_job job → dj_Spec job = spec → current job w → not_deleting (dj_Meta (w_job w)) = true →
  jst_Phase (dj_Status job) = JobPhaseRunning → jst_Attempts (dj_Status job) = n →
  1 ≤ n ≤ js_BackoffLimit spec + 1 →
  sat obeys (container_exited cli job id (Int.int32 code) t) w
    (λ _ w', follows spec (after_exit (js_BackoffLimit spec) (JobPhaseRunning, n) code) w').
Proof.
  intros Hp <- [Hst Hsp] Hd Hph Ha Hn. unfold container_exited, after_exit. rewrite Ha.
  destruct (Int.int32 code =? 0) eqn:Hcode; [|destruct (Z.leb_spec n (js_BackoffLimit (dj_Spec job)))].
  - apply sat_bind, update_obeys. intros job' _. apply ttl_follows; [|done]. by split.
  - intros r w1 [Hr Hok]. assert (w_job w1 = w_job w) as Hj by by destruct Hr as [[-> _]| ->].
    apply sat_bind. eapply sat_mono; [|apply create_succeeds; by destruct Hp].
    intros o w2 (-> & Hj2 & Hc & Hpol). apply sat_bind, update_obeys. intros job' _.
    destruct Hp. split; simpl; [by rewrite Hj2, Hj|by rewrite Hj2, Hj|done| |by intros _].
    rewrite ?Ha. apply Int.int32_id. unfold Int.in_int32. lia.
  - apply sat_bind, update_obeys. intros job' _. apply ttl_follows; [|done]. by split.
Qed.

Lemma first_reconcile_follows req w :
  plain_job (w_job w) → not_deleting (dj_Meta (w_job w)) = true → fresh w →
  sat obeys (Reconcile req (injected cli)) w (λ _ w', follows (dj_Spec (w_job w)) (JobPhaseRunning, 1) w').
Proof.
  intros Hp Hd (Ht & Ha & Hc & _). apply reconcile_work; [done..|].
  intros job w1 ([Hst1 Hsp1] & Hst & Hsp & Hd1 & Hc1 & _). rewrite Hst1, Hst, Ht.
  intros i w2 [[-> Hi] Hok]. simpl in Hok. destruct Hi as [(e & -> & He)|Hi]; [by rewrite (Hok e eq_refl) in He|].
  rewrite Hc1, Hc in Hi. destruct Hi as (e & -> & He). rewrite He. cbn [negb].
  apply start_follows; [|done|by rewrite Hsp1, Hsp|done|by rewrite Hst1, Hst].
  destruct Hp. by split; rewrite Hsp1, Hsp.
Qed.
(** What the daemon does with the exited container of such a job: nothing. *)
Lemma daemon_leaves spec s code w w' :
  docker_restart_policy (js_RestartPolicy spec) = "no" → follows spec s w → s.1 = JobPhaseRunning →
  daemon (exits code w) w' → w' = exits code w.
Proof.
  intros Hpol Hf Hs Hd. destruct (fo_container _ _ _ Hf Hs) as [Hc Hp]. unfold exits in *. rewrite Hc in Hd |- *.
  inversion Hd as [|? code' Hc' Hr]; subst; [done|]. simpl in Hr. by rewrite Hp, Hpol in Hr.
Qed.
(** A finished job follows whatever becomes of its container. *)
Lemma finished_follows spec s w w' :
  is_terminal s.1 = true → follows spec s w → w_job w' = w_job w → follows spec s w'.
Proof. intros Ht [] Hj. split; rewrite ?Hj; try done. intros Hr. by rewrite Hr in Ht. Qed.
Lemma daemon_job w w' : daemon w w' → w_job w' = w_job w.
Proof. by intros []. Qed.
Lemma exits_job code w : w_job (exits code w) = w_job w.
Proof. unfold exits. by repeat case_match. Qed.

(** One exit and the reconcile that sees it. *)
Lemma exit_follows spec s code req w w' :
  plain_job (w_job w) → follows spec s w → (s.1 = JobPhaseRunning ∨ is_terminal s.1 = true) →
  1 ≤ s.2 ≤ js_BackoffLimit spec + 1 → daemon (exits code w) w' →
  sat obeys (Reconcile req (injected cli)) w'
    (λ _ w', follows spec (after_exit (js_BackoffLimit spec) s code) w').
Proof.
  intros Hp Hf Hs Hn Hdm. destruct s as [phase n]. simpl in Hs, Hn.
  assert (w_job w' = w_job w) as Hj by by rewrite (daemon_job _ _ Hdm), exits_job.
  pose proof Hf as [Hspec Hd Hph Hat Hc]. simpl in Hph, Hat, Hc.
  apply reconcile_work; [by rewrite Hj..|]. intros job w1 ([Hst1 Hsp1] & Hst & Hsp & Hd1 & Hc1 & Hpol1).
  rewrite Hj in Hst, Hsp. rewrite Hst1, Hst, Hph.
  assert (plain_job job) as Hp' by by destruct Hp; split; rewrite Hsp1, Hsp.
  destruct Hs as [->|Hterm].
  - assert (docker_restart_policy (js_RestartPolicy spec) = "no") as Hno by (rewrite <- Hspec; apply Hp).
    rewrite (daemon_leaves spec (JobPhaseRunning, n) code w w' Hno Hf eq_refl Hdm) in Hc1, Hpol1.
    destruct Hc as [Hc Hpol]; [done|]. unfold exits in Hc1, Hpol1. rewrite Hc in Hc1, Hpol1. simpl in Hc1, Hpol1.
    simpl. intros i w2 [[-> Hi] Hok]. simpl in Hok.
    destruct Hi as [(e & -> & He)|Hi]; [by rewrite (Hok e eq_refl) in He|]. rewrite Hc1 in Hi.
    destruct Hi as (i' & -> & st & Hcj & [(Hr & Hex & Hco)|[Hr _]]); [|by rewrite Hpol1, Hpol, Hno in Hr].
    rewrite Hcj, Hr, Hex. cbn [String.eqb].
    intros now w3 [Hw3 _]. simpl in Hw3. subst w3. rewrite Hco.
    apply exited_follows; [done|by rewrite Hsp1, Hsp|done|done|by rewrite Hst1, Hst|by rewrite Hst1, Hst|done].
  - rewrite Hterm. assert (after_exit (js_BackoffLimit spec) (phase, n) code = (phase, n)) as -> by by destruct phase.
    apply ttl_follows; [|done]. split; simpl; [by rewrite Hsp|done|by rewrite Hst|by rewrite Hst|].
    intros ->. done.
Qed.

Lemma played_follows w codes w' :
  plain_job (w_job w) → not_deleting (dj_Meta (w_job w)) = true → fresh w → played w codes w' →
  follows (dj_Spec (w_job w)) (job_verdict (js_BackoffLimit (dj_Spec (w_job w))) codes) w'.
Proof.
  intros Hp Hd Hf Hplay. induction Hplay as [w req out w' Hrun|w codes w1 code w1' req out w2 Hplay IH Hdm Hrun].
  - by apply (sat_exec _ _ _ _ _ _ (first_reconcile_follows req w Hp Hd Hf)) in Hrun.
  - specialize (IH Hp Hd Hf). set (limit := js_BackoffLimit (dj_Spec (w_job w))) in *.
    pose proof (verdict_shape limit codes (proj1 (pj_limit _ Hp))) as Hshape.
    unfold job_verdict. rewrite foldl_app. simpl. fold (job_verdict limit codes).
    destruct (job_verdict limit codes) as [phase n] eqn:Hv. destruct Hshape as [Hphase Hn].
    refine (sat_exec _ _ _ _ _ _ (exit_follows (dj_Spec (w_job w)) (phase, n) code req w1 w1' _ IH Hphase Hn Hdm) Hrun).
    destruct Hp. by split; rewrite (fo_spec _ _ _ IH).
Qed.
End outcome.

(** C11. A job ends as its exit codes say.  With a Docker daemon and an API server that do what they
    are asked (the daemon restarts the containers it was created to restart, and no others), for a
    job on the default host without secrets and deadline and with the restart policy "Never" (or
    none): after the first reconcile and any sequence of container exits, each followed by a
    reconcile, the phase and the number of attempts stored in the API server are those of the abstract job -
    Running until a code of 0 (Succeeded) or until backoffLimit + 1 containers have failed
    (Failed), and fixed from then on - and a job that is Running has a running container. *)
Theorem job_outcome {T : ThirdParty} cli w codes w' :
  plain_job (w_job w) → not_deleting (dj_Meta (w_job w)) = true → fresh w → played cli w codes w' →
  let '(phase, attempts) := job_verdict (js_BackoffLimit (dj_Spec (w_job w))) codes in
  jst_Phase (dj_Status (w_job w')) = phase ∧ jst_Attempts (dj_Status (w_job w')) = attempts ∧
  (phase = JobPhaseRunning → w_container w' = Some CRunning).
Proof.
  intros Hp Hd Hf Hplay. destruct (played_follows cli w codes w' Hp Hd Hf Hplay) as [_ _ Hph Hat Hc].
  destruct (job_verdict _ codes) as [phase n]. split; [done|]. split; [done|]. intros Hr. by apply Hc.
Qed.

(** ** Witness *)
(** The new job of JobSystem.v: its container exits with code 0. *)
Definition succeeded_status : DockerJobStatus :=
  {| jst_Phase := JobPhaseSucceeded; jst_ContainerID := "id"; jst_StartTime := Some 7; jst_CompletionTime := Some 9;
     jst_ExitCode := Some 0; jst_Attempts := 1; jst_Message := "Job completed successfully" |}.
Definition succeeded_world : world :=
  {| w_job := set_job_status succeeded_status new_job; w_container := Some (CExited 0); w_policy := "no";
     w_starts := 1; w_restarts := 0; w_lost := 0 |}.
Definition exited_ok : ContainerJSON :=
  {| cj_ID := "id";
     cj_State := Some {| st_Status := "exited"; st_Running := false; st_ExitCode := 0; st_Health := None |};
     cj_HostConfig := None; cj_Config := None; cj_Networks := None |}.
Lemma new_job_plain : plain_job (w_job new_world).
Proof. by split. Qed.
Lemma played_new : @played plain_third_party 1 new_world [] running_world.
Proof.
  eapply (played_start _ _ {| nn_Namespace := "prod"; nn_Name := "job" |}).
  answer (Ok new_job); [split; [split; [reflexivity|by left]|reflexivity]|].
  cbv beta iota. rewrite getDockerClient_miss by apply lookup_empty.
  answer (Err not_found); [split; [reflexivity|by eexists]|].
  answer (Err not_found); [split; [reflexivity|by eexists]|].
  answer (Err not_found); [split; [split; [reflexivity|right; by exists not_found]|by intros e [= <-]]|].
  answer (Ok tt); [split; reflexivity|].
  answer tt; [split; reflexivity|].
  answer (Ok "id"); [split; [right; split; reflexivity|reflexivity]|].
  answer (Ok tt); [split; [right; left; split; reflexivity|reflexivity]|].
  answer 7; [split; reflexivity|].
  answer (Ok _); [split; [left; split; [reflexivity|left; reflexivity]|reflexivity]|].
  run_to_call. apply exec_return.
Qed.
Lemma played_success : @played plain_third_party 1 new_world [0] succeeded_world.
Proof.
  eapply (played_exit _ _ [] running_world 0 _ {| nn_Namespace := "prod"; nn_Name := "job" |});
    [apply played_new|apply daemon_idle|].
  answer (Ok (w_job running_world)); [split; [split; [reflexivity|by left]|reflexivity]|].
  cbv beta iota. rewrite getDockerClient_miss by apply lookup_empty.
  answer (Err not_found); [split; [reflexivity|by eexists]|].
  answer (Err not_found); [split; [reflexivity|by eexists]|].
  answer (Ok exited_ok); [split; [split; [reflexivity|right; exists exited_ok; split; [reflexivity|]]|done]|].
  { eexists. split; [reflexivity|]. by left. }
  answer 9; [split; reflexivity|].
  answer (Ok _); [split; [left; split; [reflexivity|left; reflexivity]|reflexivity]|].
  run_to_call. apply exec_return.
Qed.
Lemma job_outcome_witness :
  plain_job (w_job new_world) ∧ fresh new_world ∧ @played plain_third_party 1 new_world [0] succeeded_world ∧
  job_verdict 2 [0] = (JobPhaseSucceeded, 1) ∧ jst_Phase (dj_Status (w_job succeeded_world)) = JobPhaseSucceeded.
Proof.
  assert (fresh new_world) as Hf by (repeat split; simpl; lia).
  split; [exact new_job_plain|]. split; [exact Hf|]. split; [exact played_success|]. split; [reflexivity|].
  exact (proj1 (@job_outcome plain_third_party 1 new_world [0] succeeded_world new_job_plain eq_refl Hf played_success)).
Defined.
