(* ===== verification/DeploymentTheorems.v ===== *)
(** * Properties of the DockerDeployment controller

    What one reconcile of DeploymentController.v does to the containers a deployment owns, read
    off the trace of its calls: the scaling, the victims, the count it reports. *)
From S2P Require Import Prelude GoStd Effects Api World Samples DeploymentController.
Local Open Scope Z_scope.

(** ** Reading a trace *)
Definition created (o : op) : option DockerContainer :=
  match o with
  | KCreate k c =>
      match k return obj k → option DockerContainer with KDockerContainer => λ c, Some c | _ => λ _, None end c
  | _ => None
  end.
Definition deleted (o : op) : option DockerContainer :=
  match o with
  | KDelete k c =>
      match k return obj k → option DockerContainer with KDockerContainer => λ c, Some c | _ => λ _, None end c
  | _ => None
  end.
Definition status_written (o : op) : option DockerDeployment :=
  match o with
  | KStatusUpdate k d =>
      match k return obj k → option DockerDeployment with KDockerDeployment => λ d, Some d | _ => λ _, None end d
  | _ => None
  end.
Definition creations (tr : go_trace) : list DockerContainer := omap created (ev_op <$> tr).
Definition deletions (tr : go_trace) : list DockerContainer := omap deleted (ev_op <$> tr).
Definition status_writes (tr : go_trace) : list DockerDeployment := omap status_written (ev_op <$> tr).
Lemma creations_app tr1 tr2 : creations (tr1 ++ tr2) = creations tr1 ++ creations tr2.
Proof. unfold creations. by rewrite fmap_app, omap_app. Qed.
Lemma deletions_app tr1 tr2 : deletions (tr1 ++ tr2) = deletions tr1 ++ deletions tr2.
Proof. unfold deletions. by rewrite fmap_app, omap_app. Qed.
Lemma status_writes_app tr1 tr2 : status_writes (tr1 ++ tr2) = status_writes tr1 ++ status_writes tr2.
Proof. unfold status_writes. by rewrite fmap_app, omap_app. Qed.

(** [rand.Intn(n)] lies in [0, n). *)
Definition intn_in_range (o : op) : ans o → Prop :=
  match o with RandIntn n => λ x, 0 < n → 0 ≤ x < n | _ => λ _, True end.

Definition no_object (o : op) : Prop := created o = None ∧ deleted o = None.
Lemma no_object_trace tr :
  Forall (λ e : event ans, no_object (ev_op e)) tr → creations tr = [] ∧ deletions tr = [].
Proof.
  induction 1 as [|e tr [H1 H2] Htr [IH1 IH2]]; [done|].
  unfold creations, deletions in *. simpl. by rewrite H1, H2.
Qed.
(** Random numbers change nothing. *)
Definition random (o : op) : Prop := match o with RandIntn _ => True | _ => False end.
Lemma random_trace tr :
  Forall (λ e : event ans, random (ev_op e)) tr → creations tr = [] ∧ deletions tr = [] ∧ status_writes tr = [].
Proof.
  induction 1 as [|[o x] tr H1 Htr (IH1 & IH2 & IH3)]; [done|].
  by destruct o.
Qed.

(** ** What a created container looks like *)
(** A suffix of five characters of [letterRunes], appended to the deployment's name and
    to the container name of the template, if it has one. *)
Definition suffix_ok (suffix : string) : Prop :=
  String.length suffix = 5%nat ∧ Forall (λ c, c ∈ Strings.chars letterRunes) (Strings.chars suffix).
Definition made_from `{T : ThirdParty} (d : DockerDeployment) (suffix : string) (c : DockerContainer) : Prop :=
  let template := ds_Template (dd_Spec d) in
  (∀ meta, SetControllerReference KDockerDeployment (dd_Meta d)
     (new_meta (om_Name (dd_Meta d) +:+ "-" +:+ suffix) (om_Namespace (dd_Meta d)) (tm_Labels (tpl_Metadata template)))
     = Ok meta → dc_Meta c = meta) ∧
  ∃ name, name <> "" ∧ dc_Spec c = set_container_name name (tpl_Spec template) ∧
  (cs_ContainerName (tpl_Spec template) = "" → name = om_Name (dd_Meta d) +:+ "-" +:+ suffix) ∧
  (cs_ContainerName (tpl_Spec template) ≠ "" → name = cs_ContainerName (tpl_Spec template) +:+ "-" +:+ suffix).

Lemma utilRandString_wp n :
  wp intn_in_range (utilRandString n) (λ tr o,
    Forall (λ e, random (ev_op e)) tr ∧ ∃ s, o = Returned s ∧ String.length s = n ∧
    Forall (λ c, c ∈ Strings.chars letterRunes) (Strings.chars s)).
Proof.
  induction n as [|n IH]; [split; [constructor|]; by exists ""|].
  intros i Hi. simpl in Hi.
  destruct (lookup_lt_is_Some_2 (Strings.chars letterRunes) (Z.to_nat i)) as [c Hc]; [simpl; lia|].
  rewrite Hc. apply wp_bind. eapply wp_mono; [|exact IH].
  intros tr o (Htr & s & -> & Hlen & Hs). simpl. split.
  - constructor; [done|]. rewrite app_nil_r. done.
  - exists (String c s). simpl. split; [done|]. split; [by rewrite Hlen|].
    constructor; [|done]. by eapply list_elem_of_lookup_2.
Qed.

Section theorems.
Context {T : ThirdParty} {S : SortSlice}.

Lemma construct_wp d :
  wp intn_in_range (constructContainer d) (λ tr o,
    Forall (λ e, random (ev_op e)) tr ∧ ∃ suffix c, o = Returned c ∧ suffix_ok suffix ∧ made_from d suffix c).
Proof.
  apply wp_bind. eapply wp_mono; [|apply utilRandString_wp].
  intros tr o (Htr & s & -> & Hlen & Hs). simpl. rewrite app_nil_r. split; [done|].
  eexists s, _. split; [done|]. split; [done|].
  split; [by intros meta ->|].
  destruct (String.eqb_spec (cs_ContainerName (tpl_Spec (ds_Template (dd_Spec d)))) "") as [He|He].
  - eexists. split; [|split; [reflexivity|done]]. by destruct (om_Name (dd_Meta d)).
  - eexists. split; [|split; [reflexivity|done]]. by destruct (cs_ContainerName (tpl_Spec (ds_Template (dd_Spec d)))).
Qed.

(** ** The scaling loops *)
Lemma scale_up_wp d i n :
  wp intn_in_range (range_err (seqZ i n) tt (λ _ _,
      bind! newContainer := constructContainer d in
      let! c := KCreate KDockerContainer newContainer in
      Return (match c with Ok _ => Ok tt | Err err => Err err end))) (λ tr o,
    deletions tr = [] ∧ status_writes tr = [] ∧ Forall (λ c, ∃ suffix, suffix_ok suffix ∧ made_from d suffix c) (creations tr) ∧
    match o with
    | Returned (Ok _) => Z.of_nat (length (creations tr)) = Z.max 0 n
    | Returned (Err _) => Z.of_nat (length (creations tr)) ≤ n
    | Panicked _ => False
    end).
Proof.
  destruct (decide (n < 0)) as [Hneg|Hpos]; [rewrite seqZ_nil by lia; simpl; split_and!; [done|done|constructor|lia]|].
  rewrite <- (Z2Nat.id n) by lia. generalize (Z.to_nat n) as m. clear Hpos n. intros m. revert i.
  induction m as [|m IH]; intros i; [simpl; split_and!; [done|done|constructor|done]|].
  rewrite seqZ_cons by lia. rewrite range_err_cons. apply wp_bind, wp_bind.
  eapply wp_mono; [|apply construct_wp].
  intros tr o (Htr & suffix & c & -> & Hsuf & Hmade). destruct (random_trace tr Htr) as (Hc & Hd & Hu).
  intros u _. destruct u as [c'|e]; cbn [and_then].
  - replace (Z.succ i) with (i + 1) by lia.
    replace (Z.pred (Z.of_nat (Datatypes.S m))) with (Z.of_nat m) by lia.
    simpl. eapply wp_mono; [|apply IH]. intros tr2 o2 (Hd2 & Hu2 & Hm2 & Ho2).
    rewrite !deletions_app, !creations_app, !status_writes_app, Hc, Hd, Hu. simpl.
    rewrite Hd2. split; [done|]. split; [done|].
    split; [constructor; [by exists suffix|done]|]. destruct o2 as [[u|e]|w]; [simpl; lia..|done].
  - simpl. rewrite app_nil_r, deletions_app, creations_app, status_writes_app, Hc, Hd, Hu. simpl. split_and!; [done|done| |lia].
    by constructor; [exists suffix|].
Qed.

(** Scaling down deletes from the end of the list, one by one. *)
Lemma scale_down_wp R l k :
  (0 ≤ k) → wp R (scale_down l k) (λ tr o,
    creations tr = [] ∧ status_writes tr = [] ∧ ∃ m, deletions tr = take m (reverse l) ∧ 
    match o with
    | Returned (Ok _) => m = Z.to_nat k ∧ (m ≤ length l)%nat
    | Returned (Err _) => (m ≤ Z.to_nat k)%nat
    | Panicked _ => (length l < Z.to_nat k)%nat ∧ m = length l
    end).
Proof.
  intros Hk. unfold scale_down.
  assert (∀ n i, (i ≤ length l)%nat → wp R (range_err (seqZ (Z.of_nat i) (Z.of_nat n)) tt (λ _ i,
      let index := Z.of_nat (length l) - 1 - i in
      match (if 0 <=? index then l !! Z.to_nat index else None) with
      | None => Panic "index out of range"
      | Some victim => let! d := KDelete KDockerContainer victim in Return d
      end)) (λ tr o, creations tr = [] ∧ status_writes tr = [] ∧ ∃ m, deletions tr = take m (drop i (reverse l)) ∧
    match o with
    | Returned (Ok _) => m = n ∧ (i + m ≤ length l)%nat
    | Returned (Err _) => (m ≤ n)%nat
    | Panicked _ => (length l < i + n)%nat ∧ (i + m = length l)%nat
    end)) as Hloop.
  { induction n as [|n IH]; intros i Hi; [simpl; split; [done|]; split; [done|]; exists 0%nat; repeat split; lia|].
    rewrite seqZ_cons by lia. rewrite range_err_cons. cbv beta zeta.
    set (index := Z.of_nat (length l) - 1 - Z.of_nat i).
    destruct (Z.leb_spec 0 index) as [Hle|Hgt].
    - destruct (lookup_lt_is_Some_2 l (Z.to_nat index)) as [v Hv]; [lia|].
      match goal with |- context [match ?x with Some _ => _ | None => _ end] => replace x with (Some v) by (symmetry; exact Hv) end.
      assert (drop i (reverse l) = v :: drop (Datatypes.S i) (reverse l)) as Hdrop.
      { apply drop_S. rewrite reverse_lookup by lia. rewrite <- Hv. f_equal. lia. }
      intros x _. destruct x as [[]|e]; simpl.
      + replace (Z.succ (Z.of_nat i)) with (Z.of_nat (Datatypes.S i)) by lia.
        replace (Z.pred (Z.of_nat (Datatypes.S n))) with (Z.of_nat n) by lia.
        eapply wp_mono; [|apply IH; lia]. intros tr o (Hc & Hu & m & Hd & Ho). split; [done|]. split; [done|].
        exists (Datatypes.S m). rewrite Hdrop.
        split; [change (v :: deletions tr = v :: take m (drop (Datatypes.S i) (reverse l))); by rewrite Hd|].
        destruct o as [[u|e]|w]; lia.
      + split; [done|]. split; [done|]. exists 1%nat. rewrite Hdrop. split; [done|lia].
    - simpl. split; [done|]. split; [done|]. exists 0%nat. split; [done|]. lia. }
  specialize (Hloop (Z.to_nat k) 0%nat). rewrite Z2Nat.id in Hloop by done.
  eapply wp_mono; [|apply Hloop; lia]. intros tr o (Hc & Hu & m & Hd & Ho). split; [done|]. split; [done|]. exists m. split; [done|].
  destruct o as [[u|e]|w]; lia.
Qed.

(** ** Reconcile *)
(** The deployment a run read, the containers it listed. *)
Definition got_deployment (e : go_event) : option DockerDeployment :=
  match e with
  | Ev (KGet k _) x =>
      match k return res (obj k) → option DockerDeployment with
      | KDockerDeployment => λ x, match x with Ok d => Some d | Err _ => None end
      | _ => λ _, None
      end x
  | _ => None
  end.
Definition got_containers (e : go_event) : option (list DockerContainer) :=
  match e with
  | Ev (KList k _) x =>
      match k return res (list (obj k)) → option (list DockerContainer) with
      | KDockerContainer => λ x, match x with Ok l => Some l | Err _ => None end
      | _ => λ _, None
      end x
  | _ => None
  end.
Definition snapshot (tr : go_trace) : option (DockerDeployment * list DockerContainer) :=
  match tr with
  | e1 :: e2 :: _ => d ← got_deployment e1; l ← got_containers e2; Some (d, l)
  | _ => None
  end.
Definition owned_by (d : DockerDeployment) (l : list DockerContainer) : list DockerContainer :=
  List.filter (λ c, IsControlledBy (dc_Meta c) (dd_Meta d)) l.

(** The API server returns objects of the declared types: [replicas] is an int32, and
    a list has fewer than 2^31 items; [rand.Intn] is in range. *)
Definition well_typed (o : op) : ans o → Prop :=
  match o with
  | RandIntn n => λ x, 0 < n → 0 ≤ x < n
  | KGet k _ =>
      match k return res (obj k) → Prop with
      | KDockerDeployment => λ x, match x with Ok d => Int.in_int32 (desired_replicas d) | Err _ => True end
      | _ => λ _, True
      end
  | KList k _ => λ x, match x with Ok l => Z.of_nat (length l) < 2 ^ 31 | Err _ => True end
  | _ => λ _, True
  end.
(** What one reconcile did with the containers it saw: [surplus] too many, the newest
    are deleted; too few, the missing ones are created. *)
Definition scaled (d : DockerDeployment) (l : list DockerContainer) (tr : go_trace) (o : outcome reconcile_result) : Prop :=
  let surplus := Z.of_nat (length (owned_by d l)) - desired_replicas d in
  ∃ oldest_first, oldest_first ≡ₚ owned_by d l ∧ StronglySorted not_younger oldest_first ∧
  Forall (λ c, ∃ suffix, suffix_ok suffix ∧ made_from d suffix c) (creations tr) ∧
  deletions tr = take (length (deletions tr)) (reverse oldest_first) ∧
  match o with
  | Returned (_, None) =>
      Z.of_nat (length (creations tr)) = Z.max 0 (- surplus) ∧ Z.of_nat (length (deletions tr)) = Z.max 0 surplus
  | Returned (_, Some _) =>
      Z.of_nat (length (creations tr)) ≤ Z.max 0 (- surplus) ∧ Z.of_nat (length (deletions tr)) ≤ Z.max 0 surplus
  | Panicked _ => desired_replicas d < 0 ∧ creations tr = [] ∧ deletions tr = reverse oldest_first
  end.

(** The status it writes: how many of the containers it saw were running. *)
Definition with_available (n : Z) (d : DockerDeployment) : DockerDeployment :=
  {| dd_Meta := dd_Meta d; dd_Spec := dd_Spec d;
     dd_Status := {| dst_AvailableReplicas := n; dst_Conditions := dst_Conditions (dd_Status d) |} |}.
Definition counted (d : DockerDeployment) (l : list DockerContainer) (tr : go_trace) (o : outcome reconcile_result) : Prop :=
  let n := Z.of_nat (length (List.filter running (owned_by d l))) in
  let news := if dst_AvailableReplicas (dd_Status d) =? n then [] else [with_available n d] in
  match o with
  | Returned (_, None) => status_writes tr = news
  | Returned (_, Some _) => status_writes tr = [] ∨ status_writes tr = news
  | Panicked _ => status_writes tr = []
  end.

Lemma available_count l : Z.of_nat (length l) < 2 ^ 31 → available l = Z.of_nat (length (List.filter running l)).
Proof.
  unfold available. intros Hl.
  assert (∀ n, 0 ≤ n → n + Z.of_nat (length l) < 2 ^ 31 →
    foldl (λ n c, if running c then Int.int32 (n + 1) else n) n l = n + Z.of_nat (length (List.filter running l))) as Hgen.
  { induction l as [|c l IH]; intros n Hn Hlt; simpl in *; [lia|].
    destruct (running c); simpl; [rewrite Int.int32_id by (unfold Int.in_int32; lia)|]; rewrite IH; lia. }
  rewrite Hgen; lia.
Qed.
Lemma filter_count_Permutation l l' :
  l ≡ₚ l' → length (List.filter running l) = length (List.filter running l').
Proof. induction 1; simpl; repeat case_match; simpl; congruence. Qed.

(** The scaling step, with the arithmetic in range. *)
Lemma scaling_step (L : SortSliceLaws S) d l :
  let owned := sort_Slice (owned_by d l) in
  let diff := desired_replicas d - Z.of_nat (length owned) in
  wp well_typed
    (if 0 <? diff then scale_up d diff else if diff <? 0 then scale_down owned (- diff) else Return (Ok tt))
    (λ tr o, status_writes tr = [] ∧
             match o with
             | Returned (Ok _) => scaled d l tr (Returned (no_requeue, None))
             | Returned (Err e) => scaled d l tr (Returned (no_requeue, Some e))
             | Panicked w => scaled d l tr (Panicked w)
             end).
Proof.
  intros owned diff.
  assert (length (owned_by d l) = length owned) as Hlen.
  { symmetry. apply Permutation_length, sort_Slice_Permutation. }
  destruct (Z.ltb_spec 0 diff) as [Hup|Hup]; [|destruct (Z.ltb_spec diff 0) as [Hdown|Hdown]].
  - eapply wp_mono; [|eapply wp_rely; [|apply (scale_up_wp d 0 diff)]].
    + intros tr o (Hd & Hu & Hc & Ho). unfold scaled. rewrite Hd, Hlen.
      destruct o as [[u|e]|w]; [..|done];
        (split; [done|]; exists owned; split; [apply sort_Slice_Permutation|]; split; [apply sort_Slice_Sorted|]; simpl;
         split; [done|]; split; [done|lia]).
    + intros [] x Hx; simpl in *; auto.
  - eapply wp_mono; [|apply (scale_down_wp _ owned (- diff)); lia].
    intros tr o (Hc & Hu & m & Hd & Ho). unfold scaled. rewrite Hc, Hlen, Hd.
    destruct o as [[u|e]|w]; (split; [done|]);
      (exists owned; split; [apply sort_Slice_Permutation|]; split; [apply sort_Slice_Sorted|];
       split; [constructor|]).
    + rewrite length_take, length_reverse, min_l by lia. split; [done|]. simpl. lia.
    + rewrite length_take, length_reverse. split; [|simpl; lia].
      destruct (decide (m ≤ length owned)%nat); [by rewrite min_l|].
      rewrite min_r by lia. rewrite !firstn_all2; rewrite ?length_reverse; [done|lia..].
    + destruct Ho as [Ho ->]. rewrite length_take, length_reverse, Nat.min_id. split; [done|].
      split; [lia|]. split; [done|]. by rewrite firstn_all2 by (rewrite length_reverse; lia).
  - unfold scaled. simpl. rewrite Hlen. split; [done|].
    exists owned. split; [apply sort_Slice_Permutation|]. split; [apply sort_Slice_Sorted|].
    split; [constructor|]. split; [done|lia].
Qed.
(** After scaling, a reconcile only writes a status. *)
Lemma scaled_then d l tr tr' r e o' :
  Forall (λ ev : go_event, no_object (ev_op ev)) tr' →
  scaled d l tr (Returned (r, e)) → (∃ r', o' = Returned (r', e) ∨ e = None ∧ ∃ e', o' = Returned (r', Some e')) →
  scaled d l (tr ++ tr') o'.
Proof.
  intros [Hc Hd]%no_object_trace (sorted & Hp & Hs & Hm & Htake & Ho) [r' Ho'].
  exists sorted. rewrite creations_app, deletions_app, Hc, Hd, !app_nil_r.
  repeat (split; [done|]). destruct Ho' as [->|[-> [e' ->]]]; [done|lia].
Qed.

(** A prefix of two reads. *)
Lemma scaled_reads d l e1 e2 tr o :
  no_object (ev_op e1) → no_object (ev_op e2) → scaled d l tr o → scaled d l (e1 :: e2 :: tr) o.
Proof.
  intros [H1 H1'] [H2 H2']. unfold scaled, creations, deletions. simpl. by rewrite H1, H1', H2, H2'.
Qed.

(** No negative count, or a surplus that fits an int32. *)
Definition in_range (d : DockerDeployment) (l : list DockerContainer) : Prop :=
  0 ≤ desired_replicas d ∨ Z.of_nat (length (owned_by d l)) - desired_replicas d < 2 ^ 31.

Local Ltac skip_reads :=
  match goal with |- context [status_writes (?a :: ?b :: ?t)] =>
    change (status_writes (a :: b :: t)) with (status_writes t) end.
Lemma reconcile_scales (L : SortSliceLaws S) req :
  wp well_typed (Reconcile req) (λ tr o,
    match snapshot tr with
    | Some (d, l) => in_range d l → scaled d l tr o ∧ counted d l tr o
    | None => creations tr = [] ∧ deletions tr = [] ∧ status_writes tr = [] ∧ ∃ r, o = Returned r
    end).
Proof.
  intros [d|e] Hd; simpl; [|by destruct (err_IsNotFound e); eauto 6].
  destruct (not_deleting (dd_Meta d)); simpl; [|by eauto 6].
  intros [l|e] Hl; simpl; [|by eauto 6].
  simpl in Hd, Hl.
  assert (length (owned_by d l) ≤ length l)%nat as Hle by apply filter_length_le.
  destruct (Z_lt_le_dec (Z.of_nat (length (owned_by d l)) - desired_replicas d) (2 ^ 31)) as [Hr|Hr];
    [|apply wp_any; intros tr o Hin; unfold in_range in Hin; lia].
  pose proof (scaling_step L d l) as Hstep. cbv zeta in Hstep.
  fold (owned_by d l). set (owned := sort_Slice (owned_by d l)) in *.
  assert (owned ≡ₚ owned_by d l) as Hperm by apply sort_Slice_Permutation.
  pose proof (Permutation_length Hperm) as Hlen. unfold Int.in_int32 in Hd.
  rewrite (Int.int32_id (Z.of_nat _)) by (unfold Int.in_int32; lia).
  rewrite (Int.int32_id (desired_replicas d - _)) by (unfold Int.in_int32; lia).
  rewrite (Int.int32_id (- _)) by (unfold Int.in_int32; lia).
  rewrite (available_count owned) by lia. rewrite (filter_count_Permutation _ _ Hperm).
  apply wp_bind. eapply wp_mono; [|exact Hstep].
  intros tr [[u|e]|w] [Hu Hs]; simpl.
  - unfold counted. destruct (dst_AvailableReplicas (dd_Status d) =? _) eqn:Hn; simpl.
    + intros _. rewrite app_nil_r. split; [|done]. apply scaled_reads; [done..|].
      rewrite <- (app_nil_r tr). eapply scaled_then; [constructor|exact Hs|eauto].
    + intros u' _. destruct u' as [d'|e]; simpl; intros _.
      * split; [|skip_reads; by rewrite status_writes_app, Hu].
        apply scaled_reads; [done..|]. eapply scaled_then; [|exact Hs|eauto]. by constructor.
      * split; [|skip_reads; rewrite status_writes_app, Hu; by right].
        apply scaled_reads; [done..|]. eapply scaled_then; [|exact Hs|eauto 6]. by constructor.
  - intros _. rewrite app_nil_r. split; [|by left]. apply scaled_reads; [done..|].
    rewrite <- (app_nil_r tr). eapply scaled_then; [constructor|exact Hs|eauto].
  - intros _. split; [by apply scaled_reads|done].
Qed.

(** C13. Whatever the API server answers, a reconcile of a DockerDeployment with a
    non-negative replica count returns, creates exactly the containers that are missing or
    deletes exactly the surplus (up to the first call that fails), deletes only owned
    containers and the newest of them first, creates only containers built from the template
    with a fresh five-character suffix, and writes the number of running owned containers
    exactly when it changed.  Only the number of containers counts: those already there are left as
    they are when the template (its image, say) has changed. *)
Theorem replicas_exact (L : SortSliceLaws S) req :
  wp well_typed (Reconcile req) (λ tr o,
    match snapshot tr with
    | Some (d, l) => 0 ≤ desired_replicas d → scaled d l tr o ∧ counted d l tr o ∧ ∃ r, o = Returned r
    | None => creations tr = [] ∧ deletions tr = [] ∧ status_writes tr = [] ∧ ∃ r, o = Returned r
    end).
Proof.
  eapply wp_mono; [|apply (reconcile_scales L)]. intros tr o.
  cbv beta. destruct (snapshot tr) as [[d l]|]; [intros H Hd|done].
  destruct H as [Hs Hc]; [by left|]. split; [done|]. split; [done|].
  destruct o as [r|w]; [by eauto|]. destruct Hs as (? & _ & _ & _ & _ & [Hneg _]). lia.
Qed.

(** C14. A negative replica count (the API does not reject one) never succeeds: unless an
    API call fails first, the controller deletes every owned container and then panics on an
    index out of range. *)
Theorem negative_replicas_panic (L : SortSliceLaws S) req :
  wp well_typed (Reconcile req) (λ tr o,
    ∀ d l, snapshot tr = Some (d, l) →
    desired_replicas d < 0 → Z.of_nat (length (owned_by d l)) - desired_replicas d < 2 ^ 31 →
    (∃ r err, o = Returned (r, Some err)) ∨
    (∃ w, o = Panicked w) ∧ deletions tr ≡ₚ owned_by d l ∧ creations tr = []).
Proof.
  eapply wp_mono; [|apply (reconcile_scales L)]. intros tr o H d l Hsnap Hneg Hr.
  cbv beta in H. rewrite Hsnap in H. destruct H as [(sorted & Hp & _ & _ & Htake & Ho) _]; [by right|].
  pose proof (Permutation_length Hp) as Hlen.
  destruct o as [[r [err|]]|w]; [by left; eauto| |].
  - exfalso. destruct Ho as [_ Hdel]. apply (f_equal length) in Htake.
    rewrite length_take, length_reverse in Htake. lia.
  - right. destruct Ho as (_ & Hc & ->). split; [by eauto|]. by rewrite reverse_Permutation.
Qed.
End theorems.

(** ** Concrete runs *)
(** A stable sort is one way to satisfy the laws. *)
Definition stable_sort : SortSlice := merge_sort not_younger.
#[global] Instance not_younger_total : Total not_younger.
Proof. intros c d. unfold not_younger. lia. Qed.
#[global] Instance not_younger_trans : Transitive not_younger.
Proof. intros c d e. unfold not_younger. lia. Qed.
Lemma stable_sort_laws : SortSliceLaws stable_sort.
Proof.
  split; intros l; [apply merge_sort_Permutation|apply StronglySorted_merge_sort; apply _].
Qed.
Definition sample_deployment (replicas : Z) : DockerDeployment :=
  {| dd_Meta := sample_meta "web" [] 0;
     dd_Spec := {| ds_Replicas := Some replicas; ds_Selector := None;
                   ds_Template := {| tpl_Metadata := {| tm_Labels := ∅; tm_Annotations := ∅ |}; tpl_Spec := nginx |} |};
     dd_Status := {| dst_AvailableReplicas := 0; dst_Conditions := [] |} |}.
(** Two containers exist; every other call succeeds. *)
Definition cluster (replicas : Z) (o : op) (w : unit) : ans o * unit :=
  (match o return ans o with
   | KGet k key => match k return res (obj k) with
                   | KDockerDeployment => Ok (sample_deployment replicas) | k => refuse (KGet k key) end
   | KList k opts => match k return res (list (obj k)) with
                     | KDockerContainer => Ok two_containers | k => refuse (KList k opts) end
   | KCreate _ x | KStatusUpdate _ x => Ok x
   | KDelete _ _ => Ok tt
   | o => refuse o
   end, w).
Definition run_cluster (replicas : Z) : outcome reconcile_result * go_trace * unit :=
  run (cluster replicas) (@Reconcile plain_third_party stable_sort {| nn_Namespace := "prod"; nn_Name := "web" |}) tt.
Lemma cluster_well_typed replicas o w :
  Int.in_int32 replicas → well_typed o (fst (cluster replicas o w)).
Proof. intros H. destruct o; try done; try (by destruct k); simpl; lia. Qed.

Lemma replicas_exact_witness :
  SortSliceLaws stable_sort ∧
  let '(o, tr, _) := run_cluster 1 in
  scaled (T := plain_third_party) (sample_deployment 1) two_containers tr o ∧
  counted (T := plain_third_party) (sample_deployment 1) two_containers tr o ∧
  om_Name ∘ dc_Meta <$> deletions tr = ["new"].
Proof.
  split; [exact stable_sort_laws|].
  destruct (run_cluster 1) as [[o tr] w] eqn:Hrun.
  pose proof (wp_run (cluster 1) well_typed _ _ tt o tr w
    (λ o w, cluster_well_typed 1 o w ltac:(split; done))
    (@replicas_exact plain_third_party stable_sort stable_sort_laws {| nn_Namespace := "prod"; nn_Name := "web" |}) Hrun) as H.
  assert (snapshot tr = Some (sample_deployment 1, two_containers)) as Hsnap.
  { change tr with (o, tr, w).1.2. rewrite <- Hrun. vm_compute. reflexivity. }
  cbv beta in H. rewrite Hsnap in H. destruct (H ltac:(done)) as (Hs & Hc & _).
  split; [exact Hs|]. split; [exact Hc|].
  change tr with (o, tr, w).1.2. rewrite <- Hrun. vm_compute. reflexivity.
Defined.

Lemma negative_replicas_panic_witness :
  SortSliceLaws stable_sort ∧
  let '(o, tr, _) := run_cluster (-3) in
  (∃ w, o = Panicked w) ∧ deletions tr ≡ₚ owned_by (T := plain_third_party) (sample_deployment (-3)) two_containers.
Proof.
  split; [exact stable_sort_laws|].
  destruct (run_cluster (-3)) as [[o tr] w] eqn:Hrun.
  pose proof (wp_run (cluster (-3)) well_typed _ _ tt o tr w
    (λ o w, cluster_well_typed (-3) o w ltac:(split; done))
    (@negative_replicas_panic plain_third_party stable_sort stable_sort_laws {| nn_Namespace := "prod"; nn_Name := "web" |}) Hrun) as H.
  assert (snapshot tr = Some (sample_deployment (-3), two_containers)) as Hsnap.
  { change tr with (o, tr, w).1.2. rewrite <- Hrun. vm_compute. reflexivity. }
  destruct (H _ _ Hsnap ltac:(done) ltac:(vm_compute; reflexivity)) as [(r & err & ->)|(Hp & Hd & _)]; [|done].
  exfalso. vm_compute in Hrun. discriminate Hrun.
Defined.
