(* ===== verification/ServiceTheorems.v ===== *)
(** * Properties of the DockerService controller

    For ServiceController.v: the targets on their way to the tunnel server of TunnelServer.v, when
    the status says Active, and the clean-up of a deletion. *)
From S2P Require Import Prelude GoStd Effects Api World Samples Common Lifecycle CommonTheorems Creation TunnelServer ContainerTunnel ServiceController.
Local Open Scope Z_scope.

(** ** Targets *)
Definition has_ip (c : DockerContainer) : bool := negb (String.eqb (cst_IPv4 (dc_Status c)) "").
Definition target_of (p : ServicePort) (c : DockerContainer) : string :=
  cst_IPv4 (dc_Status c) +:+ ":" +:+ pretty (sp_TargetPort p).
(** An IPv4 address as Docker reports it. *)
Definition dotted (ip : string) : Prop :=
  ip ≠ "" ∧ Forall (λ c, Char.is_digit c = true ∨ c = "."%char) (Strings.chars ip).

(** The addresses of the selected containers that have one, in order, with the target port
    of the service's first port; a panic when the service has no ports. *)
Lemma gather_pure ports containers :
  gather_targets ports containers =
  match ports, List.filter has_ip containers with
  | [], _ :: _ => Panic "index out of range [0] with length 0"
  | [], [] => Return []
  | p :: _, l => Return (target_of p <$> l)
  end.
Proof.
  induction containers as [|c cs IH]; [by destruct ports|].
  cbn [gather_targets List.filter]. fold (has_ip c). destruct (has_ip c); [|exact IH].
  destruct ports as [|p ports]; [done|]. by rewrite IH.
Qed.

(** Targets made of addresses and ports survive the comma-separated list. *)
Lemma target_clean p c :
  dotted (cst_IPv4 (dc_Status c)) → 0 ≤ sp_TargetPort p → clean_target (target_of p c).
Proof.
  intros [Hne Hip] Hp. unfold target_of.
  assert (Forall (λ c, plain c ∧ c ≠ ","%char) (Strings.chars (cst_IPv4 (dc_Status c) +:+ ":" +:+ pretty (sp_TargetPort p)))) as H.
  { rewrite !chars_app. apply Forall_app. split; [|apply Forall_app; split].
    - eapply Forall_impl; [exact Hip|]. intros d [Hd| ->]; [|done].
      split; [by apply digit_plain|]. by intros ->.
    - by repeat constructor.
    - eapply Forall_impl; [by apply pretty_nonneg|]. intros d Hd. split; [by apply digit_plain|]. by intros ->. }
  split; [|split].
  - apply TrimSpace_plain. eapply Forall_impl; [exact H|]. by intros d [].
  - by destruct (cst_IPv4 (dc_Status c)).
  - intros Hin. rewrite Forall_forall in H. by destruct (H _ Hin).
Qed.

Lemma target_plain p c :
  dotted (cst_IPv4 (dc_Status c)) → 0 ≤ sp_TargetPort p → Forall plain (Strings.chars (target_of p c)).
Proof.
  intros [_ Hip] Hp. unfold target_of. rewrite !chars_app. apply Forall_app. split; [|apply Forall_app; split].
  - eapply Forall_impl; [exact Hip|]. intros d [Hd| ->]; [by apply digit_plain|done].
  - by repeat constructor.
  - eapply Forall_impl; [by apply pretty_nonneg|]. intros d Hd. by apply digit_plain.
Qed.
Lemma Join_plain l :
  Forall (λ s, Forall plain (Strings.chars s)) l → Forall plain (Strings.chars (Strings.Join l ",")).
Proof.
  induction 1 as [|s l Hs Hl IH]; [constructor|]. destruct l as [|t l]; [exact Hs|].
  change (Strings.Join (s :: t :: l) ",") with (s +:+ "," +:+ Strings.Join (t :: l) ",").
  rewrite !chars_app. apply Forall_app. split; [done|]. apply Forall_app. split; [by repeat constructor|exact IH].
Qed.
(** What the tunnel server reads from the file written for the list. *)
Lemma file_roundtrip ts :
  ts ≠ [] → Forall clean_target ts → Forall (λ s, Forall plain (Strings.chars s)) ts →
  file_targets (Strings.Join ts ",") = ts.
Proof.
  intros Hne Hclean Hplain. unfold file_targets.
  rewrite TrimSpace_plain by by apply Join_plain.
  rewrite (proj2 (String.eqb_neq _ _)); [by apply split_targets_join|].
  destruct Hclean as [|t l (_ & Ht & _) _]; [done|]. by destruct t, l.
Qed.

(** ** Pushing the targets to the tunnel server *)
(** The address of a pod that takes requests. *)
Definition ready_ip (pod : Pod) : option string :=
  if negb (String.eqb (pod_Phase pod) "Running") || String.eqb (pod_PodIP pod) "" then None
  else Some (pod_PodIP pod).

(** Calls that have nothing to do with the targets: no POST, no listing, no ConfigMap. *)
Definition unrelated (o : op) : Prop :=
  match o with
  | GoHttpPost _ | KList _ _ | KCreateOrUpdate KConfigMap _ _ => False
  | _ => True
  end.
Abbreviation all_unrelated tr := (Forall (λ e : go_event, unrelated (ev_op e)) tr).

(** A push: one listing of the pods of the tunnel server, then one POST to each running pod that has an
    address, in the order of the listing; nothing when the listing fails. *)
Definition pushes (ds : DockerService) (url : string → string) (tr : go_trace) : Prop :=
  ∃ pods posts,
    tr = Ev (KList KPod (InNamespaceMatching (om_Namespace (dsv_Meta ds))
                           (MatchingLabels {["app" := server_name ds]}))) pods :: posts ∧
    (ev_op <$> posts) = match pods with Ok pods => (λ ip, GoHttpPost (url ip)) <$> omap ready_ip pods | Err _ => [] end.

Lemma trigger_pushes ds csv :
  wp anything (triggerTunnelReload (om_Namespace (dsv_Meta ds)) (server_name ds) csv) (λ tr o,
    o = Returned tt ∧ pushes ds (λ ip, reload_url ip csv) tr).
Proof.
  intros [pods|err] _; [|split; [done|]; by eexists (Err err), []].
  assert (wp (Ans := ans) anything (range_do pods tt (λ _ pod,
        if negb (String.eqb (pod_Phase pod) "Running") || String.eqb (pod_PodIP pod) "" then Return tt
        else do! GoHttpPost (reload_url (pod_PodIP pod) csv); Return tt)) (λ tr o,
    o = Returned tt ∧ (ev_op <$> tr) = (λ ip, GoHttpPost (reload_url ip csv)) <$> omap ready_ip pods)) as Hloop.
  { induction pods as [|pod pods IH]; [done|].
    rewrite range_do_cons. cbn [omap list_omap]. unfold ready_ip at 1.
    destruct (negb _ || _); [exact IH|].
    intros [] _. eapply wp_mono; [|exact IH]. intros tr o (-> & Hp). split; [done|].
    by rewrite !fmap_cons, Hp. }
  eapply wp_mono; [|exact Hloop]. intros tr o (-> & Hp). split; [done|]. by eexists (Ok pods), tr.
Qed.

(** What keeps the server from getting as far as its targets. *)
Definition server_mishap (e : go_event) : Prop :=
  match e with
  | Ev (KCreateOrUpdate KService _ _) r => ∃ err, r = Err err
  | Ev (KGet KSecret _) r => ∃ err, r = Err err ∧ err_IsNotFound err = false
  | Ev (KCreate KSecret _) r => ∃ err, r = Err err
  | _ => False
  end.

Section theorems.
Context {T : ThirdParty}.
Definition not_ownable (ds : DockerService) : Prop :=
  ∃ m err, SetControllerReference KDockerService (dsv_Meta ds) m = Err err.

Lemma unrelated_ensureTunnelAuthSecret ds : calls unrelated (ensureTunnelAuthSecret ds).
Proof.
  split; [done|].
  intros [secret|err]; [destruct (sec_Data secret !! "token")|destruct (negb (err_IsNotFound err))]; try done;
    (split; [done|]; intros b; simpl; destruct (SetControllerReference _ _ _); [|done];
     split; [done|]; by intros []).
Qed.
Lemma unrelated_operator_image img : calls unrelated (operator_image img).
Proof. by split. Qed.

(** The token cannot be had only for a reason. *)
Lemma auth_secret_blamed ds :
  wp anything (ensureTunnelAuthSecret ds) (blamed (λ e, server_mishap e ∨ not_ownable ds)).
Proof.
  assert (∀ e0 : go_event, wp anything
    (let! b := RandRead 16 in
     let token := Hex.EncodeToString (match b with Ok bytes => bytes | Err _ => zero_bytes 16 end) in
     match SetControllerReference KDockerService (dsv_Meta ds)
             (new_meta (om_Name (dsv_Meta ds) +:+ "-tunnel-auth") (om_Namespace (dsv_Meta ds)) ∅) with
     | Err err => Return (Err err)
     | Ok meta =>
         let! c := KCreate KSecret {| sec_Meta := meta; sec_Data := {["token" := token]} |} in
         match c with
         | Err err => Return (Err err)
         | Ok _ => Return (Ok token)
         end
     end) (λ tr, blamed (λ e, server_mishap e ∨ not_ownable ds) (e0 :: tr))) as Hgen.
  { intros e0 b _. simpl. destruct (SetControllerReference _ _ _) as [meta|err] eqn:Hm.
    - intros [c|err] _; [done|]. do 2 apply Exists_cons_tl. apply Exists_cons_hd. left. by exists err.
    - apply Exists_cons_hd. right. by eexists _, err. }
  intros [secret|err] _; [destruct (sec_Data secret !! "token"); [done|apply Hgen]|].
  destruct (err_IsNotFound err) eqn:He; [apply Hgen|]. apply Exists_cons_hd. left. by exists err.
Qed.

(** Delivery of the target list [csv], by ConfigMap and by POSTs to [url]: the ConfigMap of the tunnel server
    is created or updated once, so that it holds the list and nothing else; when that changed
    it, a push follows at once, and otherwise there is none.  The targets are not delivered only when
    the Service or the token could not be had before, or the ConfigMap could not be written, and
    then the result is an error. *)
Definition delivered (ds : DockerService) (csv : string) (url : string → string)
    (tr : go_trace) (o : outcome (res string)) : Prop :=
  (all_unrelated tr ∧ Exists (λ e, server_mishap e ∨ not_ownable ds) tr ∧ ∃ err, o = Returned (Err err)) ∨
  ∃ before cm mutate c after,
    tr = before ++ Ev (KCreateOrUpdate KConfigMap cm mutate) c :: after ∧ all_unrelated before ∧
    key_of (cm_Meta cm) = {| nn_Namespace := om_Namespace (dsv_Meta ds); nn_Name := server_name ds +:+ "-targets" |} ∧
    (∀ old new, mutate old = Ok new → cm_Data new = {["targets" := csv]}) ∧
    match c with
    | Err err => after = [] ∧ o = Returned (Err err)
    | Ok (OperationResultUpdated, _) =>
        ∃ push rest, after = push ++ rest ∧ pushes ds url push ∧ all_unrelated rest ∧ ∃ r, o = Returned r
    | Ok (_, _) => all_unrelated after ∧ ∃ r, o = Returned r
    end.

Lemma server_delivers ds ips :
  wp anything (reconcileTunnelServer ds ips)
    (let csv := Strings.Join (Sort.Strings ips) "," in delivered ds csv (λ ip, reload_url ip csv)).
Proof.
  set (csv := Strings.Join (Sort.Strings ips) ","). cbv zeta.
  intros s _. destruct s as [svc|err].
  2: { left. split; [by repeat constructor|]. split; [|by eexists]. constructor. left. by exists err. }
  apply wp_bind. eapply wp_mono; [|apply wp_and; [apply (calls_wp unrelated), unrelated_ensureTunnelAuthSecret|apply auth_secret_blamed]].
  intros tr1 o1 ((Htr1 & a & ->) & Hblame). cbn [and_then].
  destruct a as [token|err].
  2: { left. rewrite app_nil_r. split; [by constructor|]. split; [by apply Exists_cons_tl|by eexists]. }
  intros c _. fold csv. set (e1 := Ev (KCreateOrUpdate KService _ _) _).
  assert (∀ after o, match c with
    | Err err => after = [] ∧ o = Returned (Err err)
    | Ok (OperationResultUpdated, _) =>
        ∃ push rest, after = push ++ rest ∧ pushes ds (λ ip, reload_url ip csv) push ∧ all_unrelated rest ∧
          ∃ r, o = Returned r
    | Ok (_, _) => all_unrelated after ∧ ∃ r, o = Returned r
    end → delivered ds csv (λ ip, reload_url ip csv)
      (e1 :: tr1 ++ Ev (KCreateOrUpdate KConfigMap
        {| cm_Meta := new_meta (server_name ds +:+ "-targets") (om_Namespace (dsv_Meta ds)) ∅; cm_Data := ∅ |}
        (mutate_targets ds csv)) c :: after) o) as Hwritten.
  { intros after o Hafter. right. eexists (e1 :: tr1), _, _, c, after. split; [done|]. split; [by constructor|].
    split; [done|]. split; [|exact Hafter].
    intros cm cm'. unfold mutate_targets. destruct (SetControllerReference _ _ _); [|done]. by intros [= <-]. }
  assert (∀ authToken, calls unrelated
    (bind! img := operator_image operatorImage in
     let! d := KCreateOrUpdate KDeployment
       {| dep_Meta := new_meta (server_name ds) (om_Namespace (dsv_Meta ds)) ∅; dep_Replicas := None; dep_Selector := ∅;
          dep_TemplateLabels := ∅; dep_Containers := []; dep_Volumes := [] |}
       (mutate_deployment ds authToken img) in
     match d with
     | Err err => Return (Err err)
     | Ok _ => Return (Ok ("ws://" +:+ server_name ds +:+ "." +:+ om_Namespace (dsv_Meta ds) +:+ ".svc:" +:+ pretty 8081 +:+ "/ws"))
     end)) as Hrest.
  { intros authToken. apply calls_bind; [apply unrelated_operator_image|]. intros img. split; [done|]. by intros []. }
  destruct c as [[opResult cm]|err]; [|by apply Hwritten].
  destruct opResult; cbn [pbind].
  1,2: eapply wp_mono; [|apply (calls_wp unrelated), Hrest]; intros tr o [Htr Ho]; by apply Hwritten.
  apply wp_bind. eapply wp_mono; [|apply trigger_pushes]. intros push o (-> & Hpush). cbn [and_then].
  eapply wp_mono; [|apply (calls_wp unrelated), Hrest]. intros tr o [Htr Ho].
  apply (Hwritten (push ++ tr)). by exists push, tr.
Qed.

(** C17. When the service has ports and containers with addresses, both ways targets reach the tunnel
    server carry the same list, the sorted addresses with the target port.  The targets ConfigMap of
    the tunnel server is created or updated, once, to hold a text from which the server's
    file loader reads that list; when this changed an existing ConfigMap, the pods of the tunnel
    server (its namespace and label) are listed, and one POST, whose handling pushes that list,
    goes to each running pod that has an address; otherwise nothing is posted.  The ConfigMap
    is left out only after the Service or the token could not be had, and the result is then an error. *)
Theorem targets_delivered ds p ports containers :
  ss_Ports (dsv_Spec ds) = p :: ports → 0 ≤ sp_TargetPort p →
  List.filter has_ip containers ≠ [] →
  Forall (λ c, dotted (cst_IPv4 (dc_Status c))) (List.filter has_ip containers) →
  let ts := Sort.Strings (target_of p <$> List.filter has_ip containers) in
  wp anything (bind! targetIPs := gather_targets (ss_Ports (dsv_Spec ds)) containers in
               reconcileTunnelServer ds targetIPs) (λ tr o,
    ∃ csv raw, file_targets csv = ts ∧
    (∀ now file s, handleReload now file "POST" raw s = (push now ts s, StatusOK)) ∧
    delivered ds csv (λ ip, "http://" +:+ ip +:+ ":8081/reload?" +:+ raw) tr o).
Proof.
  intros Hports Hp Hne Hip ts. rewrite Hports, gather_pure. cbn [pbind].
  assert (ts ≡ₚ target_of p <$> List.filter has_ip containers) as Hperm by apply merge_sort_Permutation.
  assert (ts ≠ []) as Hts.
  { intros Hts. rewrite Hts in Hperm. apply Permutation_nil, fmap_nil_inv in Hperm. by apply Hne. }
  assert (Forall clean_target ts ∧ Forall (λ s, Forall plain (Strings.chars s)) ts) as [Hclean Hplain].
  { rewrite !Hperm, !Forall_fmap. split; (eapply Forall_impl; [exact Hip|]); intros c Hc; simpl;
      [by apply target_clean|by apply target_plain]. }
  destruct (pushed_query ts Hts Hclean) as [Hq Hsplit].
  eapply wp_mono; [|apply server_delivers]. intros tr o Hdel.
  exists (Strings.Join ts ","), ("targets=" +:+ Url.QueryEscape (Strings.Join ts ",")).
  split; [by apply file_roundtrip|]. split; [|exact Hdel].
  intros now file s. unfold handleReload. simpl (negb _). rewrite (proj2 (String.eqb_neq _ _)) by done.
  simpl. by rewrite Hsplit.
Qed.

(** ** The tunnel client *)
(** What is known of the client container while reconcileTunnelClient runs. *)
Inductive client_stage :=
| Fresh       (* the represented container was not inspected yet *)
| Gone        (* it does not exist *)
| Looking     (* the client is not known to run *)
| Up          (* it runs *)
| Reported.   (* the status was written *)
#[global] Instance client_stage_eq_dec : EqDecision client_stage.
Proof. solve_decision. Defined.

Definition active (ds : DockerService) (wsURL : string) : DockerService :=
  {| dsv_Meta := dsv_Meta ds; dsv_Spec := dsv_Spec ds;
     dsv_Status := {| sst_Phase := "Active"; sst_TunnelClients := 1; sst_TunnelServerURL := wsURL;
                      sst_Message := sst_Message (dsv_Status ds) |} |}.
Definition runs (r : res ContainerJSON) : bool :=
  match r with Ok c => match cj_State c with Some st => st_Running st | None => false end | Err _ => false end.

(** Reading, and what prepares the client: none of it touches the container. *)
Definition preparing_client (o : op) : Prop :=
  Lifecycle.quiet o ∨ match o with RandRead _ | KCreate KSecret _ | DImagePull _ _ _ | DImageInspect _ _ => True | _ => False end.

Section client.
Context (cli : client) (ds : DockerService) (rep : DockerContainer) (wsURL : string).

Definition client_protocol (s : client_stage) (e : go_event) : option client_stage :=
  match e with
  | Ev (DContainerInspect c name) r =>
      match s with
      | Fresh =>
          if bool_decide (c = cli ∧ name = cs_ContainerName (dc_Spec rep)) then
            Some (match r with Err err => if err_IsNotFound err then Gone else Looking | Ok _ => Looking end)
          else None
      | Looking =>
          if bool_decide (c = cli ∧ name = client_name ds) then Some (if runs r then Up else Looking) else None
      | _ => None
      end
  | Ev (DContainerRemove c name _) _ =>
      if bool_decide (c = cli ∧ name = client_name ds ∧ (s = Looking ∨ s = Up)) then Some Looking else None
  | Ev (DContainerCreate c _ _ name) _ =>
      if bool_decide (c = cli ∧ name = client_name ds ∧ s = Looking) then Some Looking else None
  | Ev (DContainerStart c name) r =>
      if bool_decide (c = cli ∧ name = client_name ds ∧ s = Looking) then Some (if is_ok r then Up else Looking)
      else None
  | Ev (DNetworkConnect c _ name) _ =>
      if bool_decide (c = cli ∧ name = client_name ds ∧ s = Up) then Some Up else None
  | Ev (KStatusUpdate k d) _ =>
      match k return obj k → option client_stage with
      | KDockerService => λ d, if bool_decide (s = Up ∧ d = active ds wsURL) then Some Reported else None
      | _ => λ _, None
      end d
  | Ev (DContainerStop _ _ _) _ | Ev (DCopyToContainer _ _ _ _) _ | Ev (KUpdate _ _) _ | Ev (KDelete _ _) _ => None
  | Ev _ _ => Some s
  end.
Abbreviation client_ok := (guarded anything client_protocol).

Lemma preparing_step s o (x : ans o) : preparing_client o → client_protocol s (Ev o x) = Some s.
Proof. intros [H|H]; by destruct o. Qed.
Lemma prepare {A B} s (p : go A) (f : A → go B) Q :
  calls preparing_client p → (∀ a, client_ok s (f a) Q) → client_ok s (pbind p f) Q.
Proof.
  intros Hp Hf. apply guarded_bind.
  eapply guarded_mono; [|by eapply (guarded_ignored _ _ s preparing_client); [apply preparing_step|]].
  intros s' o [-> [a ->]]. apply Hf.
Qed.

Lemma preparing_secret : calls preparing_client (ensureTunnelAuthSecret ds).
Proof.
  split; [by left|].
  intros [secret|err]; [destruct (sec_Data secret !! "token")|destruct (negb (err_IsNotFound err))]; try done;
    (split; [by right|]; intros b; simpl; destruct (SetControllerReference _ _ _); [|done];
     split; [by right|]; by intros []).
Qed.
Lemma preparing_gateway_host mode : calls preparing_client (gateway_host mode).
Proof. unfold gateway_host. case_match; [|done]. split; [by left|done]. Qed.
Lemma preparing_operator_image img : calls preparing_client (operator_image img).
Proof. split; [by left|done]. Qed.
Lemma preparing_pull c img : calls preparing_client (pull_if_missing c img).
Proof.
  split; [by right|]. intros [u|err]; [done|]. split; [by right|]. intros [u|err']; [|done]. split; [by left|done].
Qed.

(** How it may end: nil only when the status was written, or the container is gone. *)
Definition client_done (s : client_stage) (o : outcome (res unit)) : Prop :=
  match o with Returned (Ok _) => s = Gone ∨ s = Reported | _ => True end.
Local Ltac protocol_step :=
  cbv beta iota delta [client_protocol]; rewrite bool_decide_true by auto; reflexivity.
Lemma set_active_ok : client_ok Up (set_active ds wsURL) client_done.
Proof.
  intros x _. exists Reported. split; [protocol_step|].
  destruct x; simpl; auto.
Qed.
Lemma create_client_ok img connectURL token network :
  client_ok Looking (create_tunnel_client cli ds img connectURL token network wsURL) client_done.
Proof.
  intros x _. exists Looking. split; [protocol_step|].
  destruct x as [id|err]; [|done].
  intros y _. eexists. split; [protocol_step|].
  destruct y as [u|err]; [|done].
  destruct (negb _ && _ && _); [|apply set_active_ok].
  intros z _. exists Up. split; [protocol_step|]. apply set_active_ok.
Qed.

(** C18. reconcileTunnelClient touches no container but the tunnel client of the service, and
    writes the status "Active" (keeping the message) at most once, last, and only when in
    this very run the daemon reported the client running or started it; it returns nil only
    after that write, or because the represented container does not exist. *)
Theorem client_active_truthful :
  wp anything (reconcileTunnelClient cli ds rep wsURL) (λ tr o,
    ∃ s, accepts client_protocol Fresh tr = Some s ∧ client_done s o).
Proof.
  apply guarded_wp. intros m _. eexists.
  split; [protocol_step|].
  destruct m as [main|err]; [|destruct (err_IsNotFound err); simpl; auto].
  destruct (cj_Networks main) as [networks|]; [|done].
  apply prepare; [by apply calls_range_map; left|]. intros visited.
  apply prepare; [apply preparing_gateway_host|]. intros host.
  apply prepare; [apply preparing_secret|]. intros [token|err]; [|done].
  apply prepare; [apply preparing_operator_image|]. intros img.
  apply prepare; [apply preparing_pull|]. intros _.
  intros e _. eexists. split; [protocol_step|].
  destruct e as [existing|err]; [|destruct (negb (err_IsNotFound err)); [done|apply create_client_ok]].
  unfold runs. destruct (cj_Config existing) as [config|]; [|done].
  destruct (negb (String.eqb (cfg_Image config) img)).
  - intros rm _. exists Looking.
    split; [destruct (cj_State existing) as [st|]; [destruct (st_Running st)|]; protocol_step|].
    destruct rm; [apply create_client_ok|done].
  - destruct (cj_State existing) as [state|]; [|done].
    destruct (st_Running state); cbn [negb pbind]; [apply set_active_ok|].
    intros st _. eexists. split; [protocol_step|].
    destruct st; [apply set_active_ok|done].
Qed.
End client.

(** ** Deletion *)
(** Why there may be no client for a host: its DockerHost or its TLS secret could not be read, the
    secret lacks one of its three files or they do not parse, or the client could not be built. *)
Definition no_tls (secret : Secret) : Prop :=
  sec_Data secret !! "ca.pem" = None ∨ sec_Data secret !! "cert.pem" = None ∨ sec_Data secret !! "key.pem" = None.
Definition no_client_reason (e : go_event) : Prop :=
  match e with
  | Ev (KGet k _) x =>
      match k return res (obj k) → Prop with
      | KDockerHost => λ x, ∃ err, x = Err err
      | KSecret => λ x, match x with Err _ => True | Ok secret => no_tls secret end
      | _ => λ _, False
      end x
  | Ev (AppendCertsFromPEM _) ok => ok = false
  | Ev (X509KeyPair _ _) r => ∃ err, r = Err err
  | Ev (DNewClient _) r => ∃ err, r = Err err
  | _ => False
  end.

(** A resolution fails only for such a reason. *)
Definition resolved (tr : go_trace) (o : outcome (Reconciler * res client)) : Prop :=
  ∃ r c, o = Returned (r, c) ∧ ∀ err, c = Err err → Exists no_client_reason tr.
Lemma resolved_cons (e : go_event) tr o : resolved tr o → resolved (e :: tr) o.
Proof. intros (r & c & -> & Hr). exists r, c. split; [done|]. intros err He. by eapply Exists_cons_tl, Hr. Qed.
Lemma resolved_app tr1 tr2 o : resolved tr2 o → resolved (tr1 ++ tr2) o.
Proof. induction tr1; [done|]. intros Ho. by apply resolved_cons, IHtr1. Qed.
Lemma resolved_here (e : go_event) tr x : no_client_reason e → resolved (e :: tr) (Returned x).
Proof. intros He. destruct x as [r c]. exists r, c. split; [done|]. intros. by apply Exists_cons_hd. Qed.

Lemma loads_reason secret tr err key :
  loads secret tr (Err err) → Exists no_client_reason (Ev (KGet KSecret key) (Ok secret) :: tr).
Proof.
  unfold loads. destruct (sec_Data secret !! "ca.pem") as [ca|] eqn:H1;
    [|intros _; apply Exists_cons_hd; by left].
  destruct (sec_Data secret !! "cert.pem") as [cert|] eqn:H2; [|intros _; apply Exists_cons_hd; by right; left].
  destruct (sec_Data secret !! "key.pem") as [ke|] eqn:H3; [|intros _; apply Exists_cons_hd; by right; right].
  intros [[-> _]|(pair & -> & Hp)]; [by apply Exists_cons_tl, Exists_cons_hd|].
  destruct pair as [u|e]; [done|]. do 2 apply Exists_cons_tl. apply Exists_cons_hd. by exists e.
Qed.
Lemma tls_setup_reason wg wl ns name tr err : tls_setup wg wl ns name tr (Err err) → Exists no_client_reason tr.
Proof.
  unfold tls_setup. case_decide; [by intros [_ ?]|]. intros (s & tr' & -> & Hs).
  destruct s as [secret|e]; [|by apply Exists_cons_hd]. destruct Hs as (c & Hc & Htls).
  destruct c as [c|e]; [done|]. by eapply loads_reason.
Qed.

Lemma connect_resolved wrap key ns r host : wp anything (connect wrap key ns r host) resolved.
Proof.
  unfold connect. apply wp_bind. eapply wp_mono; [|apply (tls_setup_wp (wrap _) (wrap _))].
  intros tr o (tls & -> & Htls). cbn [and_then]. destruct tls as [tls|e].
  - intros n _. apply wp_mono with (Q := λ tr', resolved (Ev (DNewClient (WithHost (hs_HostURL (dh_Spec host)) tls 0)) n :: tr')).
    { intros tr' o. apply resolved_app. }
    destruct n as [c|e]; [|by apply resolved_here; exists e]. intros now _. by eexists _, _.
  - simpl. rewrite app_nil_r. eexists _, _. split; [done|]. intros _ _. by eapply tls_setup_reason.
Qed.
Lemma find_host_resolved wrap key ns name r : wp anything (find_host wrap key ns name r) resolved.
Proof.
  intros [host|err] _; [eapply wp_mono; [|apply connect_resolved]; intros tr o; apply resolved_cons|].
  assert (∀ tr x, resolved (Ev (KGet KDockerHost (host_key ns name)) (Err err) :: tr) (Returned x)) as Hhere
    by (intros; apply resolved_here; by exists err).
  destruct (err_IsNotFound err); [|apply Hhere].
  apply wp_bind. destruct (String.eqb ns "system"); simpl.
  - destruct (String.eqb name "default"); [|apply Hhere]. destruct (r_DockerClient r); [apply Hhere|intros n _; apply Hhere].
  - intros [host|e] _; simpl.
    + eapply wp_mono; [|apply connect_resolved]. intros tr o Ho. by do 2 apply resolved_cons.
    + destruct (String.eqb name "default"); [|apply Hhere]. destruct (r_DockerClient r); [apply Hhere|intros n _; apply Hhere].
Qed.
Lemma service_client_resolved ns ref r : wp anything (getDockerClient_service ns ref r) resolved.
Proof.
  unfold getDockerClient_service, resolve. cbv zeta. destruct (r_dockerClients r !! _) as [cc|]; [|apply find_host_resolved].
  intros now _. destruct (_ <? cache_ttl); [by eexists _, _|].
  intros u _. eapply wp_mono; [|apply find_host_resolved]. intros tr o Ho. by do 2 apply resolved_cons.
Qed.

(** One host: the client is the one that is resolved for the namespace and the DockerHostRef of its
    target.  With it both names are tried there, forcibly; only when there is none, and for a reason,
    nothing is done. *)
Definition cleaned (ds : DockerService) (tc : DockerContainer) (r r' : Reconciler) (tr : go_trace) : Prop :=
  ∃ conn c,
    runs_to (getDockerClient_service (om_Namespace (dc_Meta tc)) (cs_DockerHostRef (dc_Spec tc)) r)
      conn (Returned (r', c)) ∧
    match c with
    | Err _ => tr = conn ∧ Exists no_client_reason conn
    | Ok cli => ∃ x y, tr = conn ++ [Ev (DContainerRemove cli (client_name ds) true) x;
                                     Ev (DContainerRemove cli (om_Name (dsv_Meta ds) +:+ "-tunnel") true) y]
    end.
Lemma cleanup_host_wp ds r tc :
  wp anything (cleanup_host ds r tc) (λ tr o, ∃ r', o = Returned r' ∧ cleaned ds tc r r' tr).
Proof.
  apply wp_bind. eapply wp_mono; [|apply wp_and; [apply wp_runs_to|apply service_client_resolved]].
  intros conn o (Hrun & r' & c & -> & Hr). cbn [and_then]. destruct c as [cli|err].
  - intros x _ y _. exists r'. split; [done|]. exists conn, (Ok cli). split; [done|]. by exists x, y.
  - exists r'. split; [done|]. exists conn, (Err err). rewrite app_nil_r. split; [done|]. split; [done|]. by eapply Hr.
Qed.
(** The hosts one after the other, the cache of clients passed on. *)
Fixpoint cleaned_hosts (ds : DockerService) (r : Reconciler) (hosts : list (string * DockerContainer))
    (trs : list go_trace) : Prop :=
  match hosts, trs with
  | [], [] => True
  | (_, tc) :: hosts, tr :: trs => ∃ r', cleaned ds tc r r' tr ∧ cleaned_hosts ds r' hosts trs
  | _, _ => False
  end.

(** The containers a run saw. *)
Definition seen_containers (e : go_event) : list DockerContainer :=
  match e with
  | Ev (KGet k _) x => match k return res (obj k) → list DockerContainer with
                       | KDockerContainer => λ x, match x with Ok c => [c] | Err _ => [] end | _ => λ _, [] end x
  | Ev (KList k _) x => match k return res (list (obj k)) → list DockerContainer with
                        | KDockerContainer => λ x, match x with Ok l => l | Err _ => [] end | _ => λ _, [] end x
  | _ => []
  end.
(** Every host a selected container runs on, once, in some order. *)
Definition cleaned_all (ds : DockerService) (r : Reconciler) (tr : go_trace) : Prop :=
  ∃ reads hosts trs, tr = reads ++ concat trs ∧ Forall (λ e : go_event, Lifecycle.quiet (ev_op e)) reads ∧
  hosts ≡ₚ map_to_list (hosts_of (reads ≫= seen_containers)) ∧ cleaned_hosts ds r hosts trs.
Lemma selected_wp ds :
  wp anything (selected_or_none ds) (λ tr o,
    Forall (λ e : go_event, Lifecycle.quiet (ev_op e)) tr ∧ o = Returned (tr ≫= seen_containers)).
Proof.
  unfold selected_or_none. destruct (ss_Selector (dsv_Spec ds)) as [sel|].
  - destruct (LabelSelectorAsSelector sel); [|done].
    intros l _. split; [by repeat constructor|]. destruct l; simpl; by rewrite ?app_nil_r.
  - destruct (negb _); [|done]. intros l _. split; [by repeat constructor|]. by destruct l.
Qed.
Lemma deleteExternalResources_wp ds r :
  wp anything (deleteExternalResources ds r) (λ tr o, (∃ r', o = Returned r') ∧ cleaned_all ds r tr).
Proof.
  apply wp_bind. eapply wp_mono; [|apply selected_wp]. intros tr1 o1 [Hq ->]. cbn [and_then].
  apply wp_bind. intros hint _. simpl. set (m := hosts_of _).
  assert (∀ l r, wp anything (range_do l r (λ r '((_, tc) : string * DockerContainer), cleanup_host ds r tc))
    (λ tr o, (∃ r', o = Returned r') ∧ ∃ trs, tr = concat trs ∧ cleaned_hosts ds r l trs)) as Hloop.
  { clear. induction l as [|[k tc] l IH]; intros r; [simpl; split; [by eauto|]; by exists []|].
    rewrite range_do_cons. apply wp_bind. eapply wp_mono; [|apply cleanup_host_wp].
    intros tr o (r' & -> & Hc). cbn [and_then]. eapply wp_mono; [|apply IH].
    intros tr2 o2 (Ho & trs & -> & Htrs). split; [done|]. exists (tr :: trs). split; [done|]. by exists r'. }
  eapply wp_mono; [|apply Hloop]. intros tr o (Ho & trs & -> & Htrs). split; [done|].
  exists (tr1 ++ [Ev (RangeOrder (elements (dom m))) hint]), (range_pairs m hint), trs. split_and!.
  - by rewrite <- app_assoc.
  - apply Forall_app. by repeat constructor.
  - rewrite bind_app. simpl. rewrite app_nil_r. apply range_pairs_Permutation.
  - done.
Qed.

Definition got_service (e : go_event) : option DockerService :=
  match e with
  | Ev (KGet k _) x => match k return res (obj k) → option DockerService with
                       | KDockerService => λ x, match x with Ok ds => Some ds | Err _ => None end | _ => λ _, None end x
  | _ => None
  end.
(** [Reconcile] returns before it looks at the deletion timestamp. *)
Definition lookup_answered (e : go_event) : bool :=
  match e with
  | Ev (KGet KDockerContainer _) x => is_ok x
  | Ev (KList KDockerContainer _) x => is_ok x
  | _ => false
  end.
Definition target_lookup_failed (tr : go_trace) : bool :=
  match tr with e :: _ => negb (lookup_answered e) | [] => true end.

Lemma find_targets_wp req ds :
  wp anything (find_targets req ds) (λ tr o,
    Forall (λ e : go_event, Lifecycle.quiet (ev_op e)) tr ∧
    match o with
    | Returned (inl _) => target_lookup_failed tr = true
    | Returned (inr _) => ∃ e, tr = [e] ∧ lookup_answered e = true
    | Panicked _ => False
    end).
Proof.
  unfold find_targets. destruct (ss_Selector (dsv_Spec ds)) as [sel|].
  - destruct (LabelSelectorAsSelector sel); [|done].
    intros l _. split; [by repeat constructor|]. destruct l; simpl; eauto.
  - destruct (negb _); [|done]. intros l _. split; [by repeat constructor|].
    destruct l as [c|err]; simpl; [by eauto|done].
Qed.

(** C19. Deleting a DockerService whose targets can be looked up: every Docker host that a selected
    container runs on (as the clean-up's own lookup finds them: none when that fails) is visited once, with the client that is resolved for that container's
    namespace and DockerHostRef; there a forced removal of the tunnel client and then of the
    legacy tunnel is attempted, and a host is passed over only when its client could not be
    resolved, because of a failed read, an unusable TLS secret or a failed construction.  Nothing
    else is touched, and the last call takes the finalizer off, whatever Docker answered to the
    removals.  When the lookup of the targets fails (a containerRef whose container is gone, say) or
    the service names no target, nothing is removed and the finalizer stays, so the service
    cannot be deleted. *)
Theorem service_deletion req r :
  wp anything (Reconcile req r) (λ tr o,
    ∀ e tr' ds, tr = e :: tr' → got_service e = Some ds →
    not_deleting (dsv_Meta ds) = false → ContainsFinalizer (dsv_Meta ds) finalizerName = true →
    (∃ x, o = Returned x) ∧
    if target_lookup_failed tr' then Forall (λ e : go_event, Lifecycle.quiet (ev_op e)) tr
    else ∃ found cleanup x, tr' = found ++ cleanup ++
           [Ev (KUpdate KDockerService (set_meta (RemoveFinalizer (dsv_Meta ds) finalizerName) ds)) x] ∧
         (length found = 1)%nat ∧ cleaned_all ds r cleanup).
Proof.
  intros g _. destruct g as [ds|err].
  2: { intros e tr' ds [= <- <-]. done. }
  destruct (not_deleting (dsv_Meta ds)) eqn:Hd; [apply wp_any; intros tr o e tr' ds' [= <- <-] [= <-]; congruence|].
  destruct (ContainsFinalizer (dsv_Meta ds) finalizerName) eqn:Hf;
    [|apply wp_any; intros tr o e tr' ds' [= <- <-] [= <-]; congruence].
  apply wp_bind. eapply wp_mono; [|apply find_targets_wp].
  intros found o [Hq Ho]. destruct o as [[early|cs]|w]; [| |done]; cbn [and_then].
  - intros e tr' ds' [= <- <-] [= <-] _ _. split; [by eauto|]. rewrite app_nil_r, Ho. by constructor.
  - destruct Ho as (e1 & -> & He1). apply wp_bind.
    eapply wp_mono; [|apply deleteExternalResources_wp]. intros tr o ([r' ->] & Hclean). cbn [and_then].
    intros u _ e tr' ds' [= <- <-] [= <-] _ _. split; [by eauto|]. simpl. rewrite He1. simpl.
    by exists [e1], tr, u.
Qed.
End theorems.

(** ** Concrete runs *)
Definition sample_service : DockerService :=
  {| dsv_Meta := sample_meta "web" [finalizerName] 0;
     dsv_Spec := {| ss_ContainerRef := "web"; ss_Selector := None;
                    ss_Ports := [{| sp_Port := 80; sp_TargetPort := 8080; sp_Name := "http" |}]; ss_NetworkMode := "" |};
     dsv_Status := {| sst_Phase := ""; sst_TunnelClients := 0; sst_TunnelServerURL := ""; sst_Message := "" |} |}.
(** One running server pod; every write succeeds, the ConfigMap was changed by it. *)
Definition server_cluster (o : op) (w : unit) : ans o * unit :=
  (match o return ans o with
   | KGet k key => match k return res (obj k) with
                   | KSecret => Ok {| sec_Meta := sample_meta "web-tunnel-auth" [] 0; sec_Data := {["token" := "s3cret"]} |}
                   | k => refuse (KGet k key) end
   | KList k opts => match k return res (list (obj k)) with
                     | KPod => Ok [{| pod_Meta := sample_meta "tunnel-web-0" [] 0; pod_Phase := "Running"; pod_PodIP := "10.1.0.7" |}]
                     | k => refuse (KList k opts) end
   | KCreateOrUpdate _ x mutate => match mutate x with Ok y => Ok (OperationResultUpdated, y) | Err err => Err err end
   | o => refuse o
   end, w).
(** The URLs a trace posts to. *)
Definition posted (e : go_event) : option string :=
  match ev_op e with GoHttpPost url => Some url | _ => None end.
Lemma targets_delivered_witness :
  let ts := ["172.18.0.2:8080"; "172.18.0.3:8080"] in
  let p := {| sp_Port := 80; sp_TargetPort := 8080; sp_Name := "http" |} in
  Sort.Strings (target_of p <$> List.filter has_ip two_containers) = ts ∧
  let '(o, tr, _) := run server_cluster
    (bind! ips := gather_targets (ss_Ports (dsv_Spec sample_service)) two_containers in
     @reconcileTunnelServer plain_third_party sample_service ips) tt in
  omap posted tr = ["http://10.1.0.7:8081/reload?targets=172.18.0.2%3A8080%2C172.18.0.3%3A8080"] ∧
  ∃ csv raw, file_targets csv = ts ∧
    @delivered plain_third_party sample_service csv (λ ip, "http://" +:+ ip +:+ ":8081/reload?" +:+ raw) tr o.
Proof.
  intros ts p. split; [vm_compute; reflexivity|].
  destruct (run _ _ tt) as [[o tr] w] eqn:Hrun.
  destruct (wp_run server_cluster anything _ _ tt o tr w (λ _ _, I)
    (@targets_delivered plain_third_party sample_service p [] two_containers eq_refl ltac:(done) ltac:(done)
       ltac:(repeat (constructor; [split; [done|simpl; repeat (constructor; [auto|])]|]); constructor)) Hrun)
    as (csv & raw & Hfile & _ & Hdel).
  split.
  - change tr with (o, tr, w).1.2. rewrite <- Hrun. vm_compute. reflexivity.
  - exists csv, raw. split; [rewrite Hfile; vm_compute; reflexivity|exact Hdel].
Defined.
