(* ===== verification/Main.v ===== *)
(** * The manager binary (src/cmd/manager/main.go)

    [flag.FlagSet.Parse] on the flags the subcommand defines, and the dispatch on the
    mode; and without the subcommand the set-up of the controller manager, as a program over
    the calls to controller-runtime. *)
From S2P Require Import Prelude GoStd Effects TunnelServer TunnelClient.

(** ** The flags *)
Record flags := {
  mode : string; fl_listenAddr : string; fl_wsAddr : string; fl_authToken : string;
  fl_targets : string; fl_targetsFile : string; serverURL : string; gatewayListenAddr : string }.
Definition defaults : flags :=
  {| mode := "server"; fl_listenAddr := ":8080"; fl_wsAddr := ":8081"; fl_authToken := "";
     fl_targets := ""; fl_targetsFile := ""; serverURL := "ws://localhost:8081/ws";
     gatewayListenAddr := ":8080" |}.
(** [f.Value.Set(value)] of the flag [name]; [None]: not defined. *)
Definition set_flag (name value : string) (f : flags) : option flags :=
  let mk m l w a t tf s g :=
    Some {| mode := m; fl_listenAddr := l; fl_wsAddr := w; fl_authToken := a; fl_targets := t;
            fl_targetsFile := tf; serverURL := s; gatewayListenAddr := g |} in
  let '{| mode := m; fl_listenAddr := l; fl_wsAddr := w; fl_authToken := a; fl_targets := t;
          fl_targetsFile := tf; serverURL := s; gatewayListenAddr := g |} := f in
  if String.eqb name "mode" then mk value l w a t tf s g
  else if String.eqb name "listen-addr" then mk m value w a t tf s g
  else if String.eqb name "ws-addr" then mk m l value a t tf s g
  else if String.eqb name "auth-token" then mk m l w value t tf s g
  else if String.eqb name "targets" then mk m l w a value tf s g
  else if String.eqb name "targets-file" then mk m l w a t value s g
  else if String.eqb name "server-url" then mk m l w a t tf value g
  else if String.eqb name "gateway-addr" then mk m l w a t tf s value
  else None.

(** ** [flag.FlagSet.Parse] *)
(** How an argument is read: not a flag (parsing stops), the terminator "--", bad syntax,
    or a flag name with the value behind the first "=", if there is one. *)
Inductive arg := NotFlag | Terminator | BadSyntax | Flag (name : string) (value : option string).
(** The first "=" behind the first byte of the name. *)
Fixpoint split_value (l : list ascii) : list ascii * option (list ascii) :=
  match l with
  | [] => ([], None)
  | c :: r => if Ascii.eqb c "="%char then ([], Some r) else let '(n, v) := split_value r in (c :: n, v)
  end.
Definition read_name (l : list ascii) : arg :=
  match l with
  | [] => BadSyntax
  | c :: r =>
      if Ascii.eqb c "-"%char || Ascii.eqb c "="%char then BadSyntax
      else let '(n, v) := split_value r in
           Flag (Strings.of_chars (c :: n)) (Strings.of_chars <$> v)
  end.
Definition read_arg (s : string) : arg :=
  match Strings.chars s with
  | "-"%char :: "-"%char :: [] => Terminator
  | "-"%char :: "-"%char :: name => read_name name
  | "-"%char :: [] => NotFlag
  | "-"%char :: name => read_name name
  | _ => NotFlag
  end.

(** The parsed flags, or the status of [flag.ExitOnError]: 0 for the help flags, 2 otherwise. *)
Inductive parsed := Parsed (f : flags) | Exits (status : Z).
Definition assign (name value : string) (f : flags) (k : flags → parsed) : parsed :=
  match set_flag name value f with
  | Some f' => k f'
  | None => Exits (if String.eqb name "help" || String.eqb name "h" then 0 else 2)
  end.
Fixpoint Parse (args : list string) (f : flags) : parsed :=
  match args with
  | [] => Parsed f
  | s :: rest =>
      match read_arg s with
      | NotFlag | Terminator => Parsed f
      | BadSyntax => Exits 2
      | Flag name (Some value) => assign name value f (Parse rest)
      | Flag name None =>
          match rest with
          | value :: rest' => assign name value f (Parse rest')
          | [] => Exits (match set_flag name "" f with
                         | Some _ => 2     (* flag needs an argument *)
                         | None => if String.eqb name "help" || String.eqb name "h" then 0 else 2
                         end)
          end
      end
  end.

(** ** [main] with "tunnel" as its first argument *)
Inductive action :=
| RunServer (srv : Server)
| RunClient (cli : Client)
| RunGateway (listenAddr : string)
| Nothing                  (* an unknown mode returns at once *)
| Exit (status : Z).

Definition tunnel_main (args : list string) : action :=
  match Parse args defaults with
  | Exits status => Exit status
  | Parsed f =>
      if String.eqb (mode f) "server" then
        let targetList := if String.eqb (fl_targets f) "" then [] else split_targets (fl_targets f) in
        let srv := NewServer (fl_listenAddr f) (fl_wsAddr f) (fl_authToken f) targetList in
        RunServer (if String.eqb (fl_targetsFile f) "" then srv else SetTargetsFile (fl_targetsFile f) srv)
      else if String.eqb (mode f) "client" then RunClient (NewClient (serverURL f) (fl_authToken f))
      else if String.eqb (mode f) "gateway" then RunGateway (gatewayListenAddr f)
      else Nothing
  end.

(** ** [main] without a subcommand *)
Record manager_flags := {
  metricsAddr : string; enableLeaderElection : bool; probeAddr : string; logsAddr : string }.
Record ManagerOptions := {
  MetricsBindAddress : string; HealthProbeBindAddress : string; LeaderElection : bool;
  LeaderElectionID : string }.
Inductive controller := CDockerContainer | CDockerHost | CDockerService | CDockerJob | CDockerDeployment.
Inductive manager_op :=
| ParseFlags (initial : manager_flags)     (* flag.Parse() over these defaults, zap's flags included *)
| NewManager (opts : ManagerOptions)       (* ctrl.NewManager(ctrl.GetConfigOrDie(), ...) *)
| SetupWithManager (c : controller)
| AddHealthzCheck (name : string)
| AddReadyzCheck (name : string)
| GoServeLogs (addr : string)              (* the "/logs" handler in its own goroutine *)
| StartManager.                            (* mgr.Start(ctrl.SetupSignalHandler()) *)
Definition manager_ans (o : manager_op) : Type :=
  match o with ParseFlags _ => manager_flags | GoServeLogs _ => unit | _ => res unit end.
Definition manager_defaults : manager_flags :=
  {| metricsAddr := ":8080"; enableLeaderElection := false; probeAddr := ":8081"; logsAddr := ":8082" |}.
Definition controllers : list controller :=
  [CDockerContainer; CDockerHost; CDockerService; CDockerJob; CDockerDeployment].

(** The exit status; an error is logged and ends the process with status 1. *)
Definition manager_main : prog manager_ans Z :=
  let! f := ParseFlags manager_defaults in
  let! mgr := NewManager {| MetricsBindAddress := metricsAddr f; HealthProbeBindAddress := probeAddr f;
                            LeaderElection := enableLeaderElection f;
                            LeaderElectionID := "94c73569.kdop.io.vn" |} in
  match mgr return prog manager_ans Z with
  | Err _ => Return 1%Z
  | Ok _ =>
      bind! setup := range_err controllers tt (λ _ c, let! r := SetupWithManager c in Return r) in
      match setup return prog manager_ans Z with
      | Err _ => Return 1%Z
      | Ok _ =>
          let! h := AddHealthzCheck "healthz" in
          match h return prog manager_ans Z with
          | Err _ => Return 1%Z
          | Ok _ =>
              let! r := AddReadyzCheck "readyz" in
              match r return prog manager_ans Z with
              | Err _ => Return 1%Z
              | Ok _ =>
                  do! GoServeLogs (logsAddr f);
                  let! st := StartManager in
                  Return (match st with Ok _ => 0%Z | Err _ => 1%Z end)
              end
          end
      end
  end.

(** The manager is started only when everything is set up: each step follows the success of the
    one before, nothing follows a failure. *)
Inductive setup_stage := Fresh | HaveFlags | HaveManager (todo : list controller) | Healthy | Ready | ServingLogs | Stopped | Failed.
Definition setup_order (s : setup_stage) (e : event manager_ans) : option setup_stage :=
  let next {A} (r : res A) (s' : setup_stage) : option setup_stage := Some (if is_ok r then s' else Failed) in
  match e with
  | Ev (ParseFlags _) _ => match s with Fresh => Some HaveFlags | _ => None end
  | Ev (NewManager _) r => match s with HaveFlags => next r (HaveManager controllers) | _ => None end
  | Ev (SetupWithManager _) r =>
      match s with HaveManager (_ :: todo) => next r (HaveManager todo) | _ => None end
  | Ev (AddHealthzCheck _) r => match s with HaveManager [] => next r Healthy | _ => None end
  | Ev (AddReadyzCheck _) r => match s with Healthy => next r Ready | _ => None end
  | Ev (GoServeLogs _) _ => match s with Ready => Some ServingLogs | _ => None end
  | Ev StartManager r => match s with ServingLogs => next r Stopped | _ => None end
  end.
Lemma setup_controllers todo :
  guarded anything setup_order (HaveManager todo)
    (range_err todo tt (λ _ c, let! r := SetupWithManager c in Return r))
    (λ s o, match o with
            | Returned (Ok _) => s = HaveManager []
            | Returned (Err _) => s = Failed
            | Panicked _ => False
            end).
Proof.
  induction todo as [|c todo IH]; [done|]. intros [[]|err] _; eexists; (split; [reflexivity|]); [exact IH|done].
Qed.
Theorem manager_starts_last :
  wp anything manager_main (λ tr o,
    (accepts setup_order Fresh tr = Some Stopped ∧ o = Returned 0%Z) ∨
    (accepts setup_order Fresh tr = Some Failed ∧ o = Returned 1%Z)).
Proof.
  eapply wp_mono; [|apply (guarded_wp _ setup_order Fresh _
    (λ s o, (s = Stopped ∧ o = Returned 0%Z) ∨ (s = Failed ∧ o = Returned 1%Z)))].
  { intros tr o (s & Hs & [[-> ->]|[-> ->]]); [by left|by right]. }
  intros f _. exists HaveFlags. split; [done|]. intros [[]|err] _; eexists; (split; [reflexivity|]); [|by right].
  apply guarded_bind. eapply guarded_mono; [|apply setup_controllers].
  intros s [[[]|err]|why] Hs; simpl in Hs; [subst|by right; subst|done].
  intros [[]|err] _; eexists; (split; [reflexivity|]); [|by right].
  intros [[]|err] _; eexists; (split; [reflexivity|]); [|by right].
  intros [] _. eexists. split; [reflexivity|]. intros [[]|err] _; eexists; (split; [reflexivity|]); [by left|by right].
Qed.

(** ** Lemmas *)
(** A flag name: it neither starts with "-" nor holds "=". *)
Definition flag_name (name : string) : Prop :=
  match Strings.chars name with
  | [] => False
  | c :: r => c ≠ "-"%char ∧ "="%char ∉ c :: r
  end.
Lemma split_value_found n v : "="%char ∉ n → split_value (n ++ "="%char :: v) = (n, Some v).
Proof.
  induction n as [|c n IH]; intros Hn; [done|]. simpl.
  rewrite (proj2 (Ascii.eqb_neq c "="%char)) by set_solver. by rewrite IH by set_solver.
Qed.
Lemma read_arg_value name value :
  flag_name name → read_arg ("-" +:+ name +:+ "=" +:+ value) = Flag name (Some value).
Proof.
  unfold flag_name, read_arg. rewrite !chars_app. destruct (Strings.chars name) as [|c r] eqn:Hname; [done|].
  intros [Hdash Heq]. change (Strings.chars "-") with ["-"%char]. change (Strings.chars "=") with ["="%char]. cbn [app].
  assert (read_name (c :: r ++ "="%char :: Strings.chars value) = Flag name (Some value)) as Hread.
  { unfold read_name. rewrite (proj2 (Ascii.eqb_neq c _)), (proj2 (Ascii.eqb_neq c _)) by set_solver. cbn [orb].
    rewrite split_value_found by set_solver. simpl. rewrite of_chars_chars. do 2 f_equal.
    rewrite <- (of_chars_chars name), Hname. done. }
  destruct c as [[] [] [] [] [] [] [] []]; first [exact Hread|by destruct Hdash].
Qed.
Lemma Parse_value name value rest f :
  flag_name name → Parse (("-" +:+ name +:+ "=" +:+ value) :: rest) f = assign name value f (Parse rest).
Proof. intros Hname. cbn [Parse]. by rewrite read_arg_value. Qed.

Example flag_value_forms :
  tunnel_main ["-mode"; "client"; "--server-url=ws://h/ws?a=b"; "-auth-token"; "t"] =
  RunClient {| serverAddr := "ws://h/ws?a=b"; token := "t" |}.
Proof. reflexivity. Qed.
