(* ===== verification/TunnelPath.v ===== *)
(** * The tunnel from end to end

    The arguments the DockerService controller gives to the tunnel server and to the tunnel
    client, read by main; the URL the client dials, rewritten by the gateway; the token
    check of the server. *)
From S2P Require Import Prelude GoStd GoUrl Effects Api World Samples TunnelServer TunnelClient Gateway ContainerTunnel.
From S2P Require Import ServiceController Main.
Local Open Scope Z_scope.

(** The characters of a literal DNS name. *)
Ltac dns_chars :=
  repeat (apply Forall_cons; split; [first [left; reflexivity|right; left; reflexivity|right; right; reflexivity]|]);
  apply Forall_nil; exact I.

Section path.
Context {T : ThirdParty}.

(** ** The arguments *)
(** The address of the last service port: the flag package keeps the last value. *)
Definition last_listen (ports : list ServicePort) : string :=
  match last ports with Some p => ":" +:+ pretty (sp_Port p) | None => ":8080" end.

Lemma parse_listen ports f :
  Parse ((λ p, "-listen-addr=:" +:+ pretty (sp_Port p)) <$> ports) f =
  Parsed {| mode := mode f;
            fl_listenAddr := match last ports with Some p => ":" +:+ pretty (sp_Port p) | None => fl_listenAddr f end;
            fl_wsAddr := fl_wsAddr f; fl_authToken := fl_authToken f; fl_targets := fl_targets f;
            fl_targetsFile := fl_targetsFile f; serverURL := serverURL f; gatewayListenAddr := gatewayListenAddr f |}.
Proof.
  revert f. induction ports as [|p ports IH]; intros f; [by destruct f|].
  rewrite fmap_cons. change ("-listen-addr=:" +:+ ?x) with ("-" +:+ "listen-addr" +:+ "=" +:+ ":" +:+ x).
  rewrite Parse_value by (split; [done|set_solver]). unfold assign, set_flag. destruct f; simpl. rewrite IH, last_cons. by destruct (last ports).
Qed.

Local Ltac next_flag name value :=
  rewrite (Parse_value name value) by (split; [done|set_solver]);
  unfold assign at 1; unfold set_flag at 1; cbn [defaults String.eqb Ascii.eqb Bool.eqb].
Lemma server_main ds token :
  tunnel_main (tail (server_args ds token)) =
    RunServer (SetTargetsFile "/etc/tunnel/targets"
                 (NewServer (last_listen (ss_Ports (dsv_Spec ds))) ":8081" token [])).
Proof.
  unfold tunnel_main, server_args. cbn [tail app].
  next_flag "mode" "server". next_flag "ws-addr" ":8081". next_flag "auth-token" token.
  next_flag "targets-file" "/etc/tunnel/targets". rewrite parse_listen. reflexivity.
Qed.

(** C16. main reads the arguments the controllers write exactly: the DockerService controller's
    server runs with the token, the targets file and the port of the last service port (every
    other port is dropped), its client with the URL and the token; the arguments of the tunnel
    clients in the DockerContainer controller name a flag main does not define, so such a client
    exits with status 2. *)
Theorem tunnel_args_read ds token img url :
  tunnel_main (tail (server_args ds token)) =
    RunServer (SetTargetsFile "/etc/tunnel/targets"
                 (NewServer (last_listen (ss_Ports (dsv_Spec ds))) ":8081" token [])) ∧
  tunnel_main (tail (cfg_Cmd (ServiceController.tunnel_client_config img url token))) = RunClient (NewClient url token) ∧
  ∀ ip port, tunnel_main (tail (cfg_Cmd (ContainerTunnel.tunnel_client_config img url ip port))) = Exit 2.
Proof.
  split; [|split].
  - apply server_main.
  - unfold tunnel_main. cbn [tail cfg_Cmd ServiceController.tunnel_client_config].
    next_flag "mode" "client". next_flag "server-url" url. next_flag "auth-token" token. reflexivity.
  - intros ip [port target name]. reflexivity.
Qed.

(** ** The connection *)
(** The URL of the server's WebSocket endpoint, as reconcileTunnelServer returns it. *)
Definition server_host (ds : DockerService) : string :=
  server_name ds +:+ "." +:+ om_Namespace (dsv_Meta ds) +:+ ".svc".
Definition ws_url (ds : DockerService) : string :=
  "ws://" +:+ server_name ds +:+ "." +:+ om_Namespace (dsv_Meta ds) +:+ ".svc:" +:+ pretty 8081 +:+ "/ws".
Definition gateway_query (wsURL token : string) : list (string * string) := [("target", wsURL); ("token", token)].

Lemma gateway_url_parses gw wsURL token :
  Forall dns_char (Strings.chars gw) →
  NetUrl.Parse (clientConnectURL gw wsURL token) =
  Some {| NetUrl.Scheme := "ws"; NetUrl.Opaque := ""; NetUrl.Host := gw +:+ ":30000"; NetUrl.Path := "/ws";
          NetUrl.RawQuery := Strings.Join (NetUrl.encode_pair <$> gateway_query wsURL token) "&"; NetUrl.Fragment := "" |}.
Proof.
  intros Hgw.
  set (q := Strings.Join (NetUrl.encode_pair <$> gateway_query wsURL token) "&").
  assert (q = "target=" +:+ Url.QueryEscape wsURL +:+ "&token=" +:+ Url.QueryEscape token) as Hq by done.
  assert (query_suffix ("?" +:+ q) q) as Hsuffix.
  { right. split; [done|]. rewrite Hq, !chars_app, !Forall_app. split_and!; try apply escape_printable.
    all: repeat (constructor; [done|]); constructor. }
  etransitivity;
    [|exact (Parse_ws gw "30000" "ws" Hgw ltac:(by repeat constructor) ltac:(repeat constructor; by left) _ _ Hsuffix)].
  reflexivity.
Qed.

(** What the gateway makes of a request for that query. *)
Lemma Director_rewrites ds token rq :
  Forall dns_char (Strings.chars (om_Name (dsv_Meta ds))) →
  Forall dns_char (Strings.chars (om_Namespace (dsv_Meta ds))) → token ≠ "" →
  rq_RawQuery rq = Strings.Join (NetUrl.encode_pair <$> gateway_query (ws_url ds) token) "&" →
  Director rq =
  {| rq_Scheme := "http"; rq_URLHost := server_host ds +:+ ":8081"; rq_Path := "/ws";
     rq_RawQuery := NetUrl.Encode [("token", token)]; rq_Host := server_host ds +:+ ":8081" |}.
Proof.
  intros Hname Hns Htoken Hrq. unfold Director. rewrite Hrq, Query_Join. cbn [gateway_query Url.Get String.eqb Ascii.eqb Bool.eqb].
  assert (NetUrl.Parse (ws_url ds) =
    Some {| NetUrl.Scheme := "ws"; NetUrl.Opaque := ""; NetUrl.Host := server_host ds +:+ ":8081"; NetUrl.Path := "/ws";
            NetUrl.RawQuery := ""; NetUrl.Fragment := "" |}) as Hparse.
  { assert (Forall dns_char (Strings.chars (server_host ds))) as Hhost.
    { unfold server_host, server_name. rewrite !chars_app, !Forall_app. split_and!; try done.
      all: dns_chars. }
    etransitivity; [|exact (Parse_ws (server_host ds) "8081" "ws" Hhost ltac:(by repeat constructor)
      ltac:(repeat constructor; by left) "" "" (or_introl (conj eq_refl eq_refl)))]. f_equal.
    apply chars_inj. unfold ws_url, server_host. rewrite !chars_app, <- !app_assoc. reflexivity. }
  assert (String.eqb (ws_url ds) "" = false) as -> by done.
  unfold parse_target. rewrite Hparse. cbn [NetUrl.Scheme NetUrl.Host NetUrl.Path NetUrl.RawQuery].
  assert (String.eqb (server_host ds +:+ ":8081") "" = false) as -> by done.
  rewrite (proj2 (String.eqb_neq token "")) by done. reflexivity.
Qed.

(** C15. The tunnel from end to end.  For a service, namespace and gateway node with DNS names
    and a nonempty token [token], the URL the controller gives to the tunnel client parses, with
    the gateway as its host; the gateway rewrites a request for its query to the WebSocket
    endpoint of the service's tunnel server; and that server, started by main from the arguments
    the controller wrote with the token [token'], accepts the request exactly when it has no
    token or the tokens are the same. *)
Theorem tunnel_authenticates ds gw token token' :
  Forall dns_char (Strings.chars (om_Name (dsv_Meta ds))) →
  Forall dns_char (Strings.chars (om_Namespace (dsv_Meta ds))) →
  Forall dns_char (Strings.chars gw) → token ≠ "" →
  ∃ u srv, NetUrl.Parse (clientConnectURL gw (ws_url ds) token) = Some u ∧ NetUrl.Host u = gw +:+ ":30000" ∧
  tunnel_main (tail (server_args ds token')) = RunServer srv ∧
  ∀ rq, rq_RawQuery rq = NetUrl.RawQuery u →
    let rq' := Director rq in
    rq_Scheme rq' = "http" ∧ rq_URLHost rq' = server_host ds +:+ ":8081" ∧ rq_Path rq' = "/ws" ∧
    auth_ok srv (Url.Get (Url.Query (rq_RawQuery rq')) "token") = String.eqb token' "" || String.eqb token token'.
Proof.
  intros Hname Hns Hgw Htoken. eexists _, _.
  split; [by apply gateway_url_parses|]. split; [done|]. split; [apply server_main|].
  intros rq Hrq. cbv zeta. rewrite (Director_rewrites ds token) by done.
  split; [done|]. split; [done|]. split; [done|].
  cbn [rq_RawQuery]. rewrite Get_Query_Encode. done.
Qed.

Lemma tunnel_authenticates_witness :
  let ds := {| dsv_Meta := sample_meta "web" [] 0;
               dsv_Spec := {| ss_ContainerRef := "web"; ss_Selector := None;
                              ss_Ports := [{| sp_Port := 80; sp_TargetPort := 8080; sp_Name := "http" |}];
                              ss_NetworkMode := "" |};
               dsv_Status := {| sst_Phase := ""; sst_TunnelClients := 0; sst_TunnelServerURL := ""; sst_Message := "" |} |} in
  ws_url ds = "ws://tunnel-web.prod.svc:8081/ws" ∧
  ∃ u srv, NetUrl.Parse (clientConnectURL "kind-control-plane" (ws_url ds) "a+b&c") = Some u ∧
    tunnel_main (tail (server_args ds "a+b&c")) = RunServer srv ∧
    ∀ rq, rq_RawQuery rq = NetUrl.RawQuery u →
      auth_ok srv (Url.Get (Url.Query (rq_RawQuery (Director rq))) "token") = true.
Proof.
  intros ds. split; [vm_compute; reflexivity|].
  destruct (tunnel_authenticates ds "kind-control-plane" "a+b&c" "a+b&c") as (u & srv & Hu & _ & Hsrv & Hrq);
    [dns_chars..|done|].
  exists u, srv. split; [exact Hu|]. split; [exact Hsrv|]. intros rq Hq. apply (Hrq rq Hq).
Defined.
End path.
